(* ===== verification/_CoqProject ===== *)
-Q . S2P
Prelude.v
Machine.v
External.v
Reference.v
Frame.v
BTree.v
Log.v
Kernel.v
FrameState.v
FrameAlloc.v
FrameArray.v
Paging.v
PageTables.v
PagingSpec.v
PagingRoots.v
Vmm.v
VmmSpec.v
Fault.v
BspTables.v
VmmDealloc.v
Acpi.v
Interrupts.v
Access.v
Heap.v
Smp.v
Descriptors.v
ApStart.v
SmpBoot.v
Traps.v
Glue.v
Boot.v
Startup.v
