(* ===== verification/Prelude.v ===== *)
(** * Silicium: an x86_64 kernel, verified

    Silicium (the Rust sources under [src/src/]) is a small kernel for x86_64
    machines booted by Limine.  Most of its logic is memory management; the rest brings
    the processors up and handles interrupts and panics.  This library models all of it.

    ** The program and the library

    At boot the kernel reads the bootloader's memory map, builds an array with the
    state of every physical frame, and hands frames out of it.  Page tables are built
    from those frames; a virtual memory manager hands out ranges of the vmalloc space;
    the heap and the vmalloc ranges get their frames when they are first touched, in
    the page-fault handler.  Device memory is mapped by hand in vmalloc ranges.  Each
    processor keeps its thread-local data in a vmalloc range and has its own copy of the
    root table.  In the order of the project file:

    - [Prelude]: notation, tactics ([bool_to_prop], [blia], [dlia]), the hint database
      [kernel], counting and slicing of lists.
    - [Machine]: the monad [M S] of kernel code.  A computation reads an environment
      (build profile, locks held by this CPU, interrupt flag), changes a state, and
      returns, panics or deadlocks.  64-bit arithmetic [u64_add], ... panics on overflow
      with [overflow_checks] and wraps around without.  [wp e m Q s] says that [m]
      returns with [Q]: it excludes panics, deadlocks and exhausted fuel.
    - [External]: the crates that are not part of the sources ([silicium-x86_64],
      [bitflags], [spin], [log], [linked_list_allocator], [limine]) and the layout of two
      structures: for each a class
      of operations, of which every definition is parametric, and a class of the
      documented facts the theorems use.  [Reference]: concrete instances of all of
      them, in which the witnesses are evaluated.
    - [Frame]: [mm/frame/mod.rs].  Frames, arithmetic on frames, ranges and their
      iteration, flags, statistics, and the trait [Allocator] as a class.
    - [BTree]: ordered maps as sorted association lists, for [BTreeMap].
    - [Log]: [log.rs], the logger: a record takes the lock of the serial port and writes a
      line.
    - [Kernel]: the statics of [mm/mod.rs], [mm/vmm.rs], [arch/paging.rs] and [log.rs] as
      one record, the layout of the address space, [arch/address.rs], the log macros
      ([kernel_log]).  Physical memory is seen as page-table entries, by page address and
      index ([memory]).
    - [FrameState]: [mm/frame/state.rs].  Reference counts; [State::setup].
    - [FrameAlloc]: [mm/frame/dummy_allocator.rs].  The first-fit allocator, its
      invariant [alloc_inv], its refinement of an abstract pool, and the contract
      [AllocatorSpec] of the trait, which the allocator meets
      ([dummy_allocator_spec]) and against which the rest is proved.
    - [FrameArray]: where the frame array lies in memory, and how many frames can be handed
      out before one of them is ([spare_frames]).
    - [Paging]: [arch/paging.rs] but for page faults: walks, [map], [unmap],
      [translate], protections, root tables, the lazily initialised tables, TLB
      maintenance.  [PageTables]: tables as trees, the invariant [pt_inv] (the tables of
      a region are distinct, owned frames), what each walk does.  [PagingSpec]: the
      theorems, on the partial function [mapping] from addresses to leaf entries.
    - [Vmm]: [mm/vmm.rs].  [VmmSpec]: the invariant [vma_inv] (every address of the
      vmalloc space is in exactly one area), allocation.  [VmmDealloc]: deallocation.
    - [PagingRoots]: root tables that share the kernel half: [TableRoot::new],
      [TableRoot::clone], [ap_setup].  [BspTables]: the first use of the tables.
    - [Fault]: the page-fault code of [arch/paging.rs] and the heap's demand paging,
      [mm/allocator.rs].
    - [Acpi]: [arch/acpi.rs], the mapping of device memory.
    - [Interrupts]: [arch/idt.rs], [arch/irq.rs], [arch/exception.rs], the filling of the
      interrupt descriptor table, the page-fault exception.  [Traps]: every handler.
    - [Access]: a load or store of the processor, which faults on a missing page.
      [Heap]: the global allocator of [mm/allocator.rs] on such accesses, [mm::setup].
    - [Smp]: [arch/smp.rs], the thread-local block of a processor, byte by byte.
      [Descriptors]: [arch/gdt.rs] and [arch/tss.rs].  [ApStart]: [ap_start], the start
      of an application processor.  [SmpBoot]: [start_cpus] and the processors it
      releases, as a step relation over their interleavings.
    - [Glue]: [glue.rs], the panic handler.
    - [Boot]: [main.rs], [arch/mod.rs] and [acpi::setup], the steps of the boot.
      [Startup]: their composition, from the bootloader through [init_bsp].

    ** What the theorems show

    - Frames.  Boot classifies every frame of the memory map and establishes the
      invariant; any sequence of calls to the allocator is one of a pool of
      reference-counted frames, so that no frame has two owners; each call does what it
      documents, on success, exhaustion and misuse (double release).
    - Page tables.  [map], [unmap], [change_protection] change the page they are asked
      to and no other, keep the tables well formed, write to no owned page but tables,
      and fail with the documented errors and without effect; [translate] and
      [protection] read what [map] wrote; the set-up fills the kernel half.
    - Virtual ranges.  Allocation returns disjoint page-aligned ranges and keeps the
      partition; deallocation unmaps the pages, releases each frame once, and returns
      for every range.
    - Faults.  A missing page of the heap or of a range that asks for it is mapped to a
      fresh frame, zeroed on demand; the heap's whatever locks of the heap, of the ranges
      and of the logger are held, a range's unless its locks or that of the serial port
      are: a fault of a range inside the logger deadlocks.  Other faults fail and change
      nothing.
    - Roots.  A new root leads to the same kernel tables as the one it copies, and what
      is mapped there through one root is mapped in all; but the entries the set-up
      preallocates are in the table of the BSP only.
    - Devices and interrupts.  Device regions translate byte by byte, and unmapping
      undoes mapping; every interrupt vector has the entry point meant for it, and through
      those gates only the legacy and inter-processor interrupts and resolved page faults
      return to the interrupted code, in the state that is stated for each.
    - Heap.  An allocation answers what the free list answers, although the pages it
      writes to may be missing and are paged in under the lock of the heap.
    - Processors.  Blocks of thread-local data are private, and [current_id] reads the id
      that was stored; the task state segments have distinct entries; an application
      processor comes up and signals; in every interleaving [start_cpus] waits for all of
      them and, when the BSP has local APIC id 0, ends.
    - Boot and panics.  [mm::setup] establishes the invariants from the memory map,
      [init_bsp] and [acpi::setup] bring the BSP and its local APIC up; [_start] runs
      through [init_bsp] without a panic or a deadlock, on a well-formed memory map with
      enough usable frames below the frame array (or with the array reserved as a whole);
      a panic is reported on the serial port before the processor halts, unless the port
      is locked.
    - Deviations the proofs brought out are theorems too: a frame of the frame array
      that stays free, an allocation of zero bytes or of nearly 2^64 bytes, the last
      byte of the direct map, device regions of whole pages, vector 29, a BSP whose local
      APIC id is not 0.

    ** Bounds and fuel

    Walks recurse over the levels of page tables with [walk_fuel] = 4, the number of
    levels; the loop over the pages of a range with [release_fuel], one unit per page
    and one for the end; ranges of frames with the number of frames and one.  Running
    out is a panic of its own ([FuelExhausted]), which [wp] excludes.  A [map] needs at
    most three frames for tables and one for the page, whence the bounds on free frames
    in the statements.  Addresses are integers with the bounds of the hardware: 52 bits
    for physical ones, canonical 48 bits for virtual ones, and 2^44 for what the direct
    map reaches.

    ** What is not modelled

    Kernel code runs on one CPU at a time: locks are sections of the environment, so that
    deadlocks of a CPU with itself are seen and races between CPUs are not, but for
    [start_cpus].  The TLB is the list of the flushes that were asked for.  Physical
    memory is seen as page-table entries; the bytes of thread-local data are kept by
    virtual address.  The frame array, which lies in usable memory, is kept apart from it:
    [State::setup] reserves too few frames for a large array, a client may then be handed
    one of its frames and overwrite entries, and this is not followed.  The theorems about
    the boot ([mm_setup_establishes], [start_brings_up_bsp]) are restricted to the runs in
    which it does not happen and conclude that the pages of the array were not written to;
    those about a single operation start from any state with the invariant and speak of
    states in which the array is intact.
    The collections of the virtual memory manager ([BTreeMap], [Vec]) and [Arc] are values:
    that their nodes come from the kernel's own heap, with its lock, page faults, frames and
    allocation error, is left out.  So are the two kinds of records that [start_cpus] logs.
    The naked assembly of the entry points and the crates' own code (the free list of the
    heap, ACPI table parsing, the encoding of descriptors, the drivers) are parameters; the
    driver of the serial port is taken to report no error.  The interleaving of CPUs on the
    lock of the allocator is the next part to model. *)

From stdpp Require Export base tactics list list_numbers numbers option strings gmap.
From Stdlib Require Export ZArith Lia Bool.

#[global] Open Scope Z_scope.

(** ** Proof automation *)

(** Rewriting database for the boolean comparisons of the code. *)
Create HintDb kernel discriminated.

(** Turns every boolean comparison of the context and of the goal into the
    proposition it decides. *)
Ltac bool_to_prop :=
  repeat match goal with
  | H : (_ && _) = true |- _ => apply andb_true_iff in H as [? ?]
  | H : (_ || _) = false |- _ => apply orb_false_iff in H as [? ?]
  | H : negb _ = true |- _ => apply negb_true_iff in H
  | H : negb _ = false |- _ => apply negb_false_iff in H
  | H : (_ =? _) = true |- _ => apply Z.eqb_eq in H
  | H : (_ =? _) = false |- _ => apply Z.eqb_neq in H
  | H : (_ <=? _) = true |- _ => apply Z.leb_le in H
  | H : (_ <=? _) = false |- _ => apply Z.leb_gt in H
  | H : (_ <? _) = true |- _ => apply Z.ltb_lt in H
  | H : (_ <? _) = false |- _ => apply Z.ltb_ge in H
  | |- (_ && _) = true => apply andb_true_iff; split
  | |- negb _ = true => apply negb_true_iff
  | |- (_ =? _) = true => apply Z.eqb_eq
  | |- (_ =? _) = false => apply Z.eqb_neq
  | |- (_ <=? _) = true => apply Z.leb_le
  | |- (_ <=? _) = false => apply Z.leb_gt
  | |- (_ <? _) = true => apply Z.ltb_lt
  | |- (_ <? _) = false => apply Z.ltb_ge
  end.

(** Closes a boolean comparison by linear arithmetic. *)
Ltac blia := bool_to_prop; lia.

(** Linear arithmetic with division and remainder by constants. *)
Ltac dlia := Z.to_euclidean_division_equations; lia.

(** ** Counting the elements of a list that satisfy a boolean test *)

Section Counting.
Context {A : Type}.
Implicit Types (f : A → bool) (l : list A).

(** [countb f l] is the number of elements of [l] on which [f] is true. *)
Fixpoint countb f l : Z :=
  match l with
  | [] => 0
  | x :: l' => Z.b2z (f x) + countb f l'
  end.

Lemma countb_bounds f l : 0 ≤ countb f l ≤ Z.of_nat (length l).
Proof. induction l as [|x l IH]; simpl; [lia|destruct (f x); simpl; lia]. Qed.

Lemma countb_app f l1 l2 : countb f (l1 ++ l2) = countb f l1 + countb f l2.
Proof. induction l1 as [|x l1 IH]; simpl; lia. Qed.

(** Replacing one element moves the count by the difference of the tests. *)
Lemma countb_insert f l i x y :
  l !! i = Some x →
  countb f (<[i:=y]> l) = countb f l - Z.b2z (f x) + Z.b2z (f y).
Proof.
  revert i; induction l as [|z l IH]; intros [|i] Hi; simplify_eq/=; [lia|].
  rewrite (IH i) by done. lia.
Qed.

(** An element that satisfies the test makes the count positive. *)
Lemma countb_pos f l i x : l !! i = Some x → f x = true → 0 < countb f l.
Proof.
  revert i; induction l as [|z l IH]; intros [|i] Hi Hf; simplify_eq/=.
  - pose proof (countb_bounds f l). rewrite Hf. simpl. lia.
  - specialize (IH i Hi Hf). destruct (f z); simpl; lia.
Qed.

(** Room is left for one more as long as some element fails the test. *)
Lemma countb_pos_inv f l : 0 < countb f l → ∃ x, x ∈ l ∧ f x = true.
Proof.
  induction l as [|x l IH]; simpl; intros H; [lia|].
  destruct (f x) eqn:E; [exists x; split; [left|done]|].
  destruct IH as (y & Hy & Hf); [simpl in H; lia|]. exists y. split; [by right|done].
Qed.

Lemma countb_lt f l i x :
  l !! i = Some x → f x = false → countb f l < Z.of_nat (length l).
Proof.
  revert i; induction l as [|z l IH]; intros [|i] Hi Hf; simplify_eq/=.
  - pose proof (countb_bounds f l). rewrite Hf. simpl. lia.
  - specialize (IH i Hi Hf). destruct (f z); simpl; lia.
Qed.

Lemma countb_ext f g l :
  (∀ i x, l !! i = Some x → f x = g x) → countb f l = countb g l.
Proof.
  induction l as [|x l IH]; intros H; simpl; [done|].
  rewrite (H 0%nat x eq_refl), IH; [done|]. intros i y Hi. apply (H (S i)), Hi.
Qed.

(** A test that fewer elements pass, one of them lost for sure. *)
Lemma countb_mono f g l : (∀ x, x ∈ l → f x = true → g x = true) → countb f l ≤ countb g l.
Proof.
  induction l as [|x l IH]; intros H; simpl; [done|].
  assert (Z.b2z (f x) ≤ Z.b2z (g x)).
  { destruct (f x) eqn:E; [by rewrite (H x ltac:(left) E)|]. by destruct (g x). }
  assert (countb f l ≤ countb g l) by (apply IH; intros y Hy; apply H; by right). lia.
Qed.

Lemma countb_strict f g l x :
  (∀ x, x ∈ l → f x = true → g x = true) → x ∈ l → f x = false → g x = true →
  countb f l < countb g l.
Proof.
  intros H Hx Hf Hg. apply list_elem_of_split in Hx as (l1 & l2 & ->).
  rewrite !countb_app. simpl. rewrite Hf, Hg. simpl.
  assert (countb f l1 ≤ countb g l1 ∧ countb f l2 ≤ countb g l2) as [? ?].
  { split; apply countb_mono; intros y Hy; apply H, elem_of_app; [by left|right; by right]. }
  lia.
Qed.

Lemma countb_const f l v :
  (∀ x, x ∈ l → f x = v) → countb f l = Z.of_nat (length l) * Z.b2z v.
Proof.
  induction l as [|x l IH]; intros H; simpl; [done|].
  rewrite H, IH; [|by intros; apply H; right|left]. lia.
Qed.

(** Where [l'] satisfies the test, so does [l]. *)
Lemma countb_sub f l l' :
  (∀ i x', l' !! i = Some x' → f x' = true → ∃ x, l !! i = Some x ∧ f x = true) →
  countb f l' ≤ countb f l.
Proof.
  revert l. induction l' as [|y l' IH]; intros l H; simpl.
  - pose proof (countb_bounds f l). lia.
  - destruct l as [|x l].
    + assert (countb f l' ≤ countb f []) as Hl'.
      { apply IH. intros i x' Hi Hf. by destruct (H (S i) x' Hi Hf) as (? & ? & _). }
      simpl in Hl'. destruct (f y) eqn:Hy; [|simpl; lia].
      by destruct (H 0%nat y eq_refl Hy) as (? & ? & _).
    + assert (countb f l' ≤ countb f l) as Hl' by (apply IH; intros i; apply (H (S i))).
      simpl. destruct (f y) eqn:Hy; simpl; [|destruct (f x); simpl; lia].
      destruct (H 0%nat y eq_refl Hy) as (? & [= <-] & ->). simpl. lia.
Qed.

(** If moreover [l] satisfies it at [j], and [l'] only behind [j], then [l'] lacks the
    elements of [l] before [j], and one more. *)
Lemma countb_behind f l l' j n x :
  l !! j = Some x → f x = true → (n ≤ j)%nat →
  (∀ i x', l' !! i = Some x' → f x' = true →
     (j < i)%nat ∧ ∃ x, l !! i = Some x ∧ f x = true) →
  countb f l' + countb f (take n l) + 1 ≤ countb f l.
Proof.
  intros Hj Hx Hn H. rewrite <- (take_drop (S j) l) at 2. rewrite <- (take_drop (S j) l').
  rewrite !countb_app, (take_S_r _ _ _ Hj), countb_app. simpl. rewrite Hx. simpl.
  rewrite (countb_const f (take (S j) l') false).
  2:{ intros y (i & Hi)%list_elem_of_lookup. apply lookup_take_Some in Hi as [Hi Hlt].
      destruct (f y) eqn:Hy; [|done]. destruct (H i y Hi Hy). lia. }
  assert (countb f (drop (S j) l') ≤ countb f (drop (S j) l)).
  { apply countb_sub. intros i y. rewrite !lookup_drop. intros Hi Hy.
    by destruct (H _ _ Hi Hy) as [_ ?]. }
  replace (take j l) with (take n l ++ take (j - n) (drop n l)).
  2:{ rewrite take_drop_commute. replace (n + (j - n))%nat with j by lia.
      rewrite <- (take_drop n (take j l)) at 2. rewrite take_take. by replace (n `min` j)%nat with n by lia. }
  rewrite countb_app. pose proof (countb_bounds f (take (j - n) (drop n l))). simpl. lia.
Qed.
End Counting.

Lemma countb_Forall2 {A B} (f : A → bool) (g : B → bool) l l' :
  Forall2 (λ x y, f x = g y) l l' → countb f l = countb g l'.
Proof. induction 1 as [|x y l l' H _ IH]; simpl; congruence. Qed.

Lemma find_app {A} (f : A → bool) l1 l2 :
  find f (l1 ++ l2) = match find f l1 with Some x => Some x | None => find f l2 end.
Proof. induction l1 as [|x l1 IH]; simpl; [done|]. by destruct (f x). Qed.

Lemma find_none_iff {A} (f : A → bool) l :
  find f l = None ↔ ∀ x, In x l → f x = false.
Proof.
  split; [apply find_none|]. induction l as [|x l IH]; intros H; simpl; [done|].
  rewrite H by (by left). apply IH. intros y Hy. apply H. by right.
Qed.

(** ** Mapping a function over a slice of a list *)

Section Slices.
Context {A : Type}.
Implicit Types (l : list A) (g : A → A) (f : A → bool) (a b i : nat).

(** [g] applied to the elements of [l] at the positions [a], ..., [b - 1]. *)
Definition map_slice a b g l : list A :=
  take a l ++ (g <$> take (b - a) (drop a l)) ++ drop b l.

Lemma slice_split a b l :
  (a ≤ b ≤ length l)%nat → l = take a l ++ take (b - a) (drop a l) ++ drop b l.
Proof.
  intros H. rewrite <- (take_drop a l) at 1. f_equal.
  rewrite <- (take_drop (b - a) (drop a l)) at 1. f_equal.
  rewrite drop_drop. f_equal. lia.
Qed.

Lemma length_map_slice a b g l :
  (a ≤ b ≤ length l)%nat → length (map_slice a b g l) = length l.
Proof.
  intros H. unfold map_slice.
  rewrite !length_app, length_fmap, !length_take, !length_drop. lia.
Qed.

Lemma lookup_map_slice a b g l i :
  (a ≤ b ≤ length l)%nat →
  map_slice a b g l !! i =
    if decide (a ≤ i < b)%nat then g <$> l !! i else l !! i.
Proof.
  intros H. unfold map_slice.
  destruct (decide (i < a)%nat).
  { rewrite decide_False by lia. rewrite lookup_app_l by (rewrite length_take; lia).
    by apply lookup_take_lt. }
  rewrite lookup_app_r by (rewrite length_take; lia).
  rewrite length_take, Nat.min_l by lia.
  destruct (decide (i < b)%nat).
  { rewrite decide_True by lia.
    rewrite lookup_app_l by (rewrite length_fmap, length_take, length_drop; lia).
    rewrite list_lookup_fmap, lookup_take_lt, lookup_drop by lia.
    by replace (a + (i - a))%nat with i by lia. }
  rewrite decide_False by lia.
  rewrite lookup_app_r by (rewrite length_fmap, length_take, length_drop; lia).
  rewrite length_fmap, length_take, length_drop, lookup_drop. f_equal. lia.
Qed.

(** Elements of the slice. *)
Lemma elem_of_slice a b l x :
  x ∈ take (b - a) (drop a l) → ∃ i, (a ≤ i < b)%nat ∧ l !! i = Some x.
Proof.
  intros (i & Hi)%list_elem_of_lookup.
  apply lookup_take_Some in Hi as [Hi ?]. rewrite lookup_drop in Hi.
  exists (a + i)%nat. split; [lia|done].
Qed.

(** A test that has one value before and one value after [g] on the whole
    slice counts accordingly. *)
Lemma countb_map_slice f g a b l u v :
  (a ≤ b ≤ length l)%nat →
  (∀ i x, (a ≤ i < b)%nat → l !! i = Some x → f x = u ∧ f (g x) = v) →
  countb f (map_slice a b g l)
    = countb f l + Z.of_nat (b - a) * (Z.b2z v - Z.b2z u).
Proof.
  intros H Hf. unfold map_slice. rewrite (slice_split a b l H) at 4.
  set (mid := take (b - a) (drop a l)).
  assert (length mid = (b - a)%nat) as Hlen
    by (unfold mid; rewrite length_take, length_drop; lia).
  assert (∀ x, x ∈ mid → f x = u ∧ f (g x) = v) as Hmid.
  { intros x (i & ? & ?)%elem_of_slice. by eapply Hf. }
  rewrite !countb_app, (countb_const f mid u), (countb_const f (g <$> mid) v).
  - rewrite length_fmap, Hlen. lia.
  - intros x (y & -> & Hy)%list_elem_of_fmap. by apply Hmid.
  - intros x Hx. by apply Hmid.
Qed.
End Slices.
