(* ===== verification/Machine.v ===== *)
(** * The execution model of the kernel code

    Kernel functions are translated into the monad [M S]: a computation reads
    an execution environment (the build profile, the spin locks the CPU holds,
    whether interrupts are enabled), transforms a state of type [S], and ends
    in one of four ways: it returns, it panics, it spins forever on a lock that
    the CPU already holds, or it stops the CPU for good.  The file also gives the fixed-width integer
    operations of Rust at width 64 ([u64] and, on x86_64, [usize]), and the
    predicate transformer [wpx] in which the specifications are stated. *)

From S2P Require Import Prelude.

(** ** Outcomes *)

(** Why the code panics.  [FuelExhausted] is not a behaviour of the code: it
    marks a loop of the model that was given too little fuel, and the theorems
    about loops show that it does not arise. *)
Inductive panic :=
  | FuelExhausted
  | ArithmeticOverflow
  | IndexOutOfBounds
  | PanicMsg (msg : string)
  | UnwrapNone
  | Unimplemented
  | ExternalPanic.

(** The spin locks of the kernel: one constructor per [static] of type
    [Spinlock<_>], and one for the lock inside [Arc<Spinlock<TableRoot>>]. *)
Inductive Lock :=
  | FRAME_STATE | FRAME_ALLOCATOR | FREE_VMA | USED_VMA
  | ACTIVE_TABLE | TABLE_ROOT | HEAP_ALLOCATOR | IDT | GDT | TSS | SERIAL | PIT.

#[global] Instance Lock_eq_dec : EqDecision Lock.
Proof. solve_decision. Defined.

#[global] Instance panic_eq_dec : EqDecision panic.
Proof. solve_decision. Defined.

(** The environment of a computation.  [overflow_checks] is the build profile:
    set in the dev profile, unset in the release profile, where arithmetic
    wraps around.  [held] lists the locks whose guards are alive in the
    enclosing scopes. *)
Record Env := mkEnv {
  overflow_checks : bool;
  held : list Lock;
  irq_enabled : bool
}.

Definition acquire (l : Lock) (e : Env) : Env :=
  mkEnv (overflow_checks e) (l :: held e) (irq_enabled e).

Lemma held_acquire l l' e : l ≠ l' → l ∉ held e → l ∉ held (acquire l' e).
Proof. intros Hne Hl. simpl. by apply not_elem_of_cons. Qed.

Definition irqs_off (e : Env) : Env :=
  mkEnv (overflow_checks e) (held e) false.

Inductive outcome (S A : Type) :=
  | Ret (a : A) (s : S)
  | Panic (p : panic)
  | Deadlock (l : Lock)
  | Halted (s : S).
Arguments Ret {S A} a s.
Arguments Panic {S A} p.
Arguments Deadlock {S A} l.
Arguments Halted {S A} s.

Definition M (S A : Type) : Type := Env → S → outcome S A.

#[global] Instance M_ret {S} : MRet (M S) := λ A a _ s, Ret a s.

#[global] Instance M_bind {S} : MBind (M S) := λ A B f m e s,
  match m e s with
  | Ret a s' => f a e s'
  | Panic p => Panic p
  | Deadlock l => Deadlock l
  | Halted s' => Halted s'
  end.

(** ** The text of integers *)

Definition hex_digit (d : Z) : Ascii.ascii :=
  Ascii.ascii_of_nat (Z.to_nat (if d <? 10 then 48 + d else 87 + d)).

(** The last [n] hexadecimal digits of [z]: with 16 of them, [{:016x}] of a [u64]. *)
Fixpoint hex_fixed (n : nat) (z : Z) : string :=
  match n with
  | O => EmptyString
  | S n' => hex_fixed n' (z / 16) +:+ String (hex_digit (z mod 16)) EmptyString
  end.

(** [{:#x}]. *)
Definition hex_alternate (z : Z) : string :=
  "0x" +:+ hex_fixed (Z.to_nat (if z =? 0 then 1 else Z.log2 z / 4 + 1)) z.

Section Operations.
Context {S : Type}.

Definition panic_with {A} (p : panic) : M S A := λ _ _, Panic p.

(** A call that never returns: the CPU is stopped. *)
Definition halt {A} : M S A := λ _ s, Halted s.

(** Rust's [assert!]. *)
Definition assert_ (b : bool) (msg : string) : M S unit :=
  if b then mret tt else panic_with (PanicMsg msg).

(** [Option::unwrap]. *)
Definition unwrap {A} (o : option A) : M S A :=
  match o with Some a => mret a | None => panic_with UnwrapNone end.

(** [Option::expect]. *)
Definition expect {A} (o : option A) (msg : string) : M S A :=
  match o with Some a => mret a | None => panic_with (PanicMsg msg) end.

(** A call to a function of another crate that may panic: [None] when it
    does. *)
Definition ext {A} (o : option A) : M S A :=
  match o with Some a => mret a | None => panic_with ExternalPanic end.

Definition get : M S S := λ _ s, Ret s s.
Definition put (s' : S) : M S unit := λ _ _, Ret tt s'.
Definition modify (f : S → S) : M S unit := λ _ s, Ret tt (f s).
Definition gets {A} (f : S → A) : M S A := λ _ s, Ret (f s) s.

(** ** Fixed-width integers *)

(** The result of a primitive integer operation whose exact value is [z]: in
    range it is [z]; out of range it panics when overflow checks are compiled
    in and wraps around otherwise. *)
Definition arith (z : Z) : M S Z := λ e s,
  if (0 <=? z) && (z <? 2 ^ 64) then Ret z s
  else if overflow_checks e then Panic ArithmeticOverflow
  else Ret (z mod 2 ^ 64) s.

Definition u64_add (a b : Z) : M S Z := arith (a + b).
Definition u64_sub (a b : Z) : M S Z := arith (a - b).
Definition u64_mul (a b : Z) : M S Z := arith (a * b).

(** [wrapping_add], and [<<], which drops the bits shifted out in both
    profiles. *)
Definition u64_wrapping_add (a b : Z) : Z := (a + b) mod 2 ^ 64.
Definition u64_shl (a n : Z) : Z := Z.shiftl a n mod 2 ^ 64.

(** [checked_add] and [checked_sub]. *)
Definition u64_checked (z : Z) : option Z :=
  if (0 <=? z) && (z <? 2 ^ 64) then Some z else None.

(** ** Loops *)

(** [for x in l { body }], the loop-carried variables being [acc]. *)
Fixpoint foldM {A B} (f : B → A → M S B) (l : list A) (acc : B) : M S B :=
  match l with
  | [] => mret acc
  | x :: l' => acc' ← f acc x; foldM f l' acc'
  end.

(** [for x in slice.iter_mut() { body }]: every element is replaced, the
    loop-carried variables being [acc]. *)
Fixpoint iter_mutM {A A' B} (f : A → B → M S (A' * B)) (l : list A) (acc : B)
  : M S (list A' * B) :=
  match l with
  | [] => mret ([], acc)
  | x :: l' =>
      r ← f x acc;
      r' ← iter_mutM f l' r.2;
      mret (r.1 :: r'.1, r'.2)
  end.

(** [for x in &mut l[start..end_] { body }]: a slice whose bounds are out of
    order or out of range panics. *)
Definition slice_iter_mutM {A B} (f : A → B → M S (A * B)) (l : list A)
    (start end_ : Z) (acc : B) : M S (list A * B) :=
  if (start <=? end_) && (end_ <=? Z.of_nat (length l)) then
    r ← iter_mutM f
          (take (Z.to_nat (end_ - start)) (drop (Z.to_nat start) l)) acc;
    mret (take (Z.to_nat start) l ++ r.1 ++ drop (Z.to_nat end_) l, r.2)
  else panic_with IndexOutOfBounds.
End Operations.

(** A computation on a component of the state. *)
Definition zoom {S T A} (view : S → T) (update : T → S → S) (m : M T A) : M S A := λ e s,
  match m e (view s) with
  | Ret a t => Ret a (update t s)
  | Panic p => Panic p
  | Deadlock l => Deadlock l
  | Halted t => Halted (update t s)
  end.

(** The value a computation returns, when it does. *)
Definition ret_value {S A} (o : outcome S A) : option A :=
  match o with Ret a _ => Some a | _ => None end.

Lemma ret_value_run {S A} (o : outcome S A) a :
  ret_value o = Some a → ∃ s, o = Ret a s.
Proof. destruct o; simpl; intros [=]; subst. by eexists. Qed.

(** The reason a computation panics for, when it does. *)
Definition panic_value {S A} (o : outcome S A) : option panic :=
  match o with Panic p => Some p | _ => None end.

(** The state a computation ends in; [s] if it does not return. *)
Definition ret_state {S A} (o : outcome S A) (s : S) : S :=
  match o with Ret _ s' => s' | _ => s end.

(** ** Specifications *)

(** [wpx e m Q P s]: run in environment [e] from [s], the computation [m]
    terminates; it either returns with [Q] or panics with [P], and never spins
    on a lock or stops the CPU. *)
Definition wpx {S A} (e : Env) (m : M S A) (Q : A → S → Prop)
    (P : panic → Prop) (s : S) : Prop :=
  match m e s with
  | Ret a s' => Q a s'
  | Panic p => P p
  | Deadlock _ => False
  | Halted _ => False
  end.

(** [halts e m Q s]: the computation stops the CPU, in a state with [Q]. *)
Definition halts {S A} (e : Env) (m : M S A) (Q : S → Prop) (s : S) : Prop :=
  match m e s with Halted s' => Q s' | _ => False end.

(** [wp e m Q s]: the computation returns, with [Q]. *)
Definition wp {S A} (e : Env) (m : M S A) (Q : A → S → Prop) (s : S) : Prop :=
  wpx e m Q (λ _, False) s.

Section Wp.
Context {S : Type}.

Lemma bind_run {A B} (m : M S A) (f : A → M S B) e s :
  (m ≫= f) e s =
    match m e s with
    | Ret a s' => f a e s' | Panic p => Panic p | Deadlock l => Deadlock l
    | Halted s' => Halted s'
    end.
Proof. reflexivity. Qed.

Lemma bind_ret_run {A B} (m : M S A) (f : A → M S B) e s a s' :
  m e s = Ret a s' → (m ≫= f) e s = f a e s'.
Proof. intros H. by rewrite bind_run, H. Qed.

Lemma wp_bind {A B} (m : M S A) (f : A → M S B) Q e s :
  wp e m (λ a s', wp e (f a) Q s') s → wp e (m ≫= f) Q s.
Proof. unfold wp, wpx. rewrite bind_run. by destruct (m e s). Qed.

Lemma wpx_bind {A B} (m : M S A) (f : A → M S B) Q P e s :
  wpx e m (λ a s', wpx e (f a) Q P s') P s → wpx e (m ≫= f) Q P s.
Proof. unfold wpx. rewrite bind_run. by destruct (m e s). Qed.

(** Grouping the first statements of a sequence. *)
Lemma wp_assoc {A B C} (m : M S A) (f : A → M S B) (g : B → M S C) Q e s :
  wp e ((m ≫= f) ≫= g) Q s → wp e (m ≫= λ a, f a ≫= g) Q s.
Proof. unfold wp, wpx. rewrite !bind_run. by destruct (m e s). Qed.

(** A computation that returns and is followed by one that stops the CPU. *)
Lemma halts_bind {A B} (m : M S A) (f : A → M S B) Q e s :
  wp e m (λ a s', halts e (f a) Q s') s → halts e (m ≫= f) Q s.
Proof. unfold wp, wpx, halts. rewrite bind_run. by destruct (m e s). Qed.

Lemma halts_mono {A} (m : M S A) (Q Q' : S → Prop) e s :
  halts e m Q s → (∀ s', Q s' → Q' s') → halts e m Q' s.
Proof. unfold halts. destruct (m e s); auto. Qed.

Lemma wp_ret {A} (a : A) (Q : A → S → Prop) e s : Q a s → wp e (mret a) Q s.
Proof. done. Qed.

Lemma wp_mono {A} (m : M S A) (Q Q' : A → S → Prop) e s :
  wp e m Q s → (∀ a s', Q a s' → Q' a s') → wp e m Q' s.
Proof. unfold wp, wpx. destruct (m e s); auto. Qed.

Lemma wpx_mono {A} (m : M S A) (Q Q' : A → S → Prop) (P P' : panic → Prop) e s :
  wpx e m Q P s → (∀ a s', Q a s' → Q' a s') → (∀ p, P p → P' p) →
  wpx e m Q' P' s.
Proof. unfold wpx. destruct (m e s); auto. Qed.

Lemma wp_wpx {A} (m : M S A) (Q : A → S → Prop) P e s :
  wp e m Q s → wpx e m Q P s.
Proof. intros H. eapply wpx_mono; [exact H|done|done]. Qed.

Lemma wp_run {A} (m : M S A) (Q : A → S → Prop) e s :
  wp e m Q s ↔ ∃ a s', m e s = Ret a s' ∧ Q a s'.
Proof.
  unfold wp, wpx. destruct (m e s) as [a s'|p|l|s']; (split; [|by intros (? & ? & [=] & ?); subst]);
    by eauto.
Qed.

Lemma wp_ret_state {A} (m : M S A) (Q : A → S → Prop) e s :
  wp e m Q s → ∃ a, Q a (ret_state (m e s) s).
Proof. unfold wp, wpx. destruct (m e s); [by eexists|done..]. Qed.

Lemma wp_of_run {A} (m : M S A) (Q : A → S → Prop) e s a s' :
  m e s = Ret a s' → Q a s' → wp e m Q s.
Proof. intros H ?. unfold wp, wpx. by rewrite H. Qed.

Lemma wp_zoom {T A} (view : S → T) (update : T → S → S) (m : M T A) (Q : A → S → Prop) e s :
  wp e m (λ a t, Q a (update t s)) (view s) → wp e (zoom view update m) Q s.
Proof. unfold wp, wpx, zoom. by destruct (m e (view s)). Qed.

(** Integer operations that stay in range return the exact value in both
    profiles. *)
Lemma arith_run z e (s : S) : 0 ≤ z < 2 ^ 64 → arith z e s = Ret z s.
Proof.
  intros H. unfold arith.
  assert ((0 <=? z) && (z <? 2 ^ 64) = true) as -> by blia. done.
Qed.

Lemma wp_arith z (Q : Z → S → Prop) e s :
  0 ≤ z < 2 ^ 64 → Q z s → wp e (arith z) Q s.
Proof. intros H ?. eapply wp_of_run; [by apply arith_run|done]. Qed.

(** Out of range, the dev profile panics. *)
Lemma arith_overflow z e (s : S) :
  ¬ (0 ≤ z < 2 ^ 64) → overflow_checks e = true →
  arith z e s = Panic ArithmeticOverflow.
Proof.
  intros H He. unfold arith. rewrite He.
  destruct ((0 <=? z) && (z <? 2 ^ 64)) eqn:E; [bool_to_prop; lia|done].
Qed.

Lemma wp_assert b msg (Q : unit → S → Prop) e s :
  b = true → Q tt s → wp e (assert_ b msg) Q s.
Proof. by intros ->. Qed.

Lemma wp_unwrap {A} (o : option A) a (Q : A → S → Prop) e s :
  o = Some a → Q a s → wp e (unwrap o) Q s.
Proof. by intros ->. Qed.

Lemma wp_ext {A} (o : option A) a (Q : A → S → Prop) e s :
  o = Some a → Q a s → wp e (ext o) Q s.
Proof. by intros ->. Qed.

Lemma wp_gets {A} (f : S → A) (Q : A → S → Prop) e s :
  Q (f s) s → wp e (gets f) Q s.
Proof. done. Qed.

Lemma wp_modify f (Q : unit → S → Prop) e s :
  Q tt (f s) → wp e (modify f) Q s.
Proof. done. Qed.

(** A loop invariant indexed by the part of the list already visited. *)
Lemma wpx_foldM {A B} (f : B → A → M S B) (I : list A → B → S → Prop) P e l acc s :
  I [] acc s →
  (∀ done x todo acc s, l = done ++ x :: todo → I done acc s →
     wpx e (f acc x) (I (done ++ [x])) P s) →
  wpx e (foldM f l acc) (I l) P s.
Proof.
  intros H0 Hstep.
  cut (∀ todo done acc s, l = done ++ todo → I done acc s →
         wpx e (foldM f todo acc) (I l) P s).
  { intros H. by apply (H l []). }
  clear H0. induction todo as [|x todo IH]; intros done acc' s' Hl HI; simpl.
  - rewrite app_nil_r in Hl. by subst.
  - apply wpx_bind. eapply wpx_mono; [by eapply Hstep| |done].
    intros acc'' s'' HI'. apply (IH (done ++ [x])); [|done].
    by rewrite <- app_assoc.
Qed.

Lemma wp_foldM {A B} (f : B → A → M S B) (I : list A → B → S → Prop) e l acc s :
  I [] acc s →
  (∀ done x todo acc s, l = done ++ x :: todo → I done acc s →
     wp e (f acc x) (I (done ++ [x])) s) →
  wp e (foldM f l acc) (I l) s.
Proof. apply wpx_foldM. Qed.

(** An in-place traversal whose body is the pure pair [g], [h] as long as a
    condition on the loop variables holds computes [g] pointwise. *)
Lemma iter_mutM_run {A A' B} (f : A → B → M S (A' * B)) (g : A → A') (h : B → B)
    (ok : nat → B → Prop) e l acc s :
  (∀ n x acc s, x ∈ l → ok (Datatypes.S n) acc →
     f x acc e s = Ret (g x, h acc) s ∧ ok n (h acc)) →
  ok (length l) acc →
  iter_mutM f l acc e s = Ret (g <$> l, Nat.iter (length l) h acc) s.
Proof.
  revert acc. induction l as [|x l IH]; intros acc Hf Hok; [done|].
  destruct (Hf (length l) x acc s) as [Hx Hok']; [left|done|].
  simpl. rewrite bind_run, Hx. simpl. rewrite bind_run.
  rewrite (IH (h acc)); [|by intros; apply Hf; [right|]|done].
  simpl. by rewrite Nat.iter_swap.
Qed.
End Wp.

#[export] Hint Resolve wp_ret wp_gets wp_modify wp_bind : kernel.

(** Opens the next statement of a computation under [wp]. *)
Ltac wp_step :=
  match goal with
  | |- wp _ (_ ≫= _) _ _ => apply wp_bind
  | |- wp _ (mret _) _ _ => apply wp_ret
  | |- wp _ (gets _) _ _ => apply wp_gets
  | |- wp _ (modify _) _ _ => apply wp_modify
  | |- wp _ (arith _) _ _ => apply wp_arith; [try lia|]
  | |- wp _ (u64_add _ _) _ _ => apply wp_arith; [try lia|]
  | |- wp _ (u64_sub _ _) _ _ => apply wp_arith; [try lia|]
  | |- wp _ (u64_mul _ _) _ _ => apply wp_arith; [try lia|]
  | |- wp _ (assert_ _ _) _ _ => apply wp_assert; [try done|]
  end.
Ltac wp_steps := repeat wp_step.
