(* ===== verification/External.v ===== *)
(** * The code outside the repository

    The kernel is written on top of crates that are not part of its sources:
    [silicium-x86_64] (addresses, page tables, CPU instructions, the serial port),
    [bitflags], [spin], [log], [linked_list_allocator] and [limine].  Each is a class of operations, of which the model is
    parametric, and a class of the facts about them the kernel relies on.  The
    facts are only stated where the callers can meet the documented
    preconditions: nothing is said, for instance, of an address past the
    physical address space. *)

From S2P Require Import Prelude Machine.

(** ** bitflags: sets of flags stored in a [u64] *)

Class Bitflags := {
  bf_union : Z → Z → Z;
  bf_contains : Z → Z → bool;
  bf_insert : Z → Z → Z;
  bf_remove : Z → Z → Z;
  (** [T::from_bits_truncate(bits)]; the first argument is [T::all().bits]. *)
  bf_from_bits_truncate : Z → Z → Z
}.

Class BitflagsSpec (BF : Bitflags) : Prop := {
  bf_union_spec a b i : 0 ≤ i →
    Z.testbit (bf_union a b) i = Z.testbit a i || Z.testbit b i;
  bf_contains_spec a b :
    bf_contains a b = true ↔
      (∀ i, 0 ≤ i → Z.testbit b i = true → Z.testbit a i = true);
  bf_insert_spec a b i : 0 ≤ i →
    Z.testbit (bf_insert a b) i = Z.testbit a i || Z.testbit b i;
  bf_remove_spec a b i : 0 ≤ i →
    Z.testbit (bf_remove a b) i = Z.testbit a i && negb (Z.testbit b i);
  bf_truncate_spec all a i : 0 ≤ i →
    Z.testbit (bf_from_bits_truncate all a) i = Z.testbit a i && Z.testbit all i
}.

(** ** spin and x86_64::irq: critical sections *)

(** [with_lock l m] is the scope of the guard returned by [l.lock()];
    [irq_without m] is [x86_64::irq::without(|| m)]. *)
Class Runtime := {
  with_lock {S A : Type} : Lock → M S A → M S A;
  irq_without {S A : Type} : M S A → M S A
}.

Class RuntimeSpec (RT : Runtime) : Prop := {
  with_lock_free {S A} l (m : M S A) e s :
    l ∉ held e → with_lock l m e s = m (acquire l e) s;
  (** The lock is not reentrant: taking it twice on one CPU spins forever. *)
  with_lock_held {S A} l (m : M S A) e s :
    l ∈ held e → with_lock l m e s = Deadlock l;
  irq_without_run {S A} (m : M S A) e s :
    irq_without m e s = m (irqs_off e) s
}.

(** ** x86_64::address *)

Class X86Address := {
  Physical : Type;
  Virtual : Type;
  VirtualRange : Type;
  PAGE_SIZE : Z;
  PAGE_SHIFT : Z;
  PAGE_MASK : Z;
  (** A function that may panic returns an option, [None] when it panics. *)
  phys_null : Physical;
  phys_new : Z → option Physical;
  phys_as_u64 : Physical → Z;
  phys_is_null : Physical → bool;
  phys_is_page_aligned : Physical → bool;
  phys_frame_index : Physical → Z;
  phys_add : Physical → Z → option Physical;
  phys_sub : Physical → Z → option Physical;
  phys_leb : Physical → Physical → bool;
  phys_ltb : Physical → Physical → bool;
  (** [Physical::as_ptr] and [as_mut_ptr]: the value of the pointer. *)
  phys_as_ptr : Physical → Z;
  virt_null : Virtual;
  virt_new : Z → option Virtual;
  virt_as_u64 : Virtual → Z;
  virt_is_null : Virtual → bool;
  virt_add : Virtual → Z → option Virtual;
  virt_page_align_down : Virtual → Virtual;
  virt_page_align_up : Virtual → option Virtual;
  virt_pml4_offset : Virtual → Z;
  virt_as_ptr : Virtual → Z;
  (** The text of the addresses under the format [{:016x}]. *)
  phys_lower_hex : Physical → string;
  virt_lower_hex : Virtual → string;
  vr_new : Virtual → Virtual → option VirtualRange;
  vr_start : VirtualRange → Virtual;
  vr_end : VirtualRange → Virtual;
  vr_size : VirtualRange → Z;
  vr_contains : VirtualRange → Virtual → bool;
  (** [range.iter().nth(i)]. *)
  vr_iter_nth : VirtualRange → Z → option Virtual
}.

(** The canonical addresses of 4-level paging. *)
Definition canonical (a : Z) : Prop :=
  0 ≤ a < 2 ^ 47 ∨ 2 ^ 64 - 2 ^ 47 ≤ a < 2 ^ 64.

Class X86AddressSpec (XA : X86Address) : Prop := {
  PAGE_SIZE_spec : PAGE_SIZE = 4096;
  PAGE_SHIFT_spec : PAGE_SHIFT = 12;
  PAGE_MASK_spec a : 0 ≤ a < 2 ^ 52 → Z.land a PAGE_MASK = a / 4096 * 4096;
  phys_bound p : 0 ≤ phys_as_u64 p < 2 ^ 52;
  phys_inj p q : phys_as_u64 p = phys_as_u64 q → p = q;
  phys_null_spec : phys_as_u64 phys_null = 0;
  phys_new_spec a : 0 ≤ a < 2 ^ 52 →
    ∃ p, phys_new a = Some p ∧ phys_as_u64 p = a;
  phys_is_null_spec p : phys_is_null p = (phys_as_u64 p =? 0);
  phys_is_page_aligned_spec p :
    phys_is_page_aligned p = (phys_as_u64 p mod 4096 =? 0);
  phys_frame_index_spec p : phys_frame_index p = phys_as_u64 p / 4096;
  phys_add_spec p n : 0 ≤ n → phys_as_u64 p + n < 2 ^ 52 →
    ∃ q, phys_add p n = Some q ∧ phys_as_u64 q = phys_as_u64 p + n;
  phys_sub_spec p n : 0 ≤ n ≤ phys_as_u64 p →
    ∃ q, phys_sub p n = Some q ∧ phys_as_u64 q = phys_as_u64 p - n;
  phys_leb_spec p q : phys_leb p q = (phys_as_u64 p <=? phys_as_u64 q);
  phys_ltb_spec p q : phys_ltb p q = (phys_as_u64 p <? phys_as_u64 q);
  virt_canonical v : canonical (virt_as_u64 v);
  virt_inj v w : virt_as_u64 v = virt_as_u64 w → v = w;
  virt_null_spec : virt_as_u64 virt_null = 0;
  virt_new_spec a : canonical a →
    ∃ v, virt_new a = Some v ∧ virt_as_u64 v = a;
  virt_is_null_spec v : virt_is_null v = (virt_as_u64 v =? 0);
  virt_add_spec v n : 0 ≤ n → canonical (virt_as_u64 v + n) →
    ∃ w, virt_add v n = Some w ∧ virt_as_u64 w = virt_as_u64 v + n;
  virt_page_align_down_spec v :
    virt_as_u64 (virt_page_align_down v) = virt_as_u64 v / 4096 * 4096;
  virt_page_align_up_spec v :
    let a := (virt_as_u64 v + 4095) / 4096 * 4096 in
    canonical a → ∃ w, virt_page_align_up v = Some w ∧ virt_as_u64 w = a;
  virt_pml4_offset_spec v :
    virt_pml4_offset v = virt_as_u64 v / 2 ^ 39 mod 512;
  virt_as_ptr_spec v : virt_as_ptr v = virt_as_u64 v;
  vr_new_spec v w : virt_as_u64 v ≤ virt_as_u64 w →
    ∃ r, vr_new v w = Some r ∧ vr_start r = v ∧ vr_end r = w;
  vr_ordered r : virt_as_u64 (vr_start r) ≤ virt_as_u64 (vr_end r);
  vr_inj r r' : vr_start r = vr_start r' → vr_end r = vr_end r' → r = r';
  vr_size_spec r :
    vr_size r = virt_as_u64 (vr_end r) - virt_as_u64 (vr_start r);
  vr_contains_spec r v :
    vr_contains r v = (virt_as_u64 (vr_start r) <=? virt_as_u64 v)
                      && (virt_as_u64 v <? virt_as_u64 (vr_end r));
  vr_iter_nth_spec r i :
    0 ≤ i < vr_size r → canonical (virt_as_u64 (vr_start r) + i) →
    ∃ v, vr_iter_nth r i = Some v ∧ virt_as_u64 v = virt_as_u64 (vr_start r) + i;
  vr_iter_nth_end r i : vr_size r ≤ i → vr_iter_nth r i = None
}.

(** ** x86_64::paging *)

Class X86Paging (XA : X86Address) := {
  PageEntry : Type;
  PageEntryFlags : Type;
  Level : Type;
  PageFaultErrorCode : Type;
  pef_union : PageEntryFlags → PageEntryFlags → PageEntryFlags;
  pef_contains : PageEntryFlags → PageEntryFlags → bool;
  PRESENT : PageEntryFlags;
  WRITABLE : PageEntryFlags;
  NO_EXECUTE : PageEntryFlags;
  NO_CACHE : PageEntryFlags;
  WRITE_THROUGH : PageEntryFlags;
  (** The entry whose eight bytes are zero. *)
  pe_zero : PageEntry;
  pe_is_present : PageEntry → bool;
  pe_is_writable : PageEntry → bool;
  pe_is_executable : PageEntry → bool;
  pe_address : PageEntry → option Physical;
  pe_flags : PageEntry → PageEntryFlags;
  pe_set_address : PageEntry → Physical → PageEntry;
  pe_set_flags : PageEntry → PageEntryFlags → PageEntry;
  pe_add_flags : PageEntry → PageEntryFlags → PageEntry;
  pe_clear : PageEntry → PageEntry;
  (** The address field of the entry, whether or not it is present. *)
  pe_addr_field : PageEntry → Physical;
  PageTable_COUNT : Z;
  PageMapLevel4 : Level;
  PageTableLevel : Level;
  level_eqb : Level → Level → bool;
  level_next : Level → option Level;
  level_as_u64 : Level → Z;
  page_index : Virtual → Z → Z;
  PROTECTION_VIOLATION : PageFaultErrorCode;
  WRITE_ACCESS : PageFaultErrorCode;
  INSTRUCTION_FETCH : PageFaultErrorCode;
  pfec_contains : PageFaultErrorCode → PageFaultErrorCode → bool;
  pfec_from_bits_truncate : Z → PageFaultErrorCode
}.

(** [level_height k l]: [k] levels of tables are below [l]. *)
Fixpoint level_height `{X86Paging} (k : nat) (l : Level) : Prop :=
  match k with
  | O => level_next l = None
  | S k' => ∃ l', level_next l = Some l' ∧ level_height k' l'
  end.

Class X86PagingSpec `(XP : X86Paging) : Prop := {
  pef_union_l a b f :
    pef_contains a f = true → pef_contains (pef_union a b) f = true;
  pef_union_r a b f :
    pef_contains b f = true → pef_contains (pef_union a b) f = true;
  pef_contains_refl f : pef_contains f f = true;
  pe_zero_absent : pe_is_present pe_zero = false;
  pe_is_present_spec e : pe_is_present e = pef_contains (pe_flags e) PRESENT;
  pe_is_writable_spec e : pe_is_writable e = pef_contains (pe_flags e) WRITABLE;
  pe_is_executable_spec e :
    pe_is_executable e = negb (pef_contains (pe_flags e) NO_EXECUTE);
  pe_address_present e :
    pe_is_present e = true → pe_address e = Some (pe_addr_field e);
  pe_addr_field_aligned e : phys_as_u64 (pe_addr_field e) mod 4096 = 0;
  pe_set_address_addr e p :
    phys_as_u64 p mod 4096 = 0 → pe_addr_field (pe_set_address e p) = p;
  pe_set_address_flags e p :
    phys_as_u64 p mod 4096 = 0 → pe_flags (pe_set_address e p) = pe_flags e;
  pe_set_flags_addr e f : pe_addr_field (pe_set_flags e f) = pe_addr_field e;
  pe_set_flags_flags e f : pe_flags (pe_set_flags e f) = f;
  pe_add_flags_present e f : pef_contains f PRESENT = true →
    pe_is_present (pe_add_flags e f) = true;
  pe_clear_absent e : pe_is_present (pe_clear e) = false;
  PageTable_COUNT_spec : PageTable_COUNT = 512;
  level_eqb_spec l l' : level_eqb l l' = true ↔ l = l';
  level_top : level_height 3 PageMapLevel4;
  level_bottom l : level_next l = None ↔ l = PageTableLevel;
  (** Bit 0 of the error code of a page fault tells a violation from a missing page. *)
  pfec_violation_spec b :
    pfec_contains (pfec_from_bits_truncate b) PROTECTION_VIOLATION = Z.testbit b 0;
  page_index_spec v l k : level_height k l →
    page_index v (level_as_u64 l)
      = virt_as_u64 v / 2 ^ (12 + 9 * Z.of_nat k) mod 512
}.

(** ** x86_64::cpu and x86_64::lapic *)

(** The calls that act on the processor, on its local APIC and on the legacy timer and
    interrupt controller, recorded in the order they are made (the most recent first). *)
Inductive Event :=
  | Cr3Write (v : Z)
  | Cr3Reload
  | Invlpg (addr : Z)
  | SendIpiOtherCores (nmi : bool) (vector : Z)
  | LapicSetup (base : Z)
  | LapicEnable
  | LapicEoi
  | PitSetup
  | PicRemap (base : Z)
  | PicEoi (vector : Z).

(** What the processor answers depends on the calls made so far.  [resolve] is
    the physical address at which an access through a kernel pointer lands. *)
Class X86Cpu := {
  cr3_read : list Event → Z;
  lapic_initialized : list Event → bool;
  resolve : Z → Z
}.

Class X86CpuSpec (XC : X86Cpu) : Prop := {
  cr3_read_write v evs : cr3_read (Cr3Write v :: evs) = v;
  cr3_read_other ev evs : (∀ v, ev ≠ Cr3Write v) → cr3_read (ev :: evs) = cr3_read evs;
  (** The bootloader maps physical memory at the start of the higher half. *)
  resolve_hhdm p : 0 ≤ p < 2 ^ 44 → resolve (0xFFFF800000000000 + p) = p
}.

(** The bootloader also maps physical memory at its own addresses: a pointer made of a
    physical address reaches that address. *)
Class IdentityMapped (XA : X86Address) (XC : X86Cpu) : Prop :=
  resolve_phys p : phys_as_u64 p < 2 ^ 44 → resolve (phys_as_ptr p) = phys_as_u64 p.

(** ** x86_64::idt: the interrupt descriptor table *)

Inductive Privilege := KERNEL_PRIVILEGE | USER_PRIVILEGE.

(** The builders of descriptors and of their flags, the table, and what the processor
    reads in a descriptor. *)
Class X86Idt := {
  DescriptorFlags : Type;
  Descriptor : Type;
  IdtTable : Type;
  df_new : DescriptorFlags;
  df_set_privilege_level : DescriptorFlags → Privilege → DescriptorFlags;
  df_present : DescriptorFlags → bool → DescriptorFlags;
  df_build : DescriptorFlags → DescriptorFlags;
  d_new : Descriptor;
  d_set_handler_addr : Descriptor → Z → Descriptor;
  d_set_options : Descriptor → DescriptorFlags → Descriptor;
  d_build : Descriptor → Descriptor;
  gate_handler : Descriptor → Z;
  gate_privilege : Descriptor → Privilege;
  gate_present : Descriptor → bool;
  idt_capacity : IdtTable → Z;
  idt_set_descriptor : IdtTable → Z → Descriptor → option IdtTable;
  idt_gate : IdtTable → Z → Descriptor
}.

Class X86IdtSpec (XI : X86Idt) : Prop := {
  gate_spec a p b :
    let flags := df_build (df_present (df_set_privilege_level df_new p) b) in
    let d := d_build (d_set_options (d_set_handler_addr d_new a) flags) in
    gate_handler d = a ∧ gate_privilege d = p ∧ gate_present d = b;
  idt_capacity_spec t : idt_capacity t = 256;
  idt_set_descriptor_spec t i d : 0 ≤ i < 256 →
    ∃ t', idt_set_descriptor t i d = Some t'
          ∧ ∀ j, idt_gate t' j = if j =? i then d else idt_gate t j
}.

(** ** x86_64: the global descriptor table *)

(** A descriptor is one or two 64-bit words of the table; [selector_value] is the selector
    of an index at ring 0.  [gdt_set_descriptor] is [None] when it panics. *)
Class X86Gdt := {
  GdtDescriptor : Type;
  GDT_NULL : GdtDescriptor;
  GDT_KERNEL_CODE64 : GdtDescriptor;
  GDT_KERNEL_DATA : GdtDescriptor;
  GDT_USER_CODE64 : GdtDescriptor;
  GDT_USER_DATA : GdtDescriptor;
  gdt_tss : Z → GdtDescriptor;
  gdt_words : GdtDescriptor → list Z;
  GdtTable : Type;
  gdt_new : Z → GdtTable;
  gdt_capacity : GdtTable → Z;
  gdt_set_descriptor : GdtTable → Z → GdtDescriptor → option GdtTable;
  gdt_word : GdtTable → Z → Z;
  selector_value : Z → Z;
  SELECTOR_KERNEL_CODE64 : Z;
  SELECTOR_KERNEL_DATA : Z
}.

(** In 64-bit mode segment descriptors take one entry of the table and system descriptors
    two; bits 3 to 15 of a selector are the index. *)
Class X86GdtSpec (XG : X86Gdt) : Prop := {
  gdt_segment_words d :
    d ∈ [GDT_NULL; GDT_KERNEL_CODE64; GDT_KERNEL_DATA; GDT_USER_CODE64; GDT_USER_DATA] →
    length (gdt_words d) = 1%nat;
  gdt_tss_words a : length (gdt_words (gdt_tss a)) = 2%nat;
  gdt_new_capacity n : gdt_capacity (gdt_new n) = n;
  gdt_set_descriptor_spec t i d :
    0 ≤ i → i + Z.of_nat (length (gdt_words d)) ≤ gdt_capacity t →
    ∃ t', gdt_set_descriptor t i d = Some t' ∧ gdt_capacity t' = gdt_capacity t
      ∧ (∀ j w, gdt_words d !! j = Some w → gdt_word t' (i + Z.of_nat j) = w)
      ∧ ∀ j, j < i ∨ i + Z.of_nat (length (gdt_words d)) ≤ j → gdt_word t' j = gdt_word t j;
  selector_value_spec i : 0 ≤ i < 2 ^ 13 → selector_value i = 8 * i;
  selector_code_spec : SELECTOR_KERNEL_CODE64 = selector_value 1;
  selector_data_spec : SELECTOR_KERNEL_DATA = selector_value 2
}.

(** ** linked_list_allocator: the heap of the kernel *)

(** [core::alloc::Layout]. *)
Record AllocLayout := mkAllocLayout { layout_size : Z; layout_align : Z }.

(** The heap keeps its bookkeeping in the memory it manages: each operation comes with
    the addresses it accesses, in order.  [None] is a panic. *)
Class HeapCrate := {
  Heap : Type;
  heap_empty : Heap;
  heap_init : Z → Z → Heap → Heap * list Z;
  heap_allocate_first_fit : AllocLayout → Heap → option Z * Heap * list Z;
  heap_deallocate : Z → AllocLayout → Heap → option (Heap * list Z);
  heap_bottom : Heap → Z;
  heap_top : Heap → Z
}.

Definition heap_within {HC : HeapCrate} (h : Heap) (a : Z) : Prop :=
  heap_bottom h ≤ a < heap_top h.

Class HeapCrateSpec (HC : HeapCrate) : Prop := {
  heap_init_spec bottom size h : 0 < size →
    let r := heap_init bottom size h in
    heap_bottom r.1 = bottom ∧ heap_top r.1 = bottom + size
    ∧ Forall (heap_within r.1) r.2;
  heap_allocate_spec l h : 0 < layout_align l →
    let r := heap_allocate_first_fit l h in
    heap_bottom r.1.2 = heap_bottom h ∧ heap_top r.1.2 = heap_top h
    ∧ Forall (heap_within h) r.2
    ∧ ∀ p, r.1.1 = Some p → heap_bottom h ≤ p ∧ p + layout_size l ≤ heap_top h
                            ∧ p mod layout_align l = 0;
  heap_deallocate_spec p l h h' t : heap_deallocate p l h = Some (h', t) →
    heap_bottom h' = heap_bottom h ∧ heap_top h' = heap_top h ∧ Forall (heap_within h) t
}.

(** ** log and x86_64::serial: the facade of the loggers and the serial port *)

(** [None] is the error of [set_logger]; levels are numbered from 1, [Error], to 5,
    [Trace].  [serial_write] is [write_str], [None] an error of it. *)
Class Logging := {
  LogState : Type;
  set_logger : LogState → option LogState;
  set_max_level : Z → LogState → LogState;
  max_level : LogState → Z;
  Serial : Type;
  init_com : Serial → Serial;
  serial_write : string → Serial → option Serial
}.

(** The driver of the port waits until the transmitter is ready and reports no error. *)
Class LoggingSpec (LG : Logging) : Prop := {
  max_level_set n l : max_level (set_max_level n l) = n;
  serial_write_done m p : is_Some (serial_write m p)
}.

(** ** limine: the memory map handed over by the bootloader *)

(** The entry types the kernel distinguishes; [OtherEntry] stands for the
    remaining ones (reserved, ACPI, framebuffer). *)
Inductive LimineMemoryMapEntryType :=
  | Usable
  | KernelAndModules
  | BootloaderReclaimable
  | BadMemory
  | OtherEntry (n : Z).

#[global] Instance LimineMemoryMapEntryType_eq_dec :
  EqDecision LimineMemoryMapEntryType.
Proof. solve_decision. Defined.

Record LimineMemmapEntry := mkEntry {
  entry_base : Z;
  entry_len : Z;
  entry_typ : LimineMemoryMapEntryType
}.

(** ** limine: the processors *)

(** What the bootloader knows about a processor, and the function the processor jumps to
    once the kernel writes it there. *)
Inductive EntryPoint := _ap_start.

Record LimineSmpInfo := mkSmpInfo {
  processor_id : Z;
  lapic_id : Z;
  goto_address : option EntryPoint
}.

(** ** The section of the per-CPU data, placed by the linker *)

(** [TSS_OFFSET] is the distance from the thread pointer down to the variable [TSS]. *)
Class PerCpuSection := {
  __per_cpu_start : Z;
  __per_cpu_end : Z;
  TSS_OFFSET : Z
}.

(** The linker script: the section is in the kernel image, at the top of the address
    space, starts on a page and ends on a multiple of eight. *)
Class PerCpuSectionSpec (PC : PerCpuSection) : Prop := {
  per_cpu_image : 0xFFFFFFFF80000000 ≤ __per_cpu_start;
  per_cpu_order : __per_cpu_start ≤ __per_cpu_end < 2 ^ 64;
  per_cpu_start_aligned : __per_cpu_start mod 4096 = 0;
  per_cpu_end_aligned : __per_cpu_end mod 8 = 0;
  tss_offset_spec : 0 < TSS_OFFSET ≤ __per_cpu_end - __per_cpu_start
}.

(** ** The layout of two structures, chosen by the compiler *)

Class Layout := {
  size_of_Frame : Z;
  size_of_FrameInfo : Z
}.

(** A [FrameInfo] holds a [Frame] and two [u64] fields. *)
Class LayoutSpec (LY : Layout) : Prop := {
  size_of_Frame_pos : 0 < size_of_Frame;
  size_of_FrameInfo_fields : size_of_Frame + 16 ≤ size_of_FrameInfo;
  size_of_FrameInfo_small : size_of_FrameInfo ≤ 4096
}.

(** ** Facts derived from the specifications *)

Section BitflagsFacts.
Context {BF : Bitflags} {BFS : BitflagsSpec BF}.
Implicit Types (f j k : Z).

(** A single flag [1 << k]. *)
Lemma testbit_flag k i : 0 ≤ k → 0 ≤ i → Z.testbit (Z.shiftl 1 k) i = (i =? k).
Proof.
  intros Hk Hi. rewrite Z.shiftl_spec by lia. destruct (Z.eqb_spec i k) as [->|Hne].
  - by rewrite Z.sub_diag.
  - destruct (decide (i < k)); [by rewrite Z.testbit_neg_r by lia|].
    replace (i - k) with (Z.succ (Z.pred (i - k))) by lia.
    rewrite Z.testbit_odd, Z.shiftr_div_pow2 by lia.
    rewrite Z.div_small; [done|]. split; [lia|].
    rewrite Z.pow_succ_r by lia.
    pose proof (Z.pow_pos_nonneg 2 (Z.pred (i - k))). lia.
Qed.

Lemma contains_flag f k : 0 ≤ k → bf_contains f (Z.shiftl 1 k) = Z.testbit f k.
Proof.
  intros Hk. apply eq_iff_eq_true. rewrite bf_contains_spec. split.
  - intros H. apply H; [done|]. rewrite testbit_flag by done. apply Z.eqb_refl.
  - intros H i Hi. rewrite testbit_flag by done. by intros ->%Z.eqb_eq.
Qed.

Lemma contains_insert f j k : 0 ≤ j → 0 ≤ k →
  bf_contains (bf_insert f (Z.shiftl 1 k)) (Z.shiftl 1 j)
    = bf_contains f (Z.shiftl 1 j) || (j =? k).
Proof.
  intros. rewrite !contains_flag, bf_insert_spec, testbit_flag by done. done.
Qed.

Lemma contains_remove f j k : 0 ≤ j → 0 ≤ k →
  bf_contains (bf_remove f (Z.shiftl 1 k)) (Z.shiftl 1 j)
    = bf_contains f (Z.shiftl 1 j) && negb (j =? k).
Proof.
  intros. rewrite !contains_flag, bf_remove_spec, testbit_flag by done. done.
Qed.

Lemma contains_union f g k : 0 ≤ k →
  bf_contains (bf_union f g) (Z.shiftl 1 k)
    = bf_contains f (Z.shiftl 1 k) || bf_contains g (Z.shiftl 1 k).
Proof. intros. by rewrite !contains_flag, bf_union_spec by done. Qed.

Lemma contains_refl f : bf_contains f f = true.
Proof. by apply bf_contains_spec. Qed.

(** Setting a flag that was clear, clearing another that was set, and undoing
    both gives the original bits back. *)
Lemma insert_remove_cancel f k :
  0 ≤ k → Z.testbit f k = false →
  bf_remove (bf_insert f (Z.shiftl 1 k)) (Z.shiftl 1 k) = f.
Proof.
  intros Hk Hf. apply Z.bits_inj'. intros i Hi.
  rewrite bf_remove_spec, bf_insert_spec, testbit_flag by done.
  destruct (Z.eqb_spec i k) as [->|]; [by rewrite Hf|].
  by rewrite orb_false_r, andb_true_r.
Qed.

Lemma remove_insert_cancel f k :
  0 ≤ k → Z.testbit f k = true →
  bf_insert (bf_remove f (Z.shiftl 1 k)) (Z.shiftl 1 k) = f.
Proof.
  intros Hk Hf. apply Z.bits_inj'. intros i Hi.
  rewrite bf_insert_spec, bf_remove_spec, testbit_flag by done.
  destruct (Z.eqb_spec i k) as [->|]; [by rewrite Hf|].
  by rewrite orb_false_r, andb_true_r.
Qed.

Lemma remove_absent f k :
  0 ≤ k → Z.testbit f k = false → bf_remove f (Z.shiftl 1 k) = f.
Proof.
  intros Hk Hf. apply Z.bits_inj'. intros i Hi.
  rewrite bf_remove_spec, testbit_flag by done.
  destruct (Z.eqb_spec i k) as [->|]; [by rewrite Hf|]. by rewrite andb_true_r.
Qed.

Lemma remove_remove f j k :
  0 ≤ j → 0 ≤ k →
  bf_remove (bf_remove f (Z.shiftl 1 j)) (Z.shiftl 1 k)
    = bf_remove (bf_remove f (Z.shiftl 1 k)) (Z.shiftl 1 j).
Proof.
  intros. apply Z.bits_inj'. intros i Hi. rewrite !bf_remove_spec by done.
  by rewrite <- !andb_assoc, (andb_comm (negb (Z.testbit (Z.shiftl 1 j) i))).
Qed.
End BitflagsFacts.

Section RuntimeFacts.
Context {RT : Runtime} {RTS : RuntimeSpec RT} {S A : Type}.
Implicit Types (m : M S A) (Q : A → S → Prop).

Lemma wp_with_lock l m Q e s :
  l ∉ held e → wp (acquire l e) m Q s → wp e (with_lock l m) Q s.
Proof. intros Hl H. unfold wp, wpx. by rewrite with_lock_free. Qed.

Lemma wp_irq_without m Q e s :
  wp (irqs_off e) m Q s → wp e (irq_without m) Q s.
Proof. intros H. unfold wp, wpx. by rewrite irq_without_run. Qed.
End RuntimeFacts.

Section AddressFacts.
Context {XA : X86Address} {XAS : X86AddressSpec XA}.

#[global] Instance Physical_eq_dec : EqDecision Physical.
Proof.
  intros p q. destruct (decide (phys_as_u64 p = phys_as_u64 q)) as [E|E].
  - left. by apply phys_inj.
  - right. congruence.
Qed.

(** The physical address of value [a]. *)
Definition phys_of (a : Z) : Physical := default phys_null (phys_new a).

Lemma phys_of_u64 a : 0 ≤ a < 2 ^ 52 → phys_as_u64 (phys_of a) = a.
Proof. intros H. unfold phys_of. by destruct (phys_new_spec a H) as (p & -> & ?). Qed.

Lemma phys_new_of a : 0 ≤ a < 2 ^ 52 → phys_new a = Some (phys_of a).
Proof. intros H. unfold phys_of. by destruct (phys_new_spec a H) as (p & -> & ?). Qed.

Lemma phys_of_id p : phys_of (phys_as_u64 p) = p.
Proof. apply phys_inj. apply phys_of_u64, phys_bound. Qed.

Lemma phys_add_of p n : 0 ≤ n → phys_as_u64 p + n < 2 ^ 52 →
  phys_add p n = Some (phys_of (phys_as_u64 p + n)).
Proof.
  intros Hn Hp. destruct (phys_add_spec p n Hn Hp) as (q & -> & Hq).
  f_equal. apply phys_inj. rewrite phys_of_u64; [done|].
  pose proof (phys_bound p). lia.
Qed.

(** The virtual address of value [a]. *)
Definition virt_of (a : Z) : Virtual := default virt_null (virt_new a).

Lemma virt_new_of a : canonical a → virt_new a = Some (virt_of a).
Proof. intros H. unfold virt_of. by destruct (virt_new_spec a H) as (p & -> & ?). Qed.

Lemma virt_of_u64 a : canonical a → virt_as_u64 (virt_of a) = a.
Proof. intros H. unfold virt_of. by destruct (virt_new_spec a H) as (p & -> & ?). Qed.
End AddressFacts.

(** Opens critical sections under [wp]; the freshness of the lock is looked up
    in the context. *)
Ltac wp_section :=
  match goal with
  | |- wp _ (irq_without _) _ _ => apply wp_irq_without
  | |- wp _ (with_lock _ _) _ _ => apply wp_with_lock; [try done; try set_solver|]
  end.

(** Evaluates membership of the kernel's single-bit flags. *)
Ltac flag_simpl :=
  repeat first
    [ rewrite contains_insert by lia
    | rewrite contains_remove by lia
    | rewrite contains_union by lia ];
  rewrite ?orb_false_r, ?orb_true_r, ?andb_true_r, ?andb_false_r.
