(* ===== verification/Reference.v ===== *)
(** * A reference platform

    Concrete functions for every parameter of the model, with proofs that they
    meet the specifications of [External].  It shows that the hypotheses of the
    development hold together, and gives the concrete inputs on which its
    definitions are evaluated. *)

From S2P Require Import Prelude Machine External.

(** ** Flags and critical sections *)

#[export] Instance ref_bitflags : Bitflags := {|
  bf_union := Z.lor;
  bf_contains := λ a b, Z.land a b =? b;
  bf_insert := Z.lor;
  bf_remove := Z.ldiff;
  bf_from_bits_truncate := λ all a, Z.land a all
|}.

#[export] Instance ref_bitflags_spec : BitflagsSpec ref_bitflags.
Proof.
  split; simpl; intros.
  - apply Z.lor_spec.
  - rewrite Z.eqb_eq. split.
    + intros H i Hi Hb. rewrite <- H, Z.land_spec in Hb. by apply andb_true_iff in Hb as [].
    + intros H. apply Z.bits_inj'. intros i Hi. rewrite Z.land_spec.
      destruct (Z.testbit b i) eqn:E; [by rewrite H|by rewrite andb_false_r].
  - apply Z.lor_spec.
  - apply Z.ldiff_spec.
  - apply Z.land_spec.
Qed.

#[export] Instance ref_runtime : Runtime := {|
  with_lock := λ S A l m e s,
    if decide (l ∈ held e) then Deadlock l else m (acquire l e) s;
  irq_without := λ S A m e s, m (irqs_off e) s
|}.

#[export] Instance ref_runtime_spec : RuntimeSpec ref_runtime.
Proof. split; simpl; intros; try case_decide; done. Qed.

(** ** Addresses *)

(** Integers that pass a boolean test; two of them are equal as soon as their
    values are. *)
Record checked (ok : Z → bool) := mkChecked { cval : Z; cok : ok cval = true }.
Arguments mkChecked {ok} cval cok.
Arguments cval {ok} _.

Lemma checked_inj ok (a b : checked ok) : cval a = cval b → a = b.
Proof.
  destruct a as [a Ha], b as [b Hb]; simpl; intros ->. f_equal. apply proof_irrel.
Qed.

Definition mk_checked (ok : Z → bool) (z : Z) : option (checked ok) :=
  (if ok z as b return ok z = b → option (checked ok)
   then λ H, Some (mkChecked z H) else λ _, None) eq_refl.

Lemma mk_checked_spec ok z : ok z = true →
  ∃ c : checked ok, mk_checked ok z = Some c ∧ cval c = z.
Proof.
  intros Hz. unfold mk_checked.
  generalize (eq_refl (ok z)). generalize (ok z) at 2 3.
  intros b Hb. destruct b; [by eexists|congruence].
Qed.

Definition phys_ok (z : Z) : bool := (0 <=? z) && (z <? 2 ^ 52).
Definition virt_ok (z : Z) : bool :=
  ((0 <=? z) && (z <? 2 ^ 47)) || ((2 ^ 64 - 2 ^ 47 <=? z) && (z <? 2 ^ 64)).

Lemma phys_ok_spec z : 0 ≤ z < 2 ^ 52 → phys_ok z = true.
Proof. intros H. unfold phys_ok. blia. Qed.

Lemma virt_ok_spec z : virt_ok z = true ↔ canonical z.
Proof.
  unfold virt_ok, canonical. rewrite orb_true_iff, !andb_true_iff.
  rewrite !Z.leb_le, !Z.ltb_lt. done.
Qed.

Definition rPhys : Type := checked phys_ok.
Definition rVirt : Type := checked virt_ok.

(** An ordered pair of addresses. *)
Record rRange := mkRRange {
  rr_start : rVirt; rr_end : rVirt; rr_ok : (cval rr_start <=? cval rr_end) = true
}.

Lemma rRange_inj r r' :
  rr_start r = rr_start r' → rr_end r = rr_end r' → r = r'.
Proof.
  destruct r as [a b H], r' as [a' b' H']; simpl; intros -> ->. f_equal.
  apply proof_irrel.
Qed.

Definition mk_rrange (v w : rVirt) : option rRange :=
  (if cval v <=? cval w as b return (cval v <=? cval w) = b → option rRange
   then λ H, Some (mkRRange v w H) else λ _, None) eq_refl.

Lemma mk_rrange_spec v w : cval v ≤ cval w →
  ∃ r, mk_rrange v w = Some r ∧ rr_start r = v ∧ rr_end r = w.
Proof.
  intros Hz. apply Z.leb_le in Hz. unfold mk_rrange.
  generalize (eq_refl (cval v <=? cval w)). generalize (cval v <=? cval w) at 2 3.
  intros b Hb. destruct b; [by eexists|congruence].
Qed.

Definition zero_phys : rPhys := mkChecked 0 eq_refl.
Definition zero_virt : rVirt := mkChecked 0 eq_refl.

#[export] Instance ref_address : X86Address := {|
  Physical := rPhys;
  Virtual := rVirt;
  VirtualRange := rRange;
  PAGE_SIZE := 4096;
  PAGE_SHIFT := 12;
  PAGE_MASK := 0xFFFFFFFFFFFFF000;
  phys_null := zero_phys;
  phys_new := mk_checked phys_ok;
  phys_as_u64 := cval;
  phys_is_null := λ p, cval p =? 0;
  phys_is_page_aligned := λ p, cval p mod 4096 =? 0;
  phys_frame_index := λ p, cval p / 4096;
  phys_add := λ p n, mk_checked phys_ok (cval p + n);
  phys_sub := λ p n, mk_checked phys_ok (cval p - n);
  phys_leb := λ p q, cval p <=? cval q;
  phys_ltb := λ p q, cval p <? cval q;
  phys_as_ptr := cval;
  virt_null := zero_virt;
  virt_new := mk_checked virt_ok;
  virt_as_u64 := cval;
  virt_is_null := λ v, cval v =? 0;
  virt_add := λ v n, mk_checked virt_ok (cval v + n);
  virt_page_align_down := λ v,
    default zero_virt (mk_checked virt_ok (cval v / 4096 * 4096));
  virt_page_align_up := λ v, mk_checked virt_ok ((cval v + 4095) / 4096 * 4096);
  virt_pml4_offset := λ v, cval v / 2 ^ 39 mod 512;
  virt_as_ptr := cval;
  phys_lower_hex p := hex_fixed 16 (cval p);
  virt_lower_hex v := hex_fixed 16 (cval v);
  vr_new := mk_rrange;
  vr_start := rr_start;
  vr_end := rr_end;
  vr_size := λ r, cval (rr_end r) - cval (rr_start r);
  vr_contains := λ r v,
    (cval (rr_start r) <=? cval v) && (cval v <? cval (rr_end r));
  vr_iter_nth := λ r i,
    if i <? cval (rr_end r) - cval (rr_start r)
    then mk_checked virt_ok (cval (rr_start r) + i) else None
|}.

Lemma rPhys_bound (p : rPhys) : 0 ≤ cval p < 2 ^ 52.
Proof. destruct p as [z Hz]; simpl. unfold phys_ok in Hz. blia. Qed.

Lemma rVirt_canonical (v : rVirt) : canonical (cval v).
Proof. destruct v as [z Hz]; simpl. by apply virt_ok_spec. Qed.

(** The addresses of a page are canonical as soon as one of them is. *)
Lemma canonical_align z : canonical z → canonical (z / 4096 * 4096).
Proof. unfold canonical. dlia. Qed.

(** The mask clears the offset in a page. *)
Lemma page_mask_align a :
  0 ≤ a < 2 ^ 64 → Z.land a 0xFFFFFFFFFFFFF000 = a / 4096 * 4096.
Proof.
  intros Ha. change 0xFFFFFFFFFFFFF000 with (Z.ldiff (Z.ones 64) (Z.ones 12)).
  transitivity (Z.ldiff (Z.land a (Z.ones 64)) (Z.ones 12)).
  - apply Z.bits_inj'. intros i Hi. by rewrite !Z.ldiff_spec, !Z.land_spec, Z.ldiff_spec, andb_assoc.
  - rewrite Z.land_ones, Z.mod_small, Z.ldiff_ones_r by lia.
    by rewrite Z.shiftl_mul_pow2, Z.shiftr_div_pow2 by lia.
Qed.

#[export] Instance ref_address_spec : X86AddressSpec ref_address.
Proof.
  split; simpl; intros; try done.
  - apply page_mask_align. lia.
  - apply rPhys_bound.
  - by apply checked_inj.
  - by apply mk_checked_spec, phys_ok_spec.
  - apply mk_checked_spec, phys_ok_spec. pose proof (rPhys_bound p). lia.
  - apply mk_checked_spec, phys_ok_spec. pose proof (rPhys_bound p). lia.
  - apply rVirt_canonical.
  - by apply checked_inj.
  - by apply mk_checked_spec, virt_ok_spec.
  - by apply mk_checked_spec, virt_ok_spec.
  - destruct (mk_checked_spec virt_ok (cval v / 4096 * 4096)) as (c & -> & ?); [|done].
    apply virt_ok_spec, canonical_align, rVirt_canonical.
  - by apply mk_checked_spec, virt_ok_spec.
  - by apply mk_rrange_spec.
  - destruct r as [v w H]; simpl. blia.
  - by apply rRange_inj.
  - destruct (Z.ltb_spec i (cval (rr_end r) - cval (rr_start r))); [|lia].
    by apply mk_checked_spec, virt_ok_spec.
  - destruct (Z.ltb_spec i (cval (rr_end r) - cval (rr_start r))); [lia|done].
Qed.

(** ** Page tables *)

(** A page entry: its flags, a bit set, and its address field. *)
Record rEntry := mkREntry { re_flags : Z; re_addr : rPhys; re_ok : (cval re_addr mod 4096 =? 0) = true }.

Definition page_of (p : rPhys) : rPhys :=
  default zero_phys (mk_checked phys_ok (cval p / 4096 * 4096)).

Lemma page_of_spec p : cval (page_of p) = cval p / 4096 * 4096.
Proof.
  unfold page_of. pose proof (rPhys_bound p).
  destruct (mk_checked_spec phys_ok (cval p / 4096 * 4096)) as (c & -> & ?); [|done].
  apply phys_ok_spec. dlia.
Qed.

Lemma page_of_aligned p : (cval (page_of p) mod 4096 =? 0) = true.
Proof. rewrite page_of_spec, Z.mod_mul by done. done. Qed.

Lemma page_of_id p : cval p mod 4096 = 0 → page_of p = p.
Proof. intros H. apply checked_inj. rewrite page_of_spec. dlia. Qed.

Inductive rLevel := L4 | L3 | L2 | L1.

Definition rLevel_eqb (l l' : rLevel) : bool :=
  match l, l' with
  | L4, L4 | L3, L3 | L2, L2 | L1, L1 => true
  | _, _ => false
  end.

Definition rLevel_next (l : rLevel) : option rLevel :=
  match l with L4 => Some L3 | L3 => Some L2 | L2 => Some L1 | L1 => None end.

Definition rLevel_u64 (l : rLevel) : Z :=
  match l with L4 => 4 | L3 => 3 | L2 => 2 | L1 => 1 end.

#[export] Instance ref_paging : X86Paging ref_address := {|
  PageEntry := rEntry;
  PageEntryFlags := Z;
  Level := rLevel;
  PageFaultErrorCode := Z;
  pef_union := Z.lor;
  pef_contains := λ a b, Z.land a b =? b;
  PRESENT := 1;
  WRITABLE := 2;
  NO_EXECUTE := 2 ^ 63;
  NO_CACHE := 16;
  WRITE_THROUGH := 8;
  pe_zero := mkREntry 0 zero_phys eq_refl;
  pe_is_present := λ e, Z.land (re_flags e) 1 =? 1;
  pe_is_writable := λ e, Z.land (re_flags e) 2 =? 2;
  pe_is_executable := λ e, negb (Z.land (re_flags e) (2 ^ 63) =? 2 ^ 63);
  pe_address := λ e, if Z.land (re_flags e) 1 =? 1 then Some (re_addr e) else None;
  pe_flags := re_flags;
  pe_set_address := λ e p, mkREntry (re_flags e) (page_of p) (page_of_aligned p);
  pe_set_flags := λ e f, mkREntry f (re_addr e) (re_ok e);
  pe_add_flags := λ e f, mkREntry (Z.lor (re_flags e) f) (re_addr e) (re_ok e);
  pe_clear := λ e, mkREntry 0 zero_phys eq_refl;
  pe_addr_field := re_addr;
  PageTable_COUNT := 512;
  PageMapLevel4 := L4;
  PageTableLevel := L1;
  level_eqb := rLevel_eqb;
  level_next := rLevel_next;
  level_as_u64 := rLevel_u64;
  page_index := λ v n, cval v / 2 ^ (12 + 9 * (n - 1)) mod 512;
  PROTECTION_VIOLATION := 1;
  WRITE_ACCESS := 2;
  INSTRUCTION_FETCH := 16;
  pfec_contains := λ a b, Z.land a b =? b;
  pfec_from_bits_truncate := λ a, Z.land a 31
|}.

(** Containment of flags is monotone under union. *)
Lemma land_lor_absorb a b f :
  Z.land a f = f → Z.land (Z.lor a b) f = f ∧ Z.land (Z.lor b a) f = f.
Proof.
  intros H. split; apply Z.bits_inj'; intros i Hi;
    pose proof (f_equal (λ z, Z.testbit z i) H) as Hbit; simpl in Hbit;
    rewrite Z.land_spec in Hbit |- *; rewrite Z.lor_spec;
    destruct (Z.testbit a i), (Z.testbit b i), (Z.testbit f i); done.
Qed.

Lemma rLevel_height l :
  level_height (Z.to_nat (rLevel_u64 l - 1)) l ∧
  ∀ k, level_height k l → Z.of_nat k = rLevel_u64 l - 1.
Proof.
  split.
  - destruct l; simpl; repeat (eexists; split; [done|]); done.
  - intros k; revert l; induction k as [|k IH]; intros l; simpl.
    + by destruct l.
    + intros (l' & Hl' & Hk). apply IH in Hk.
      destruct l; simplify_eq/=; lia.
Qed.

#[export] Instance ref_paging_spec : X86PagingSpec ref_paging.
Proof.
  split; simpl; intros; try done.
  - apply Z.eqb_eq in H. apply Z.eqb_eq. exact (proj1 (land_lor_absorb _ _ _ H)).
  - apply Z.eqb_eq in H. apply Z.eqb_eq. exact (proj2 (land_lor_absorb _ _ _ H)).
  - rewrite Z.land_diag. apply Z.eqb_refl.
  - by rewrite H.
  - destruct e as [f a H]; simpl. by apply Z.eqb_eq.
  - by apply page_of_id.
  - apply Z.eqb_eq in H. apply Z.eqb_eq. exact (proj2 (land_lor_absorb _ _ _ H)).
  - by destruct l, l'.
  - apply (proj1 (rLevel_height L4)).
  - by destruct l.
  - rewrite <- Z.land_assoc. change (Z.land 31 1) with (Z.ones 1).
    rewrite Z.land_ones by lia. change (2 ^ 1) with 2.
    change (Z.testbit b 0) with (Z.odd b). rewrite Zmod_odd. by destruct (Z.odd b).
  - apply (proj2 (rLevel_height l)) in H. by rewrite H.
Qed.

#[export] Instance ref_cpu : X86Cpu := {|
  cr3_read := fix go evs :=
    match evs with [] => 0 | Cr3Write v :: _ => v | _ :: evs' => go evs' end;
  lapic_initialized := existsb (λ ev, match ev with LapicSetup _ => true | _ => false end);
  resolve := λ a, a mod 2 ^ 47
|}.

#[export] Instance ref_cpu_spec : X86CpuSpec ref_cpu.
Proof.
  split.
  - done.
  - intros [] evs H; try done. by destruct (H v).
  - intros p Hp. simpl. change 0xFFFF800000000000 with (131071 * 2 ^ 47).
    rewrite Z.add_comm, Z.mod_add by done. apply Z.mod_small. lia.
Qed.

#[export] Instance ref_identity : IdentityMapped ref_address ref_cpu.
Proof. intros p Hp. pose proof (phys_bound p). apply Z.mod_small. lia. Qed.

(** A descriptor is its handler, privilege and present bit. *)
#[export] Instance ref_idt : X86Idt := {|
  DescriptorFlags := Privilege * bool;
  Descriptor := Z * (Privilege * bool);
  IdtTable := Z → Z * (Privilege * bool);
  df_new := (KERNEL_PRIVILEGE, false);
  df_set_privilege_level f p := (p, f.2);
  df_present f b := (f.1, b);
  df_build f := f;
  d_new := (0, (KERNEL_PRIVILEGE, false));
  d_set_handler_addr d a := (a, d.2);
  d_set_options d f := (d.1, f);
  d_build d := d;
  gate_handler d := d.1;
  gate_privilege d := d.2.1;
  gate_present d := d.2.2;
  idt_capacity _ := 256;
  idt_set_descriptor t i d :=
    if (0 <=? i) && (i <? 256) then Some (λ j, if j =? i then d else t j) else None;
  idt_gate t i := t i
|}.

#[export] Instance ref_idt_spec : X86IdtSpec ref_idt.
Proof.
  split; simpl; [done|done|]. intros t i d Hi.
  assert ((0 <=? i) && (i <? 256) = true) as -> by blia. by eexists.
Qed.

(** A heap that hands memory out in one direction and takes nothing back; the mark is
    stored at the bottom of the heap. *)
Record bump_heap := mkBump { bump_bottom : Z; bump_top : Z; bump_next : Z }.

Definition bump_allocate (l : AllocLayout) (h : bump_heap) : option Z * bump_heap * list Z :=
  let p := (bump_next h + layout_align l - 1) / layout_align l * layout_align l in
  if (bump_bottom h <=? p) && (p + layout_size l <=? bump_top h)
     && (bump_bottom h <? bump_top h)
  then (Some p, mkBump (bump_bottom h) (bump_top h) (p + layout_size l), [bump_bottom h])
  else (None, h, []).

#[export] Instance ref_heap : HeapCrate := {|
  Heap := bump_heap;
  heap_empty := mkBump 0 0 0;
  heap_init bottom size _ := (mkBump bottom (bottom + size) (bottom + 16), [bottom]);
  heap_allocate_first_fit := bump_allocate;
  heap_deallocate p l h := Some (h, []);
  heap_bottom := bump_bottom;
  heap_top := bump_top
|}.

#[export] Instance ref_heap_spec : HeapCrateSpec ref_heap.
Proof.
  split; simpl.
  - intros bottom size _ Hs. split_and!; [done|done|]. constructor; [|done].
    unfold heap_within. simpl. lia.
  - intros l h Hl. unfold bump_allocate. destruct (_ && _) eqn:E; simpl; [|done].
    bool_to_prop. split_and!; [done|done| |].
    + constructor; [|done]. unfold heap_within. simpl. lia.
    + intros p [= <-]. split_and!; [done|done|by apply Z.mod_mul; lia].
  - by intros p l h h' t [= <- <-].
Qed.

#[export] Instance ref_layout : Layout := {|
  size_of_Frame := 8; size_of_FrameInfo := 24
|}.

#[export] Instance ref_layout_spec : LayoutSpec ref_layout.
Proof. split; simpl; lia. Qed.

(** A per-CPU section of two words. *)
#[export] Instance ref_percpu : PerCpuSection := {|
  __per_cpu_start := 0xFFFFFFFF80004000; __per_cpu_end := 0xFFFFFFFF80004010;
  TSS_OFFSET := 16
|}.

#[export] Instance ref_percpu_spec : PerCpuSectionSpec ref_percpu.
Proof. split; simpl; lia || done. Qed.

(** A descriptor is its words; a table is its size and its words. *)
Definition list_write (i : Z) (l : list Z) (m : Z → Z) : Z → Z := λ x,
  if i <=? x then default (m x) (l !! Z.to_nat (x - i)) else m x.

#[export] Instance ref_gdt : X86Gdt := {|
  GdtDescriptor := list Z;
  GDT_NULL := [0];
  GDT_KERNEL_CODE64 := [0x00209A0000000000];
  GDT_KERNEL_DATA := [0x0000920000000000];
  GDT_USER_CODE64 := [0x0020FA0000000000];
  GDT_USER_DATA := [0x0000F20000000000];
  gdt_tss a := [a; 0];
  gdt_words d := d;
  GdtTable := Z * (Z → Z);
  gdt_new n := (n, λ _, 0);
  gdt_capacity := fst;
  gdt_set_descriptor t i d :=
    if (0 <=? i) && (i + Z.of_nat (length d) <=? t.1)
    then Some (t.1, list_write i d t.2) else None;
  gdt_word t := t.2;
  selector_value i := 8 * i;
  SELECTOR_KERNEL_CODE64 := 8;
  SELECTOR_KERNEL_DATA := 16
|}.

#[export] Instance ref_gdt_spec : X86GdtSpec ref_gdt.
Proof.
  split; try done.
  - intros d. rewrite list_elem_of_In. by intros [<-|[<-|[<-|[<-|[<-|[]]]]]].
  - intros [n m] i d H0 Hle. simpl in *.
    assert ((0 <=? i) && (i + Z.of_nat (length d) <=? n) = true) as -> by blia.
    eexists. split_and!; [done|done|..]; simpl; unfold list_write.
    + intros j w Hj. assert ((i <=? i + Z.of_nat j) = true) as -> by blia.
      replace (i + Z.of_nat j - i) with (Z.of_nat j) by lia. by rewrite Nat2Z.id, Hj.
    + intros j Hj. destruct (Z.leb_spec i j); [|done].
      rewrite lookup_ge_None_2; [done|lia].
Qed.

(** A logger that is set once, and a port that keeps what is sent. *)
#[export] Instance ref_log : Logging := {|
  LogState := bool * Z;
  set_logger l := if l.1 then None else Some (true, l.2);
  set_max_level n l := (l.1, n);
  max_level l := l.2;
  Serial := list string;
  init_com l := l;
  serial_write m l := Some (m :: l)
|}.

#[export] Instance ref_log_spec : LoggingSpec ref_log.
Proof. split; [done|]. intros m p. by eexists. Qed.
