(* ===== verification/Frame.v ===== *)
(** * Physical frames: [src/src/mm/frame/mod.rs]

    Frames, frame ranges and their iterator, the frame flags and the allocator
    statistics. *)

From S2P Require Import Prelude Machine External Reference.

Section Frames.
Context {XA : X86Address}.

(** ** Frames *)

Record NotAligned := mkNotAligned { na_address : Physical; na_align : Z }.

Record Frame := mkFrame { frame_addr : Physical }.

Definition Frame_null : Frame := mkFrame phys_null.

Definition Frame_new {S} (address : Physical) : M S Frame :=
  assert_ (phys_is_page_aligned address) "Frame address must be page aligned!";;
  mret (mkFrame address).

Definition Frame_from_u64 {S} (address : Z) : M S Frame :=
  p ← ext (phys_new address);
  Frame_new p.

Definition Frame_try_new (address : Physical) : Frame + NotAligned :=
  if phys_is_page_aligned address then inl (mkFrame address)
  else inr (mkNotAligned address 4096).

Definition Frame_contains {S} (self : Frame) (address : Physical) : M S bool :=
  if phys_leb (frame_addr self) address then
    e ← ext (phys_add (frame_addr self) 4096);
    mret (phys_ltb address e)
  else mret false.

Definition Frame_start (self : Frame) : Physical := frame_addr self.

Definition Frame_size (self : Frame) : Z := PAGE_SIZE.

Definition Frame_end {S} (self : Frame) : M S Physical :=
  ext (phys_add (frame_addr self) (Frame_size self)).

Definition Frame_add {S} (self : Frame) (rhs : Z) : M S Frame :=
  n ← u64_mul rhs 4096;
  p ← ext (phys_add (frame_addr self) n);
  Frame_new p.

Definition Frame_add_assign {S} (self : Frame) (rhs : Z) : M S Frame :=
  n ← u64_mul rhs 4096;
  p ← ext (phys_add (frame_addr self) n);
  mret (mkFrame p).

Definition Frame_sub {S} (self : Frame) (rhs : Z) : M S Frame :=
  n ← u64_mul rhs 4096;
  p ← ext (phys_sub (frame_addr self) n);
  Frame_new p.

Definition Frame_sub_assign {S} (self : Frame) (rhs : Z) : M S Frame :=
  n ← u64_mul rhs 4096;
  p ← ext (phys_sub (frame_addr self) n);
  mret (mkFrame p).

(** ** Ranges of frames *)

Record Range := mkRange { range_start : Frame; range_end : Frame }.

Definition Frame_range (start end_ : Frame) : Range := mkRange start end_.

Definition Range_new (start end_ : Frame) : Range := mkRange start end_.

Definition frame_u64 (f : Frame) : Z := phys_as_u64 (frame_addr f).

Definition Range_contains_address (self : Range) (address : Physical) : bool :=
  (frame_u64 (range_start self) <=? phys_as_u64 address)
  && (phys_as_u64 address <? frame_u64 (range_end self)).

Definition Range_contains (self : Range) (frame : Frame) : bool :=
  (frame_u64 (range_start self) <=? frame_u64 frame)
  && (frame_u64 frame <? frame_u64 (range_end self)).

Definition Range_count {S} (self : Range) : M S Z :=
  d ← u64_sub (frame_u64 (range_end self)) (frame_u64 (range_start self));
  mret (d / 4096).

Definition Range_len {S} (self : Range) : M S Z := Range_count self.

Definition Range_is_empty (self : Range) : bool :=
  frame_u64 (range_end self) <=? frame_u64 (range_start self).

(** [Iterator::next]: the item, and the range after the call. *)
Definition Range_next {S} (self : Range) : M S (option Frame * Range) :=
  if Range_is_empty self then mret (None, self)
  else
    start' ← Frame_add_assign (range_start self) 1;
    mret (Some (range_start self), mkRange start' (range_end self)).

(** [for frame in range { body }]. *)
Fixpoint Range_for {S} (fuel : nat) (r : Range) (body : Frame → M S unit)
  : M S unit :=
  match fuel with
  | O => panic_with FuelExhausted
  | S fuel' =>
      n ← Range_next r;
      match n.1 with
      | None => mret tt
      | Some frame => body frame;; Range_for fuel' n.2 body
      end
  end.

(** Enough iterations for any range whose end is not before its start. *)
Definition Range_fuel (r : Range) : nat :=
  S (Z.to_nat ((frame_u64 (range_end r) - frame_u64 (range_start r) + 4095) / 4096)).

(** [Index of the frame containing an address]. *)
Definition frame_index_of {S} (address : Z) : M S Z :=
  p ← ext (phys_new address);
  mret (phys_frame_index p).
End Frames.

(** ** Flags *)

Definition FrameFlags_NONE : Z := 0.
Definition FrameFlags_POISONED : Z := Z.shiftl 1 0.
Definition FrameFlags_RESERVED : Z := Z.shiftl 1 1.
Definition FrameFlags_FREE : Z := Z.shiftl 1 2.
Definition FrameFlags_ZEROED : Z := Z.shiftl 1 3.
Definition FrameFlags_DIRTY : Z := Z.shiftl 1 4.
Definition FrameFlags_KERNEL : Z := Z.shiftl 1 5.
Definition FrameFlags_BORROWED : Z := Z.shiftl 1 6.
Definition FrameFlags_BIOS : Z := Z.shiftl 1 7.
Definition FrameFlags_ISA : Z := Z.shiftl 1 8.
Definition FrameFlags_X86 : Z := Z.shiftl 1 9.

Definition AllocationFlags_NONE : Z := FrameFlags_NONE.
Definition AllocationFlags_ZEROED : Z := FrameFlags_ZEROED.
Definition AllocationFlags_KERNEL : Z := FrameFlags_KERNEL.
Definition AllocationFlags_BIOS : Z := FrameFlags_BIOS.
Definition AllocationFlags_ISA : Z := FrameFlags_ISA.
Definition AllocationFlags_X86 : Z := FrameFlags_X86.

(** ** Statistics *)

Record Stats := mkStats {
  total : Z; usable : Z; allocated : Z; reserved : Z;
  kernel : Z; borrowed : Z; poisoned : Z
}.

Definition Stats_new : Stats := mkStats 0 0 0 0 0 0 0.

Definition set_total (v : Z) (s : Stats) : Stats :=
  mkStats v (usable s) (allocated s) (reserved s) (kernel s) (borrowed s) (poisoned s).
Definition set_usable (v : Z) (s : Stats) : Stats :=
  mkStats (total s) v (allocated s) (reserved s) (kernel s) (borrowed s) (poisoned s).
Definition set_allocated (v : Z) (s : Stats) : Stats :=
  mkStats (total s) (usable s) v (reserved s) (kernel s) (borrowed s) (poisoned s).
Definition set_reserved (v : Z) (s : Stats) : Stats :=
  mkStats (total s) (usable s) (allocated s) v (kernel s) (borrowed s) (poisoned s).
Definition set_kernel (v : Z) (s : Stats) : Stats :=
  mkStats (total s) (usable s) (allocated s) (reserved s) v (borrowed s) (poisoned s).
Definition set_poisoned (v : Z) (s : Stats) : Stats :=
  mkStats (total s) (usable s) (allocated s) (reserved s) (kernel s) (borrowed s) v.

(** [stats.field += 1] and [stats.field -= 1]. *)
Definition stat_incr {S} (get : Stats → Z) (set : Z → Stats → Stats) (st : Stats)
  : M S Stats :=
  v ← u64_add (get st) 1; mret (set v st).
Definition stat_decr {S} (get : Stats → Z) (set : Z → Stats → Stats) (st : Stats)
  : M S Stats :=
  v ← u64_sub (get st) 1; mret (set v st).

(** ** Behaviour *)

Section FrameFacts.
Context {XA : X86Address} {XAS : X86AddressSpec XA} {S : Type}.
Implicit Types (f : Frame) (r : Range) (e : Env) (s : S).

(** The frame at physical address [a]. *)
Definition frame_at (a : Z) : Frame := mkFrame (phys_of a).

Lemma frame_at_u64 a : 0 ≤ a < 2 ^ 52 → frame_u64 (frame_at a) = a.
Proof. apply phys_of_u64. Qed.

Lemma frame_at_id f : frame_at (frame_u64 f) = f.
Proof. destruct f as [p]. unfold frame_at, frame_u64; simpl. by rewrite phys_of_id. Qed.

Lemma frame_u64_inj f g : frame_u64 f = frame_u64 g → f = g.
Proof. destruct f, g; unfold frame_u64; simpl. intros ?%phys_inj. congruence. Qed.

Lemma frame_u64_bound f : 0 ≤ frame_u64 f < 2 ^ 52.
Proof. apply phys_bound. Qed.

#[global] Instance Frame_eq_dec : EqDecision Frame.
Proof.
  intros f g. destruct (decide (frame_u64 f = frame_u64 g)) as [E|E].
  - left. by apply frame_u64_inj.
  - right. congruence.
Qed.

Lemma Frame_new_run p e s :
  Frame_new p e s =
    if phys_as_u64 p mod 4096 =? 0 then Ret (mkFrame p) s
    else Panic (PanicMsg "Frame address must be page aligned!").
Proof.
  unfold Frame_new, assert_. rewrite phys_is_page_aligned_spec, bind_run.
  by destruct (phys_as_u64 p mod 4096 =? 0).
Qed.

Lemma wp_Frame_new p (Q : Frame → S → Prop) e s :
  phys_as_u64 p mod 4096 = 0 → Q (mkFrame p) s → wp e (Frame_new p) Q s.
Proof.
  intros Hp HQ. unfold wp, wpx. rewrite Frame_new_run.
  by rewrite (proj2 (Z.eqb_eq _ _) Hp).
Qed.

Lemma wp_phys_new a (Q : Physical → S → Prop) e s :
  0 ≤ a < 2 ^ 52 → Q (phys_of a) s → wp e (ext (phys_new a)) Q s.
Proof. intros Ha HQ. eapply wp_ext; [by apply phys_new_of|done]. Qed.

Lemma wp_phys_add p n (Q : Physical → S → Prop) e s :
  0 ≤ n → phys_as_u64 p + n < 2 ^ 52 → Q (phys_of (phys_as_u64 p + n)) s →
  wp e (ext (phys_add p n)) Q s.
Proof. intros Hn Hp HQ. eapply wp_ext; [by apply phys_add_of|done]. Qed.

Lemma Frame_add_assign_run f n e s :
  0 ≤ n → frame_u64 f + n * 4096 < 2 ^ 52 →
  Frame_add_assign f n e s = Ret (frame_at (frame_u64 f + n * 4096)) s.
Proof.
  intros Hn Hf. pose proof (frame_u64_bound f). unfold Frame_add_assign, u64_mul.
  erewrite bind_ret_run by (apply arith_run; lia).
  by rewrite phys_add_of by (unfold frame_u64 in *; lia).
Qed.

Lemma frame_index_of_run a e s :
  0 ≤ a < 2 ^ 52 → frame_index_of a e s = Ret (a / 4096) s.
Proof.
  intros Ha. unfold frame_index_of. rewrite phys_new_of by done. simpl.
  rewrite bind_run; simpl. unfold mret, M_ret. by rewrite phys_frame_index_spec, phys_of_u64.
Qed.

(** The frames of a range, in order. *)
Definition range_frames r : list Frame :=
  (λ i, frame_at (frame_u64 (range_start r) + i * 4096)) <$>
    seqZ 0 ((frame_u64 (range_end r) - frame_u64 (range_start r)) / 4096).

(** Both ends are page aligned and in order. *)
Definition range_ok r : Prop :=
  frame_u64 (range_start r) mod 4096 = 0 ∧ frame_u64 (range_end r) mod 4096 = 0
  ∧ frame_u64 (range_start r) ≤ frame_u64 (range_end r).

Lemma range_frames_nil r : range_ok r → Range_is_empty r = true → range_frames r = [].
Proof.
  unfold range_ok, Range_is_empty, range_frames. intros (? & ? & ?) ?; bool_to_prop.
  by rewrite seqZ_nil by dlia.
Qed.

Lemma range_frames_cons r :
  range_ok r → Range_is_empty r = false →
  range_frames r = range_start r ::
    range_frames (mkRange (frame_at (frame_u64 (range_start r) + 4096)) (range_end r)).
Proof.
  unfold range_ok, Range_is_empty, range_frames. intros (Hs & He & ?) ?; bool_to_prop.
  pose proof (frame_u64_bound (range_start r)). pose proof (frame_u64_bound (range_end r)).
  simpl. rewrite frame_at_u64 by dlia.
  rewrite seqZ_cons by dlia. simpl. f_equal.
  { rewrite Z.add_0_r. apply frame_at_id. }
  replace (Z.pred ((frame_u64 (range_end r) - frame_u64 (range_start r)) / 4096))
    with ((frame_u64 (range_end r) - (frame_u64 (range_start r) + 4096)) / 4096) by dlia.
  change (Z.succ 0) with (1 + 0). rewrite <- (fmap_add_seqZ 1 0), <- list_fmap_compose.
  apply list_fmap_ext. intros i x _. simpl. f_equal. lia.
Qed.

Lemma range_ok_next r :
  range_ok r → Range_is_empty r = false →
  range_ok (mkRange (frame_at (frame_u64 (range_start r) + 4096)) (range_end r)).
Proof.
  unfold range_ok, Range_is_empty. intros (Hs & He & ?) ?; bool_to_prop; simpl.
  pose proof (frame_u64_bound (range_start r)). pose proof (frame_u64_bound (range_end r)).
  rewrite frame_at_u64 by dlia. dlia.
Qed.

Lemma Range_next_run r e s :
  range_ok r → Range_is_empty r = false →
  Range_next r e s =
    Ret (Some (range_start r),
         mkRange (frame_at (frame_u64 (range_start r) + 4096)) (range_end r)) s.
Proof.
  intros Hok Hne. unfold Range_next. rewrite Hne.
  erewrite bind_ret_run; [done|]. apply Frame_add_assign_run; [lia|].
  unfold range_ok, Range_is_empty in *. bool_to_prop.
  pose proof (frame_u64_bound (range_end r)). dlia.
Qed.

(** Any fuel above the number of frames runs the loop to its end. *)
Lemma Range_for_enough fuel r body e s :
  range_ok r → (length (range_frames r) < fuel)%nat →
  Range_for fuel r body e s = foldM (λ _, body) (range_frames r) tt e s.
Proof.
  revert r s; induction fuel as [|fuel IH]; intros r s Hok Hf; [lia|]. simpl.
  destruct (Range_is_empty r) eqn:Hem.
  - unfold Range_next. rewrite Hem, (range_frames_nil r) by done. done.
  - rewrite bind_run, Range_next_run by done. simpl.
    rewrite (range_frames_cons r) in Hf |- * by done. simpl in *.
    rewrite !bind_run. destruct (body (range_start r) e s) as [[] s'|p|l|s']; [|done..].
    rewrite IH; [done|by apply range_ok_next|lia].
Qed.

Lemma range_frames_length r :
  range_ok r → Z.of_nat (length (range_frames r))
    = (frame_u64 (range_end r) - frame_u64 (range_start r)) / 4096.
Proof.
  unfold range_ok, range_frames. intros (? & ? & ?).
  rewrite length_fmap, length_seqZ. dlia.
Qed.

Lemma Range_fuel_enough r : range_ok r → (length (range_frames r) < Range_fuel r)%nat.
Proof.
  intros Hok. pose proof (range_frames_length r Hok) as Hl. unfold Range_fuel.
  destruct Hok as (? & ? & ?). dlia.
Qed.

(** A frame-aligned member of the range is one of the frames visited. *)
Lemma elem_of_range_frames r f :
  range_ok r → f ∈ range_frames r ↔
    frame_u64 f mod 4096 = 0 ∧ Range_contains r f = true.
Proof.
  intros (Hs & He & Hle). unfold range_frames, Range_contains.
  pose proof (frame_u64_bound (range_start r)). pose proof (frame_u64_bound (range_end r)).
  rewrite list_elem_of_fmap. setoid_rewrite elem_of_seqZ. split.
  - intros (i & -> & Hi). rewrite frame_at_u64 by dlia. split; [dlia|].
    bool_to_prop; dlia.
  - intros [Hf ?]; bool_to_prop.
    exists ((frame_u64 f - frame_u64 (range_start r)) / 4096). split; [|dlia].
    rewrite <- (frame_at_id f) at 1. f_equal. dlia.
Qed.

(** The index of a frame; it identifies an aligned frame. *)
Definition frame_idx f : nat := Z.to_nat (frame_u64 f / 4096).

Lemma frame_idx_inj f g :
  frame_u64 f mod 4096 = 0 → frame_u64 g mod 4096 = 0 →
  frame_idx f = frame_idx g → f = g.
Proof.
  unfold frame_idx. intros Hf Hg H. apply frame_u64_inj.
  pose proof (frame_u64_bound f). pose proof (frame_u64_bound g). dlia.
Qed.

Lemma elem_of_range_idx r f :
  range_ok r → frame_u64 f mod 4096 = 0 →
  frame_idx f ∈ frame_idx <$> range_frames r ↔ Range_contains r f = true.
Proof.
  intros Hr Hf. rewrite list_elem_of_fmap. split.
  - intros (g & Hidx & Hg). pose proof Hg as [Hal Hc]%elem_of_range_frames; [|done].
    by rewrite (frame_idx_inj f g Hf Hal Hidx).
  - intros Hc. exists f. split; [done|]. by apply elem_of_range_frames.
Qed.

Lemma range_idx_NoDup r : range_ok r → NoDup (frame_idx <$> range_frames r).
Proof.
  intros (Hs & He & Hle). unfold range_frames. rewrite <- list_fmap_compose.
  pose proof (frame_u64_bound (range_start r)). pose proof (frame_u64_bound (range_end r)).
  apply NoDup_fmap_2_strong; [|apply NoDup_seqZ].
  intros i j Hi%elem_of_seqZ Hj%elem_of_seqZ Hij. simpl in Hij.
  unfold frame_idx in Hij. rewrite !frame_at_u64 in Hij by dlia. dlia.
Qed.
End FrameFacts.

(** ** Theorems *)

Section FrameTheorems.
Context {XA : X86Address} {XAS : X86AddressSpec XA} {S : Type}.
Implicit Types (f : Frame) (r : Range) (e : Env) (s : S).

(** C36: [for frame in range] terminates and runs its body on exactly the frames of
    the range in increasing order: with the fuel [Range_fuel] the loop equals a fold
    over [range_frames r], whose length is the value of [Range::count], and whose
    members are the page-aligned frames that [Range::contains] accepts. *)
Theorem range_iteration r (body : Frame → M S unit) e s :
  range_ok r →
  Range_for (Range_fuel r) r body e s = foldM (λ _, body) (range_frames r) tt e s
  ∧ Range_count r e s = Ret (Z.of_nat (length (range_frames r))) s
  ∧ (∀ f, f ∈ range_frames r ↔ frame_u64 f mod 4096 = 0 ∧ Range_contains r f = true).
Proof.
  intros Hok. split_and!.
  - apply Range_for_enough; [done|by apply Range_fuel_enough].
  - rewrite range_frames_length by done. unfold Range_count.
    destruct Hok as (? & ? & ?). pose proof (frame_u64_bound (range_end r)).
    pose proof (frame_u64_bound (range_start r)).
    by erewrite bind_ret_run by (apply arith_run; lia).
  - intros f. by apply elem_of_range_frames.
Qed.

(** Advancing a frame by [n] frames and stepping back by [n] frames gives the
    frame back, in either build profile, as long as the address stays below 2^52. *)
Theorem frame_add_sub_roundtrip f n e s :
  0 ≤ n → frame_u64 f mod 4096 = 0 → frame_u64 f + n * 4096 < 2 ^ 52 →
  (g ← Frame_add f n; Frame_sub g n) e s = Ret f s.
Proof.
  intros Hn Hal Hf. pose proof (frame_u64_bound f) as Hb.
  unfold Frame_add, Frame_sub, u64_mul.
  rewrite bind_run. erewrite bind_ret_run by (apply arith_run; lia).
  unfold frame_u64 in *. rewrite phys_add_of by lia. simpl.
  rewrite bind_run; simpl. rewrite Frame_new_run, phys_of_u64 by lia.
  rewrite (proj2 (Z.eqb_eq _ _)) by dlia.
  erewrite bind_ret_run by (apply arith_run; lia). simpl.
  destruct (phys_sub_spec (phys_of (phys_as_u64 (frame_addr f) + n * 4096)) (n * 4096))
    as (q & Hq & Hqv); rewrite ?phys_of_u64 in * by lia; [lia|].
  rewrite Hq. simpl. rewrite bind_run; simpl. rewrite Frame_new_run.
  rewrite (proj2 (Z.eqb_eq _ _)) by dlia. f_equal.
  apply frame_u64_inj. unfold frame_u64; simpl. lia.
Qed.

(** [Frame::contains] decides whether an address lies in the 4 KiB of the frame:
    it returns true exactly when the address has the frame's index, and it returns
    for every frame but the last one of the physical address space. *)
Lemma frame_contains_index f (address : Physical) e s :
  frame_u64 f mod 4096 = 0 → frame_u64 f + 4096 < 2 ^ 52 →
  Frame_contains f address e s
    = Ret (phys_frame_index address =? phys_frame_index (frame_addr f)) s.
Proof.
  intros Hal Hlt. pose proof (frame_u64_bound f). unfold frame_u64 in *.
  pose proof (phys_bound address). unfold Frame_contains.
  rewrite phys_leb_spec, !phys_frame_index_spec.
  destruct (Z.leb_spec (phys_as_u64 (frame_addr f)) (phys_as_u64 address)).
  - rewrite phys_add_of by lia. simpl. rewrite bind_run; simpl.
    unfold mret, M_ret. f_equal. rewrite phys_ltb_spec, phys_of_u64 by lia.
    apply eq_iff_eq_true. rewrite Z.ltb_lt, Z.eqb_eq. dlia.
  - unfold mret, M_ret. f_equal. symmetry. apply Z.eqb_neq. dlia.
Qed.
End FrameTheorems.

(** ** Witnesses *)

(** An environment with no lock held, in the dev profile. *)
Definition ref_env : Env := mkEnv true [] true.

Lemma range_iteration_witness :
  let r := mkRange (frame_at 8192) (frame_at 20480) in
  Range_for (Range_fuel r) r (λ f, modify (λ s, s ++ [frame_u64 f])) ref_env []
    = Ret tt [8192; 12288; 16384]
  ∧ Range_count r ref_env ([] : list Z) = Ret 3 [].
Proof.
  intros r. assert (range_ok r) as Hok by (vm_compute; done).
  destruct (range_iteration r (λ f, modify (λ s, s ++ [frame_u64 f])) ref_env [] Hok)
    as (H1 & H2 & _).
  split; [rewrite H1|rewrite H2]; vm_compute; reflexivity.
Defined.

Lemma frame_add_sub_roundtrip_witness :
  (g ← Frame_add (frame_at 4096) 5; Frame_sub g 5) ref_env tt = Ret (frame_at 4096) tt.
Proof. apply (frame_add_sub_roundtrip (frame_at 4096) 5); vm_compute; done. Defined.
