(* ===== verification/BTree.v ===== *)
(** * [alloc::collections::BTreeMap] with integer keys

    The operations of the ordered map that the virtual memory manager uses, as
    an association list in increasing key order, which is the order in which
    the map is iterated. *)

From S2P Require Import Prelude Machine.

Section BTree.
Context {V : Type}.
Implicit Types (m : list (Z * V)) (k : Z) (v : V).

Fixpoint bt_get k m : option V :=
  match m with
  | [] => None
  | (k', v) :: m' => if k =? k' then Some v else bt_get k m'
  end.

(** [insert]: replaces the value of an existing key. *)
Fixpoint bt_insert k v m : list (Z * V) :=
  match m with
  | [] => [(k, v)]
  | (k', v') :: m' =>
      if k <? k' then (k, v) :: m
      else if k =? k' then (k, v) :: m'
      else (k', v') :: bt_insert k v m'
  end.

Fixpoint bt_delete k m : list (Z * V) :=
  match m with
  | [] => []
  | (k', v') :: m' => if k =? k' then m' else (k', v') :: bt_delete k m'
  end.

(** [remove]: the removed value, and the map after the call. *)
Definition bt_remove k m : option V * list (Z * V) := (bt_get k m, bt_delete k m).

(** [iter().find(p)]: the first entry, in key order, that satisfies [p]. *)
Definition bt_find (p : Z → V → bool) m : option (Z * V) :=
  find (λ kv, p kv.1 kv.2) m.

(** Keys are strictly increasing. *)
Fixpoint bt_sorted m : Prop :=
  match m with
  | [] => True
  | (k, _) :: m' => Forall (λ kv, k < kv.1) m' ∧ bt_sorted m'
  end.

Lemma bt_get_lt m k : Forall (λ kv, k < kv.1) m → bt_get k m = None.
Proof.
  induction 1 as [|[k' v] m Hk _ IH]; simpl in *; [done|].
  destruct (Z.eqb_spec k k'); [lia|done].
Qed.

Lemma bt_insert_Forall (P : Z * V → Prop) m k v :
  P (k, v) → Forall P m → Forall P (bt_insert k v m).
Proof.
  intros Hk. induction 1 as [|[k' v'] m Hk' HF IH]; simpl.
  { by constructor. }
  destruct (k <? k'), (k =? k'); repeat constructor; done.
Qed.

Lemma bt_delete_Forall (P : Z * V → Prop) m k :
  Forall P m → Forall P (bt_delete k m).
Proof.
  induction 1 as [|[k' v'] m Hk' HF IH]; simpl; [done|].
  destruct (k =? k'); [done|by constructor].
Qed.

Lemma bt_insert_sorted m k v : bt_sorted m → bt_sorted (bt_insert k v m).
Proof.
  induction m as [|[k' v'] m IH]; simpl; [done|]. intros [HF Hs].
  destruct (Z.ltb_spec k k'); simpl.
  { split; [|done]. constructor; [done|].
    eapply Forall_impl; [exact HF|]. simpl. intros; lia. }
  destruct (Z.eqb_spec k k') as [->|]; simpl; [done|].
  split; [|by apply IH]. apply bt_insert_Forall; [simpl; lia|done].
Qed.

Lemma bt_delete_sorted m k : bt_sorted m → bt_sorted (bt_delete k m).
Proof.
  induction m as [|[k' v'] m IH]; simpl; [done|]. intros [HF Hs].
  destruct (k =? k'); [done|]. simpl. split; [by apply bt_delete_Forall|by apply IH].
Qed.

Lemma bt_get_insert m k k' v :
  bt_sorted m → bt_get k' (bt_insert k v m) = if k' =? k then Some v else bt_get k' m.
Proof.
  induction m as [|[k1 v1] m IH]; simpl; [done|]. intros [HF Hs].
  destruct (Z.ltb_spec k k1); simpl; [done|].
  destruct (Z.eqb_spec k k1) as [->|]; simpl.
  { by destruct (Z.eqb_spec k' k1). }
  rewrite IH by done. destruct (Z.eqb_spec k' k1), (Z.eqb_spec k' k); lia || done.
Qed.

Lemma bt_get_delete m k k' :
  bt_sorted m → bt_get k' (bt_delete k m) = if k' =? k then None else bt_get k' m.
Proof.
  induction m as [|[k1 v1] m IH]; simpl; [by destruct (k' =? k)|]. intros [HF Hs].
  destruct (Z.eqb_spec k k1) as [->|]; simpl.
  - destruct (Z.eqb_spec k' k1) as [E|]; [rewrite E; by apply bt_get_lt|done].
  - rewrite IH by done. destruct (Z.eqb_spec k' k1), (Z.eqb_spec k' k); lia || done.
Qed.

Lemma bt_get_Some_elem m k v : bt_get k m = Some v → (k, v) ∈ m.
Proof.
  induction m as [|[k' v'] m IH]; simpl; [done|].
  destruct (Z.eqb_spec k k') as [->|]; intros H; simplify_eq; [left|right; auto].
Qed.

Lemma bt_elem_get m k v : bt_sorted m → (k, v) ∈ m → bt_get k m = Some v.
Proof.
  induction m as [|[k' v'] m IH]; simpl; [by intros ? ?%not_elem_of_nil|].
  intros [HF Hs] [H|H]%elem_of_cons; simplify_eq.
  - by rewrite Z.eqb_refl.
  - rewrite Forall_forall in HF. specialize (HF _ H). simpl in HF.
    destruct (Z.eqb_spec k k'); [lia|auto].
Qed.

Lemma bt_find_Some p m k v :
  bt_find p m = Some (k, v) → (k, v) ∈ m ∧ p k v = true.
Proof.
  unfold bt_find. intros H. apply find_some in H as [Hin Hp].
  by rewrite list_elem_of_In.
Qed.

Lemma bt_find_None p m k v :
  bt_find p m = None → (k, v) ∈ m → p k v = false.
Proof. unfold bt_find. intros H Hin%list_elem_of_In. apply (find_none _ _ H _ Hin). Qed.

(** The entry found has the least key among those that satisfy the test. *)
Lemma bt_find_least p m k v k' v' :
  bt_sorted m → bt_find p m = Some (k, v) → (k', v') ∈ m → p k' v' = true → k ≤ k'.
Proof.
  unfold bt_find. induction m as [|[k1 v1] m IH]; simpl; [done|]. intros [HF Hs].
  rewrite Forall_forall in HF.
  destruct (p k1 v1) eqn:Hp; intros Hf Hin Hp'; simplify_eq;
    apply elem_of_cons in Hin as [Hin|Hin]; simplify_eq.
  - lia.
  - specialize (HF _ Hin). simpl in HF. lia.
  - congruence.
  - exact (IH Hs Hf Hin Hp').
Qed.
End BTree.

(** ** Sums over the values of a map *)

Section Sums.
Context {V : Type} (f : V → Z).

(** The sum of [f] over the values of a map. *)
Fixpoint bt_sum (m : list (Z * V)) : Z :=
  match m with [] => 0 | (_, v) :: m' => f v + bt_sum m' end.

Definition sum_opt (o : option V) : Z := match o with Some v => f v | None => 0 end.

Lemma bt_sum_insert m k v :
  bt_sorted m → bt_sum (bt_insert k v m) = bt_sum m - sum_opt (bt_get k m) + f v.
Proof.
  induction m as [|[k' v'] m IH]; simpl; [lia|]. intros [HF Hs].
  destruct (Z.ltb_spec k k'); simpl.
  { destruct (Z.eqb_spec k k'); [lia|]. rewrite bt_get_lt; simpl; [lia|].
    eapply Forall_impl; [exact HF|]. simpl. intros; lia. }
  destruct (Z.eqb_spec k k'); simpl; [lia|]. rewrite IH by done. lia.
Qed.

Lemma bt_sum_delete m k : bt_sum (bt_delete k m) = bt_sum m - sum_opt (bt_get k m).
Proof.
  induction m as [|[k' v'] m IH]; simpl; [lia|].
  destruct (k =? k'); simpl; [lia|]. rewrite IH. lia.
Qed.

Lemma bt_sum_nonneg m : (∀ v, 0 ≤ f v) → 0 ≤ bt_sum m.
Proof.
  intros H. induction m as [|[k v] m IH]; simpl; [lia|]. specialize (H v). lia.
Qed.

Lemma bt_sum_elem m k v : (∀ v, 0 ≤ f v) → (k, v) ∈ m → f v ≤ bt_sum m.
Proof.
  intros H. induction m as [|[k' v'] m IH]; simpl; [by intros ?%not_elem_of_nil|].
  pose proof (bt_sum_nonneg m H). intros [Hin|Hin]%elem_of_cons; simplify_eq; [lia|].
  specialize (H v'). specialize (IH Hin). lia.
Qed.

Lemma bt_sum_pos m : 0 < bt_sum m → ∃ k v, (k, v) ∈ m ∧ 0 < f v.
Proof.
  induction m as [|[k v] m IH]; simpl; intros H; [lia|].
  destruct (Z.lt_ge_cases 0 (f v)); [exists k, v; split; [left|done]|].
  destruct IH as (k' & v' & Hin & Hv); [lia|]. exists k', v'. split; [by right|done].
Qed.
End Sums.

#[export] Hint Resolve bt_insert_sorted bt_delete_sorted : kernel.
