(* ===== verification/Log.v ===== *)
(** * The logger: [src/src/log.rs]

    A record is written as one line to the serial port, under a spin lock.  The state is
    the static [SERIAL] with that of the facade; the kernel keeps it in a field of its own
    ([Kernel.v]), and runs the logger there. *)

From S2P Require Import Prelude Machine External Reference.

(** [log::Level]. *)
Inductive LogLevel := LError | LWarn | LInfo | LDebug | LTrace.

(** [Level as usize]. *)
Definition level_number (l : LogLevel) : Z :=
  match l with LError => 1 | LWarn => 2 | LInfo => 3 | LDebug => 4 | LTrace => 5 end.

(** The escape sequences of the terminal: the control character, then its argument. *)
Definition ansi (code : string) : string := String (Ascii.ascii_of_nat 27) ("[" +:+ code).

Definition level_prefix (l : LogLevel) : string :=
  match l with
  | LError => ansi "1m" +:+ ansi "31m[!]" +:+ ansi "0m"
  | LWarn => ansi "1m" +:+ ansi "33m[-]" +:+ ansi "0m"
  | LInfo => ansi "1m" +:+ ansi "32m[*]" +:+ ansi "0m"
  | LDebug => ansi "1m" +:+ ansi "34m[#]" +:+ ansi "0m"
  | LTrace => ansi "1m[~]" +:+ ansi "0m"
  end.

Definition newline : string := String (Ascii.ascii_of_nat 10) EmptyString.

Definition log_line (level : LogLevel) (args : string) : string :=
  level_prefix level +:+ " " +:+ args +:+ newline.

Section LogDefs.
Context {RT : Runtime} {LG : Logging}.

(** The static [SERIAL] and the state of the facade. *)
Record Logger := mkLogger { lg_serial : Serial; lg_facade : LogState }.

Definition log_enabled (level : LogLevel) (s : Logger) : bool :=
  level_number level <=? max_level (lg_facade s).

(** [log], for a record of the given level. *)
Definition log_record (level : LogLevel) (args : string) : M Logger unit :=
  s ← get;
  if log_enabled level s then
    irq_without (with_lock SERIAL (
      s ← get;
      p ← unwrap (serial_write (log_line level args) (lg_serial s));
      put (mkLogger p (lg_facade s))))
  else mret tt.

(** [log::init]. *)
Definition log_init : M Logger unit :=
  s ← get;
  l ← unwrap (set_logger (lg_facade s));
  put (mkLogger (lg_serial s) (set_max_level (level_number LTrace) l));;
  with_lock SERIAL (modify (λ s, mkLogger (init_com (lg_serial s)) (lg_facade s))).
End LogDefs.

Section Log.
Context {RT : Runtime} {RTS : RuntimeSpec RT} {LG : Logging} {LGS : LoggingSpec LG}.
Implicit Types (e : Env) (s : Logger).

Lemma log_record_run level args p e s :
  log_enabled level s = true → SERIAL ∉ held e →
  serial_write (log_line level args) (lg_serial s) = Some p →
  log_record level args e s = Ret tt (mkLogger p (lg_facade s)).
Proof.
  intros Hen Hl Hw. unfold log_record. erewrite bind_ret_run by reflexivity. rewrite Hen.
  rewrite irq_without_run, with_lock_free by done. erewrite bind_ret_run by reflexivity.
  by rewrite Hw.
Qed.

(** Where a record leaves the logger: one line was sent, or none. *)
Definition logged level args s : Logger :=
  if log_enabled level s
  then mkLogger (default (lg_serial s) (serial_write (log_line level args) (lg_serial s)))
         (lg_facade s)
  else s.

(** A record returns unless the port is locked; the facade stays as it is. *)
Lemma log_record_logged level args e s :
  SERIAL ∉ held e → log_record level args e s = Ret tt (logged level args s).
Proof.
  intros Hl. unfold logged. destruct (log_enabled level s) eqn:Hen.
  - destruct (serial_write_done (log_line level args) (lg_serial s)) as [p Hp].
    rewrite Hp. by apply log_record_run.
  - unfold log_record. erewrite bind_ret_run by reflexivity. by rewrite Hen.
Qed.

(** A record that is enabled spins for ever when the CPU holds the lock of the port. *)
Lemma log_record_deadlocks level args e s :
  log_enabled level s = true → SERIAL ∈ held e → log_record level args e s = Deadlock SERIAL.
Proof.
  intros Hen Hl. unfold log_record. rewrite (bind_ret_run get _ e s _ _ eq_refl), Hen.
  by rewrite irq_without_run, with_lock_held.
Qed.

Lemma log_init_run l e s :
  set_logger (lg_facade s) = Some l → SERIAL ∉ held e →
  log_init e s
  = Ret tt (mkLogger (init_com (lg_serial s)) (set_max_level (level_number LTrace) l)).
Proof.
  intros Hl Hs. unfold log_init. erewrite bind_ret_run by reflexivity.
  erewrite bind_ret_run by (by rewrite Hl). erewrite bind_ret_run by reflexivity.
  by rewrite with_lock_free.
Qed.

(** After [log::init], every record is enabled. *)
Lemma log_init_enables level p l : log_enabled level (mkLogger p (set_max_level 5 l)) = true.
Proof. unfold log_enabled. simpl. rewrite max_level_set. by destruct level. Qed.
End Log.
