(* ===== verification/Kernel.v ===== *)
(** * The kernel state and the address-space layout

    The statics of [src/src/mm/mod.rs], [mm/vmm.rs], [arch/paging.rs] and [log.rs]
    gathered in one record, the data types they hold, the layout constants, and the
    conversions of [src/src/arch/address.rs]. *)

From S2P Require Import Prelude Machine External Reference Frame BTree Log.

(** ** Layout of the kernel half of the address space ([mm/mod.rs]) *)

Definition KERNEL_BASE : Z := 0xFFFF800000000000.
Definition HHDM_START : Z := 0xFFFF800000000000.
Definition HHDM_END : Z := 0xFFFF900000000000.
Definition HEAP_START : Z := 0xFFFF900000000000.
Definition HEAP_END : Z := 0xFFFFA00000000000.
Definition VMALLOC_START : Z := 0xFFFFA00000000000.
Definition VMALLOC_END : Z := 0xFFFFB00000000000.
Definition HHDM_SIZE : Z := HEAP_END - HEAP_START.
Definition HEAP_SIZE : Z := HEAP_END - HEAP_START.
Definition VMALLOC_SIZE : Z := VMALLOC_END - VMALLOC_START.

(** ** Data *)

Section Data.
Context {XA : X86Address} {XP : X86Paging XA} {LG : Logging}.

(** [mm/frame/state.rs]: the state of one physical frame. *)
Record FrameInfo := mkFrameInfo {
  fi_flags : Z;
  fi_frame : Frame;
  fi_count : Z
}.

(** [mm/vmm.rs]: a virtual memory area. *)
Record VirtualArea := mkVirtualArea {
  va_range : VirtualRange;
  va_flags : Z
}.

(** [arch/paging.rs]: a root page table. *)
Record TableRoot := mkTableRoot {
  root_addr : Virtual;
  root_frame : Frame
}.

(** The content of physical memory as page tables see it: by the address of a
    4 KiB page and the index of an 8-byte entry in it. *)
Definition memory : Type := Z → Z → PageEntry.

(** The array behind [FRAME_STATE] lies in physical memory; its content is kept here apart
    from [k_mem], which is right while its pages are not written to as memory
    ([FrameArray.v]). *)
Record Kernel := mkKernel {
  k_frames : list FrameInfo;            (* FRAME_STATE *)
  k_stats : Stats;                      (* FRAME_ALLOCATOR *)
  k_mem : memory;
  k_free_vma : list (Z * list VirtualArea);   (* FREE_VMA *)
  k_used_vma : list (Z * VirtualArea);        (* USED_VMA *)
  k_init_table : option TableRoot;      (* INIT_TABLE, once forced *)
  k_active_table : option TableRoot;    (* ACTIVE_TABLE, once forced *)
  k_early : bool;                       (* EARLY *)
  k_events : list Event;
  k_log : Logger                        (* SERIAL and the log facade *)
}.

Definition set_frames (x : list FrameInfo) (k : Kernel) : Kernel :=
  mkKernel x (k_stats k) (k_mem k) (k_free_vma k) (k_used_vma k)
    (k_init_table k) (k_active_table k) (k_early k) (k_events k) (k_log k).
Definition set_stats (x : Stats) (k : Kernel) : Kernel :=
  mkKernel (k_frames k) x (k_mem k) (k_free_vma k) (k_used_vma k)
    (k_init_table k) (k_active_table k) (k_early k) (k_events k) (k_log k).
Definition set_mem (x : memory) (k : Kernel) : Kernel :=
  mkKernel (k_frames k) (k_stats k) x (k_free_vma k) (k_used_vma k)
    (k_init_table k) (k_active_table k) (k_early k) (k_events k) (k_log k).
Definition set_free_vma (x : list (Z * list VirtualArea)) (k : Kernel) : Kernel :=
  mkKernel (k_frames k) (k_stats k) (k_mem k) x (k_used_vma k)
    (k_init_table k) (k_active_table k) (k_early k) (k_events k) (k_log k).
Definition set_used_vma (x : list (Z * VirtualArea)) (k : Kernel) : Kernel :=
  mkKernel (k_frames k) (k_stats k) (k_mem k) (k_free_vma k) x
    (k_init_table k) (k_active_table k) (k_early k) (k_events k) (k_log k).
Definition set_init_table (x : option TableRoot) (k : Kernel) : Kernel :=
  mkKernel (k_frames k) (k_stats k) (k_mem k) (k_free_vma k) (k_used_vma k)
    x (k_active_table k) (k_early k) (k_events k) (k_log k).
Definition set_active_table (x : option TableRoot) (k : Kernel) : Kernel :=
  mkKernel (k_frames k) (k_stats k) (k_mem k) (k_free_vma k) (k_used_vma k)
    (k_init_table k) x (k_early k) (k_events k) (k_log k).
Definition set_events (x : list Event) (k : Kernel) : Kernel :=
  mkKernel (k_frames k) (k_stats k) (k_mem k) (k_free_vma k) (k_used_vma k)
    (k_init_table k) (k_active_table k) (k_early k) x (k_log k).
Definition set_log (x : Logger) (k : Kernel) : Kernel :=
  mkKernel (k_frames k) (k_stats k) (k_mem k) (k_free_vma k) (k_used_vma k)
    (k_init_table k) (k_active_table k) (k_early k) (k_events k) x.

(** ** Memory accesses *)

Definition mem_write (page idx : Z) (x : PageEntry) (m : memory) : memory :=
  λ p i, if (p =? page) && (i =? idx) then x else m p i.

(** [ptr.write_bytes(0, PAGE_SIZE)] on the page at [page]. *)
Definition mem_zero_page (page : Z) (m : memory) : memory :=
  λ p i, if p =? page then pe_zero else m p i.

(** A copy of [n] entries from index [from] of page [src] to the same indices
    of page [dst]. *)
Definition mem_copy (src dst from n : Z) (m : memory) : memory :=
  λ p i, if (p =? dst) && (from <=? i) && (i <? from + n) then m src i else m p i.

Lemma mem_write_other p i x (m : memory) p' j :
  ¬ (p' = p ∧ j = i) → mem_write p i x m p' j = m p' j.
Proof.
  intros H. unfold mem_write.
  destruct (Z.eqb_spec p' p), (Z.eqb_spec j i); simpl; tauto.
Qed.

Lemma mem_write_eq p i x (m : memory) : mem_write p i x m p i = x.
Proof. unfold mem_write. by rewrite !Z.eqb_refl. Qed.

Definition emit (ev : Event) : M Kernel unit :=
  modify (λ k, set_events (ev :: k_events k) k).
End Data.

(** ** The logger of the kernel *)

Section KernelLog.
Context {RT : Runtime} {RTS : RuntimeSpec RT} {XA : X86Address} {XP : X86Paging XA}
  {LG : Logging} {LGS : LoggingSpec LG}.
Implicit Types (e : Env) (k : Kernel).

(** The macros of the crate [log], in the kernel. *)
Definition on_logger {A} (m : M Logger A) : M Kernel A := zoom k_log set_log m.

Definition kernel_log (level : LogLevel) (args : string) : M Kernel unit :=
  on_logger (log_record level args).

Lemma kernel_log_run level args e k :
  SERIAL ∉ held e → kernel_log level args e k = Ret tt (set_log (logged level args (k_log k)) k).
Proof.
  intros Hl. unfold kernel_log, on_logger, zoom. by rewrite log_record_logged.
Qed.

Lemma kernel_log_deadlocks level args e k :
  log_enabled level (k_log k) = true → SERIAL ∈ held e →
  kernel_log level args e k = Deadlock SERIAL.
Proof.
  intros Hen Hl. unfold kernel_log, on_logger, zoom. by rewrite log_record_deadlocks.
Qed.

(** A record changes the logger only. *)
Lemma wp_kernel_log level args (Q : unit → Kernel → Prop) e k :
  SERIAL ∉ held e → (∀ lg, Q tt (set_log lg k)) → wp e (kernel_log level args) Q k.
Proof. intros Hl HQ. eapply wp_of_run; [by apply kernel_log_run|apply HQ]. Qed.
End KernelLog.

(** ** Address conversions ([arch/address.rs]) *)

Section Address.
Context {XA : X86Address}.

Definition phys_to_virt {S} (virt : Physical) : M S Virtual :=
  a ← u64_add (phys_as_u64 virt) 0xFFFF800000000000;
  ext (virt_new a).

Definition virt_to_phys {S} (virt : Virtual) : M S Physical :=
  assert_ ((0xFFFF800000000000 <=? virt_as_u64 virt)
           && (virt_as_u64 virt <? 0xFFFF8FFFFFFFFFFF)) "assertion failed";;
  a ← u64_sub (virt_as_u64 virt) 0xFFFF800000000000;
  ext (phys_new a).
End Address.

Section AddressFacts.
Context {XA : X86Address} {XAS : X86AddressSpec XA} {S : Type}.
Implicit Types (e : Env) (s : S).

(** The higher-half addresses below 2^47 are canonical. *)
Lemma hhdm_canonical a : 0 ≤ a < 2 ^ 47 → canonical (0xFFFF800000000000 + a).
Proof. unfold canonical. lia. Qed.

Lemma phys_to_virt_run p e s :
  phys_as_u64 p < 2 ^ 47 →
  phys_to_virt p e s = Ret (virt_of (0xFFFF800000000000 + phys_as_u64 p)) s.
Proof.
  intros Hp. pose proof (phys_bound p). unfold phys_to_virt.
  rewrite Z.add_comm.
  erewrite bind_ret_run by (apply arith_run; lia).
  rewrite Z.add_comm, virt_new_of; [by rewrite Z.add_comm|].
  apply hhdm_canonical. lia.
Qed.

Lemma virt_to_phys_run v e s :
  0xFFFF800000000000 ≤ virt_as_u64 v < 0xFFFF8FFFFFFFFFFF →
  virt_to_phys v e s = Ret (phys_of (virt_as_u64 v - 0xFFFF800000000000)) s.
Proof.
  intros Hv. unfold virt_to_phys.
  assert ((0xFFFF800000000000 <=? virt_as_u64 v)
           && (virt_as_u64 v <? 0xFFFF8FFFFFFFFFFF) = true) as -> by blia.
  unfold assert_. rewrite bind_run; simpl.
  erewrite bind_ret_run by (apply arith_run; lia).
  by rewrite phys_new_of by lia.
Qed.

Lemma wp_phys_to_virt p (Q : Virtual → S → Prop) e s :
  phys_as_u64 p < 2 ^ 47 → Q (virt_of (0xFFFF800000000000 + phys_as_u64 p)) s →
  wp e (phys_to_virt p) Q s.
Proof. intros Hp HQ. eapply wp_of_run; [by apply phys_to_virt_run|done]. Qed.

Lemma virt_of_hhdm a :
  0 ≤ a < 2 ^ 47 → virt_as_u64 (virt_of (0xFFFF800000000000 + a)) = 0xFFFF800000000000 + a.
Proof. intros Ha. by apply virt_of_u64, hhdm_canonical. Qed.

(** Converting a physical address to its direct-map virtual address and back is
    the identity for every address below the last byte of the 16 TiB direct map. *)
Theorem hhdm_roundtrip p e s :
  phys_as_u64 p < 2 ^ 44 - 1 →
  (v ← phys_to_virt p; virt_to_phys v) e s = Ret p s.
Proof.
  intros Hp. pose proof (phys_bound p).
  erewrite bind_ret_run by (apply phys_to_virt_run; lia).
  rewrite virt_to_phys_run; rewrite virt_of_hhdm by lia; [|lia].
  replace (0xFFFF800000000000 + phys_as_u64 p - 0xFFFF800000000000)
    with (phys_as_u64 p) by lia.
  by rewrite phys_of_id.
Qed.

(** The direct map is 16 TiB long, but its last byte is refused: the assertion of
    [virt_to_phys] excludes the address [HHDM_END - 1], so the round trip panics on
    the physical address 2^44 - 1. *)
Theorem hhdm_last_byte_panics p e s :
  phys_as_u64 p = HHDM_END - 1 - HHDM_START →
  (v ← phys_to_virt p; virt_to_phys v) e s = Panic (PanicMsg "assertion failed").
Proof.
  unfold HHDM_END, HHDM_START. intros Hp.
  erewrite bind_ret_run by (apply phys_to_virt_run; lia).
  unfold virt_to_phys. rewrite virt_of_hhdm, Hp by lia. done.
Qed.
End AddressFacts.

Lemma hhdm_roundtrip_witness :
  (v ← phys_to_virt (phys_of 4096); virt_to_phys v) ref_env tt = Ret (phys_of 4096) tt.
Proof. apply (hhdm_roundtrip (phys_of 4096)). vm_compute. done. Defined.

Lemma hhdm_last_byte_panics_witness :
  (v ← phys_to_virt (phys_of (2 ^ 44 - 1)); virt_to_phys v) ref_env tt
    = Panic (PanicMsg "assertion failed").
Proof. apply (hhdm_last_byte_panics (phys_of (2 ^ 44 - 1))). vm_compute. done. Defined.
