(* ===== verification/FrameState.v ===== *)
(** * The state of physical frames: [src/src/mm/frame/state.rs]

    Reference counts of frames, and the construction of the frame array from the
    bootloader's memory map.  The main results are that, for a well-formed memory map
    ([mmap_ok]), [setup] returns an array that classifies every frame correctly together
    with statistics that count it exactly. *)

From S2P Require Import Prelude Machine External Reference Frame BTree Log Kernel.

Section FrameStateDefs.
Context {BF : Bitflags} {RT : Runtime} {XA : X86Address} {XP : X86Paging XA}
  {LG : Logging} {LY : Layout}.

(** ** [FrameInfo] *)

Definition FrameInfo_new (frame : Frame) (flags : Z) : FrameInfo :=
  mkFrameInfo flags frame 0.

(** Assignments through [get_flags_mut] and to the field [count]. *)
Definition fi_set_flags (flags : Z) (fi : FrameInfo) : FrameInfo :=
  mkFrameInfo flags (fi_frame fi) (fi_count fi).
Definition fi_set_count (count : Z) (fi : FrameInfo) : FrameInfo :=
  mkFrameInfo (fi_flags fi) (fi_frame fi) count.

Definition fi_insert (flag : Z) (fi : FrameInfo) : FrameInfo :=
  fi_set_flags (bf_insert (fi_flags fi) flag) fi.
Definition fi_remove (flag : Z) (fi : FrameInfo) : FrameInfo :=
  fi_set_flags (bf_remove (fi_flags fi) flag) fi.
Definition fi_contains (flag : Z) (fi : FrameInfo) : bool :=
  bf_contains (fi_flags fi) flag.

Definition FrameInfo_retain {S} (self : FrameInfo) : M S FrameInfo :=
  match u64_checked (fi_count self + 1) with
  | Some count => mret (fi_set_count count self)
  | None => panic_with (PanicMsg "Frame count overflow!")
  end.

Definition FrameInfo_release {S} (self : FrameInfo) : M S FrameInfo :=
  match u64_checked (fi_count self - 1) with
  | Some count => mret (fi_set_count count self)
  | None => panic_with (PanicMsg "Trying to release a frame that is not retained!")
  end.

(** ** [State::setup] *)

Definition is_ram (entry : LimineMemmapEntry) : bool :=
  bool_decide (entry_typ entry = Usable)
  || bool_decide (entry_typ entry = KernelAndModules)
  || bool_decide (entry_typ entry = BootloaderReclaimable).

(** [.filter(..).map(|entry| entry.base + entry.len).max()]. *)
Definition max_end {S} (acc : option Z) (entry : LimineMemmapEntry) : M S (option Z) :=
  if is_ram entry then
    v ← u64_add (entry_base entry) (entry_len entry);
    mret (Some (match acc with Some m => Z.max m v | None => v end))
  else mret acc.

Definition find_last_usable_frame_index {S} (mmap : list LimineMemmapEntry) : M S Z :=
  m ← foldM max_end mmap None;
  match m with
  | Some v => frame_index_of v
  | None => mret 0
  end.

Definition find_array_location {S} (mmap : list LimineMemmapEntry) (last : Z)
  : M S Virtual :=
  size ← u64_mul last size_of_FrameInfo;
  match find (λ entry, size <=? entry_len entry)
          (List.filter (λ entry, bool_decide (entry_typ entry = Usable)) mmap) with
  | Some entry => p ← ext (phys_new (entry_base entry)); phys_to_virt p
  | None => mret virt_null
  end.

(** The body of the first loop: frame [i] starts out poisoned. *)
Definition init_frame {S} (i : Z) (stats : Stats) : M S (FrameInfo * Stats) :=
  let flags := FrameFlags_POISONED in
  let addr := u64_shl i PAGE_SHIFT in
  let flags := if addr <? 0x100000 then bf_insert flags FrameFlags_BIOS else flags in
  let flags := if addr <? 0x1000000 then bf_insert flags FrameFlags_ISA else flags in
  let flags := if addr <? 0x10000000 then bf_insert flags FrameFlags_X86 else flags in
  p ← ext (phys_new addr);
  frame ← Frame_new p;
  stats ← stat_incr poisoned set_poisoned stats;
  stats ← stat_incr total set_total stats;
  mret (FrameInfo_new frame flags, stats).

(** The body of the second loop, for a frame of an entry of type [typ]. *)
Definition update_frame {S} (typ : LimineMemoryMapEntryType)
    (frame : FrameInfo) (stats : Stats) : M S (FrameInfo * Stats) :=
  match typ with
  | Usable =>
      let frame := fi_remove FrameFlags_POISONED frame in
      let frame := fi_insert FrameFlags_FREE frame in
      stats ← stat_decr poisoned set_poisoned stats;
      stats ← stat_incr usable set_usable stats;
      mret (frame, stats)
  | KernelAndModules | BootloaderReclaimable =>
      let frame := fi_remove FrameFlags_POISONED frame in
      let frame := fi_insert FrameFlags_KERNEL frame in
      stats ← stat_incr allocated set_allocated stats;
      stats ← stat_decr poisoned set_poisoned stats;
      stats ← stat_incr kernel set_kernel stats;
      stats ← stat_incr usable set_usable stats;
      mret (fi_set_count 1 frame, stats)
  | BadMemory => mret (frame, stats)
  | OtherEntry _ =>
      if negb (fi_contains FrameFlags_POISONED frame) then
        let frame := fi_remove FrameFlags_POISONED frame in
        let frame := fi_insert FrameFlags_RESERVED frame in
        stats ← stat_decr poisoned set_poisoned stats;
        stats ← stat_incr reserved set_reserved stats;
        mret (frame, stats)
      else mret (frame, stats)
  end.

Definition apply_entry {S} (last : Z) (acc : list FrameInfo * Stats)
    (entry : LimineMemmapEntry) : M S (list FrameInfo * Stats) :=
  i ← frame_index_of (entry_base entry);
  let start := Z.min i last in
  b ← u64_add (entry_base entry) (entry_len entry);
  j ← frame_index_of b;
  let end_ := Z.min j last in
  slice_iter_mutM (update_frame (entry_typ entry)) acc.1 start end_ acc.2.

(** The body of the third loop: a frame that holds the frame array. *)
Definition reserve_frame {S} (frame : FrameInfo) (stats : Stats)
  : M S (FrameInfo * Stats) :=
  let frame := fi_remove FrameFlags_FREE frame in
  let frame := fi_insert FrameFlags_KERNEL frame in
  stats ← stat_incr allocated set_allocated stats;
  stats ← stat_incr kernel set_kernel stats;
  mret (frame, stats).

(** The array of [last] entries lies at [array_location] in usable memory, while the model
    keeps its content in [k_frames], apart from [k_mem]: the two agree as long as the pages
    of the array are not written to as memory.  [FrameArray.v] says when that is so. *)
Definition State_setup (mmap : list LimineMemmapEntry) : M Kernel Stats :=
  frames ← gets k_frames;
  assert_ (bool_decide (frames = [])) "Frame state already initialized!";;
  last ← find_last_usable_frame_index mmap;
  array_location ← find_array_location mmap last;
  kernel_log LDebug
    ("Frame array location: " +:+ hex_alternate (virt_as_u64 array_location));;
  assert_ (negb (virt_is_null array_location))
    "Could not find a free region to place the frame array!";;
  r ← iter_mutM init_frame (seqZ 0 last) Stats_new;
  r ← foldM (apply_entry last) mmap r;
  p ← virt_to_phys array_location;
  start ← frame_index_of (phys_as_u64 p);
  n ← u64_mul (Z.of_nat (length r.1)) size_of_Frame;
  end_ ← u64_add start (n / 4096);
  (* [array[start..=end]] *)
  r ← slice_iter_mutM reserve_frame r.1 start (end_ + 1) r.2;
  modify (set_frames r.1);;
  mret r.2.

(** ** Accessors *)

Definition get_frame_info (frames : list FrameInfo) (address : Physical)
  : option FrameInfo :=
  frames !! Z.to_nat (phys_frame_index address).
End FrameStateDefs.

(** ** Classification of frames *)

Section Classification.
Context {BF : Bitflags} {XA : X86Address}.

Definition is_free (fi : FrameInfo) : bool := fi_contains FrameFlags_FREE fi.
Definition is_kernel (fi : FrameInfo) : bool := fi_contains FrameFlags_KERNEL fi.
Definition is_poisoned (fi : FrameInfo) : bool := fi_contains FrameFlags_POISONED fi.

(** A frame that the statistics count as allocated. *)
Definition in_use (fi : FrameInfo) : bool := is_kernel fi || (0 <? fi_count fi).

(** What a frame is at the end of [setup]: not regular memory, free, holding
    the kernel or the bootloader, or holding the frame array. *)
Inductive frame_class := CPoisoned | CFree | CKernel | CArray.

Definition has_class (c : frame_class) (fi : FrameInfo) : Prop :=
  match c with
  | CPoisoned => is_poisoned fi = true ∧ is_free fi = false
                 ∧ is_kernel fi = false ∧ fi_count fi = 0
  | CFree => is_poisoned fi = false ∧ is_free fi = true
             ∧ is_kernel fi = false ∧ fi_count fi = 0
  | CKernel => is_poisoned fi = false ∧ is_free fi = false
               ∧ is_kernel fi = true ∧ fi_count fi = 1
  | CArray => is_poisoned fi = false ∧ is_free fi = false
              ∧ is_kernel fi = true ∧ fi_count fi = 0
  end.

(** The frames an entry of the memory map covers, by index. *)
Definition entry_first (en : LimineMemmapEntry) : Z := entry_base en / 4096.
Definition entry_limit (en : LimineMemmapEntry) : Z :=
  (entry_base en + entry_len en) / 4096.
Definition covers (en : LimineMemmapEntry) (i : Z) : bool :=
  (entry_first en <=? i) && (i <? entry_limit en).

Definition class_of_type (typ : LimineMemoryMapEntryType) : frame_class :=
  match typ with Usable => CFree | _ => CKernel end.

(** The class the memory map gives to frame [i]. *)
Definition classify (mmap : list LimineMemmapEntry) (i : Z) : frame_class :=
  match find (λ en, is_ram en && covers en i) mmap with
  | Some en => class_of_type (entry_typ en)
  | None => CPoisoned
  end.

(** One past the last byte of regular memory. *)
Definition ram_top (mmap : list LimineMemmapEntry) : Z :=
  foldr (λ en m, if is_ram en then Z.max (entry_base en + entry_len en) m else m)
    0 mmap.

Definition last_frame (mmap : list LimineMemmapEntry) : Z := ram_top mmap / 4096.

(** What [setup] relies on: regular memory lies in the direct map, usable entries are
    page aligned, and an entry of regular memory shares no frame with another entry.  The
    bootloader documents the alignment, and that usable and reclaimable entries overlap
    no other entry; for the entries of the kernel and of modules, which need not be aligned
    and may overlap, it is an assumption: a frame that two entries share is counted
    twice. *)
Record mmap_ok (mmap : list LimineMemmapEntry) : Prop := {
  mmap_entry en : en ∈ mmap →
    0 ≤ entry_base en ∧ 0 ≤ entry_len en ∧ entry_base en + entry_len en < 2 ^ 52;
  mmap_direct en : en ∈ mmap → is_ram en = true →
    entry_base en + entry_len en ≤ 2 ^ 44 - 4096;
  mmap_aligned en : en ∈ mmap → entry_typ en = Usable →
    entry_base en mod 4096 = 0 ∧ entry_len en mod 4096 = 0;
  mmap_disjoint i j en en' :
    mmap !! i = Some en → mmap !! j = Some en' → i ≠ j → is_ram en = true →
    entry_limit en ≤ entry_first en' ∨ entry_limit en' ≤ entry_first en
}.

(** The entry in which [setup] places the frame array. *)
Definition array_entry `{Layout} (mmap : list LimineMemmapEntry)
  : option LimineMemmapEntry :=
  find (λ en, last_frame mmap * size_of_FrameInfo <=? entry_len en)
    (List.filter (λ en, bool_decide (entry_typ en = Usable)) mmap).

(** The statistics count the array exactly. *)
Definition stats_match (fs : list FrameInfo) (st : Stats) : Prop :=
  total st = Z.of_nat (length fs)
  ∧ poisoned st = countb is_poisoned fs
  ∧ usable st = total st - poisoned st
  ∧ allocated st = countb in_use fs
  ∧ kernel st = countb is_kernel fs
  ∧ reserved st = 0 ∧ borrowed st = 0.

Lemma in_use_class c fi :
  has_class c fi → in_use fi = match c with CKernel | CArray => true | _ => false end.
Proof. unfold in_use. destruct c; simpl; intros (_ & _ & -> & ->); done. Qed.

Lemma is_ram_spec en :
  is_ram en = true ↔ entry_typ en = Usable ∨ entry_typ en = KernelAndModules
                     ∨ entry_typ en = BootloaderReclaimable.
Proof. unfold is_ram. rewrite !orb_true_iff, !bool_decide_eq_true. tauto. Qed.

Lemma ram_top_ge mmap en :
  en ∈ mmap → is_ram en = true → entry_base en + entry_len en ≤ ram_top mmap.
Proof.
  induction mmap as [|en' mmap IH]; [by intros ?%not_elem_of_nil|].
  intros [->|Hin]%elem_of_cons Hr; simpl.
  - rewrite Hr. lia.
  - specialize (IH Hin Hr). destruct (is_ram en'); lia.
Qed.

Lemma ram_top_bound mmap : mmap_ok mmap → 0 ≤ ram_top mmap ≤ 2 ^ 44 - 4096.
Proof.
  intros [Hen Hdir _ _]. induction mmap as [|en mmap IH]; simpl; [lia|].
  assert (0 ≤ ram_top mmap ≤ 2 ^ 44 - 4096)
    by (apply IH; intros; [apply Hen|apply Hdir]; try right; done).
  destruct (is_ram en) eqn:Hr; [|done].
  pose proof (Hen en ltac:(left)). pose proof (Hdir en ltac:(left) Hr). lia.
Qed.

Lemma classify_snoc mmap en i :
  classify (mmap ++ [en]) i =
    match classify mmap i with
    | CPoisoned => if is_ram en && covers en i then class_of_type (entry_typ en)
                   else CPoisoned
    | c => c
    end.
Proof.
  unfold classify. rewrite find_app.
  destruct (find _ mmap) as [en'|]; simpl.
  - by destruct (entry_typ en').
  - by destruct (is_ram en && covers en i).
Qed.

(** Frames of an entry that shares no frame with the regular memory seen so far
    are still poisoned. *)
Lemma classify_disjoint mmap en i :
  (∀ en', en' ∈ mmap → is_ram en' = true →
     entry_limit en ≤ entry_first en' ∨ entry_limit en' ≤ entry_first en) →
  covers en i = true → classify mmap i = CPoisoned.
Proof.
  intros Hd Hc. unfold classify. destruct (find _ mmap) as [en'|] eqn:Hf; [|done].
  apply find_some in Hf as [Hin Hb]. apply andb_true_iff in Hb as [Hr Hc'].
  destruct (Hd en'); [by apply list_elem_of_In|done|..]; unfold covers in *; blia.
Qed.
End Classification.

(** ** Statistics as vectors of counters *)

(** Fieldwise sum; the loops of [setup] add a constant vector per frame. *)
Definition stats_plus (st d : Stats) : Stats :=
  mkStats (total st + total d) (usable st + usable d) (allocated st + allocated d)
    (reserved st + reserved d) (kernel st + kernel d) (borrowed st + borrowed d)
    (poisoned st + poisoned d).

Definition stats_scale (n : Z) (d : Stats) : Stats :=
  mkStats (n * total d) (n * usable d) (n * allocated d) (n * reserved d)
    (n * kernel d) (n * borrowed d) (n * poisoned d).

Lemma iter_stats_plus n st d :
  Nat.iter n (λ st, stats_plus st d) st = stats_plus st (stats_scale (Z.of_nat n) d).
Proof.
  induction n as [|n IH].
  - destruct st; unfold stats_plus; simpl. f_equal; lia.
  - rewrite Nat2Z.inj_succ. simpl. rewrite IH. unfold stats_plus, stats_scale; simpl.
    f_equal; lia.
Qed.

Definition delta_init : Stats := mkStats 1 0 0 0 0 0 1.
Definition delta_usable : Stats := mkStats 0 1 0 0 0 0 (-1).
Definition delta_kernel : Stats := mkStats 0 1 1 0 1 0 (-1).
Definition delta_array : Stats := mkStats 0 0 1 0 1 0 0.

(** The counters that grow have room for [n] more. *)
Definition stats_room (n : Z) (st : Stats) : Prop :=
  (0 ≤ total st ∧ total st + n < 2 ^ 64) ∧ (0 ≤ usable st ∧ usable st + n < 2 ^ 64)
  ∧ (0 ≤ allocated st ∧ allocated st + n < 2 ^ 64)
  ∧ (0 ≤ kernel st ∧ kernel st + n < 2 ^ 64)
  ∧ (0 ≤ poisoned st ∧ poisoned st + n < 2 ^ 64).

(** Closes an equality between updated statistics. *)
Ltac stats_eq :=
  unfold stats_plus, set_total, set_usable, set_allocated, set_reserved,
    set_kernel, set_poisoned; simpl; f_equal; lia.

Section SetupRuns.
Context {BF : Bitflags} {BFS : BitflagsSpec BF} {XA : X86Address}
  {XAS : X86AddressSpec XA} {S : Type}.
Implicit Types (e : Env) (s : S) (st : Stats) (fi : FrameInfo).

Lemma stat_incr_run get set st e s :
  0 ≤ get st → get st + 1 < 2 ^ 64 →
  stat_incr get set st e s = Ret (set (get st + 1) st) s.
Proof. intros. unfold stat_incr. by erewrite bind_ret_run by (apply arith_run; lia). Qed.

Lemma stat_decr_run get set st e s :
  1 ≤ get st < 2 ^ 64 → stat_decr get set st e s = Ret (set (get st - 1) st) s.
Proof. intros. unfold stat_decr. by erewrite bind_ret_run by (apply arith_run; lia). Qed.

Ltac stat_steps :=
  repeat first [ erewrite bind_ret_run by (apply stat_incr_run; simpl; lia)
               | erewrite bind_ret_run by (apply stat_decr_run; simpl; lia) ].

(** The frame the first loop builds at index [i]. *)
Definition init_info (i : Z) : FrameInfo :=
  let flags := FrameFlags_POISONED in
  let addr := i * 4096 in
  let flags := if addr <? 0x100000 then bf_insert flags FrameFlags_BIOS else flags in
  let flags := if addr <? 0x1000000 then bf_insert flags FrameFlags_ISA else flags in
  let flags := if addr <? 0x10000000 then bf_insert flags FrameFlags_X86 else flags in
  FrameInfo_new (frame_at addr) flags.

Lemma init_info_class i : has_class CPoisoned (init_info i).
Proof.
  unfold init_info, FrameInfo_new, has_class, is_poisoned, is_free, is_kernel, fi_contains.
  unfold FrameFlags_FREE, FrameFlags_KERNEL, FrameFlags_POISONED, FrameFlags_BIOS,
    FrameFlags_ISA, FrameFlags_X86. simpl fi_flags.
  destruct (i * 4096 <? 0x100000), (i * 4096 <? 0x1000000), (i * 4096 <? 0x10000000);
    cbv zeta; flag_simpl; rewrite !contains_flag by lia; done.
Qed.

Lemma init_frame_run i st e s :
  0 ≤ i → i * 4096 < 2 ^ 52 → stats_room 1 st →
  init_frame i st e s = Ret (init_info i, stats_plus st delta_init) s.
Proof.
  intros Hi Hi' Hst. unfold stats_room in Hst. unfold init_frame, u64_shl.
  rewrite PAGE_SHIFT_spec, Z.shiftl_mul_pow2 by lia. change (2 ^ 12) with 4096.
  rewrite Z.mod_small by lia. rewrite phys_new_of by lia. simpl.
  rewrite bind_run; simpl. rewrite bind_run, Frame_new_run, phys_of_u64 by lia.
  rewrite (proj2 (Z.eqb_eq _ _)) by dlia. stat_steps.
  unfold mret, M_ret. f_equal. f_equal. stats_eq.
Qed.

Lemma init_loop_run n e s :
  0 ≤ n → n * 4096 < 2 ^ 52 →
  iter_mutM init_frame (seqZ 0 n) Stats_new e s
    = Ret (init_info <$> seqZ 0 n, stats_plus Stats_new (stats_scale n delta_init)) s.
Proof.
  intros Hn Hn'.
  rewrite (iter_mutM_run init_frame init_info (λ st, stats_plus st delta_init)
             (λ k st, stats_room (Z.of_nat k) st)).
  - rewrite iter_stats_plus, length_seqZ, Z2Nat.id by lia. done.
  - intros k i st s' Hi%elem_of_seqZ Hst. split.
    + apply init_frame_run; [lia|lia|]. unfold stats_room in *. lia.
    + unfold stats_room, stats_plus in *; simpl in *. lia.
  - rewrite length_seqZ. unfold stats_room; simpl. lia.
Qed.

(** The effect of the second loop on a frame of usable memory, and on one that
    holds the kernel or the bootloader. *)
Definition mark_usable fi : FrameInfo :=
  fi_insert FrameFlags_FREE (fi_remove FrameFlags_POISONED fi).
Definition mark_kernel fi : FrameInfo :=
  fi_set_count 1 (fi_insert FrameFlags_KERNEL (fi_remove FrameFlags_POISONED fi)).
Definition mark_array fi : FrameInfo :=
  fi_insert FrameFlags_KERNEL (fi_remove FrameFlags_FREE fi).

Ltac class_tac :=
  unfold has_class, is_poisoned, is_free, is_kernel, fi_contains, mark_usable,
    mark_kernel, mark_array, fi_insert, fi_remove, fi_set_flags, fi_set_count in *;
  simpl in *;
  unfold FrameFlags_FREE, FrameFlags_KERNEL, FrameFlags_POISONED in *;
  flag_simpl.

Lemma mark_usable_class fi : has_class CPoisoned fi → has_class CFree (mark_usable fi).
Proof. intros H. class_tac. destruct H as (H1 & H2 & H3 & H4). by rewrite ?H1, ?H2, ?H3, ?H4. Qed.

Lemma mark_kernel_class fi : has_class CPoisoned fi → has_class CKernel (mark_kernel fi).
Proof. intros H. class_tac. destruct H as (H1 & H2 & H3 & H4). by rewrite ?H1, ?H2, ?H3, ?H4. Qed.

Lemma mark_array_class fi : has_class CFree fi → has_class CArray (mark_array fi).
Proof. intros H. class_tac. destruct H as (H1 & H2 & H3 & H4). by rewrite ?H1, ?H2, ?H3, ?H4. Qed.

Lemma update_usable_run fi st e s :
  stats_room 1 st → 1 ≤ poisoned st →
  update_frame Usable fi st e s = Ret (mark_usable fi, stats_plus st delta_usable) s.
Proof.
  intros Hst Hp. unfold stats_room in Hst. unfold update_frame. stat_steps.
  unfold mret, M_ret. f_equal. f_equal. stats_eq.
Qed.

Lemma update_kernel_run typ fi st e s :
  typ = KernelAndModules ∨ typ = BootloaderReclaimable →
  stats_room 1 st → 1 ≤ poisoned st →
  update_frame typ fi st e s = Ret (mark_kernel fi, stats_plus st delta_kernel) s.
Proof.
  intros Htyp Hst Hp. unfold stats_room in Hst.
  destruct Htyp as [-> | ->]; unfold update_frame; stat_steps;
    unfold mret, M_ret; f_equal; f_equal; stats_eq.
Qed.

Lemma update_other_run typ fi st e s :
  typ ≠ Usable → typ ≠ KernelAndModules → typ ≠ BootloaderReclaimable →
  is_poisoned fi = true → update_frame typ fi st e s = Ret (fi, st) s.
Proof.
  intros ??? Hp. destruct typ; try done. simpl.
  unfold is_poisoned in Hp. by rewrite Hp.
Qed.

Lemma reserve_frame_run fi st e s :
  stats_room 1 st →
  reserve_frame fi st e s = Ret (mark_array fi, stats_plus st delta_array) s.
Proof.
  intros Hst. unfold stats_room in Hst. unfold reserve_frame. stat_steps.
  unfold mret, M_ret. f_equal. f_equal. stats_eq.
Qed.

Lemma slice_run {A B} (f : A → B → M S (A * B)) (l : list A) a b acc g acc' e s :
  0 ≤ a ≤ b → b ≤ Z.of_nat (length l) →
  iter_mutM f (take (Z.to_nat b - Z.to_nat a) (drop (Z.to_nat a) l)) acc e s
    = Ret (g <$> take (Z.to_nat b - Z.to_nat a) (drop (Z.to_nat a) l), acc') s →
  slice_iter_mutM f l a b acc e s
    = Ret (map_slice (Z.to_nat a) (Z.to_nat b) g l, acc') s.
Proof.
  intros Hab Hb Hit. unfold slice_iter_mutM.
  assert ((a <=? b) && (b <=? Z.of_nat (length l)) = true) as -> by blia.
  rewrite Z2Nat.inj_sub by lia. by erewrite bind_ret_run by exact Hit.
Qed.
End SetupRuns.

(** ** The invariant of the loops *)

Section SetupLoops.
Context {BF : Bitflags} {BFS : BitflagsSpec BF} {XA : X86Address}
  {XAS : X86AddressSpec XA} {S : Type}.
Implicit Types (e : Env) (s : S) (st : Stats) (fi : FrameInfo) (fs : list FrameInfo)
  (cls : Z → frame_class).

Definition class_pois (c : frame_class) : bool :=
  match c with CPoisoned => true | _ => false end.
Definition class_kern (c : frame_class) : bool :=
  match c with CKernel | CArray => true | _ => false end.

(** Frame [i] is at address [4096 * i] and of class [cls i], and the statistics
    are exact. *)
Definition setup_inv cls (last : Z) fs st : Prop :=
  Z.of_nat (length fs) = last
  ∧ (∀ i fi, fs !! i = Some fi →
       frame_u64 (fi_frame fi) = Z.of_nat i * 4096 ∧ has_class (cls (Z.of_nat i)) fi)
  ∧ stats_match fs st.

(** The counters move by [d] when one frame goes from class [c0] to [c1]. *)
Definition delta_ok (d : Stats) (c0 c1 : frame_class) : Prop :=
  total d = 0 ∧ poisoned d = Z.b2z (class_pois c1) - Z.b2z (class_pois c0)
  ∧ usable d = - poisoned d
  ∧ allocated d = Z.b2z (class_kern c1) - Z.b2z (class_kern c0)
  ∧ kernel d = allocated d ∧ reserved d = 0 ∧ borrowed d = 0.

Lemma has_class_tests c fi :
  has_class c fi → is_poisoned fi = class_pois c ∧ is_kernel fi = class_kern c
                   ∧ in_use fi = class_kern c.
Proof.
  intros H. rewrite (in_use_class c fi H). destruct c; simpl in *; tauto.
Qed.

(** Moving a slice from one class to another preserves the invariant. *)
Lemma setup_inv_slice cls last fs st a b c0 c1 g d :
  setup_inv cls last fs st → 0 ≤ a ≤ b → b ≤ last →
  (∀ i, a ≤ i < b → cls i = c0) →
  (∀ fi, has_class c0 fi → has_class c1 (g fi)) →
  (∀ fi, fi_frame (g fi) = fi_frame fi) → delta_ok d c0 c1 →
  setup_inv (λ i, if (a <=? i) && (i <? b) then c1 else cls i) last
    (map_slice (Z.to_nat a) (Z.to_nat b) g fs) (stats_plus st (stats_scale (b - a) d)).
Proof.
  intros (Hlen & Hfs & Hst) Ha Hb Hcls Hg Hfr Hd.
  assert (∀ i x, (Z.to_nat a ≤ i < Z.to_nat b)%nat → fs !! i = Some x →
            has_class c0 x ∧ has_class c1 (g x)) as Hslice.
  { intros i x Hi Hx. destruct (Hfs i x Hx) as [_ Hc].
    rewrite Hcls in Hc by lia. auto. }
  assert (∀ f u v, (∀ x, has_class c0 x → f x = u) → (∀ x, has_class c1 x → f x = v) →
            countb f (map_slice (Z.to_nat a) (Z.to_nat b) g fs)
              = countb f fs + (b - a) * (Z.b2z v - Z.b2z u)) as Hcount.
  { intros f u v Hu Hv. rewrite (countb_map_slice f g _ _ fs u v) by
      (try lia; intros i x Hi Hx; destruct (Hslice i x Hi Hx); auto).
    f_equal. f_equal. lia. }
  assert (∀ c x, has_class c x → is_poisoned x = class_pois c) as Hp
    by (intros; by apply has_class_tests).
  assert (∀ c x, has_class c x → is_kernel x = class_kern c) as Hk
    by (intros; by apply has_class_tests).
  assert (∀ c x, has_class c x → in_use x = class_kern c) as Hu
    by (intros; by apply has_class_tests).
  split_and!.
  - rewrite length_map_slice by lia. done.
  - intros i fi. rewrite lookup_map_slice by lia.
    destruct (decide _) as [Hi|Hi].
    + intros (x & Hx & ->)%fmap_Some. rewrite Hfr.
      split; [by apply Hfs|].
      assert ((a <=? Z.of_nat i) && (Z.of_nat i <? b) = true) as -> by blia.
      by eapply Hslice.
    + intros Hx. destruct (Hfs i fi Hx) as [? Hc]. split; [done|].
      destruct ((a <=? Z.of_nat i) && (Z.of_nat i <? b)) eqn:E; [bool_to_prop; lia|done].
  - unfold stats_match, delta_ok in *. destruct Hst as (? & ? & ? & ? & ? & ? & ?).
    rewrite (Hcount is_poisoned _ _ (Hp c0) (Hp c1)).
    rewrite (Hcount is_kernel _ _ (Hk c0) (Hk c1)).
    rewrite (Hcount in_use _ _ (Hu c0) (Hu c1)).
    rewrite length_map_slice by lia. simpl.
    destruct Hd as (-> & Hdp & -> & Hda & -> & -> & ->).
    rewrite Hda, Hdp. lia.
Qed.

(** The counters of an array of fewer than 2^40 frames have room. *)
Lemma setup_inv_room cls last fs st a b :
  setup_inv cls last fs st → 0 ≤ a ≤ b → b ≤ last → last < 2 ^ 40 →
  stats_room (b - a) st.
Proof.
  intros (Hlen & _ & Hst) ? ? ?. unfold stats_match in Hst.
  pose proof (countb_bounds is_poisoned fs). pose proof (countb_bounds is_kernel fs).
  pose proof (countb_bounds in_use fs). unfold stats_room. lia.
Qed.

Lemma setup_inv_poisoned cls last fs st a b :
  setup_inv cls last fs st → 0 ≤ a ≤ b → b ≤ last →
  (∀ i, a ≤ i < b → cls i = CPoisoned) → b - a ≤ poisoned st.
Proof.
  intros Hinv Ha Hb Hcls. pose proof Hinv as (Hlen & Hfs & Hst).
  destruct Hst as (_ & -> & _).
  pose proof (countb_map_slice is_poisoned mark_usable (Z.to_nat a) (Z.to_nat b) fs
                true false) as Hc.
  pose proof (countb_bounds is_poisoned
                (map_slice (Z.to_nat a) (Z.to_nat b) mark_usable fs)) as Hb'.
  rewrite Hc in Hb'; [simpl in Hb'; lia|lia|].
  intros i x Hi Hx. destruct (Hfs i x Hx) as [_ Hx']. rewrite Hcls in Hx' by lia.
  split; [apply Hx'|apply (mark_usable_class x Hx')].
Qed.

(** A loop over a slice whose body adds [d] to the counters. *)
Lemma slice_stats_run f g d fs st a b (low : bool) e s :
  (∀ fi st s, stats_room 1 st → (low = true → 1 ≤ poisoned st) →
     f fi st e s = Ret (g fi, stats_plus st d) s) →
  (∀ n st, 0 ≤ n → stats_room (n + 1) st → (low = true → n + 1 ≤ poisoned st) →
     stats_room n (stats_plus st d) ∧ (low = true → n ≤ poisoned (stats_plus st d))) →
  0 ≤ a ≤ b → b ≤ Z.of_nat (length fs) →
  stats_room (b - a) st → (low = true → b - a ≤ poisoned st) →
  slice_iter_mutM f fs a b st e s
    = Ret (map_slice (Z.to_nat a) (Z.to_nat b) g fs,
           stats_plus st (stats_scale (b - a) d)) s.
Proof.
  intros Hf Hd Ha Hb Hroom Hlow. apply slice_run; [done|done|].
  set (mid := take _ _).
  assert (Z.of_nat (length mid) = b - a) as Hlen
    by (unfold mid; rewrite length_take, length_drop; lia).
  rewrite (iter_mutM_run f g (λ st, stats_plus st d)
    (λ k st, stats_room (Z.of_nat k) st ∧ (low = true → Z.of_nat k ≤ poisoned st))).
  - by rewrite iter_stats_plus, Hlen.
  - intros k x st' s' _ [Hr Hl]. rewrite Nat2Z.inj_succ in Hr, Hl. split.
    + apply Hf; [unfold stats_room in *; lia|intros Hlo; specialize (Hl Hlo); lia].
    + apply Hd; [lia|by rewrite Z.add_1_r|]. intros Hlo. specialize (Hl Hlo). lia.
  - by rewrite Hlen.
Qed.

(** A loop over a slice that leaves every frame as it is. *)
Lemma slice_id_run f fs (st : Stats) a b e s :
  (∀ i fi st s, fs !! i = Some fi → (Z.to_nat a ≤ i < Z.to_nat b)%nat →
     f fi st e s = Ret (fi, st) s) →
  0 ≤ a ≤ b → b ≤ Z.of_nat (length fs) →
  slice_iter_mutM f fs a b st e s = Ret (fs, st) s.
Proof.
  intros Hf Ha Hb. rewrite (slice_run f fs a b st id st); [|done|done|].
  - unfold map_slice. rewrite list_fmap_id, <- slice_split by lia. done.
  - set (mid := take _ _). rewrite (iter_mutM_run f id id (λ _ _, True)).
    + f_equal. by induction (length mid).
    + intros n x st' s' (i & Hi & Hx)%elem_of_slice _. split; [by eapply Hf|done].
    + done.
Qed.

(** *** One entry of the memory map *)

Section Entry.
Context (mmap pre todo : list LimineMemmapEntry) (en : LimineMemmapEntry)
  (Hok : mmap_ok mmap) (Heq : mmap = pre ++ en :: todo).

(** The slice of the array that belongs to the entry. *)
Let last := last_frame mmap.
Let a := Z.min (entry_first en) last.
Let b := Z.min (entry_limit en) last.

Lemma entry_in : en ∈ mmap.
Proof. rewrite Heq. apply elem_of_app. right. left. Qed.

Lemma entry_disjoint en' :
  en' ∈ pre → is_ram en' = true →
  entry_limit en ≤ entry_first en' ∨ entry_limit en' ≤ entry_first en.
Proof.
  intros (j & Hj)%list_elem_of_lookup Hram.
  assert (j < length pre)%nat by (by eapply lookup_lt_Some).
  destruct (mmap_disjoint _ Hok j (length pre) en' en); [| |lia|done|by right|by left].
  - rewrite Heq. by apply lookup_app_l_Some.
  - rewrite Heq. by apply list_lookup_middle.
Qed.

Lemma entry_poisoned i : covers en i = true → classify pre i = CPoisoned.
Proof. apply classify_disjoint, entry_disjoint. Qed.

Lemma entry_bounds : 0 ≤ a ≤ b ∧ b ≤ last ∧ last < 2 ^ 40.
Proof.
  pose proof (ram_top_bound mmap Hok). destruct (mmap_entry _ Hok en entry_in).
  unfold a, b, entry_first, entry_limit, last, last_frame. dlia.
Qed.

Lemma entry_slice i : a ≤ i < b → covers en i = true.
Proof. unfold a, b, covers. intros Hi. blia. Qed.

(** The entry of regular memory lies within the array. *)
Lemma entry_slice_ram i :
  is_ram en = true → i < last → (a <=? i) && (i <? b) = covers en i.
Proof.
  intros Hr Hi. pose proof (ram_top_ge mmap en entry_in Hr).
  assert (entry_limit en ≤ last) by (unfold entry_limit, last, last_frame; dlia).
  unfold a, b, covers. rewrite (Z.min_l (entry_limit en)) by lia.
  apply eq_iff_eq_true. rewrite !andb_true_iff, !Z.leb_le, !Z.ltb_lt. lia.
Qed.

(** The bounds of the slice are computed without overflow. *)
Lemma apply_entry_slice fs st e s :
  apply_entry last (fs, st) en e s
    = slice_iter_mutM (update_frame (entry_typ en)) fs a b st e s.
Proof.
  destruct (mmap_entry _ Hok en entry_in) as (? & ? & ?). unfold apply_entry.
  erewrite bind_ret_run by (apply frame_index_of_run; lia).
  erewrite bind_ret_run by (apply arith_run; lia).
  by erewrite bind_ret_run by (apply frame_index_of_run; lia).
Qed.

(** Reclassifying the slice of an entry of regular memory. *)
Lemma setup_inv_entry fs st :
  is_ram en = true →
  setup_inv (λ i, if (a <=? i) && (i <? b) then class_of_type (entry_typ en)
                  else classify pre i) last fs st →
  setup_inv (classify (pre ++ [en])) last fs st.
Proof.
  intros Hr (Hl & Hcl & Hs). split_and!; [done| |done].
  intros i fi Hi. destruct (Hcl i fi Hi) as [? Hc]. split; [done|].
  apply lookup_lt_Some in Hi. rewrite classify_snoc, Hr. simpl.
  rewrite entry_slice_ram in Hc by (done || lia).
  destruct (covers en (Z.of_nat i)) eqn:E; [by rewrite entry_poisoned|].
  by destruct (classify pre (Z.of_nat i)).
Qed.

(** Entries of other types leave the array as it is. *)
Lemma setup_inv_other fs st :
  is_ram en = false → setup_inv (classify pre) last fs st →
  setup_inv (classify (pre ++ [en])) last fs st.
Proof.
  intros Hr (Hl & Hcl & Hs). split_and!; [done| |done].
  intros i fi Hi. destruct (Hcl i fi Hi) as [? Hc]. split; [done|].
  rewrite classify_snoc, Hr. simpl. by destruct (classify pre (Z.of_nat i)).
Qed.

(** The loop over the frames of an entry of regular memory. *)
Lemma apply_ram_run g d fs st e s :
  is_ram en = true → setup_inv (classify pre) last fs st →
  (∀ fi st s, stats_room 1 st → 1 ≤ poisoned st →
     update_frame (entry_typ en) fi st e s = Ret (g fi, stats_plus st d) s) →
  (∀ n st, 0 ≤ n → stats_room (n + 1) st → n + 1 ≤ poisoned st →
     stats_room n (stats_plus st d) ∧ n ≤ poisoned (stats_plus st d)) →
  (∀ fi, has_class CPoisoned fi → has_class (class_of_type (entry_typ en)) (g fi)) →
  (∀ fi, fi_frame (g fi) = fi_frame fi) →
  delta_ok d CPoisoned (class_of_type (entry_typ en)) →
  wp e (apply_entry last (fs, st) en)
    (λ r s', s' = s ∧ setup_inv (classify (pre ++ [en])) last r.1 r.2) s.
Proof.
  intros Hr Hinv Hup Hd Hg Hfr Hdelta. pose proof Hinv as (Hlen & _).
  destruct entry_bounds as (Hab & Hb & Hl).
  pose proof (setup_inv_room _ _ _ _ a b Hinv Hab Hb Hl) as Hroom.
  assert (∀ i, a ≤ i < b → classify pre i = CPoisoned) as Hp
    by (intros; by apply entry_poisoned, entry_slice).
  eapply wp_of_run.
  - rewrite apply_entry_slice. apply (slice_stats_run _ g d _ _ a b true); auto.
    + intros n st' Hn Hr' Hl'. destruct (Hd n st' Hn Hr' (Hl' eq_refl)). auto.
    + lia.
    + intros _. by apply (setup_inv_poisoned _ _ _ _ a b Hinv).
  - split; [done|]. apply setup_inv_entry; [done|].
    by apply (setup_inv_slice _ _ _ _ a b CPoisoned).
Qed.

(** One iteration of the second loop. *)
Lemma apply_entry_run fs st e s :
  setup_inv (classify pre) last fs st →
  wp e (apply_entry last (fs, st) en)
    (λ r s', s' = s ∧ setup_inv (classify (pre ++ [en])) last r.1 r.2) s.
Proof.
  intros Hinv. destruct (is_ram en) eqn:Hr.
  - apply is_ram_spec in Hr as Htyp. destruct Htyp as [Htyp|Htyp].
    + apply (apply_ram_run mark_usable delta_usable); rewrite ?Htyp; try done.
      * intros. by apply update_usable_run.
      * intros n st'. unfold stats_room; simpl. lia.
      * apply mark_usable_class.
    + assert (class_of_type (entry_typ en) = CKernel) as Hc by (by destruct Htyp as [-> | ->]).
      apply (apply_ram_run mark_kernel delta_kernel); rewrite ?Hc; try done.
      * intros. by apply update_kernel_run.
      * intros n st'. unfold stats_room; simpl. lia.
      * apply mark_kernel_class.
  - destruct entry_bounds as (Hab & Hb & Hl). pose proof Hinv as (Hlen & Hfs & _).
    apply (wp_of_run _ _ _ _ (fs, st) s); [|split; [done|by apply setup_inv_other]].
    rewrite apply_entry_slice. apply slice_id_run; [|lia..].
    intros i fi st' s' Hi Hi'. destruct (Hfs i fi Hi) as [_ Hc].
    rewrite entry_poisoned in Hc by (apply entry_slice; lia).
    apply update_other_run; [| | |by apply Hc];
      intros Ht; assert (is_ram en = true) by (apply is_ram_spec; auto); congruence.
Qed.
End Entry.
End SetupLoops.

(** ** The whole of [setup] *)

Section Setup.
Context {BF : Bitflags} {BFS : BitflagsSpec BF} {RT : Runtime} {RTS : RuntimeSpec RT}
  {XA : X86Address} {XAS : X86AddressSpec XA} {XP : X86Paging XA}
  {LG : Logging} {LGS : LoggingSpec LG} {LY : Layout} {LYS : LayoutSpec LY}.
Implicit Types (e : Env) (mmap : list LimineMemmapEntry) (k : Kernel).

Lemma max_end_fold {S} mmap acc e (s : S) :
  (∀ en, en ∈ mmap → 0 ≤ entry_base en ∧ 0 ≤ entry_len en
                     ∧ entry_base en + entry_len en < 2 ^ 52) →
  (∀ v, acc = Some v → 0 ≤ v) →
  ∃ m, foldM max_end mmap acc e s = Ret m s
       ∧ default 0 m = Z.max (default 0 acc) (ram_top mmap).
Proof.
  revert acc. induction mmap as [|en mmap IH]; intros acc Hen Hacc; simpl.
  { exists acc. split; [done|]. destruct acc as [v|]; simpl; [|lia].
    specialize (Hacc v eq_refl). lia. }
  destruct (Hen en ltac:(left)) as (? & ? & ?).
  assert (∀ en', en' ∈ mmap → 0 ≤ entry_base en' ∧ 0 ≤ entry_len en'
            ∧ entry_base en' + entry_len en' < 2 ^ 52) as Hen' by (intros; apply Hen; by right).
  rewrite bind_run. unfold max_end at 1. destruct (is_ram en).
  - erewrite bind_ret_run by (apply arith_run; lia). unfold mret, M_ret.
    set (acc' := match acc with Some m => _ | None => _ end).
    destruct (IH (Some acc')) as (m & Hm & Hv); [done| |].
    { intros v [= <-]. unfold acc'. destruct acc as [w|]; [|lia].
      specialize (Hacc w eq_refl). lia. }
    exists m. split; [done|]. rewrite Hv. unfold acc'; simpl.
    destruct acc as [w|]; simpl; [|lia]. lia.
  - destruct (IH acc Hen' Hacc) as (m & Hm & Hv). by exists m.
Qed.

Lemma find_last_run {S} mmap e (s : S) :
  mmap_ok mmap → find_last_usable_frame_index mmap e s = Ret (last_frame mmap) s.
Proof.
  intros Hok. pose proof (ram_top_bound mmap Hok) as Htop.
  destruct (max_end_fold mmap None e s) as (m & Hm & Hv).
  { intros en Hin. by apply (mmap_entry _ Hok). }
  { done. }
  unfold find_last_usable_frame_index. rewrite bind_run, Hm. simpl in Hv.
  unfold last_frame. destruct m as [v|]; simpl in Hv.
  - rewrite frame_index_of_run by lia. by rewrite Z.max_r in Hv by lia; subst.
  - replace (ram_top mmap) with 0 by lia. done.
Qed.

Lemma array_entry_spec mmap en :
  array_entry mmap = Some en →
  en ∈ mmap ∧ entry_typ en = Usable ∧ last_frame mmap * size_of_FrameInfo ≤ entry_len en.
Proof.
  unfold array_entry. intros H. apply find_some in H as [Hin Hl].
  apply filter_In in Hin as [Hin Ht]. apply list_elem_of_In in Hin.
  apply bool_decide_eq_true in Ht. by apply Z.leb_le in Hl.
Qed.

Lemma find_array_location_run {S} mmap en e (s : S) :
  mmap_ok mmap → array_entry mmap = Some en →
  find_array_location mmap (last_frame mmap) e s
    = Ret (virt_of (0xFFFF800000000000 + entry_base en)) s.
Proof.
  intros Hok Hen. pose proof (ram_top_bound mmap Hok) as Htop.
  destruct (array_entry_spec mmap en Hen) as (Hin & Ht & _).
  assert (is_ram en = true) as Hr by (apply is_ram_spec; auto).
  pose proof (mmap_direct _ Hok en Hin Hr). destruct (mmap_entry _ Hok en Hin) as (? & ? & ?).
  pose proof size_of_Frame_pos. pose proof size_of_FrameInfo_fields.
  pose proof size_of_FrameInfo_small. unfold find_array_location.
  assert (0 ≤ last_frame mmap < 2 ^ 40) by (unfold last_frame; dlia).
  erewrite bind_ret_run by (apply arith_run; nia).
  unfold array_entry in Hen. rewrite Hen, phys_new_of by lia. simpl.
  rewrite bind_run; simpl. rewrite phys_to_virt_run; rewrite phys_of_u64 by lia; [done|lia].
Qed.

(** Exactly one entry of regular memory covers a frame. *)
Lemma classify_covers mmap en i :
  mmap_ok mmap → en ∈ mmap → is_ram en = true → covers en i = true →
  classify mmap i = class_of_type (entry_typ en).
Proof.
  intros Hok Hin Hr Hc. unfold classify. destruct (find _ mmap) as [en'|] eqn:Hf.
  - apply find_some in Hf as [Hin' [Hr' Hc']%andb_true_iff].
    apply list_elem_of_In in Hin'.
    apply list_elem_of_lookup in Hin as [j Hj], Hin' as [j' Hj'].
    destruct (decide (j = j')) as [->|Hne]; [congruence|].
    destruct (mmap_disjoint _ Hok j j' en en' Hj Hj' Hne Hr); unfold covers in *; blia.
  - apply list_elem_of_In in Hin. pose proof (find_none _ _ Hf en Hin) as Hn.
    simpl in Hn. by rewrite Hr, Hc in Hn.
Qed.

(** The slice [start..=end] that [setup] reserves for the array. *)
Definition array_first (en : LimineMemmapEntry) : Z := entry_first en.
Definition array_limit (en : LimineMemmapEntry) (last : Z) : Z :=
  array_first en + last * size_of_Frame / 4096 + 1.

Lemma array_slice_bounds mmap en :
  mmap_ok mmap → array_entry mmap = Some en → 0 < last_frame mmap →
  0 ≤ array_first en ≤ array_limit en (last_frame mmap)
  ∧ array_limit en (last_frame mmap) ≤ entry_limit en ≤ last_frame mmap.
Proof.
  intros Hok Hen Hl. destruct (array_entry_spec mmap en Hen) as (Hin & Ht & Hsz).
  assert (is_ram en = true) as Hr by (apply is_ram_spec; auto).
  pose proof (ram_top_ge mmap en Hin Hr).
  destruct (mmap_aligned _ Hok en Hin Ht) as [Hal Hal'].
  destruct (mmap_entry _ Hok en Hin) as (? & ? & ?).
  pose proof size_of_Frame_pos. pose proof size_of_FrameInfo_fields.
  assert (0 ≤ last_frame mmap * size_of_Frame < entry_len en) by nia.
  unfold array_limit, array_first, entry_first, entry_limit.
  set (n := last_frame mmap * size_of_Frame) in *. unfold last_frame. dlia.
Qed.

(** The class of every frame when [setup] returns. *)
Definition setup_class mmap (en : LimineMemmapEntry) (i : Z) : frame_class :=
  if (array_first en <=? i) && (i <? array_limit en (last_frame mmap)) then CArray
  else classify mmap i.

Lemma init_inv mmap :
  0 ≤ last_frame mmap → last_frame mmap < 2 ^ 40 →
  setup_inv (classify []) (last_frame mmap) (init_info <$> seqZ 0 (last_frame mmap))
    (stats_plus Stats_new (stats_scale (last_frame mmap) delta_init)).
Proof.
  intros Hl Hl'. set (fs := init_info <$> _).
  assert (length fs = Z.to_nat (last_frame mmap)) as Hlen
    by (unfold fs; by rewrite length_fmap, length_seqZ).
  assert (∀ fi, fi ∈ fs → has_class CPoisoned fi) as Hc
    by (intros fi (i & -> & _)%list_elem_of_fmap; apply init_info_class).
  split_and!; [lia| |].
  - intros i fi (x & -> & Hx)%list_lookup_fmap_Some.
    apply lookup_seqZ in Hx as [-> Hx]. split; [|apply init_info_class].
    unfold init_info; simpl. apply frame_at_u64. lia.
  - unfold stats_match.
    rewrite (countb_const is_poisoned fs true) by (intros fi Hi; by apply (has_class_tests _ _ (Hc fi Hi))).
    rewrite (countb_const is_kernel fs false) by (intros fi Hi; by apply (has_class_tests _ _ (Hc fi Hi))).
    rewrite (countb_const in_use fs false) by (intros fi Hi; by apply (has_class_tests _ _ (Hc fi Hi))).
    simpl. lia.
Qed.

(** The last loop: the frames found to hold the array leave the free class. *)
Lemma reserve_loop_run mmap en fs st e k :
  mmap_ok mmap → array_entry mmap = Some en → 0 < last_frame mmap →
  setup_inv (classify mmap) (last_frame mmap) fs st →
  wp e (slice_iter_mutM reserve_frame fs (array_first en)
          (array_limit en (last_frame mmap)) st)
    (λ r k', k' = k ∧ setup_inv (setup_class mmap en) (last_frame mmap) r.1 r.2) k.
Proof.
  intros Hok Hen Hl Hinv. pose proof Hinv as (Hlen & _).
  destruct (array_slice_bounds mmap en Hok Hen Hl) as (Hab & Hb & Hlast).
  destruct (array_entry_spec mmap en Hen) as (Hin & Ht & _).
  pose proof (ram_top_bound mmap Hok).
  assert (last_frame mmap < 2 ^ 40) by (unfold last_frame; dlia).
  eapply wp_of_run.
  - apply (slice_stats_run _ mark_array delta_array _ _ _ _ false); [| |done|lia| |done].
    + intros. by apply reserve_frame_run.
    + intros n st' ? Hr _. split; [|done]. unfold stats_room in *; simpl. lia.
    + by apply (setup_inv_room _ _ _ _ _ _ Hinv); [|lia|].
  - split; [done|]. apply (setup_inv_slice _ _ _ _ _ _ CFree); try done; [lia| |].
    + intros i Hi. rewrite (classify_covers mmap en i Hok Hin).
      * by rewrite Ht.
      * apply is_ram_spec; auto.
      * unfold covers, array_first in *. blia.
    + apply mark_array_class.
Qed.

Lemma setup_spec mmap en e k :
  mmap_ok mmap → array_entry mmap = Some en → 0 < last_frame mmap → k_frames k = [] →
  SERIAL ∉ held e →
  wp e (State_setup mmap)
    (λ st k', k' = set_log (k_log k') (set_frames (k_frames k') k)
      ∧ Z.of_nat (length (k_frames k')) = last_frame mmap
      ∧ (∀ i fi, k_frames k' !! i = Some fi →
           frame_u64 (fi_frame fi) = Z.of_nat i * 4096
           ∧ has_class (setup_class mmap en (Z.of_nat i)) fi)
      ∧ stats_match (k_frames k') st) k.
Proof.
  intros Hok Hen Hl Hk HL. pose proof (ram_top_bound mmap Hok).
  assert (last_frame mmap < 2 ^ 40) by (unfold last_frame; dlia).
  destruct (array_entry_spec mmap en Hen) as (Hin & Ht & _).
  assert (is_ram en = true) as Hr by (apply is_ram_spec; auto).
  pose proof (mmap_direct _ Hok en Hin Hr). destruct (mmap_entry _ Hok en Hin) as (? & ? & ?).
  destruct (array_slice_bounds mmap en Hok Hen Hl) as (Hab & Hb & Hlast).
  pose proof size_of_Frame_pos. pose proof size_of_FrameInfo_fields.
  pose proof size_of_FrameInfo_small.
  unfold State_setup. do 2 wp_step. rewrite Hk. wp_steps.
  eapply wp_of_run; [by apply find_last_run|]. apply wp_bind.
  eapply wp_of_run; [by apply find_array_location_run|].
  apply wp_bind, wp_kernel_log; [done|]. intros lg. set (k1 := set_log lg k).
  assert (virt_as_u64 (virt_of (0xFFFF800000000000 + entry_base en))
          = 0xFFFF800000000000 + entry_base en) as Hv by (apply virt_of_hhdm; lia).
  wp_steps; [rewrite virt_is_null_spec, Hv; blia|].
  eapply wp_of_run; [apply init_loop_run; lia|]. apply wp_bind.
  eapply wp_mono.
  { apply (wp_foldM _ (λ pre r k', k' = k1 ∧ setup_inv (classify pre) (last_frame mmap) r.1 r.2)).
    - split; [done|]. apply init_inv; lia.
    - intros pre en' todo [fs st] k' Heq [-> Hinv]. by eapply apply_entry_run. }
  intros [fs st] k' [-> Hinv]. cbn [fst snd] in *. apply wp_bind.
  eapply wp_of_run; [apply virt_to_phys_run; lia|]. rewrite Hv.
  replace (0xFFFF800000000000 + entry_base en - 0xFFFF800000000000)
    with (entry_base en) by lia.
  rewrite phys_of_u64 by lia. apply wp_bind.
  eapply wp_of_run; [apply frame_index_of_run; lia|].
  pose proof Hinv as (Hlen & _). rewrite Hlen. fold (array_first en).
  assert (0 ≤ last_frame mmap * size_of_Frame < 2 ^ 52) by nia.
  wp_steps; [dlia|]. fold (array_limit en (last_frame mmap)).
  eapply wp_mono; [by apply reserve_loop_run|].
  intros [fs' st'] k' [-> (Hlen' & Hfs' & Hst')]. wp_steps. done.
Qed.

(** C11: [State::setup] returns on every memory map that is well formed ([mmap_ok]: what
    the bootloader documents of usable and reclaimable entries, assumed of the kernel's
    and of modules too) and has a usable region large enough for the frame array, in both
    build profiles, unless the logger is at work: no index, subtraction or conversion of
    it panics.  The array it installs
    has one entry per frame up to the last frame of regular memory, entry [i] describes
    the frame at address [4096 * i] and has the class the memory map gives it (free if
    usable, owned by the kernel with count 1 if it holds the kernel or the bootloader,
    poisoned otherwise), except the reserved slice, which is marked as kernel memory;
    and the statistics it returns count the array exactly. *)
Theorem setup_classifies mmap en e k :
  mmap_ok mmap → array_entry mmap = Some en → 0 < last_frame mmap → k_frames k = [] →
  SERIAL ∉ held e →
  wp e (State_setup mmap)
    (λ st k', k' = set_log (k_log k') (set_frames (k_frames k') k)
      ∧ Z.of_nat (length (k_frames k')) = last_frame mmap
      ∧ (∀ i fi, k_frames k' !! i = Some fi →
           frame_u64 (fi_frame fi) = Z.of_nat i * 4096
           ∧ has_class (setup_class mmap en (Z.of_nat i)) fi)
      ∧ stats_match (k_frames k') st) k.
Proof. apply setup_spec. Qed.

(** C38: The frames that [setup] reserves for the frame array do not cover it: their
    number is computed from the size of a [Frame], while the array holds [FrameInfo]
    values.  With 1024 frames of memory or more, some frame that holds part of the
    array is left free, and can be handed out by the allocator. *)
Theorem setup_leaves_array_frame_free mmap en e k :
  mmap_ok mmap → array_entry mmap = Some en → 1024 ≤ last_frame mmap → k_frames k = [] →
  SERIAL ∉ held e →
  wp e (State_setup mmap)
    (λ st k', ∃ i fi, k_frames k' !! i = Some fi ∧ is_free fi = true
       ∧ entry_base en ≤ frame_u64 (fi_frame fi)
         < entry_base en + last_frame mmap * size_of_FrameInfo) k.
Proof.
  intros Hok Hen Hl Hk HL. eapply wp_mono; [by apply setup_spec; [..|lia| |]|].
  intros st k' (_ & Hlen & Hfs & _).
  destruct (array_entry_spec mmap en Hen) as (Hin & Ht & Hsz).
  assert (is_ram en = true) as Hr by (apply is_ram_spec; auto).
  destruct (array_slice_bounds mmap en Hok Hen ltac:(lia)) as (Hab & Hb & Hlast).
  destruct (mmap_aligned _ Hok en Hin Ht) as [Hal Hal'].
  pose proof size_of_Frame_pos. pose proof size_of_FrameInfo_fields.
  assert (last_frame mmap * size_of_Frame + 16384
            ≤ last_frame mmap * size_of_FrameInfo) by nia.
  set (i := array_limit en (last_frame mmap)) in *.
  assert (0 ≤ i < entry_limit en
          ∧ entry_base en ≤ i * 4096
            < entry_base en + last_frame mmap * size_of_FrameInfo) as [Hi Haddr].
  { unfold i, array_limit, array_first, entry_first, entry_limit in *.
    set (n := last_frame mmap * size_of_Frame) in *.
    set (m := last_frame mmap * size_of_FrameInfo) in *. dlia. }
  destruct (lookup_lt_is_Some_2 (k_frames k') (Z.to_nat i) ltac:(lia)) as [fi Hfi].
  destruct (Hfs _ _ Hfi) as [Hu Hc]. rewrite Z2Nat.id in Hu, Hc by lia.
  exists (Z.to_nat i), fi. split_and!; [done| |lia..].
  unfold setup_class in Hc. fold i in Hc. rewrite Z.ltb_irrefl, andb_false_r in Hc.
  rewrite (classify_covers mmap en i Hok Hin Hr), Ht in Hc; [apply Hc|].
  unfold covers, array_first in *. blia.
Qed.

(** When no usable region can hold the frame array, [setup] panics with its own
    message before it touches any memory. *)
Theorem setup_no_room_panics mmap e k :
  mmap_ok mmap → array_entry mmap = None → k_frames k = [] → SERIAL ∉ held e →
  State_setup mmap e k =
    Panic (PanicMsg "Could not find a free region to place the frame array!").
Proof.
  intros Hok Hen Hk HL. pose proof (ram_top_bound mmap Hok).
  pose proof size_of_Frame_pos. pose proof size_of_FrameInfo_fields.
  pose proof size_of_FrameInfo_small.
  assert (0 ≤ last_frame mmap < 2 ^ 40) by (unfold last_frame; dlia).
  unfold State_setup. erewrite bind_ret_run by reflexivity. rewrite Hk.
  erewrite bind_ret_run by reflexivity.
  erewrite bind_ret_run by (by apply find_last_run).
  unfold find_array_location. rewrite bind_run.
  erewrite (bind_ret_run (u64_mul _ _)) by (apply arith_run; nia).
  unfold array_entry in Hen. rewrite Hen. unfold mret, M_ret.
  erewrite bind_ret_run by (by apply kernel_log_run).
  by rewrite virt_is_null_spec, virt_null_spec.
Qed.
End Setup.

(** ** Reference counts of one frame *)

Section RefCount.
Context {XA : X86Address} {S : Type}.
Implicit Types (e : Env) (s : S) (fi : FrameInfo).

Lemma retain_run fi e s :
  0 ≤ fi_count fi < 2 ^ 64 - 1 →
  FrameInfo_retain fi e s = Ret (fi_set_count (fi_count fi + 1) fi) s.
Proof.
  intros H. unfold FrameInfo_retain, u64_checked.
  by assert ((0 <=? fi_count fi + 1) && (fi_count fi + 1 <? 2 ^ 64) = true) as -> by blia.
Qed.

Lemma release_run fi e s :
  1 ≤ fi_count fi < 2 ^ 64 →
  FrameInfo_release fi e s = Ret (fi_set_count (fi_count fi - 1) fi) s.
Proof.
  intros H. unfold FrameInfo_release, u64_checked.
  by assert ((0 <=? fi_count fi - 1) && (fi_count fi - 1 <? 2 ^ 64) = true) as -> by blia.
Qed.
End RefCount.

(** ** A decision procedure for [mmap_ok] *)

Definition entry_okb (en : LimineMemmapEntry) : bool :=
  (0 <=? entry_base en) && (0 <=? entry_len en)
  && (entry_base en + entry_len en <? 2 ^ 52)
  && (negb (is_ram en) || (entry_base en + entry_len en <=? 2 ^ 44 - 4096))
  && (negb (bool_decide (entry_typ en = Usable))
      || ((entry_base en mod 4096 =? 0) && (entry_len en mod 4096 =? 0))).

Definition entries_disjointb (en en' : LimineMemmapEntry) : bool :=
  negb (is_ram en || is_ram en')
  || (entry_limit en <=? entry_first en') || (entry_limit en' <=? entry_first en).

Fixpoint mmap_disjointb (mmap : list LimineMemmapEntry) : bool :=
  match mmap with
  | [] => true
  | en :: mmap' => forallb (entries_disjointb en) mmap' && mmap_disjointb mmap'
  end.

Definition mmap_okb (mmap : list LimineMemmapEntry) : bool :=
  forallb entry_okb mmap && mmap_disjointb mmap.

Lemma mmap_disjointb_sound mmap i j en en' :
  mmap_disjointb mmap = true → mmap !! i = Some en → mmap !! j = Some en' → (i < j)%nat →
  entries_disjointb en en' = true.
Proof.
  revert i j. induction mmap as [|x mmap IH]; intros [|i] [|j]; simpl; try (done || lia);
    intros [Hx Hm]%andb_true_iff Hi Hj ?; simplify_eq.
  - rewrite forallb_forall in Hx. apply Hx, list_elem_of_In, list_elem_of_lookup. eauto.
  - eapply IH; eauto. lia.
Qed.

Lemma mmap_okb_sound mmap : mmap_okb mmap = true → mmap_ok mmap.
Proof.
  intros [Hen Hd]%andb_true_iff. rewrite forallb_forall in Hen.
  assert (∀ en, en ∈ mmap → entry_okb en = true) as Hok
    by (intros; by apply Hen, list_elem_of_In).
  unfold entry_okb in Hok. split.
  - intros en Hin. specialize (Hok en Hin). blia.
  - intros en Hin Hr. specialize (Hok en Hin). rewrite Hr in Hok. simpl in Hok. blia.
  - intros en Hin Ht. specialize (Hok en Hin). rewrite bool_decide_eq_true_2 in Hok by done.
    simpl in Hok. bool_to_prop. done.
  - intros i j en en' Hi Hj Hne Hr. destruct (decide (i < j)%nat).
    + pose proof (mmap_disjointb_sound mmap i j en en' Hd Hi Hj ltac:(done)) as H.
      unfold entries_disjointb in H. rewrite Hr in H. simpl in H.
      apply orb_true_iff in H as [H|H]; bool_to_prop; lia.
    + pose proof (mmap_disjointb_sound mmap j i en' en Hd Hj Hi ltac:(lia)) as H.
      unfold entries_disjointb in H. rewrite Hr, orb_true_r in H. simpl in H.
      apply orb_true_iff in H as [H|H]; bool_to_prop; lia.
Qed.

(** ** Witnesses *)

(** A machine with 16 frames of regular memory: eight usable frames, the kernel, a
    reserved region and the bootloader's memory. *)
Definition ref_mmap : list LimineMemmapEntry :=
  [mkEntry 4096 (8 * 4096) Usable; mkEntry (9 * 4096) (2 * 4096) KernelAndModules;
   mkEntry (12 * 4096) (2 * 4096) (OtherEntry 1);
   mkEntry (14 * 4096) (2 * 4096) BootloaderReclaimable].

(** The kernel before any set-up. *)
Definition ref_boot : Kernel :=
  mkKernel [] Stats_new (λ _ _, pe_zero) [] [] None None true [] (mkLogger [] (true, 5)).

Lemma setup_classifies_witness :
  wp ref_env (State_setup ref_mmap)
    (λ st k', Z.of_nat (length (k_frames k')) = 16 ∧ stats_match (k_frames k') st
       ∧ ∀ fi, k_frames k' !! 3%nat = Some fi → has_class CFree fi) ref_boot.
Proof.
  eapply wp_mono.
  - apply (setup_classifies ref_mmap (mkEntry 4096 (8 * 4096) Usable));
      [by apply mmap_okb_sound|reflexivity|reflexivity|reflexivity|apply not_elem_of_nil].
  - intros st k' (Hk & Hlen & Hfs & Hst). split_and!; [exact Hlen|exact Hst|].
    intros fi Hfi. exact (proj2 (Hfs _ _ Hfi)).
Defined.

(** The same machine, run. *)
Example setup_run_example :
  match State_setup ref_mmap ref_env ref_boot with
  | Ret st k' => (is_free <$> k_frames k', st)
  | _ => ([], Stats_new)
  end = ([false; false; true; true; true; true; true; true; true; false; false; false;
          false; false; false; false], mkStats 16 12 5 0 5 0 4).
Proof. vm_compute. reflexivity. Qed.

(** Eight mebibytes of usable memory: the array spans 12 frames, 5 are reserved. *)
Definition ref_mmap_8m : list LimineMemmapEntry := [mkEntry 4096 (2047 * 4096) Usable].

Lemma setup_leaves_array_frame_free_witness :
  wp ref_env (State_setup ref_mmap_8m)
    (λ st k', ∃ i fi, k_frames k' !! i = Some fi ∧ is_free fi = true
       ∧ 4096 ≤ frame_u64 (fi_frame fi) < 4096 + 2048 * 24) ref_boot.
Proof.
  eapply wp_mono.
  - apply (setup_leaves_array_frame_free ref_mmap_8m (mkEntry 4096 (2047 * 4096) Usable));
      [by apply mmap_okb_sound|reflexivity|by vm_compute|reflexivity|apply not_elem_of_nil].
  - intros st k' (i & fi & Hi & Hf & Ha). exists i, fi. split_and!; [done|done|apply Ha|].
    replace (last_frame ref_mmap_8m) with 2048 in Ha by reflexivity. apply Ha.
Defined.

Lemma setup_no_room_panics_witness :
  State_setup [mkEntry 4096 4096 KernelAndModules] ref_env ref_boot =
    Panic (PanicMsg "Could not find a free region to place the frame array!").
Proof.
  apply setup_no_room_panics;
    [by apply mmap_okb_sound|reflexivity|reflexivity|apply not_elem_of_nil].
Defined.
