(* ===== verification/FrameAlloc.v ===== *)
(** * The frame allocator: [src/src/mm/frame/dummy_allocator.rs]

    The first-fit allocator over the frame array, its invariant, and its
    refinement of an abstract reference-counting allocator.  The trait
    [Allocator] of [mm/frame/mod.rs] is a class, of which this allocator is an
    instance; the page-table code is verified against the class only. *)

From S2P Require Import Prelude Machine External Reference Frame BTree Log Kernel FrameState.

(** ** The trait *)

Class Allocator {XA : X86Address} {XP : X86Paging XA} {LG : Logging} := {
  fa_setup : Stats → M Kernel unit;
  fa_allocate : Z → M Kernel (option Frame);
  fa_allocate_range : Z → Z → M Kernel (option Range);
  fa_reference : Frame → M Kernel unit;
  fa_deallocate : Frame → M Kernel unit;
  fa_deallocate_range : Range → M Kernel unit;
  fa_statistics : M Kernel Stats
}.

Section AllocatorDefs.
Context {BF : Bitflags} {RT : Runtime} {XA : X86Address} {XP : X86Paging XA} {LG : Logging}
  {XC : X86Cpu}.

Definition Allocator_new : Stats := Stats_new.

Definition Allocator_setup (statistic : Stats) : M Kernel unit :=
  modify (set_stats statistic).

(** [self.statistic.field += 1], and the like. *)
Definition update_statistic (f : Stats → M Kernel Stats) : M Kernel unit :=
  st ← gets k_stats;
  st' ← f st;
  modify (set_stats st').

(** What [allocate] and [allocate_range] do to a frame they hand out. *)
Definition take_frame (flags : Z) (frame : FrameInfo) : M Kernel FrameInfo :=
  update_statistic (stat_incr allocated set_allocated);;
  frame ←
    (if bf_contains flags AllocationFlags_KERNEL then
       update_statistic (stat_incr kernel set_kernel);;
       mret (fi_insert FrameFlags_KERNEL frame)
     else mret frame);
  (if bf_contains flags AllocationFlags_ZEROED then
     v ← phys_to_virt (Frame_start (fi_frame frame));
     modify (λ k, set_mem (mem_zero_page (resolve (virt_as_ptr v)) (k_mem k)) k)
   else mret tt);;
  FrameInfo_retain (fi_remove FrameFlags_FREE frame).

Definition Allocator_allocate (flags : Z) : M Kernel (option Frame) :=
  irq_without (with_lock FRAME_STATE (
    array ← gets k_frames;
    match list_find (λ frame, is_free frame = true) array with
    | None => mret None
    | Some (i, frame) =>
        frame ← take_frame flags frame;
        modify (λ k, set_frames (<[i:=frame]> (k_frames k)) k);;
        mret (Some (fi_frame frame))
    end)).

(** [array[i]]. *)
Definition array_index (array : list FrameInfo) (i : Z) : M Kernel FrameInfo :=
  match array !! Z.to_nat i with
  | Some x => mret x
  | None => panic_with IndexOutOfBounds
  end.

(** The [while] loop of [allocate_range], from index [i]. *)
Fixpoint allocate_range_loop (fuel : nat) (count flags i : Z)
  : M Kernel (option Range) :=
  match fuel with
  | O => panic_with FuelExhausted
  | S fuel' =>
      array ← gets k_frames;
      n ← u64_add i count;
      if n <=? Z.of_nat (length array) then
        if forallb is_free (take (Z.to_nat count) (drop (Z.to_nat i) array)) then
          r ← slice_iter_mutM
                (λ frame (_ : unit), frame ← take_frame flags frame; mret (frame, tt))
                array i n tt;
          modify (set_frames r.1);;
          first ← array_index r.1 i;
          limit ← array_index r.1 n;
          mret (Some (mkRange (fi_frame first) (fi_frame limit)))
        else
          i' ← u64_add i 1;
          allocate_range_loop fuel' count flags i'
      else mret None
  end.

Definition Allocator_allocate_range (count flags : Z) : M Kernel (option Range) :=
  irq_without (with_lock FRAME_STATE (
    array ← gets k_frames;
    allocate_range_loop (S (S (length array))) count flags 0)).

Definition Allocator_reference (frame : Frame) : M Kernel unit :=
  irq_without (with_lock FRAME_STATE (
    array ← gets k_frames;
    fi ← unwrap (get_frame_info array (Frame_start frame));
    assert_ (0 <? fi_count fi) "Referencing a frame that is not allocated";;
    fi ← FrameInfo_retain fi;
    modify (λ k, set_frames
      (<[Z.to_nat (phys_frame_index (Frame_start frame)) := fi]> (k_frames k)) k))).

Definition Allocator_deallocate (frame : Frame) : M Kernel unit :=
  irq_without (with_lock FRAME_STATE (
    array ← gets k_frames;
    fi ← expect (get_frame_info array (Frame_start frame)) "Invalid frame address";
    assert_ (negb (fi_count fi =? 0)) "Physical frame deallocated too many times";;
    fi ← FrameInfo_release fi;
    fi ←
      (if fi_count fi =? 0 then
         fi ← (if fi_contains FrameFlags_KERNEL fi then
                 update_statistic (stat_decr kernel set_kernel);;
                 mret (fi_remove FrameFlags_KERNEL fi)
               else mret fi);
         update_statistic (stat_decr allocated set_allocated);;
         mret (fi_insert FrameFlags_FREE (fi_remove FrameFlags_KERNEL fi))
       else mret fi);
    modify (λ k, set_frames
      (<[Z.to_nat (phys_frame_index (Frame_start frame)) := fi]> (k_frames k)) k))).

Definition Allocator_deallocate_range (range : Range) : M Kernel unit :=
  Range_for (Range_fuel range) range Allocator_deallocate.

Definition Allocator_statistics : M Kernel Stats := gets k_stats.

#[global] Instance dummy_allocator : Allocator := {|
  fa_setup := Allocator_setup;
  fa_allocate := Allocator_allocate;
  fa_allocate_range := Allocator_allocate_range;
  fa_reference := Allocator_reference;
  fa_deallocate := Allocator_deallocate;
  fa_deallocate_range := Allocator_deallocate_range;
  fa_statistics := Allocator_statistics
|}.
End AllocatorDefs.

(** ** The invariant *)

Section Invariant.
Context {BF : Bitflags} {XA : X86Address} {XP : X86Paging XA} {LG : Logging}.

(** Entry [i] describes the frame at address [4096 * i]; a free frame has no
    owner and is not kernel memory, and a poisoned frame is never handed out. *)
Definition frame_ok (i : nat) (fi : FrameInfo) : Prop :=
  frame_u64 (fi_frame fi) = Z.of_nat i * 4096
  ∧ 0 ≤ fi_count fi < 2 ^ 64
  ∧ (is_free fi = true → fi_count fi = 0 ∧ is_kernel fi = false ∧ is_poisoned fi = false)
  ∧ (is_poisoned fi = true → fi_count fi = 0 ∧ is_kernel fi = false).

Record alloc_inv (k : Kernel) : Prop := {
  inv_frames i fi : k_frames k !! i = Some fi → frame_ok i fi;
  inv_stats : stats_match (k_frames k) (k_stats k);
  inv_size : Z.of_nat (length (k_frames k)) * 4096 ≤ 2 ^ 44
}.

(** The frame at address [a] has an owner. *)
Definition frame_count (k : Kernel) (i : nat) : Z :=
  match k_frames k !! i with Some fi => fi_count fi | None => 0 end.
End Invariant.

Section AllocatorRuns.
Context {BF : Bitflags} {BFS : BitflagsSpec BF} {RT : Runtime} {RTS : RuntimeSpec RT}
  {XA : X86Address} {XAS : X86AddressSpec XA} {XP : X86Paging XA} {LG : Logging}
  {XC : X86Cpu} {XCS : X86CpuSpec XC}.
Implicit Types (e : Env) (k : Kernel) (fi : FrameInfo) (flags : Z) (i : nat).

(** *** [take_frame] *)

Definition taken_info flags fi : FrameInfo :=
  let fi := if bf_contains flags AllocationFlags_KERNEL
            then fi_insert FrameFlags_KERNEL fi else fi in
  fi_set_count (fi_count fi + 1) (fi_remove FrameFlags_FREE fi).

Definition taken_stats flags (st : Stats) : Stats :=
  let st := set_allocated (allocated st + 1) st in
  if bf_contains flags AllocationFlags_KERNEL then set_kernel (kernel st + 1) st else st.

Definition taken_mem flags (page : Z) (m : memory) : memory :=
  if bf_contains flags AllocationFlags_ZEROED then mem_zero_page page m else m.

Lemma update_statistic_run f e k st' :
  f (k_stats k) e k = Ret st' k → update_statistic f e k = Ret tt (set_stats st' k).
Proof.
  intros H. unfold update_statistic. erewrite bind_ret_run by reflexivity.
  by erewrite bind_ret_run by exact H.
Qed.

Lemma incr_allocated_run e k :
  0 ≤ allocated (k_stats k) < 2 ^ 64 - 1 →
  update_statistic (stat_incr allocated set_allocated) e k
    = Ret tt (set_stats (set_allocated (allocated (k_stats k) + 1) (k_stats k)) k).
Proof. intros. apply update_statistic_run, stat_incr_run; lia. Qed.

Lemma incr_kernel_run e k :
  0 ≤ kernel (k_stats k) < 2 ^ 64 - 1 →
  update_statistic (stat_incr kernel set_kernel) e k
    = Ret tt (set_stats (set_kernel (kernel (k_stats k) + 1) (k_stats k)) k).
Proof. intros. apply update_statistic_run, stat_incr_run; lia. Qed.

(** Zeroing the page behind a frame of the direct map. *)
Lemma zero_frame_run fi e k :
  frame_u64 (fi_frame fi) < 2 ^ 44 →
  (v ← phys_to_virt (Frame_start (fi_frame fi));
   modify (λ k, set_mem (mem_zero_page (resolve (virt_as_ptr v)) (k_mem k)) k)) e k
    = Ret tt (set_mem (mem_zero_page (frame_u64 (fi_frame fi)) (k_mem k)) k).
Proof.
  intros Hf. pose proof (frame_u64_bound (fi_frame fi)). unfold frame_u64, Frame_start in *.
  erewrite bind_ret_run by (apply phys_to_virt_run; lia).
  unfold modify. rewrite virt_as_ptr_spec, virt_of_hhdm, resolve_hhdm by lia. done.
Qed.

Lemma take_frame_run flags fi e k :
  frame_u64 (fi_frame fi) < 2 ^ 44 → 0 ≤ fi_count fi < 2 ^ 64 - 1 →
  0 ≤ allocated (k_stats k) < 2 ^ 64 - 1 → 0 ≤ kernel (k_stats k) < 2 ^ 64 - 1 →
  take_frame flags fi e k =
    Ret (taken_info flags fi)
      (set_mem (taken_mem flags (frame_u64 (fi_frame fi)) (k_mem k))
        (set_stats (taken_stats flags (k_stats k)) k)).
Proof.
  intros Hf Hc Ha Hk. unfold take_frame, taken_info, taken_stats, taken_mem.
  erewrite bind_ret_run by (by apply incr_allocated_run).
  rewrite bind_run. destruct (bf_contains flags AllocationFlags_KERNEL).
  - erewrite bind_ret_run by (by apply incr_kernel_run). unfold mret, M_ret.
    rewrite bind_run. destruct (bf_contains flags AllocationFlags_ZEROED).
    + rewrite zero_frame_run by done. by rewrite retain_run.
    + unfold mret, M_ret. rewrite retain_run by done. by destruct k.
  - unfold mret, M_ret. rewrite bind_run.
    destruct (bf_contains flags AllocationFlags_ZEROED).
    + rewrite zero_frame_run by done. by rewrite retain_run.
    + rewrite retain_run by done. by destruct k.
Qed.

(** Flags of a frame that has just been taken. *)
Lemma taken_info_flags flags fi :
  is_free (taken_info flags fi) = false
  ∧ is_kernel (taken_info flags fi)
      = is_kernel fi || bf_contains flags AllocationFlags_KERNEL
  ∧ is_poisoned (taken_info flags fi) = is_poisoned fi
  ∧ fi_count (taken_info flags fi) = fi_count fi + 1
  ∧ fi_frame (taken_info flags fi) = fi_frame fi.
Proof.
  unfold taken_info, is_free, is_kernel, is_poisoned, fi_contains, fi_insert, fi_remove,
    fi_set_count, fi_set_flags.
  unfold FrameFlags_FREE, FrameFlags_KERNEL, FrameFlags_POISONED.
  destruct (bf_contains flags AllocationFlags_KERNEL); simpl; flag_simpl; done.
Qed.

Lemma taken_info_ok flags i fi :
  frame_ok i fi → is_free fi = true → frame_ok i (taken_info flags fi).
Proof.
  intros (Ha & Hc & Hf & Hp) Hfree. destruct (Hf Hfree) as (Hc0 & Hk0 & Hp0).
  destruct (taken_info_flags flags fi) as (H1 & H2 & H3 & H4 & H5).
  unfold frame_ok. rewrite H1, H3, H4, H5, Hc0, Hp0. split_and!; done || lia.
Qed.

Lemma taken_info_in_use flags fi : 0 ≤ fi_count fi → in_use (taken_info flags fi) = true.
Proof.
  intros Hc. unfold in_use. destruct (taken_info_flags flags fi) as (_ & _ & _ & -> & _).
  rewrite (proj2 (Z.ltb_lt 0 (fi_count fi + 1))) by lia. apply orb_true_r.
Qed.
End AllocatorRuns.

Section AllocatorSpecs.
Context {BF : Bitflags} {BFS : BitflagsSpec BF} {RT : Runtime} {RTS : RuntimeSpec RT}
  {XA : X86Address} {XAS : X86AddressSpec XA} {XP : X86Paging XA} {LG : Logging}
  {XC : X86Cpu} {XCS : X86CpuSpec XC}.
Implicit Types (e : Env) (k : Kernel) (fi : FrameInfo) (flags : Z) (i : nat).

Lemma inv_frame_bound k i fi :
  alloc_inv k → k_frames k !! i = Some fi →
  frame_u64 (fi_frame fi) = Z.of_nat i * 4096 ∧ Z.of_nat i * 4096 < 2 ^ 44.
Proof.
  intros Hinv Hi. destruct (inv_frames k Hinv i fi Hi) as (-> & _).
  pose proof (inv_size k Hinv). apply lookup_lt_Some in Hi. lia.
Qed.

(** *** [allocate] *)

(** The state after frame [i] was handed out. *)
Definition take_state flags i fi k : Kernel :=
  set_frames (<[i := taken_info flags fi]> (k_frames k))
    (set_mem (taken_mem flags (frame_u64 (fi_frame fi)) (k_mem k))
      (set_stats (taken_stats flags (k_stats k)) k)).

Lemma free_not_in_use i fi : frame_ok i fi → is_free fi = true → in_use fi = false.
Proof.
  intros (_ & _ & Hf & _) Hfree. destruct (Hf Hfree) as (Hc & Hk & _).
  unfold in_use. by rewrite Hc, Hk.
Qed.

Lemma stats_bounds k :
  alloc_inv k → 0 ≤ allocated (k_stats k) < 2 ^ 64 - 1
                ∧ 0 ≤ kernel (k_stats k) < 2 ^ 64 - 1.
Proof.
  intros Hinv. destruct (inv_stats k Hinv) as (_ & _ & _ & -> & -> & _).
  pose proof (inv_size k Hinv). pose proof (countb_bounds in_use (k_frames k)).
  pose proof (countb_bounds is_kernel (k_frames k)). lia.
Qed.

Lemma take_state_inv flags i fi k :
  alloc_inv k → k_frames k !! i = Some fi → is_free fi = true →
  alloc_inv (take_state flags i fi k).
Proof.
  intros Hinv Hi Hfree. pose proof (inv_frames k Hinv i fi Hi) as Hok.
  pose proof (free_not_in_use i fi Hok Hfree) as Hnu.
  destruct Hok as (_ & Hcnt & Hf & _). destruct (Hf Hfree) as (Hc0 & Hk0 & Hp0).
  destruct (taken_info_flags flags fi) as (H1 & H2 & H3 & H4 & H5). split.
  - intros j fj. simpl. rewrite list_lookup_insert. case_decide as Hij.
    + destruct Hij as [-> _]. intros [= <-]. apply taken_info_ok; [|done].
      by apply (inv_frames k Hinv).
    + apply (inv_frames k Hinv).
  - destruct (inv_stats k Hinv) as (Ht & Hp & Hu & Ha & Hk & Hr & Hb).
    unfold stats_match. simpl.
    rewrite length_insert, !(countb_insert _ _ i fi) by done.
    rewrite (taken_info_in_use flags fi) by lia. rewrite H2, H3, Hnu, Hk0, Hp0.
    unfold taken_stats. destruct (bf_contains flags AllocationFlags_KERNEL); simpl; lia.
  - simpl. rewrite length_insert. apply (inv_size k Hinv).
Qed.

Lemma allocate_run flags e k :
  alloc_inv k → FRAME_STATE ∉ held e →
  Allocator_allocate flags e k =
    match list_find (λ fi, is_free fi = true) (k_frames k) with
    | None => Ret None k
    | Some (i, fi) => Ret (Some (fi_frame fi)) (take_state flags i fi k)
    end.
Proof.
  intros Hinv Hl. unfold Allocator_allocate.
  rewrite irq_without_run, with_lock_free by done.
  erewrite bind_ret_run by reflexivity.
  destruct (list_find _ (k_frames k)) as [[i fi]|] eqn:Hf; [|done].
  apply list_find_Some in Hf as (Hi & Hfree & _).
  destruct (inv_frame_bound k i fi Hinv Hi) as [Ha Hb].
  destruct (inv_frames k Hinv i fi Hi) as (_ & Hcnt & Hfr & _).
  destruct (Hfr Hfree) as (Hc0 & _). destruct (stats_bounds k Hinv).
  erewrite bind_ret_run by (apply take_frame_run; lia).
  erewrite bind_ret_run by reflexivity.
  by destruct (taken_info_flags flags fi) as (_ & _ & _ & _ & ->).
Qed.

(** *** [reference] and [deallocate] *)

Lemma get_frame_info_spec k (frame : Frame) :
  get_frame_info (k_frames k) (Frame_start frame)
    = k_frames k !! Z.to_nat (frame_u64 frame / 4096).
Proof. unfold get_frame_info. by rewrite phys_frame_index_spec. Qed.

Definition reference_state i fi k : Kernel :=
  set_frames (<[i := fi_set_count (fi_count fi + 1) fi]> (k_frames k)) k.

Lemma reference_run (frame : Frame) e k :
  FRAME_STATE ∉ held e →
  Allocator_reference frame e k =
    match k_frames k !! Z.to_nat (frame_u64 frame / 4096) with
    | None => Panic UnwrapNone
    | Some fi =>
        if 0 <? fi_count fi then
          match FrameInfo_retain fi (acquire FRAME_STATE (irqs_off e)) k with
          | Ret _ _ => Ret tt (reference_state (Z.to_nat (frame_u64 frame / 4096)) fi k)
          | Panic p => Panic p
          | Deadlock l => Deadlock l
          | Halted s => Halted s
          end
        else Panic (PanicMsg "Referencing a frame that is not allocated")
    end.
Proof.
  intros Hl. unfold Allocator_reference.
  rewrite irq_without_run, with_lock_free by done.
  erewrite bind_ret_run by reflexivity. rewrite get_frame_info_spec.
  destruct (k_frames k !! _) as [fi|]; [|done]. simpl. rewrite bind_run; simpl.
  destruct (0 <? fi_count fi); [|done]. rewrite bind_run; simpl. rewrite bind_run.
  unfold FrameInfo_retain, u64_checked.
  destruct ((0 <=? fi_count fi + 1) && (fi_count fi + 1 <? 2 ^ 64)); [|done].
  simpl. by rewrite phys_frame_index_spec.
Qed.

Lemma reference_state_inv i fi k :
  alloc_inv k → k_frames k !! i = Some fi → 0 < fi_count fi < 2 ^ 64 - 1 →
  alloc_inv (reference_state i fi k).
Proof.
  intros Hinv Hi Hc. pose proof (inv_frames k Hinv i fi Hi) as (Ha & _ & Hf & Hp). split.
  - intros j fj. simpl. rewrite list_lookup_insert. case_decide as Hij.
    + destruct Hij as [-> _]. intros [= <-]. split_and!; simpl; [done|lia|lia| |].
      * intros Hfree. by destruct (Hf Hfree); lia.
      * intros Hpo. by destruct (Hp Hpo); lia.
    + apply (inv_frames k Hinv).
  - destruct (inv_stats k Hinv) as (Ht & Hpo & Hu & Hal & Hk & Hr & Hb).
    unfold stats_match; simpl. rewrite length_insert, !(countb_insert _ _ i fi) by done.
    assert (in_use (fi_set_count (fi_count fi + 1) fi) = in_use fi) as ->.
    { unfold in_use; simpl. rewrite (proj2 (Z.ltb_lt 0 (fi_count fi + 1))) by lia.
      by rewrite (proj2 (Z.ltb_lt 0 (fi_count fi))) by lia. }
    unfold is_kernel, is_poisoned, fi_contains in *; simpl. lia.
  - simpl. rewrite length_insert. apply (inv_size k Hinv).
Qed.

(** What [deallocate] makes of a frame that loses its last owner. *)
Definition freed_info fi : FrameInfo :=
  fi_set_count 0 (fi_insert FrameFlags_FREE (fi_remove FrameFlags_KERNEL fi)).

Definition freed_stats fi (st : Stats) : Stats :=
  let st := if is_kernel fi then set_kernel (kernel st - 1) st else st in
  set_allocated (allocated st - 1) st.

Definition release_state i fi k : Kernel :=
  if fi_count fi =? 1 then
    set_frames (<[i := freed_info fi]> (k_frames k)) (set_stats (freed_stats fi (k_stats k)) k)
  else set_frames (<[i := fi_set_count (fi_count fi - 1) fi]> (k_frames k)) k.

Lemma remove_idem fi :
  fi_remove FrameFlags_KERNEL (fi_remove FrameFlags_KERNEL fi) = fi_remove FrameFlags_KERNEL fi.
Proof.
  unfold fi_remove, fi_set_flags, FrameFlags_KERNEL; simpl fi_flags; simpl fi_frame.
  f_equal. apply remove_absent; [lia|].
  rewrite bf_remove_spec, testbit_flag by lia. by rewrite Z.eqb_refl, andb_false_r.
Qed.

(** The statistics updates of the last [deallocate] stay in range. *)
Lemma freed_stats_run fi e k :
  1 ≤ allocated (k_stats k) < 2 ^ 64 → (is_kernel fi = true → 1 ≤ kernel (k_stats k) < 2 ^ 64) →
  (fi ← (if fi_contains FrameFlags_KERNEL fi then
           update_statistic (stat_decr kernel set_kernel);;
           mret (fi_remove FrameFlags_KERNEL fi)
         else mret fi);
   update_statistic (stat_decr allocated set_allocated);;
   mret (fi_insert FrameFlags_FREE (fi_remove FrameFlags_KERNEL fi))) e k
  = Ret (fi_insert FrameFlags_FREE (fi_remove FrameFlags_KERNEL fi))
      (set_stats (freed_stats fi (k_stats k)) k).
Proof.
  intros Ha Hk. unfold freed_stats. fold (is_kernel fi). rewrite bind_run.
  destruct (is_kernel fi) eqn:Hker.
  - erewrite bind_ret_run by (apply update_statistic_run, stat_decr_run; auto).
    unfold mret, M_ret.
    erewrite bind_ret_run by (apply update_statistic_run, stat_decr_run; simpl; lia).
    by rewrite remove_idem.
  - unfold mret, M_ret.
    by erewrite bind_ret_run by (apply update_statistic_run, stat_decr_run; simpl; lia).
Qed.

Lemma deallocate_run (frame : Frame) i fi e k :
  alloc_inv k → FRAME_STATE ∉ held e → i = Z.to_nat (frame_u64 frame / 4096) →
  k_frames k !! i = Some fi →
  Allocator_deallocate frame e k =
    if fi_count fi =? 0 then Panic (PanicMsg "Physical frame deallocated too many times")
    else Ret tt (release_state i fi k).
Proof.
  intros Hinv Hl -> Hi. destruct (inv_frames k Hinv _ fi Hi) as (_ & Hc & _).
  destruct (stats_bounds k Hinv) as [Ha Hk].
  destruct (inv_stats k Hinv) as (_ & _ & _ & Hal & Hke & _).
  unfold Allocator_deallocate. rewrite irq_without_run, with_lock_free by done.
  erewrite bind_ret_run by reflexivity. rewrite get_frame_info_spec, Hi. simpl.
  rewrite bind_run; simpl. destruct (Z.eqb_spec (fi_count fi) 0) as [|Hc0]; [done|]. simpl.
  rewrite bind_run; simpl. erewrite bind_ret_run by (apply release_run; lia). simpl.
  rewrite phys_frame_index_spec. unfold release_state.
  destruct (Z.eqb_spec (fi_count fi) 1) as [Hc1|Hc1].
  - rewrite (proj2 (Z.eqb_eq (fi_count fi - 1) 0)) by lia. rewrite bind_run.
    assert (in_use fi = true) as Hu
      by (unfold in_use; rewrite (proj2 (Z.ltb_lt 0 _)) by lia; apply orb_true_r).
    rewrite freed_stats_run.
    + unfold freed_info, fi_set_count, fi_insert, fi_remove, fi_set_flags; simpl.
      unfold freed_stats, is_kernel, fi_contains; simpl. by rewrite Hc1.
    + pose proof (countb_pos in_use _ _ _ Hi Hu). lia.
    + intros Hker. pose proof (countb_pos is_kernel _ _ _ Hi Hker). lia.
  - by rewrite (proj2 (Z.eqb_neq (fi_count fi - 1) 0)) by lia.
Qed.
End AllocatorSpecs.

Section Release.
Context {BF : Bitflags} {BFS : BitflagsSpec BF} {XA : X86Address}
  {XAS : X86AddressSpec XA} {XP : X86Paging XA} {LG : Logging}.
Implicit Types (k : Kernel) (fi : FrameInfo) (i : nat).

Lemma freed_info_flags fi :
  is_free (freed_info fi) = true ∧ is_kernel (freed_info fi) = false
  ∧ is_poisoned (freed_info fi) = is_poisoned fi ∧ fi_count (freed_info fi) = 0
  ∧ fi_frame (freed_info fi) = fi_frame fi.
Proof.
  unfold freed_info, is_free, is_kernel, is_poisoned, fi_contains, fi_insert, fi_remove,
    fi_set_count, fi_set_flags.
  unfold FrameFlags_FREE, FrameFlags_KERNEL, FrameFlags_POISONED. simpl; flag_simpl.
  done.
Qed.

Lemma owned_not_poisoned i fi :
  frame_ok i fi → 0 < fi_count fi → is_poisoned fi = false ∧ is_free fi = false.
Proof.
  intros (_ & _ & Hf & Hp) Hc. split.
  - destruct (is_poisoned fi); [|done]. destruct (Hp eq_refl). lia.
  - destruct (is_free fi); [|done]. destruct (Hf eq_refl). lia.
Qed.

Lemma in_use_count fi : 0 < fi_count fi → in_use fi = true.
Proof.
  intros H. unfold in_use. rewrite (proj2 (Z.ltb_lt 0 _) H). apply orb_true_r.
Qed.

(** The last owner leaves: the frame is free again, and the statistics follow. *)
Lemma freed_state_inv i fi k :
  alloc_inv k → k_frames k !! i = Some fi → fi_count fi = 1 →
  alloc_inv (set_frames (<[i := freed_info fi]> (k_frames k))
               (set_stats (freed_stats fi (k_stats k)) k)).
Proof.
  intros Hinv Hi Hc. pose proof (inv_frames k Hinv i fi Hi) as Hok.
  destruct (owned_not_poisoned i fi Hok ltac:(lia)) as [Hnp Hnf].
  destruct (freed_info_flags fi) as (F1 & F2 & F3 & F4 & F5). split.
  - intros j fj. simpl. rewrite list_lookup_insert. case_decide as Hij.
    + destruct Hij as [-> _]. intros [= <-].
      unfold frame_ok. rewrite F2, F3, F4, F5, Hnp. destruct Hok. split_and!; done || lia.
    + apply (inv_frames k Hinv).
  - destruct (inv_stats k Hinv) as (Ht & Hpo & Hu & Hal & Hk & Hr & Hb).
    unfold stats_match; simpl. rewrite length_insert, !(countb_insert _ _ i fi) by done.
    rewrite (in_use_count fi) by lia.
    assert (in_use (freed_info fi) = false) as -> by (unfold in_use; by rewrite F2, F4).
    rewrite F2, F3. unfold freed_stats. destruct (is_kernel fi); simpl; lia.
  - simpl. rewrite length_insert. apply (inv_size k Hinv).
Qed.

Lemma released_state_inv i fi k :
  alloc_inv k → k_frames k !! i = Some fi → 1 < fi_count fi →
  alloc_inv (set_frames (<[i := fi_set_count (fi_count fi - 1) fi]> (k_frames k)) k).
Proof.
  intros Hinv Hi Hc. pose proof (inv_frames k Hinv i fi Hi) as (Ha & Hc' & Hf & Hp). split.
  - intros j fj. simpl. rewrite list_lookup_insert. case_decide as Hij.
    + destruct Hij as [-> _]. intros [= <-]. unfold frame_ok; simpl.
      split_and!; [done|lia|lia| |].
      * intros Hfree. destruct (Hf Hfree). lia.
      * intros Hpo. destruct (Hp Hpo). lia.
    + apply (inv_frames k Hinv).
  - destruct (inv_stats k Hinv) as (Ht & Hpo & Hu & Hal & Hk & Hr & Hb).
    unfold stats_match; simpl. rewrite length_insert, !(countb_insert _ _ i fi) by done.
    rewrite !in_use_count by (simpl; lia).
    unfold is_kernel, is_poisoned, fi_contains in *; simpl. lia.
  - simpl. rewrite length_insert. apply (inv_size k Hinv).
Qed.

Lemma release_state_inv i fi k :
  alloc_inv k → k_frames k !! i = Some fi → 1 ≤ fi_count fi →
  alloc_inv (release_state i fi k).
Proof.
  intros Hinv Hi Hc. unfold release_state. destruct (Z.eqb_spec (fi_count fi) 1).
  - by apply freed_state_inv.
  - apply released_state_inv; [done..|lia].
Qed.
End Release.

(** ** The abstract allocator *)

(** A pool of frames: each is free, owned by a number of references, or not
    managed. *)
Inductive slot := SFree | SLive (n : Z) | SNone.

Inductive op := OpAllocate | OpReference (i : nat) | OpDeallocate (i : nat).
Inductive resp := RFrame (o : option nat) | RUnit | RPanic.

(** What a client may observe, and how the pool changes.  Any free frame may be
    handed out; only a frame that has an owner may be referenced or released. *)
Inductive abs_step : list slot → op → resp → list slot → Prop :=
  | abs_allocate a i :
      a !! i = Some SFree →
      abs_step a OpAllocate (RFrame (Some i)) (<[i := SLive 1]> a)
  | abs_allocate_none a :
      (∀ i, a !! i ≠ Some SFree) → abs_step a OpAllocate (RFrame None) a
  | abs_reference a i n :
      a !! i = Some (SLive n) → n < 2 ^ 64 - 1 →
      abs_step a (OpReference i) RUnit (<[i := SLive (n + 1)]> a)
  | abs_reference_full a i n :
      a !! i = Some (SLive n) → 2 ^ 64 - 1 ≤ n → abs_step a (OpReference i) RPanic a
  | abs_reference_bad a i :
      (∀ n, a !! i ≠ Some (SLive n)) → abs_step a (OpReference i) RPanic a
  | abs_deallocate a i n :
      a !! i = Some (SLive n) → 1 < n →
      abs_step a (OpDeallocate i) RUnit (<[i := SLive (n - 1)]> a)
  | abs_deallocate_last a i :
      a !! i = Some (SLive 1) → abs_step a (OpDeallocate i) RUnit (<[i := SFree]> a)
  | abs_deallocate_bad a i :
      (∀ n, a !! i ≠ Some (SLive n)) → abs_step a (OpDeallocate i) RPanic a.

Section Refinement.
Context {BF : Bitflags} {BFS : BitflagsSpec BF} {RT : Runtime} {RTS : RuntimeSpec RT}
  {XA : X86Address} {XAS : X86AddressSpec XA} {XP : X86Paging XA} {LG : Logging}
  {XC : X86Cpu} {XCS : X86CpuSpec XC}.
Implicit Types (e : Env) (k : Kernel) (fi : FrameInfo) (i : nat) (o : op).

Definition slot_of (fi : FrameInfo) : slot :=
  if 0 <? fi_count fi then SLive (fi_count fi)
  else if is_free fi then SFree else SNone.

Definition abs_of (k : Kernel) : list slot := slot_of <$> k_frames k.

(** One call to the allocator, on the frame of index [i], with its response. *)
Definition exec_op (flags : Z) o : M Kernel resp :=
  match o with
  | OpAllocate =>
      f ← Allocator_allocate flags;
      mret (RFrame ((λ f, Z.to_nat (frame_u64 f / 4096)) <$> f))
  | OpReference i => Allocator_reference (frame_at (Z.of_nat i * 4096));; mret RUnit
  | OpDeallocate i => Allocator_deallocate (frame_at (Z.of_nat i * 4096));; mret RUnit
  end.

Lemma slot_live fi i n :
  frame_ok i fi → slot_of fi = SLive n ↔ n = fi_count fi ∧ 0 < n.
Proof.
  intros (_ & Hc & _). unfold slot_of. destruct (Z.ltb_spec 0 (fi_count fi)); split.
  - by intros [= <-].
  - by intros [-> _].
  - by destruct (is_free fi).
  - lia.
Qed.

Lemma slot_free fi i : frame_ok i fi → slot_of fi = SFree ↔ is_free fi = true.
Proof.
  intros (_ & Hc & Hf & _). unfold slot_of. destruct (is_free fi).
  - destruct (Hf eq_refl) as [-> _]. done.
  - by destruct (0 <? fi_count fi).
Qed.

Lemma abs_of_lookup k i : abs_of k !! i = slot_of <$> k_frames k !! i.
Proof. apply list_lookup_fmap. Qed.

Lemma abs_of_insert k i fi :
  abs_of (set_frames (<[i := fi]> (k_frames k)) k) = <[i := slot_of fi]> (abs_of k).
Proof. unfold abs_of. simpl. apply list_fmap_insert. Qed.

Lemma frame_at_index i :
  Z.of_nat i * 4096 < 2 ^ 52 →
  Z.to_nat (frame_u64 (frame_at (Z.of_nat i * 4096)) / 4096) = i.
Proof. intros H. rewrite frame_at_u64 by lia. rewrite Z.div_mul by done. lia. Qed.

(** Calls that return change the pool as the abstract allocator does; calls
    that panic are those the abstract allocator refuses. *)
Lemma exec_allocate flags e k :
  alloc_inv k → FRAME_STATE ∉ held e →
  ∃ r k', exec_op flags OpAllocate e k = Ret r k' ∧ alloc_inv k'
          ∧ abs_step (abs_of k) OpAllocate r (abs_of k').
Proof.
  intros Hinv Hl. unfold exec_op. rewrite bind_run, allocate_run by done.
  destruct (list_find _ (k_frames k)) as [[i fi]|] eqn:Hf.
  - apply list_find_Some in Hf as (Hi & Hfree & _).
    pose proof (inv_frames k Hinv i fi Hi) as Hok.
    exists (RFrame (Some i)), (take_state flags i fi k). split_and!.
    + simpl. destruct (inv_frame_bound k i fi Hinv Hi) as [-> _].
      by rewrite Z.div_mul, Nat2Z.id by done.
    + by apply take_state_inv.
    + replace (abs_of (take_state flags i fi k)) with (<[i:=SLive 1]> (abs_of k)).
      { constructor. rewrite abs_of_lookup, Hi. simpl. f_equal. by apply (slot_free fi i). }
      unfold abs_of, take_state; simpl. rewrite list_fmap_insert. f_equal.
      unfold slot_of. destruct (taken_info_flags flags fi) as (_ & _ & _ & -> & _).
      destruct Hok as (_ & _ & Hf & _). by destruct (Hf Hfree) as [-> _].
  - exists (RFrame None), k. split_and!; [done|done|]. constructor. intros i.
    rewrite abs_of_lookup. intros (fi & Hi & Hs)%fmap_Some.
    apply list_find_None in Hf. rewrite Forall_lookup in Hf. apply (Hf i fi Hi).
    by apply (slot_free fi i); [apply (inv_frames k Hinv)|].
Qed.

Lemma exec_reference flags i e k :
  alloc_inv k → FRAME_STATE ∉ held e → Z.of_nat i * 4096 < 2 ^ 52 →
  (∃ k', exec_op flags (OpReference i) e k = Ret RUnit k' ∧ alloc_inv k'
         ∧ abs_step (abs_of k) (OpReference i) RUnit (abs_of k'))
  ∨ (∃ p, exec_op flags (OpReference i) e k = Panic p
          ∧ abs_step (abs_of k) (OpReference i) RPanic (abs_of k)).
Proof.
  intros Hinv Hl Hi. unfold exec_op. rewrite bind_run, reference_run by done.
  rewrite frame_at_index by done.
  destruct (k_frames k !! i) as [fi|] eqn:Hfi.
  - pose proof (inv_frames k Hinv i fi Hfi) as Hok.
    assert (∀ n, abs_of k !! i = Some (SLive n) ↔ n = fi_count fi ∧ 0 < n) as Hlive.
    { intros n. rewrite abs_of_lookup, Hfi. simpl.
      rewrite <- (slot_live fi i n Hok). split; [by intros [=]|by intros ->]. }
    destruct (Z.ltb_spec 0 (fi_count fi)).
    + destruct (decide (fi_count fi < 2 ^ 64 - 1)).
      * left. exists (reference_state i fi k). rewrite retain_run by lia.
        split_and!; [done|by apply reference_state_inv; [..|lia]|].
        unfold reference_state. rewrite abs_of_insert. unfold slot_of at 1; simpl.
        rewrite (proj2 (Z.ltb_lt 0 (fi_count fi + 1))) by lia.
        constructor; [by apply Hlive|done].
      * right. eexists. split.
        { unfold FrameInfo_retain, u64_checked.
          rewrite (proj2 (Z.ltb_ge (fi_count fi + 1) (2 ^ 64))), andb_false_r by lia. done. }
        apply (abs_reference_full _ _ (fi_count fi)); [by apply Hlive|lia].
    + right. eexists. split; [done|]. constructor. intros n Hn%Hlive. lia.
  - right. eexists. split; [done|]. constructor. intros n.
    by rewrite abs_of_lookup, Hfi.
Qed.

Lemma exec_deallocate flags i e k :
  alloc_inv k → FRAME_STATE ∉ held e → Z.of_nat i * 4096 < 2 ^ 52 →
  (∃ k', exec_op flags (OpDeallocate i) e k = Ret RUnit k' ∧ alloc_inv k'
         ∧ abs_step (abs_of k) (OpDeallocate i) RUnit (abs_of k'))
  ∨ (∃ p, exec_op flags (OpDeallocate i) e k = Panic p
          ∧ abs_step (abs_of k) (OpDeallocate i) RPanic (abs_of k)).
Proof.
  intros Hinv Hl Hi. unfold exec_op. rewrite bind_run.
  destruct (k_frames k !! i) as [fi|] eqn:Hfi.
  - pose proof (inv_frames k Hinv i fi Hfi) as Hok.
    rewrite (deallocate_run _ i fi) by (done || by rewrite frame_at_index).
    pose proof (λ n, slot_live fi i n Hok) as Hlive. destruct Hok as (_ & Hc & _).
    assert (abs_of k !! i = Some (slot_of fi)) as Habs by (by rewrite abs_of_lookup, Hfi).
    destruct (Z.eqb_spec (fi_count fi) 0) as [Hc0|Hc0].
    + right. eexists. split; [done|]. constructor. intros n. rewrite Habs.
      intros [= Hn%Hlive]. lia.
    + left. exists (release_state i fi k).
      split_and!; [done|by apply release_state_inv; [..|lia]|].
      unfold release_state. destruct (Z.eqb_spec (fi_count fi) 1) as [Hc1|Hc1].
      * assert (slot_of (freed_info fi) = SFree) as Hfreed by
          (unfold slot_of; by destruct (freed_info_flags fi) as (-> & _ & _ & -> & _)).
        unfold abs_of at 2; simpl. rewrite list_fmap_insert, Hfreed.
        fold (abs_of k). constructor. rewrite Habs. f_equal. apply Hlive. lia.
      * rewrite abs_of_insert. unfold slot_of at 1; simpl.
        rewrite (proj2 (Z.ltb_lt 0 (fi_count fi - 1))) by lia.
        constructor; [|lia]. rewrite Habs. f_equal. apply Hlive. lia.
  - right. eexists. split.
    + unfold Allocator_deallocate. rewrite irq_without_run, with_lock_free by done.
      erewrite bind_ret_run by reflexivity.
      rewrite get_frame_info_spec, frame_at_index, Hfi by done. done.
    + constructor. intros n. by rewrite abs_of_lookup, Hfi.
Qed.
End Refinement.

(** ** Sequences of calls *)

Inductive abs_run : list slot → list op → list resp → list slot → Prop :=
  | abs_run_nil a : abs_run a [] [] a
  | abs_run_cons a o r a' ops rs a'' :
      abs_step a o r a' → abs_run a' ops rs a'' → abs_run a (o :: ops) (r :: rs) a''.

(** References held on frame [i] in the pool. *)
Definition live_count (a : list slot) (i : nat) : Z :=
  match a !! i with Some (SLive n) => n | _ => 0 end.

(** The number of times a sequence hands out, references and releases frame [i]. *)
Definition n_allocate (i : nat) (rs : list resp) : Z :=
  countb (λ r, match r with RFrame (Some j) => Nat.eqb i j | _ => false end) rs.
Definition n_reference (i : nat) (ops : list op) : Z :=
  countb (λ o, match o with OpReference j => Nat.eqb i j | _ => false end) ops.
Definition n_deallocate (i : nat) (ops : list op) : Z :=
  countb (λ o, match o with OpDeallocate j => Nat.eqb i j | _ => false end) ops.

Lemma live_count_insert a i j x :
  (i < length a)%nat →
  live_count (<[i := x]> a) j
    = if Nat.eqb j i then match x with SLive n => n | _ => 0 end else live_count a j.
Proof.
  intros Hi. unfold live_count. rewrite list_lookup_insert.
  destruct (Nat.eqb_spec j i) as [->|Hne].
  - by rewrite decide_True by done.
  - rewrite decide_False; [done|]. intros [? _]. congruence.
Qed.

Lemma abs_step_count a o r a' i :
  abs_step a o r a' → r ≠ RPanic →
  live_count a' i = live_count a i + n_allocate i [r] + n_reference i [o] - n_deallocate i [o].
Proof.
  unfold n_allocate, n_reference, n_deallocate.
  intros H Hr. destruct H; try done; simpl; rewrite ?live_count_insert
    by (by eapply lookup_lt_Some); try (lia || done);
    destruct (Nat.eqb_spec i i0) as [->|]; simpl; try lia;
    unfold live_count; match goal with H : _ !! _ = _ |- _ => rewrite H end; lia.
Qed.

Lemma abs_run_count a ops rs a' i :
  abs_run a ops rs a' → Forall (λ r, r ≠ RPanic) rs →
  live_count a' i = live_count a i + n_allocate i rs + n_reference i ops - n_deallocate i ops.
Proof.
  induction 1 as [a|a o r a' ops rs a'' Hstep Hrun IH]; intros Hrs.
  - unfold n_allocate, n_reference, n_deallocate; simpl. lia.
  - inversion Hrs as [|? ? Hr Hrs']; subst.
    rewrite IH, (abs_step_count a o r a' i) by done.
    unfold n_allocate, n_reference, n_deallocate; simpl. lia.
Qed.

Section Sequences.
Context {BF : Bitflags} {BFS : BitflagsSpec BF} {RT : Runtime} {RTS : RuntimeSpec RT}
  {XA : X86Address} {XAS : X86AddressSpec XA} {XP : X86Paging XA} {LG : Logging}
  {XC : X86Cpu} {XCS : X86CpuSpec XC}.
Implicit Types (e : Env) (k : Kernel) (ops : list op).

Fixpoint exec_ops (flags : Z) ops : M Kernel (list resp) :=
  match ops with
  | [] => mret []
  | o :: ops' => r ← exec_op flags o; rs ← exec_ops flags ops'; mret (r :: rs)
  end.

(** The frame an operation is about is in the physical address space. *)
Definition op_in_range (o : op) : Prop :=
  match o with
  | OpAllocate => True
  | OpReference i | OpDeallocate i => Z.of_nat i * 4096 < 2 ^ 52
  end.

Lemma exec_op_refines flags o e k :
  alloc_inv k → FRAME_STATE ∉ held e → op_in_range o →
  (∃ r k', exec_op flags o e k = Ret r k' ∧ r ≠ RPanic ∧ alloc_inv k'
           ∧ abs_step (abs_of k) o r (abs_of k'))
  ∨ (∃ p, exec_op flags o e k = Panic p ∧ abs_step (abs_of k) o RPanic (abs_of k)).
Proof.
  intros Hinv Hl Ho. destruct o as [|i|i]; simpl in Ho.
  - left. destruct (exec_allocate flags e k Hinv Hl) as (r & k' & ? & ? & Hs).
    exists r, k'. split_and!; [done| |done|done]. inversion Hs; done.
  - destruct (exec_reference flags i e k Hinv Hl Ho) as [(k' & ? & ? & ?)|?]; [left|by right].
    by exists RUnit, k'.
  - destruct (exec_deallocate flags i e k Hinv Hl Ho) as [(k' & ? & ? & ?)|?]; [left|by right].
    by exists RUnit, k'.
Qed.

Lemma exec_ops_refines flags ops e k :
  alloc_inv k → FRAME_STATE ∉ held e → Forall op_in_range ops →
  match exec_ops flags ops e k with
  | Ret rs k' => alloc_inv k' ∧ abs_run (abs_of k) ops rs (abs_of k')
                 ∧ Forall (λ r, r ≠ RPanic) rs
  | Panic _ => ∃ ops1 o ops2 rs a, ops = ops1 ++ o :: ops2
                 ∧ abs_run (abs_of k) ops1 rs a ∧ abs_step a o RPanic a
  | Deadlock _ | Halted _ => False
  end.
Proof.
  intros Hinv Hl Hops. revert k Hinv.
  induction Hops as [|o ops Ho Hops IH]; intros k Hinv; simpl.
  { split_and!; [done|constructor|constructor]. }
  rewrite bind_run.
  destruct (exec_op_refines flags o e k Hinv Hl Ho) as
    [(r & k' & -> & Hr & Hinv' & Hs)|(p & -> & Hs)].
  - rewrite bind_run. specialize (IH k' Hinv').
    destruct (exec_ops flags ops e k') as [rs k''|p|l|s']; [| |done..].
    + destruct IH as (? & ? & ?). split_and!; [done|by econstructor|by constructor].
    + destruct IH as (ops1 & o' & ops2 & rs & a & -> & ? & ?).
      exists (o :: ops1), o', ops2, (r :: rs), a. split_and!; [done|by econstructor|done].
  - exists [], o, ops, [], (abs_of k). split_and!; [done|constructor|done].
Qed.

(** C2: Every sequence of calls to [allocate], [reference] and [deallocate] behaves as
    the abstract reference-counting pool does: it never spins on a lock; when it returns,
    its responses and its final state are those of a run of the pool and the allocator
    invariant holds again; when it panics, it does so at a call that the pool refuses
    (releasing or referencing a frame without owner, or a full reference count). *)
Theorem allocator_refines_pool flags ops e k :
  alloc_inv k → FRAME_STATE ∉ held e → Forall op_in_range ops →
  match exec_ops flags ops e k with
  | Ret rs k' => alloc_inv k' ∧ abs_run (abs_of k) ops rs (abs_of k')
                 ∧ Forall (λ r, r ≠ RPanic) rs
  | Panic _ => ∃ ops1 o ops2 rs a, ops = ops1 ++ o :: ops2
                 ∧ abs_run (abs_of k) ops1 rs a ∧ abs_step a o RPanic a
  | Deadlock _ | Halted _ => False
  end.
Proof. apply exec_ops_refines. Qed.

(** C9: No frame is handed out twice while it is owned.  If a sequence of calls starts
    with an [allocate] that returns frame [i] and ends with an [allocate] that returns
    frame [i] again, then in between frame [i] was released exactly once more than it
    was referenced or handed out. *)
Theorem no_double_allocation flags ops e k rs i k' :
  alloc_inv k → FRAME_STATE ∉ held e → Forall op_in_range ops →
  exec_ops flags (OpAllocate :: ops ++ [OpAllocate]) e k
    = Ret (RFrame (Some i) :: rs ++ [RFrame (Some i)]) k' →
  n_deallocate i ops = 1 + n_reference i ops + n_allocate i rs.
Proof.
  intros Hinv Hl Hops Hrun.
  pose proof (exec_ops_refines flags (OpAllocate :: ops ++ [OpAllocate]) e k Hinv Hl) as H.
  rewrite Hrun in H. destruct H as (_ & Habs & Hrs).
  { constructor; [done|]. apply Forall_app. split; [done|by constructor]. }
  inversion Habs as [|? ? ? a1 ? ? ? Hstep Hrest]; subst.
  inversion Hrs as [|? ? _ Hrs1]; subst. apply Forall_app in Hrs1 as [Hrs1 _].
  assert (∀ a ops rs a', abs_run a (ops ++ [OpAllocate]) (rs ++ [RFrame (Some i)]) a' →
    ∃ a2, abs_run a ops rs a2 ∧ a2 !! i = Some SFree) as Hsplit.
  { intros a ops'. revert a. induction ops' as [|o ops' IH]; intros a [|r rs'] a' Hr;
      simpl in Hr; inversion Hr as [|? ? ? a3 ? ? ? Hs Hr']; subst.
    - exists a. split; [constructor|]. by inversion Hs.
    - by destruct rs'; inversion Hr'.
    - by destruct ops'; inversion Hr'.
    - destruct (IH _ _ _ Hr') as (a2 & ? & ?). exists a2. split; [by econstructor|done]. }
  destruct (Hsplit _ _ _ _ Hrest) as (a2 & Hmid & Hfree).
  pose proof (abs_run_count a1 ops rs a2 i Hmid Hrs1) as Hc.
  unfold live_count at 1 in Hc. rewrite Hfree in Hc.
  inversion Hstep as [? ? Hfree1| | | | | | |]; subst.
  rewrite live_count_insert, Nat.eqb_refl in Hc by (by eapply lookup_lt_Some). lia.
Qed.
End Sequences.

(** ** Single calls *)

Section Calls.
Context {BF : Bitflags} {BFS : BitflagsSpec BF} {RT : Runtime} {RTS : RuntimeSpec RT}
  {XA : X86Address} {XAS : X86AddressSpec XA} {XP : X86Paging XA} {LG : Logging}
  {XC : X86Cpu} {XCS : X86CpuSpec XC}.
Implicit Types (e : Env) (k : Kernel) (fi : FrameInfo) (flags : Z) (i : nat).

(** [allocate] is first fit and total.  It returns the free frame of least index,
    with one owner, no longer free and never a poisoned one, marked as kernel memory
    when asked to be; its page is zero when the [ZEROED] flag is given and no other page
    of memory changes; no other frame changes.  It returns [None], with nothing changed,
    exactly when no frame is free. *)
Theorem allocate_first_fit flags e k :
  alloc_inv k → FRAME_STATE ∉ held e →
  wp e (Allocator_allocate flags)
    (λ r k', alloc_inv k' ∧
      match r with
      | None => k' = k ∧ ∀ i fi, k_frames k !! i = Some fi → is_free fi = false
      | Some f =>
          ∃ i fi fi', k_frames k !! i = Some fi ∧ is_free fi = true
            ∧ (∀ j fj, (j < i)%nat → k_frames k !! j = Some fj → is_free fj = false)
            ∧ k_frames k' = <[i := fi']> (k_frames k)
            ∧ frame_u64 f = Z.of_nat i * 4096 ∧ fi_frame fi' = f ∧ fi_count fi' = 1
            ∧ is_free fi' = false ∧ is_poisoned fi' = false
            ∧ is_kernel fi' = bf_contains flags AllocationFlags_KERNEL
            ∧ (∀ p idx, k_mem k' p idx =
                 if bf_contains flags AllocationFlags_ZEROED && (p =? frame_u64 f)
                 then pe_zero else k_mem k p idx)
      end) k.
Proof.
  intros Hinv Hl. unfold wp, wpx. rewrite allocate_run by done.
  destruct (list_find _ (k_frames k)) as [[i fi]|] eqn:Hf.
  - apply list_find_Some in Hf as (Hi & Hfree & Hmin).
    split; [by apply take_state_inv|].
    destruct (inv_frames k Hinv i fi Hi) as (Ha & _ & Hfr & _).
    destruct (Hfr Hfree) as (Hc0 & Hk0 & Hp0).
    destruct (taken_info_flags flags fi) as (T1 & T2 & T3 & T4 & T5).
    exists i, fi, (taken_info flags fi). rewrite T1, T2, T3, T4, T5, Hc0, Hk0, Hp0.
    split_and!; try done.
    + intros j fj Hj Hfj. pose proof (Hmin j fj Hfj Hj). by destruct (is_free fj).
    + intros p idx. unfold take_state, taken_mem; simpl.
      by destruct (bf_contains flags AllocationFlags_ZEROED).
  - split_and!; [done..|]. intros i fi Hi. apply list_find_None in Hf.
    rewrite Forall_lookup in Hf. pose proof (Hf i fi Hi). by destruct (is_free fi).
Qed.

(** Taking a free frame and giving it back restores its flags bit for bit. *)
Lemma freed_taken_info flags i fi :
  frame_ok i fi → is_free fi = true → freed_info (taken_info flags fi) = fi.
Proof.
  intros (_ & _ & Hf & _) Hfree. destruct (Hf Hfree) as (Hc0 & Hk0 & _).
  unfold is_free, is_kernel, fi_contains, FrameFlags_FREE, FrameFlags_KERNEL in *.
  rewrite contains_flag in Hfree, Hk0 by lia.
  destruct fi as [fl fr c]; simpl in *; subst.
  unfold freed_info, taken_info, fi_insert, fi_remove, fi_set_count, fi_set_flags.
  unfold FrameFlags_FREE, FrameFlags_KERNEL.
  destruct (bf_contains flags AllocationFlags_KERNEL); simpl; f_equal;
    rewrite remove_remove by lia.
  - rewrite insert_remove_cancel by done. by apply remove_insert_cancel.
  - rewrite (remove_absent fl 5) by done. by apply remove_insert_cancel.
Qed.

Lemma freed_taken_stats flags fi st :
  is_kernel (taken_info flags fi) = bf_contains flags AllocationFlags_KERNEL →
  freed_stats (taken_info flags fi) (taken_stats flags st) = st.
Proof.
  intros Hk. unfold freed_stats, taken_stats. rewrite Hk.
  destruct (bf_contains flags AllocationFlags_KERNEL), st; stats_eq.
Qed.

(** Deallocating the frame that [allocate] has just returned restores the whole
    kernel state, the frame array bit for bit and the statistics included; only the
    zeroing of the page, if it was asked for, remains. *)
Theorem allocate_deallocate_roundtrip flags e k i fi :
  alloc_inv k → FRAME_STATE ∉ held e →
  list_find (λ fi, is_free fi = true) (k_frames k) = Some (i, fi) →
  (f ← Allocator_allocate flags; f ← unwrap f; Allocator_deallocate f) e k
    = Ret tt (set_mem (taken_mem flags (frame_u64 (fi_frame fi)) (k_mem k)) k).
Proof.
  intros Hinv Hl Hf. rewrite bind_run, allocate_run, Hf by done.
  apply list_find_Some in Hf as (Hi & Hfree & _). simpl. rewrite bind_run; simpl.
  pose proof (inv_frames k Hinv i fi Hi) as Hok.
  destruct (taken_info_flags flags fi) as (T1 & T2 & T3 & T4 & T5).
  pose proof (take_state_inv flags i fi k Hinv Hi Hfree) as Hinv'.
  destruct (inv_frame_bound k i fi Hinv Hi) as [Ha _].
  destruct (proj1 (proj2 (proj2 Hok)) Hfree) as (Hc0 & Hk0 & _).
  assert (k_frames (take_state flags i fi k) !! i = Some (taken_info flags fi)) as Hi'.
  { simpl. apply list_lookup_insert_eq. by eapply lookup_lt_Some. }
  rewrite (deallocate_run _ i (taken_info flags fi)); [|done|done| |done].
  2: { rewrite Ha, Z.div_mul by done. lia. }
  rewrite T4, Hc0. simpl. unfold release_state. rewrite T4, Hc0. simpl.
  rewrite list_insert_insert_eq, (freed_taken_info flags i) by done.
  rewrite list_insert_id by done. rewrite freed_taken_stats by (by rewrite T2, Hk0).
  by destruct k.
Qed.

(** A double free is caught: when the last reference to a frame was released, a
    further [deallocate] of it panics, whatever the state. *)
Theorem double_free_panics (f : Frame) i fi e k :
  alloc_inv k → FRAME_STATE ∉ held e → i = Z.to_nat (frame_u64 f / 4096) →
  k_frames k !! i = Some fi → fi_count fi = 1 →
  (Allocator_deallocate f;; Allocator_deallocate f) e k
    = Panic (PanicMsg "Physical frame deallocated too many times").
Proof.
  intros Hinv Hl -> Hi Hc. rewrite bind_run, (deallocate_run f (Z.to_nat (frame_u64 f / 4096)) fi) by done.
  rewrite Hc. simpl.
  rewrite (deallocate_run f (Z.to_nat (frame_u64 f / 4096)) (freed_info fi)); [| |done|done|].
  - by destruct (freed_info_flags fi) as (_ & _ & _ & -> & _).
  - apply release_state_inv; [done..|lia].
  - unfold release_state. rewrite Hc. simpl. apply list_lookup_insert_eq.
    by eapply lookup_lt_Some.
Qed.

(** Frames classified by [State::setup] satisfy the invariant. *)
Lemma classified_alloc_inv {LY : Layout} {LYS : LayoutSpec LY} mmap en st k :
  mmap_ok mmap → Z.of_nat (length (k_frames k)) = last_frame mmap →
  (∀ i fi, k_frames k !! i = Some fi →
     frame_u64 (fi_frame fi) = Z.of_nat i * 4096
     ∧ has_class (setup_class mmap en (Z.of_nat i)) fi) →
  stats_match (k_frames k) st → alloc_inv (set_stats st k).
Proof.
  intros Hok Hlen Hfs Hst. pose proof (ram_top_bound mmap Hok). split.
  - intros i fi Hi. simpl in Hi. destruct (Hfs i fi Hi) as [Ha Hc]. unfold frame_ok.
    destruct (setup_class mmap en (Z.of_nat i)); destruct Hc as (-> & -> & -> & ->);
      split_and!; done || lia.
  - done.
  - simpl. rewrite Hlen. unfold last_frame. dlia.
Qed.

(** After [State::setup] and [Allocator::setup] the allocator invariant holds, on
    every well-formed memory map. *)
Theorem boot_establishes_invariant {LGS : LoggingSpec LG} {LY : Layout} {LYS : LayoutSpec LY}
    mmap en e k :
  mmap_ok mmap → array_entry mmap = Some en → 0 < last_frame mmap → k_frames k = [] →
  SERIAL ∉ held e →
  wp e (st ← State_setup mmap; Allocator_setup st)
    (λ _ k', alloc_inv k' ∧ Z.of_nat (length (k_frames k')) = last_frame mmap) k.
Proof.
  intros Hok Hen Hl Hk HL. apply wp_bind.
  eapply wp_mono; [by apply setup_spec|]. intros st k' (_ & Hlen & Hfs & Hst).
  unfold Allocator_setup. wp_steps. split; [by apply (classified_alloc_inv mmap en)|done].
Qed.
End Calls.

(** ** Ranges *)

Section Ranges.
Context {BF : Bitflags} {BFS : BitflagsSpec BF} {RT : Runtime} {RTS : RuntimeSpec RT}
  {XA : X86Address} {XAS : X86AddressSpec XA} {XP : X86Paging XA} {LG : Logging}
  {XC : X86Cpu} {XCS : X86CpuSpec XC}.
Implicit Types (e : Env) (k : Kernel) (fi : FrameInfo) (flags : Z) (i n : nat).

(** [n] free frames start at index [i] of the array. *)
Definition window_at n (fs : list FrameInfo) i : bool :=
  bool_decide (i + n ≤ length fs)%nat && forallb is_free (take n (drop i fs)).

Definition first_window n (fs : list FrameInfo) : option nat :=
  find (window_at n fs) (seq 0 (S (length fs))).

(** The state after the frames of a window were handed out. *)
Definition take_window flags n i k : Kernel :=
  let fs := take n (drop i (k_frames k)) in
  set_frames (map_slice i (i + n) (taken_info flags) (k_frames k))
    (set_mem (foldl (λ m fi, taken_mem flags (frame_u64 (fi_frame fi)) m) (k_mem k) fs)
      (set_stats (Nat.iter (length fs) (taken_stats flags) (k_stats k)) k)).

Lemma iter_taken_stats flags m st :
  Nat.iter m (taken_stats flags) st =
    set_kernel (kernel st + (if bf_contains flags AllocationFlags_KERNEL
                             then Z.of_nat m else 0))
      (set_allocated (allocated st + Z.of_nat m) st).
Proof.
  induction m as [|m IH].
  - destruct (bf_contains flags AllocationFlags_KERNEL), st; stats_eq.
  - cbn [Nat.iter nat_rect]. unfold Nat.iter in IH. rewrite IH. unfold taken_stats.
    rewrite Nat2Z.inj_succ.
    destruct (bf_contains flags AllocationFlags_KERNEL), st; stats_eq.
Qed.

Lemma take_slice_run flags fs e k :
  (∀ fi, fi ∈ fs → frame_u64 (fi_frame fi) < 2 ^ 44 ∧ fi_count fi = 0) →
  0 ≤ allocated (k_stats k) → allocated (k_stats k) + Z.of_nat (length fs) < 2 ^ 64 →
  0 ≤ kernel (k_stats k) → kernel (k_stats k) + Z.of_nat (length fs) < 2 ^ 64 →
  iter_mutM (λ fi (_ : unit), fi ← take_frame flags fi; mret (fi, tt)) fs tt e k
    = Ret (taken_info flags <$> fs, tt)
        (set_mem (foldl (λ m fi, taken_mem flags (frame_u64 (fi_frame fi)) m) (k_mem k) fs)
          (set_stats (Nat.iter (length fs) (taken_stats flags) (k_stats k)) k)).
Proof.
  revert k. induction fs as [|fi fs IH]; intros k Hfs Ha Ha' Hk Hk'; [by destruct k|].
  cbn [length] in *. rewrite Nat2Z.inj_succ in Ha', Hk'.
  destruct (Hfs fi ltac:(left)) as [Hf Hc].
  cbn [iter_mutM]. rewrite bind_run. rewrite bind_run, take_frame_run by lia.
  unfold mret at 1, M_ret at 1. rewrite bind_run. cbn [fst snd].
  rewrite IH.
  - cbn [k_mem k_stats set_mem set_stats]. rewrite Nat.iter_swap. done.
  - intros fj Hj. apply Hfs. by right.
  - simpl. unfold taken_stats. destruct (bf_contains _ _); simpl; lia.
  - simpl. unfold taken_stats. destruct (bf_contains _ _); simpl; lia.
  - simpl. unfold taken_stats. destruct (bf_contains _ _); simpl; lia.
  - simpl. unfold taken_stats. destruct (bf_contains _ _); simpl; lia.
Qed.

Lemma window_free n fs i fi :
  window_at n fs i = true → fi ∈ take n (drop i fs) → is_free fi = true.
Proof.
  unfold window_at. intros [_ Hf]%andb_true_iff Hin. rewrite forallb_forall in Hf.
  by apply Hf, list_elem_of_In.
Qed.

(** Every frame of a window has no owner and lies in the direct map. *)
Lemma window_frames k n i fi :
  alloc_inv k → window_at n (k_frames k) i = true → fi ∈ take n (drop i (k_frames k)) →
  frame_u64 (fi_frame fi) < 2 ^ 44 ∧ fi_count fi = 0.
Proof.
  intros Hinv Hw Hin. pose proof (window_free _ _ _ _ Hw Hin) as Hfree.
  apply list_elem_of_lookup in Hin as [j Hj]. apply lookup_take_Some in Hj as [Hj _].
  rewrite lookup_drop in Hj. destruct (inv_frame_bound k _ fi Hinv Hj) as [-> ?].
  destruct (inv_frames k Hinv _ fi Hj) as (_ & _ & Hf & _).
  by destruct (Hf Hfree).
Qed.

(** Taking frames does not change which frame an entry describes. *)
Lemma array_index_taken flags a b k j e k' :
  alloc_inv k → (a ≤ b ≤ length (k_frames k))%nat → (j < length (k_frames k))%nat →
  ∃ fi, array_index (map_slice a b (taken_info flags) (k_frames k)) (Z.of_nat j) e k'
          = Ret fi k' ∧ fi_frame fi = frame_at (Z.of_nat j * 4096).
Proof.
  intros Hinv Hab Hj. destruct (lookup_lt_is_Some_2 _ _ Hj) as [fi Hfi].
  destruct (inv_frame_bound k j fi Hinv Hfi) as [Hu _].
  unfold array_index. rewrite Nat2Z.id, lookup_map_slice, Hfi by lia.
  rewrite <- Hu, frame_at_id. case_decide; simpl; eexists; (split; [done|]); [|done].
  apply taken_info_flags.
Qed.

Lemma array_index_beyond (fs : list FrameInfo) j e k :
  (length fs ≤ j)%nat → array_index fs (Z.of_nat j) e k = Panic IndexOutOfBounds.
Proof. intros H. unfold array_index. by rewrite Nat2Z.id, lookup_ge_None_2. Qed.

(** The loop over the frames of a window. *)
Lemma take_window_slice flags n i e k :
  alloc_inv k → window_at n (k_frames k) i = true →
  slice_iter_mutM (λ fi (_ : unit), fi ← take_frame flags fi; mret (fi, tt))
    (k_frames k) (Z.of_nat i) (Z.of_nat (i + n)) tt e k
  = Ret (map_slice i (i + n) (taken_info flags) (k_frames k), tt)
      (set_frames (k_frames k) (take_window flags n i k)).
Proof.
  intros Hinv Hw. pose proof Hw as [Hlen%bool_decide_eq_true _]%andb_true_iff.
  destruct (stats_bounds k Hinv) as [Ha Hk]. pose proof (inv_size k Hinv) as Hsz.
  destruct (inv_stats k Hinv) as (_ & _ & _ & Hal & Hke & _).
  pose proof (countb_bounds in_use (k_frames k)).
  pose proof (countb_bounds is_kernel (k_frames k)).
  assert (length (take n (drop i (k_frames k))) = n) as Hn
    by (rewrite length_take, length_drop; lia).
  unfold slice_iter_mutM.
  assert ((Z.of_nat i <=? Z.of_nat (i + n))
          && (Z.of_nat (i + n) <=? Z.of_nat (length (k_frames k))) = true) as -> by blia.
  replace (Z.to_nat (Z.of_nat (i + n) - Z.of_nat i)) with n by lia. rewrite !Nat2Z.id.
  rewrite bind_run, take_slice_run; [|by intros; eapply window_frames|lia..].
  unfold mret, M_ret, map_slice, take_window. simpl.
  replace (i + n - i)%nat with n by lia. by destruct k.
Qed.

(** The successful branch of the loop. *)
Lemma take_window_run flags n i e k :
  alloc_inv k → window_at n (k_frames k) i = true →
  (r ← slice_iter_mutM
         (λ fi (_ : unit), fi ← take_frame flags fi; mret (fi, tt))
         (k_frames k) (Z.of_nat i) (Z.of_nat (i + n)) tt;
   modify (set_frames r.1);;
   first ← array_index r.1 (Z.of_nat i);
   limit ← array_index r.1 (Z.of_nat (i + n));
   mret (Some (mkRange (fi_frame first) (fi_frame limit)))) e k
  = if (i + n <? length (k_frames k))%nat
    then Ret (Some (mkRange (frame_at (Z.of_nat i * 4096)) (frame_at (Z.of_nat (i + n) * 4096))))
           (take_window flags n i k)
    else Panic IndexOutOfBounds.
Proof.
  intros Hinv Hw. pose proof Hw as [Hlen%bool_decide_eq_true _]%andb_true_iff.
  erewrite bind_ret_run by (by apply take_window_slice).
  erewrite bind_ret_run by reflexivity. cbn [fst snd].
  set (fs' := map_slice _ _ _ _).
  assert (length fs' = length (k_frames k)) as Hl by (apply length_map_slice; lia).
  assert (set_frames fs' (set_frames (k_frames k) (take_window flags n i k))
            = take_window flags n i k) as -> by done.
  destruct (Nat.ltb_spec (i + n) (length (k_frames k))) as [Hlt|Hge].
  - destruct (array_index_taken flags i (i + n) k i e (take_window flags n i k))
      as (fi & Hfi & Hu); [done|lia..|].
    destruct (array_index_taken flags i (i + n) k (i + n) e (take_window flags n i k))
      as (fj & Hfj & Hu'); [done|lia..|].
    erewrite bind_ret_run by exact Hfi. erewrite bind_ret_run by exact Hfj.
    by rewrite Hu, Hu'.
  - rewrite bind_run. destruct (decide (i < length (k_frames k))%nat).
    + destruct (array_index_taken flags i (i + n) k i e (take_window flags n i k))
        as (fi & Hfi & Hu); [done|lia..|].
      unfold fs'. rewrite Hfi, bind_run, array_index_beyond by (fold fs'; lia). done.
    + by rewrite array_index_beyond by lia.
Qed.

(** The loop examines the windows in increasing order. *)
Lemma allocate_range_loop_run flags n fuel i e k :
  alloc_inv k → (n ≤ length (k_frames k))%nat → (i ≤ S (length (k_frames k) - n))%nat →
  (S (length (k_frames k)) - i < fuel)%nat →
  allocate_range_loop fuel (Z.of_nat n) flags (Z.of_nat i) e k
  = match find (window_at n (k_frames k)) (seq i (S (length (k_frames k)) - i)) with
    | None => Ret None k
    | Some j =>
        if (j + n <? length (k_frames k))%nat
        then Ret (Some (mkRange (frame_at (Z.of_nat j * 4096))
                                (frame_at (Z.of_nat (j + n) * 4096))))
               (take_window flags n j k)
        else Panic IndexOutOfBounds
    end.
Proof.
  intros Hinv Hn. pose proof (inv_size k Hinv) as Hsz.
  revert i. induction fuel as [|fuel IH]; intros i Hi Hf; [lia|]. cbn [allocate_range_loop].
  erewrite bind_ret_run by reflexivity.
  erewrite bind_ret_run by (apply arith_run; lia). rewrite <- Nat2Z.inj_add.
  destruct (Z.leb_spec (Z.of_nat (i + n)) (Z.of_nat (length (k_frames k)))) as [Hle|Hgt].
  - replace (S (length (k_frames k)) - i)%nat with (S (length (k_frames k) - i)) by lia.
    cbn [seq find]. rewrite !Nat2Z.id.
    assert (window_at n (k_frames k) i = forallb is_free (take n (drop i (k_frames k)))) as Hw
      by (unfold window_at; by rewrite bool_decide_eq_true_2 by lia).
    rewrite <- Hw. destruct (window_at n (k_frames k) i) eqn:E.
    + by apply take_window_run.
    + erewrite bind_ret_run by (apply arith_run; lia).
      replace (Z.of_nat i + 1) with (Z.of_nat (S i)) by lia.
      rewrite IH by lia. by replace (S (length (k_frames k)) - S i)%nat
        with (length (k_frames k) - i)%nat by lia.
  - replace (find _ _) with (@None nat); [done|]. symmetry.
    apply find_none_iff. intros j [Hj _]%in_seq. unfold window_at.
    by rewrite bool_decide_eq_false_2 by lia.
Qed.

(** C33: [allocate_range] is determined by the first window of [count] free frames.  It
    returns [None] with nothing changed when there is none; otherwise it hands out
    exactly the frames of that window and returns the range that describes them --
    except when the window ends at the last frame of the array, where the code reads
    one entry past the end and panics with the frames already taken. *)
Theorem allocate_range_first_window flags n e k :
  alloc_inv k → FRAME_STATE ∉ held e → Z.of_nat n < 2 ^ 64 →
  Allocator_allocate_range (Z.of_nat n) flags e k =
    match first_window n (k_frames k) with
    | None => Ret None k
    | Some i =>
        if (i + n <? length (k_frames k))%nat
        then Ret (Some (mkRange (frame_at (Z.of_nat i * 4096))
                                (frame_at (Z.of_nat (i + n) * 4096))))
               (take_window flags n i k)
        else Panic IndexOutOfBounds
    end.
Proof.
  intros Hinv Hl Hn. unfold Allocator_allocate_range.
  rewrite irq_without_run, with_lock_free by done. erewrite bind_ret_run by reflexivity.
  destruct (decide (n ≤ length (k_frames k))%nat).
  - change 0 with (Z.of_nat 0). rewrite allocate_range_loop_run by (done || lia).
    unfold first_window. by rewrite Nat.sub_0_r.
  - cbn [allocate_range_loop]. erewrite bind_ret_run by reflexivity.
    erewrite bind_ret_run by (apply arith_run; lia).
    rewrite (proj2 (Z.leb_gt _ _)) by lia.
    unfold first_window. replace (find _ _) with (@None nat); [done|]. symmetry.
    apply find_none_iff. intros j _. unfold window_at.
    by rewrite bool_decide_eq_false_2 by lia.
Qed.
(** *** [deallocate_range] *)

Lemma release_state_count i j fi k :
  k_frames k !! i = Some fi → 1 ≤ fi_count fi →
  frame_count (release_state i fi k) j
    = frame_count k j - (if decide (j = i) then 1 else 0).
Proof.
  intros Hi Hc. pose proof (lookup_lt_Some _ _ _ Hi) as Hlt.
  unfold frame_count, release_state.
  destruct (Z.eqb_spec (fi_count fi) 1); simpl; rewrite list_lookup_insert;
    destruct (decide (j = i)) as [->|Hne];
    [rewrite decide_True by done|rewrite decide_False by (by intros [? _])
    |rewrite decide_True by done|rewrite decide_False by (by intros [? _])];
    rewrite ?Hi; simpl; lia.
Qed.

Lemma release_state_length i fi k :
  length (k_frames (release_state i fi k)) = length (k_frames k).
Proof. unfold release_state. destruct (fi_count fi =? 1); simpl; apply length_insert. Qed.

(** The state between two iterations of [deallocate_range]: from [k0], the frames of
    [pre] have been released once. *)
Definition released (k0 : Kernel) (pre : list Frame) (k : Kernel) : Prop :=
  alloc_inv k ∧ ∀ j, frame_count k j =
    frame_count k0 j - (if bool_decide (j ∈ frame_idx <$> pre) then 1 else 0).

Lemma deallocate_step (pre : list Frame) f e k0 k :
  released k0 pre k → FRAME_STATE ∉ held e → frame_idx f ∉ frame_idx <$> pre →
  1 ≤ frame_count k0 (frame_idx f) →
  wp e (Allocator_deallocate f) (λ _, released k0 (pre ++ [f])) k.
Proof.
  intros [Hinv Hcnt] Hl Hnew Hc. pose proof (Hcnt (frame_idx f)) as Hc'.
  rewrite bool_decide_eq_false_2, Z.sub_0_r in Hc' by done. rewrite <- Hc' in Hc.
  unfold frame_count in Hc. destruct (k_frames k !! frame_idx f) as [fi|] eqn:Hfi; [|lia].
  eapply wp_of_run.
  { rewrite (deallocate_run f (frame_idx f) fi) by done.
    by rewrite (proj2 (Z.eqb_neq (fi_count fi) 0)) by lia. }
  split; [by apply release_state_inv|]. intros j.
  rewrite release_state_count, Hcnt by done. rewrite fmap_app; simpl.
  destruct (decide (j = frame_idx f)) as [->|Hne].
  - rewrite bool_decide_eq_false_2, bool_decide_eq_true_2; [lia| |done].
    apply elem_of_app. right. left.
  - destruct (decide (j ∈ frame_idx <$> pre)) as [Hin|Hnin].
    + rewrite !bool_decide_eq_true_2; [lia|apply elem_of_app; by left|done].
    + rewrite !bool_decide_eq_false_2; [lia| |done].
      rewrite elem_of_app, list_elem_of_singleton. tauto.
Qed.

(** [deallocate_range] releases every frame of the range once, and nothing else:
    when every frame of the range has an owner, it returns, the invariant holds again,
    the reference count of each frame of the range went down by one and the others are
    unchanged. *)
Theorem deallocate_range_releases (r : Range) e k :
  alloc_inv k → FRAME_STATE ∉ held e → range_ok r →
  (∀ f, f ∈ range_frames r → 1 ≤ frame_count k (frame_idx f)) →
  wp e (Allocator_deallocate_range r)
    (λ _ k', alloc_inv k' ∧ ∀ f, frame_u64 f mod 4096 = 0 →
       frame_count k' (frame_idx f) =
         frame_count k (frame_idx f) - (if Range_contains r f then 1 else 0)) k.
Proof.
  intros Hinv Hl Hr Hlive. unfold Allocator_deallocate_range, wp, wpx.
  rewrite Range_for_enough by (done || by apply Range_fuel_enough).
  eapply wp_mono; [apply (wp_foldM _ (λ pre _, released k pre))|].
  - split; [done|]. intros j. rewrite bool_decide_eq_false_2 by apply not_elem_of_nil. lia.
  - intros pre f todo _ k' Heq Hrel. apply deallocate_step; try done.
    + pose proof (range_idx_NoDup r Hr) as Hnd.
      rewrite Heq, fmap_app, fmap_cons in Hnd.
      apply NoDup_app in Hnd as (_ & Hd & _). intros Hin. apply (Hd _ Hin). left.
    + apply Hlive. rewrite Heq. apply elem_of_app. right. left.
  - intros _ k' (Hinv' & Hcnt). split; [done|]. intros f Hf. rewrite Hcnt. f_equal.
    pose proof (elem_of_range_idx r f Hr Hf) as Hiff. case_bool_decide as Hin.
    + by rewrite (proj1 Hiff Hin).
    + destruct (Range_contains r f); [|done]. by destruct (Hin (proj2 Hiff eq_refl)).
Qed.
End Ranges.

(** ** What the allocator promises to its clients *)

(** The contract of the trait [Allocator], as the page-table code uses it: [fa_inv] is
    the allocator's invariant, [fa_refs k a] is the number of references to the frame at
    address [a], [fa_avail k a] tells whether it can be handed out, and [fa_free k] counts
    the frames that can.  They depend on the allocator's own state only. *)
Class AllocatorSpec {BF : Bitflags} {XA : X86Address} {XP : X86Paging XA} {LG : Logging}
    (FA : Allocator) := {
  fa_inv : Kernel → Prop;
  fa_refs : Kernel → Z → Z;
  fa_avail : Kernel → Z → bool;
  fa_free : Kernel → Z;
  fa_inv_local k k' :
    k_frames k = k_frames k' → k_stats k = k_stats k' → fa_inv k → fa_inv k';
  fa_refs_local k k' a : k_frames k = k_frames k' → fa_refs k a = fa_refs k' a;
  fa_avail_local k k' a : k_frames k = k_frames k' → fa_avail k a = fa_avail k' a;
  fa_free_local k k' : k_frames k = k_frames k' → fa_free k = fa_free k';
  (** [allocate] returns; a frame it hands out is the first that can be handed out, had
      no owner and has one now, and only the allocator's state and, on demand, the content
      of its page change. *)
  fa_allocate_spec flags e k :
    fa_inv k → FRAME_STATE ∉ held e →
    wp e (fa_allocate flags)
      (λ r k', fa_inv k' ∧
        match r with
        | None => k' = k ∧ fa_free k = 0
        | Some f =>
            frame_u64 f mod 4096 = 0 ∧ frame_u64 f < 2 ^ 44
            ∧ fa_free k' = fa_free k - 1
            ∧ fa_refs k (frame_u64 f) = 0
            ∧ (∀ a, fa_refs k' a = if a =? frame_u64 f then 1 else fa_refs k a)
            ∧ (fa_avail k (frame_u64 f) = true ∧ (∀ a, fa_avail k a = true → frame_u64 f ≤ a)
               ∧ ∀ a, fa_avail k' a = fa_avail k a && negb (a =? frame_u64 f))
            ∧ k' = set_frames (k_frames k') (set_stats (k_stats k')
                     (set_mem (if bf_contains flags AllocationFlags_ZEROED
                               then mem_zero_page (frame_u64 f) (k_mem k)
                               else k_mem k) k))
        end) k;
  (** [reference] of a frame that has an owner adds one. *)
  fa_reference_spec f e k :
    fa_inv k → FRAME_STATE ∉ held e → frame_u64 f mod 4096 = 0 →
    0 < fa_refs k (frame_u64 f) < 2 ^ 64 - 1 →
    wp e (fa_reference f)
      (λ _ k', fa_inv k' ∧ fa_free k' = fa_free k
         ∧ (∀ a, fa_refs k' a = fa_refs k a + (if a =? frame_u64 f then 1 else 0))
         ∧ (∀ a, fa_avail k' a = fa_avail k a)
         ∧ k' = set_frames (k_frames k') (set_stats (k_stats k') k)) k;
  (** [deallocate] of a frame that has an owner removes one, and frees the frame when it
      was the last one. *)
  fa_deallocate_spec f e k :
    fa_inv k → FRAME_STATE ∉ held e → frame_u64 f mod 4096 = 0 →
    0 < fa_refs k (frame_u64 f) →
    wp e (fa_deallocate f)
      (λ _ k', fa_inv k'
         ∧ fa_free k' = fa_free k + (if fa_refs k (frame_u64 f) =? 1 then 1 else 0)
         ∧ (∀ a, fa_refs k' a = fa_refs k a - (if a =? frame_u64 f then 1 else 0))
         ∧ k' = set_frames (k_frames k') (set_stats (k_stats k') k)) k
}.

(** The frame at address [a] has an owner. *)
Definition fa_live `{FAS : AllocatorSpec} (k : Kernel) (a : Z) : Prop := 0 < fa_refs k a.

Lemma fa_live_local `{FAS : AllocatorSpec} (k k' : Kernel) a :
  k_frames k = k_frames k' → fa_live k a → fa_live k' a.
Proof. intros Hf. unfold fa_live. by rewrite (fa_refs_local k k'). Qed.

(** From [k] to [k'], the frames that had owners keep all of them. *)
Definition fa_keeps `{FAS : AllocatorSpec} (k k' : Kernel) : Prop :=
  ∀ a, fa_live k a → fa_live k' a ∧ fa_refs k' a = fa_refs k a.

Lemma fa_keeps_refl `{FAS : AllocatorSpec} (k : Kernel) : fa_keeps k k.
Proof. done. Qed.

Lemma fa_keeps_trans `{FAS : AllocatorSpec} (k1 k2 k3 : Kernel) :
  fa_keeps k1 k2 → fa_keeps k2 k3 → fa_keeps k1 k3.
Proof.
  intros H1 H2 a Ha. destruct (H1 a Ha) as [Ha2 E1], (H2 a Ha2) as [Ha3 E2].
  split; [done|congruence].
Qed.

Lemma fa_keeps_local `{FAS : AllocatorSpec} (k k1 k2 : Kernel) :
  k_frames k1 = k_frames k2 → fa_keeps k k1 → fa_keeps k k2.
Proof.
  intros Hf H a Ha. destruct (H a Ha) as [Ha' E]. split; [by eapply fa_live_local|].
  by rewrite <- (fa_refs_local k1 k2).
Qed.

(** From [k] to [k'], frames were handed out first fit: those that can still be handed out
    could be before, and a frame that was given an owner comes before all of them. *)
Record first_fit `{FAS : AllocatorSpec} (k k' : Kernel) : Prop := {
  ff_avail a : fa_avail k' a = true → fa_avail k a = true;
  ff_taken a : fa_live k' a → ¬ fa_live k a →
    fa_avail k a = true ∧ ∀ b, fa_avail k' b = true → a < b
}.

Lemma first_fit_local `{FAS : AllocatorSpec} (k k' : Kernel) :
  k_frames k = k_frames k' → first_fit k k'.
Proof.
  intros Hf. split; [intros a; by rewrite (fa_avail_local k k')|].
  intros a Hl []. by apply (fa_live_local k').
Qed.

Lemma first_fit_trans `{FAS : AllocatorSpec} (k1 k2 k3 : Kernel) :
  first_fit k1 k2 → first_fit k2 k3 → first_fit k1 k3.
Proof.
  intros [A1 T1] [A2 T2]. split; [auto|]. intros a H3 H1.
  destruct (decide (0 < fa_refs k2 a)) as [H2|H2].
  - destruct (T1 a H2 H1) as [? Hb]. split; [done|auto].
  - destruct (T2 a H3 H2) as [? Hb]. split; auto.
Qed.

Section Contract.
Context {BF : Bitflags} {BFS : BitflagsSpec BF} {RT : Runtime} {RTS : RuntimeSpec RT}
  {XA : X86Address} {XAS : X86AddressSpec XA} {XP : X86Paging XA} {LG : Logging}
  {XC : X86Cpu} {XCS : X86CpuSpec XC}.
Implicit Types (e : Env) (k : Kernel) (a : Z) (fi : FrameInfo) (i : nat).

Definition frame_refs k a : Z :=
  if (a mod 4096 =? 0) && (0 <=? a) then frame_count k (Z.to_nat (a / 4096)) else 0.

Definition free_frames k : Z := countb is_free (k_frames k).

Definition frame_avail k a : bool :=
  (a mod 4096 =? 0) && (0 <=? a) && from_option is_free false (k_frames k !! Z.to_nat (a / 4096)).

Lemma frame_avail_spec k a :
  frame_avail k a = true ↔
    ∃ (i : nat) fi, a = Z.of_nat i * 4096 ∧ k_frames k !! i = Some fi ∧ is_free fi = true.
Proof.
  unfold frame_avail. split.
  - intros [[H1 H2]%andb_true_iff H3]%andb_true_iff.
    destruct (k_frames k !! Z.to_nat (a / 4096)) as [fi|] eqn:E; [|done].
    exists (Z.to_nat (a / 4096)), fi. split_and!; [|done|done]. bool_to_prop.
    rewrite Z2Nat.id by dlia. dlia.
  - intros (i & fi & -> & Hi & Hf). rewrite Z.mod_mul, Z.div_mul, Nat2Z.id, Hi by done.
    by assert ((0 =? 0) && (0 <=? Z.of_nat i * 4096) = true) as -> by blia.
Qed.

(** Taking the first free frame, at index [i]. *)
Lemma frame_avail_take i fi fi' k k' :
  list_find (λ fi, is_free fi = true) (k_frames k) = Some (i, fi) →
  k_frames k' = <[i := fi']> (k_frames k) → is_free fi' = false →
  let a0 := Z.of_nat i * 4096 in
  frame_avail k a0 = true ∧ (∀ a, frame_avail k a = true → a0 ≤ a)
  ∧ ∀ a, frame_avail k' a = frame_avail k a && negb (a =? a0).
Proof.
  intros (Hi & Hfree & Hfirst)%list_find_Some Hk Hfi' a0.
  pose proof (lookup_lt_Some _ _ _ Hi) as Hlt. split_and!.
  - apply frame_avail_spec. by exists i, fi.
  - intros a (j & fj & -> & Hj & Hfj)%frame_avail_spec.
    destruct (decide (j < i)%nat) as [Hlt'|]; [|unfold a0; lia].
    by destruct (Hfirst j fj Hj Hlt' Hfj).
  - intros a. apply eq_iff_eq_true. rewrite andb_true_iff, !frame_avail_spec, Hk. split.
    + intros (j & fj & -> & Hj & Hfj). destruct (decide (j = i)) as [->|Hne].
      { rewrite list_lookup_insert_eq in Hj by done. congruence. }
      rewrite list_lookup_insert_ne in Hj by done. split; [by exists j, fj|].
      apply negb_true_iff, Z.eqb_neq. unfold a0. lia.
    + intros [(j & fj & -> & Hj & Hfj) Hne%negb_true_iff%Z.eqb_neq]. exists j, fj.
      split_and!; [done| |done]. rewrite list_lookup_insert_ne; [done|]. intros ->. by apply Hne.
Qed.

(** Addresses of frames and their indices. *)
Lemma frame_refs_insert i fi fi' (f : Frame) k k' a :
  k_frames k !! i = Some fi → k_frames k' = <[i := fi']> (k_frames k) →
  frame_u64 f = Z.of_nat i * 4096 →
  frame_refs k' a = if a =? frame_u64 f then fi_count fi' else frame_refs k a.
Proof.
  intros Hi Hk Hf. pose proof (lookup_lt_Some _ _ _ Hi) as Hlt.
  unfold frame_refs, frame_count. rewrite Hk, Hf.
  destruct (Z.eqb_spec a (Z.of_nat i * 4096)) as [->|Hne].
  - rewrite Z.mod_mul, Z.div_mul, Nat2Z.id by done.
    rewrite list_lookup_insert_eq by done.
    by assert ((0 =? 0) && (0 <=? Z.of_nat i * 4096) = true) as -> by blia.
  - destruct ((a mod 4096 =? 0) && (0 <=? a)) eqn:E; [|done]. bool_to_prop.
    rewrite list_lookup_insert_ne; [done|]. intros Heq. apply Hne. subst i. dlia.
Qed.

Lemma frame_refs_at i fi (f : Frame) k :
  k_frames k !! i = Some fi → frame_u64 f = Z.of_nat i * 4096 →
  frame_refs k (frame_u64 f) = fi_count fi.
Proof.
  intros Hi Hf. unfold frame_refs, frame_count.
  rewrite Hf, Z.mod_mul, Z.div_mul, Nat2Z.id, Hi by done.
  by assert ((0 =? 0) && (0 <=? Z.of_nat i * 4096) = true) as -> by blia.
Qed.

Lemma no_free_frame k :
  list_find (λ fi, is_free fi = true) (k_frames k) = None → free_frames k = 0.
Proof.
  unfold free_frames. intros H%list_find_None. induction H as [|fi fs Hfi _ IH]; [done|].
  simpl. rewrite IH. by destruct (is_free fi).
Qed.

Lemma dummy_allocate_contract flags e k :
  alloc_inv k → FRAME_STATE ∉ held e →
  wp e (Allocator_allocate flags)
    (λ r k', alloc_inv k' ∧
      match r with
      | None => k' = k ∧ free_frames k = 0
      | Some f =>
          frame_u64 f mod 4096 = 0 ∧ frame_u64 f < 2 ^ 44
          ∧ free_frames k' = free_frames k - 1
          ∧ frame_refs k (frame_u64 f) = 0
          ∧ (∀ a, frame_refs k' a = if a =? frame_u64 f then 1 else frame_refs k a)
          ∧ (frame_avail k (frame_u64 f) = true
             ∧ (∀ a, frame_avail k a = true → frame_u64 f ≤ a)
             ∧ ∀ a, frame_avail k' a = frame_avail k a && negb (a =? frame_u64 f))
          ∧ k' = set_frames (k_frames k') (set_stats (k_stats k')
                   (set_mem (if bf_contains flags AllocationFlags_ZEROED
                             then mem_zero_page (frame_u64 f) (k_mem k)
                             else k_mem k) k))
      end) k.
Proof.
  intros Hinv Hl. unfold wp, wpx. rewrite allocate_run by done.
  destruct (list_find _ (k_frames k)) as [[i fi]|] eqn:Hf; [|by rewrite no_free_frame].
  pose proof Hf as (Hi & Hfree & _)%list_find_Some.
  destruct (inv_frame_bound k i fi Hinv Hi) as [Hu Hb].
  destruct (inv_frames k Hinv i fi Hi) as (_ & Hc & Hfr & _).
  destruct (Hfr Hfree) as (Hc0 & _).
  destruct (taken_info_flags flags fi) as (T1 & _ & _ & T4 & _).
  pose proof (frame_avail_take i fi (taken_info flags fi) k (take_state flags i fi k) Hf
    ltac:(done) T1) as Hav.
  split_and!.
  - by apply take_state_inv.
  - rewrite Hu. by apply Z.mod_mul.
  - lia.
  - unfold free_frames; simpl. rewrite (countb_insert _ _ i fi), T1, Hfree by done. simpl. lia.
  - by rewrite (frame_refs_at i fi).
  - intros a. rewrite (frame_refs_insert i fi (taken_info flags fi) (fi_frame fi) k) by done.
    by rewrite T4, Hc0.
  - rewrite Hu. apply Hav.
  - rewrite Hu. apply Hav.
  - rewrite Hu. apply Hav.
  - unfold take_state, taken_mem. by destruct k.
Qed.

(** The entry of a frame that has references. *)
Lemma refs_entry (f : Frame) k :
  frame_u64 f mod 4096 = 0 → 0 < frame_refs k (frame_u64 f) →
  ∃ fi, k_frames k !! frame_idx f = Some fi ∧ frame_u64 f = Z.of_nat (frame_idx f) * 4096
        ∧ fi_count fi = frame_refs k (frame_u64 f).
Proof.
  intros Hal Hr. pose proof (frame_u64_bound f) as Hb.
  assert (frame_u64 f = Z.of_nat (frame_idx f) * 4096) as Hf.
  { unfold frame_idx. rewrite Z2Nat.id by dlia. dlia. }
  unfold frame_refs, frame_count in *.
  destruct ((frame_u64 f mod 4096 =? 0) && (0 <=? frame_u64 f)); [|lia].
  fold (frame_idx f) in *. destruct (k_frames k !! frame_idx f) as [fi|]; [|lia]. by exists fi.
Qed.

Lemma dummy_reference_contract f e k :
  alloc_inv k → FRAME_STATE ∉ held e → frame_u64 f mod 4096 = 0 →
  0 < frame_refs k (frame_u64 f) < 2 ^ 64 - 1 →
  wp e (Allocator_reference f)
    (λ _ k', alloc_inv k' ∧ free_frames k' = free_frames k
       ∧ (∀ a, frame_refs k' a = frame_refs k a + (if a =? frame_u64 f then 1 else 0))
       ∧ (∀ a, frame_avail k' a = frame_avail k a)
       ∧ k' = set_frames (k_frames k') (set_stats (k_stats k') k)) k.
Proof.
  intros Hinv Hl Hal Hr. destruct (refs_entry f k Hal ltac:(lia)) as (fi & Hi & Hu & Hc).
  unfold wp, wpx. rewrite reference_run by done. fold (frame_idx f).
  rewrite Hi, (proj2 (Z.ltb_lt 0 (fi_count fi))) by lia. rewrite retain_run by lia.
  split_and!; [apply reference_state_inv; [done..|lia]| | | |by destruct k].
  - unfold free_frames; simpl. rewrite (countb_insert _ _ (frame_idx f) fi) by done.
    unfold is_free, fi_contains. simpl. lia.
  - intros a. rewrite (frame_refs_insert (frame_idx f) fi
      (fi_set_count (fi_count fi + 1) fi) f k) by done.
    destruct (Z.eqb_spec a (frame_u64 f)) as [->|]; simpl; lia.
  - intros a. unfold frame_avail. simpl. f_equal.
    destruct (decide (Z.to_nat (a / 4096) = frame_idx f)) as [->|Hne].
    + by rewrite list_lookup_insert_eq, Hi by (by eapply lookup_lt_Some).
    + by rewrite list_lookup_insert_ne.
Qed.

Lemma dummy_deallocate_contract f e k :
  alloc_inv k → FRAME_STATE ∉ held e → frame_u64 f mod 4096 = 0 →
  0 < frame_refs k (frame_u64 f) →
  wp e (Allocator_deallocate f)
    (λ _ k', alloc_inv k'
       ∧ free_frames k' = free_frames k + (if frame_refs k (frame_u64 f) =? 1 then 1 else 0)
       ∧ (∀ a, frame_refs k' a = frame_refs k a - (if a =? frame_u64 f then 1 else 0))
       ∧ k' = set_frames (k_frames k') (set_stats (k_stats k') k)) k.
Proof.
  intros Hinv Hl Hal Hr. destruct (refs_entry f k Hal Hr) as (fi & Hi & Hu & Hc).
  destruct (owned_not_poisoned _ fi (inv_frames k Hinv _ fi Hi) ltac:(lia)) as [_ Hnf].
  destruct (freed_info_flags fi) as (F1 & _ & _ & F4 & _).
  eapply wp_of_run.
  { rewrite (deallocate_run f (frame_idx f) fi) by done.
    by rewrite (proj2 (Z.eqb_neq (fi_count fi) 0)) by lia. }
  split_and!; [apply release_state_inv; [done..|lia]| | |].
  - unfold free_frames, release_state. rewrite <- Hc.
    destruct (Z.eqb_spec (fi_count fi) 1); simpl;
      rewrite (countb_insert _ _ (frame_idx f) fi), Hnf by done; rewrite ?F1; simpl; [lia|].
    unfold is_free, fi_contains in *. simpl. rewrite Hnf. simpl. lia.
  - intros a. unfold release_state. destruct (Z.eqb_spec (fi_count fi) 1);
      erewrite (frame_refs_insert (frame_idx f) fi _ f k) by done;
      destruct (Z.eqb_spec a (frame_u64 f)) as [->|]; rewrite ?F4; simpl; lia.
  - unfold release_state. destruct (fi_count fi =? 1); by destruct k.
Qed.

Lemma alloc_inv_local k k' :
  k_frames k = k_frames k' → k_stats k = k_stats k' → alloc_inv k → alloc_inv k'.
Proof. intros Hf Hs [H1 H2 H3]. split; by rewrite <- ?Hf, <- ?Hs. Qed.

Lemma frame_refs_local k k' a : k_frames k = k_frames k' → frame_refs k a = frame_refs k' a.
Proof. intros Hf. unfold frame_refs, frame_count. by rewrite Hf. Qed.

Lemma frame_avail_local k k' a : k_frames k = k_frames k' → frame_avail k a = frame_avail k' a.
Proof. intros Hf. unfold frame_avail. by rewrite Hf. Qed.

Lemma free_frames_local k k' : k_frames k = k_frames k' → free_frames k = free_frames k'.
Proof. intros Hf. unfold free_frames. by rewrite Hf. Qed.

#[global] Instance dummy_allocator_spec : AllocatorSpec dummy_allocator := {|
  fa_inv := alloc_inv;
  fa_refs := frame_refs;
  fa_avail := frame_avail;
  fa_free := free_frames;
  fa_inv_local := alloc_inv_local;
  fa_refs_local := frame_refs_local;
  fa_avail_local := frame_avail_local;
  fa_free_local := free_frames_local;
  fa_allocate_spec := dummy_allocate_contract;
  fa_reference_spec := dummy_reference_contract;
  fa_deallocate_spec := dummy_deallocate_contract
|}.
End Contract.

(** ** Witnesses *)

(** A decision procedure for the invariant. *)
Definition frame_okb (i : nat) (fi : FrameInfo) : bool :=
  (frame_u64 (fi_frame fi) =? Z.of_nat i * 4096)
  && (0 <=? fi_count fi) && (fi_count fi <? 2 ^ 64)
  && (negb (is_free fi)
      || (fi_count fi =? 0) && negb (is_kernel fi) && negb (is_poisoned fi))
  && (negb (is_poisoned fi) || (fi_count fi =? 0) && negb (is_kernel fi)).

Definition alloc_invb (k : Kernel) : bool :=
  let fs := k_frames k in
  let st := k_stats k in
  forallb (λ x, frame_okb x.1 x.2) (imap pair fs)
  && (total st =? Z.of_nat (length fs)) && (poisoned st =? countb is_poisoned fs)
  && (usable st =? total st - poisoned st) && (allocated st =? countb in_use fs)
  && (kernel st =? countb is_kernel fs) && (reserved st =? 0) && (borrowed st =? 0)
  && (Z.of_nat (length fs) * 4096 <=? 2 ^ 44).

Lemma frame_okb_sound i fi : frame_okb i fi = true → frame_ok i fi.
Proof.
  unfold frame_okb, frame_ok.
  destruct (is_free fi), (is_poisoned fi), (is_kernel fi); simpl; intros H;
    bool_to_prop; split_and!; done || lia.
Qed.

Lemma alloc_invb_sound k : alloc_invb k = true → alloc_inv k.
Proof.
  unfold alloc_invb. rewrite !andb_true_iff. intros ((((((((Hf & ?) & ?) & ?) & ?) & ?) & ?) & ?) & ?).
  bool_to_prop. split; [|unfold stats_match; split_and!; done|done].
  intros i fi Hi. apply frame_okb_sound. rewrite forallb_forall in Hf.
  apply (Hf (i, fi)), list_elem_of_In, list_elem_of_lookup. exists i.
  by rewrite list_lookup_imap, Hi.
Qed.

(** Four frames: bad memory, a kernel frame with one owner, and two free ones. *)
Definition ref_pool : Kernel :=
  mkKernel
    [mkFrameInfo FrameFlags_POISONED (frame_at 0) 0;
     mkFrameInfo FrameFlags_KERNEL (frame_at 4096) 1;
     mkFrameInfo FrameFlags_FREE (frame_at 8192) 0;
     mkFrameInfo FrameFlags_FREE (frame_at 12288) 0]
    (mkStats 4 3 1 0 1 0 1) (λ _ _, pe_zero) [] [] None None true []
    (mkLogger [] (true, 5)).

Lemma ref_pool_inv : alloc_inv ref_pool.
Proof. apply alloc_invb_sound. vm_compute. reflexivity. Qed.

Lemma ref_env_unlocked l : l ∉ held ref_env.
Proof. apply not_elem_of_nil. Qed.

Definition ref_ops : list op := [OpAllocate; OpReference 2; OpDeallocate 2; OpAllocate].

Lemma allocator_refines_pool_witness :
  ∃ k', exec_ops 0 ref_ops ref_env ref_pool
          = Ret [RFrame (Some 2%nat); RUnit; RUnit; RFrame (Some 3%nat)] k'
        ∧ abs_run (abs_of ref_pool) ref_ops
            [RFrame (Some 2%nat); RUnit; RUnit; RFrame (Some 3%nat)] (abs_of k').
Proof.
  pose proof (allocator_refines_pool 0 ref_ops ref_env ref_pool ref_pool_inv
    (ref_env_unlocked _) ltac:(repeat constructor; simpl; lia)) as H.
  destruct (ret_value_run (exec_ops 0 ref_ops ref_env ref_pool)
    [RFrame (Some 2%nat); RUnit; RUnit; RFrame (Some 3%nat)]) as [k' E];
    [vm_compute; reflexivity|].
  rewrite E in H. exists k'. split; [exact E|apply H].
Defined.

Lemma no_double_allocation_witness :
  n_deallocate 2 [OpReference 2; OpDeallocate 2; OpDeallocate 2]
    = 1 + n_reference 2 [OpReference 2; OpDeallocate 2; OpDeallocate 2]
        + n_allocate 2 [RUnit; RUnit; RUnit].
Proof.
  destruct (ret_value_run
    (exec_ops 0 [OpAllocate; OpReference 2; OpDeallocate 2; OpDeallocate 2; OpAllocate]
      ref_env ref_pool)
    [RFrame (Some 2%nat); RUnit; RUnit; RUnit; RFrame (Some 2%nat)]) as [k' E];
    [vm_compute; reflexivity|].
  refine (no_double_allocation 0 [OpReference 2; OpDeallocate 2; OpDeallocate 2] ref_env
    ref_pool [RUnit; RUnit; RUnit] 2 k' ref_pool_inv (ref_env_unlocked _) _ E).
  repeat constructor; simpl; lia.
Defined.

Lemma allocate_first_fit_witness :
  ∃ f k', Allocator_allocate AllocationFlags_KERNEL ref_env ref_pool = Ret (Some f) k'
    ∧ alloc_inv k' ∧ ∃ i : nat, frame_u64 f = Z.of_nat i * 4096.
Proof.
  pose proof (allocate_first_fit AllocationFlags_KERNEL ref_env ref_pool ref_pool_inv
    (ref_env_unlocked _)) as H.
  apply wp_run in H as (r & k' & E & Hinv & H).
  destruct r as [f|].
  - destruct H as (i & fi & fi' & _ & _ & _ & _ & Hf & _). exists f, k'.
    split_and!; [exact E|exact Hinv|]. exists i. exact Hf.
  - destruct H as [_ H].
    pose proof (H 2%nat (mkFrameInfo FrameFlags_FREE (frame_at 8192) 0) eq_refl) as H2.
    vm_compute in H2. discriminate H2.
Defined.

Lemma allocate_deallocate_roundtrip_witness :
  (f ← Allocator_allocate 0; f ← unwrap f; Allocator_deallocate f) ref_env ref_pool
    = Ret tt ref_pool.
Proof.
  exact (allocate_deallocate_roundtrip 0 ref_env ref_pool 2
    (mkFrameInfo FrameFlags_FREE (frame_at 8192) 0) ref_pool_inv (ref_env_unlocked _) eq_refl).
Defined.

Lemma double_free_panics_witness :
  (Allocator_deallocate (frame_at 4096);; Allocator_deallocate (frame_at 4096))
    ref_env ref_pool = Panic (PanicMsg "Physical frame deallocated too many times").
Proof.
  apply (double_free_panics (frame_at 4096) 1
    (mkFrameInfo FrameFlags_KERNEL (frame_at 4096) 1));
    [exact ref_pool_inv|apply ref_env_unlocked|vm_compute; reflexivity|reflexivity..].
Defined.

Lemma boot_establishes_invariant_witness :
  wp ref_env (st ← State_setup ref_mmap; Allocator_setup st)
    (λ _ k', alloc_inv k' ∧ Z.of_nat (length (k_frames k')) = 16) ref_boot.
Proof.
  eapply wp_mono.
  - apply (boot_establishes_invariant ref_mmap (mkEntry 4096 (8 * 4096) Usable));
      [by apply mmap_okb_sound|reflexivity|reflexivity|reflexivity|apply ref_env_unlocked].
  - intros st k' H. exact H.
Defined.

(** A window that leaves a frame behind is handed out; the one that reaches the end of
    the array makes the code read past it. *)
Lemma allocate_range_first_window_witness :
  Allocator_allocate_range 1 0 ref_env ref_pool
    = Ret (Some (mkRange (frame_at 8192) (frame_at 12288))) (take_window 0 1 2 ref_pool)
  ∧ Allocator_allocate_range 2 0 ref_env ref_pool = Panic IndexOutOfBounds
  ∧ Allocator_allocate_range 3 0 ref_env ref_pool = Ret None ref_pool.
Proof.
  split_and!.
  - exact (allocate_range_first_window 0 1 ref_env ref_pool ref_pool_inv
      (ref_env_unlocked _) ltac:(lia)).
  - exact (allocate_range_first_window 0 2 ref_env ref_pool ref_pool_inv
      (ref_env_unlocked _) ltac:(lia)).
  - exact (allocate_range_first_window 0 3 ref_env ref_pool ref_pool_inv
      (ref_env_unlocked _) ltac:(lia)).
Defined.

Lemma deallocate_range_releases_witness :
  wp ref_env (Allocator_deallocate_range (mkRange (frame_at 4096) (frame_at 8192)))
    (λ _ k', alloc_inv k' ∧ frame_count k' 1 = 0) ref_pool.
Proof.
  eapply wp_mono.
  - apply (deallocate_range_releases (mkRange (frame_at 4096) (frame_at 8192)));
      [exact ref_pool_inv|apply ref_env_unlocked|vm_compute; done|].
    intros f Hf. apply list_elem_of_singleton in Hf as ->. vm_compute. discriminate.
  - intros _ k' (Hinv & Hc). split; [done|]. exact (Hc (frame_at 4096) eq_refl).
Defined.
