(* ===== verification/FrameArray.v ===== *)
(** * The frame array in memory

    [State::setup] places the array of [FrameInfo] values at the start of a usable region
    of physical memory, and marks some of its frames as kernel memory -- too few of them
    when the array is large ([FrameState.v]): the allocator may then hand out a frame in
    which part of the array lies, and a client that clears or fills it destroys entries of
    the array.  The model keeps the content of the array apart from memory, which is right
    as long as no such frame is handed out.  This file says when that is so: [allocate] is
    first fit, so that the first frames it hands out are those below the array. *)

From S2P Require Import Prelude Machine External Reference Frame BTree Log Kernel FrameState FrameAlloc.

Section FrameArray.
Context {BF : Bitflags} {BFS : BitflagsSpec BF} {RT : Runtime} {RTS : RuntimeSpec RT}
  {XA : X86Address} {XAS : X86AddressSpec XA} {XP : X86Paging XA}
  {LG : Logging} {LGS : LoggingSpec LG} {XC : X86Cpu} {XCS : X86CpuSpec XC}
  {LY : Layout} {LYS : LayoutSpec LY}.
Implicit Types (k : Kernel) (p n : Z) (mmap : list LimineMemmapEntry) (en : LimineMemmapEntry).

(** The frames the memory map gives to the kernel and the bootloader, and the number of
    those that are free after the set-up. *)
Definition boot_owned mmap en p : Prop :=
  0 ≤ p ∧ p mod 4096 = 0 ∧ p / 4096 < last_frame mmap
  ∧ setup_class mmap en (p / 4096) = CKernel.

Definition class_free (c : frame_class) : bool :=
  match c with CFree => true | _ => false end.

Definition usable_frames mmap en : Z :=
  countb (λ i, class_free (setup_class mmap en i)) (seqZ 0 (last_frame mmap)).

Lemma has_class_free c fi : has_class c fi → is_free fi = class_free c.
Proof. by destruct c; intros (_ & -> & _). Qed.

(** The pages in which the array lies. *)
Definition array_page mmap en p : Prop :=
  p mod 4096 = 0 ∧ entry_base en ≤ p < entry_base en + last_frame mmap * size_of_FrameInfo.

(** The frames that were reserved hold the whole array. *)
Definition array_covered mmap en : bool :=
  last_frame mmap * size_of_FrameInfo
    <=? 4096 * (array_limit en (last_frame mmap) - array_first en).

(** The number of frames that can be handed out before one of the array is: all of them
    when the array was reserved as a whole, those below the array otherwise. *)
Definition spare_frames mmap en : Z :=
  if array_covered mmap en then usable_frames mmap en
  else countb (λ i, class_free (setup_class mmap en i)) (seqZ 0 (array_first en)).

Lemma spare_usable mmap en :
  mmap_ok mmap → array_entry mmap = Some en → 0 < last_frame mmap →
  spare_frames mmap en ≤ usable_frames mmap en.
Proof.
  intros Hok Hen Hl. unfold spare_frames, usable_frames. destruct (array_covered mmap en); [lia|].
  destruct (array_slice_bounds mmap en Hok Hen Hl) as (Hab & Hb & Hlast).
  replace (last_frame mmap) with (array_first en + (last_frame mmap - array_first en)) by lia.
  rewrite (seqZ_app 0 (array_first en)), countb_app by lia.
  pose proof (countb_bounds (λ i, class_free (setup_class mmap en i))
    (seqZ (0 + array_first en) (last_frame mmap - array_first en))). lia.
Qed.

(** The array as [State::setup] leaves it. *)
Record frames_set_up mmap en k : Prop := {
  fsu_length : Z.of_nat (length (k_frames k)) = last_frame mmap;
  fsu_class i fi : k_frames k !! i = Some fi →
    has_class (setup_class mmap en (Z.of_nat i)) fi
}.

Lemma countb_classes n mmap en k :
  frames_set_up mmap en k → 0 ≤ n ≤ last_frame mmap →
  countb is_free (take (Z.to_nat n) (k_frames k))
  = countb (λ i, class_free (setup_class mmap en i)) (seqZ 0 n).
Proof.
  intros [Hlen Hc] Hn. apply countb_Forall2, Forall2_same_length_lookup_2.
  - rewrite length_take, length_seqZ. lia.
  - intros i fi j [Hi _]%lookup_take_Some [-> _]%lookup_seqZ. rewrite Z.add_0_l.
    by apply has_class_free, Hc.
Qed.

Lemma frames_set_up_free mmap en k :
  frames_set_up mmap en k → free_frames k = usable_frames mmap en.
Proof.
  intros H. pose proof (fsu_length _ _ _ H) as Hlen. unfold usable_frames.
  rewrite <- (countb_classes (last_frame mmap) mmap en k) by (done || lia).
  by rewrite <- Hlen, Nat2Z.id, firstn_all.
Qed.

Lemma boot_owned_refs mmap en k p :
  frames_set_up mmap en k → boot_owned mmap en p → frame_refs k p = 1.
Proof.
  intros [Hlen Hcl] (H0 & Hal & Hlt & Hc). unfold frame_refs, frame_count.
  assert ((p mod 4096 =? 0) && (0 <=? p) = true) as -> by blia. assert (0 ≤ p / 4096) by dlia.
  destruct (lookup_lt_is_Some_2 (k_frames k) (Z.to_nat (p / 4096)) ltac:(lia)) as [fi Hi].
  rewrite Hi. pose proof (Hcl _ fi Hi) as Hk. rewrite Z2Nat.id, Hc in Hk by done. apply Hk.
Qed.

(** A page of the array is free or reserved, and has no owner. *)
Lemma array_page_class mmap en p :
  mmap_ok mmap → array_entry mmap = Some en → array_page mmap en p →
  0 ≤ p ∧ array_first en ≤ p / 4096
  ∧ setup_class mmap en (p / 4096)
    = if p / 4096 <? array_limit en (last_frame mmap) then CArray else CFree.
Proof.
  intros Hok Hen [Hal Hp]. destruct (array_entry_spec mmap en Hen) as (Hin & Ht & Hsz).
  destruct (mmap_aligned _ Hok en Hin Ht) as [Hal1 Hal2].
  destruct (mmap_entry _ Hok en Hin) as (? & ? & ?).
  assert (is_ram en = true) as Hr by (apply is_ram_spec; auto).
  assert (array_first en ≤ p / 4096) by (unfold array_first, entry_first; dlia).
  assert (covers en (p / 4096) = true) as Hc.
  { unfold covers, entry_first, entry_limit. apply andb_true_iff.
    rewrite Z.leb_le, Z.ltb_lt. dlia. }
  split; [lia|]. split; [done|]. unfold setup_class.
  rewrite (proj2 (Z.leb_le (array_first en) (p / 4096))) by done. simpl.
  destruct (p / 4096 <? array_limit en (last_frame mmap)); [done|].
  by rewrite (classify_covers mmap en _ Hok Hin Hr Hc), Ht.
Qed.

Lemma array_page_unowned mmap en k p :
  mmap_ok mmap → array_entry mmap = Some en → frames_set_up mmap en k →
  array_page mmap en p → frame_refs k p = 0.
Proof.
  intros Hok Hen [Hlen Hcl] Hp.
  destruct (array_page_class mmap en p Hok Hen Hp) as (H0 & Hf & Hc).
  unfold frame_refs, frame_count. destruct ((p mod 4096 =? 0) && (0 <=? p)); [|done].
  destruct (k_frames k !! Z.to_nat (p / 4096)) as [fi|] eqn:Hi; [|done].
  pose proof (Hcl _ fi Hi) as Hk. rewrite Z2Nat.id, Hc in Hk by dlia.
  destruct (_ <? _); apply Hk.
Qed.

(** While at most [spare_frames] frames were handed out, none of the array was. *)
Lemma array_spared mmap en n k k' p :
  mmap_ok mmap → array_entry mmap = Some en → 0 < last_frame mmap →
  frames_set_up mmap en k → first_fit k k' →
  fa_free k - n ≤ fa_free k' → n ≤ spare_frames mmap en →
  array_page mmap en p → ¬ fa_live k' p.
Proof.
  intros Hok Hen Hl Hs [Hav Htk] Hfree Hn Hp Hlive.
  destruct (array_page_class mmap en p Hok Hen Hp) as (H0 & Hf & Hc).
  assert (¬ fa_live k p) as Hnew.
  { unfold fa_live. change (¬ 0 < frame_refs k p).
    rewrite (array_page_unowned mmap en) by done. lia. }
  destruct (Htk p Hlive Hnew) as [(i & fi & Hpi & Hi & Hfi)%frame_avail_spec Hlow].
  assert (p / 4096 = Z.of_nat i) as Hidx by (rewrite Hpi; by apply Z.div_mul).
  pose proof (fsu_class _ _ _ Hs i fi Hi) as Hcl. rewrite <- Hidx, Hc in Hcl.
  apply has_class_free in Hcl. rewrite Hfi in Hcl.
  destruct (Z.ltb_spec (p / 4096) (array_limit en (last_frame mmap))) as [|Hge]; [done|].
  unfold spare_frames in Hn. destruct (array_covered mmap en) eqn:Hcov.
  - apply Z.leb_le in Hcov. destruct Hp as [Hal Hp].
    destruct (mmap_aligned _ Hok en) as [Hal1 _]; [by apply (array_entry_spec mmap en)..|].
    unfold array_first, entry_first in *. dlia.
  - change (free_frames k - n ≤ free_frames k') in Hfree. unfold free_frames in Hfree.
    assert (0 ≤ array_first en) by (pose proof (array_slice_bounds mmap en Hok Hen Hl); lia).
    assert (array_first en ≤ last_frame mmap)
      by (pose proof (array_slice_bounds mmap en Hok Hen Hl); lia).
    rewrite <- (countb_classes (array_first en) mmap en k) in Hn by (done || lia).
    pose proof (countb_behind is_free (k_frames k) (k_frames k') i
      (Z.to_nat (array_first en)) fi Hi Hfi ltac:(lia)) as Hcount.
    assert (countb is_free (k_frames k') + countb is_free (take (Z.to_nat (array_first en))
      (k_frames k)) + 1 ≤ countb is_free (k_frames k)); [|lia].
    apply Hcount. intros j fj Hj Hfj.
    assert (frame_avail k' (Z.of_nat j * 4096) = true) as Hj'
      by (apply frame_avail_spec; by exists j, fj).
    split; [specialize (Hlow _ Hj'); lia|].
    apply Hav, frame_avail_spec in Hj' as (j' & fj' & Heq & Hj' & Hfj').
    assert (j' = j) as -> by lia. by exists fj'.
Qed.
End FrameArray.
