(* ===== verification/Paging.v ===== *)
(** * Page tables: the code of [src/src/arch/paging.rs]

    The operations on page tables, translated function by function, except the
    page-fault handlers, which are in [Fault].  A reference to a [PageTable] is
    the kernel pointer to it; a reference to a [PageEntry] is such a pointer and
    an index.  Frames come from the trait [Allocator]. *)

From S2P Require Import Prelude Machine External Reference Frame BTree Log Kernel FrameState FrameAlloc.

Inductive MapError := OutOfMemory | AlreadyMapped.

Inductive PageFaultType := LazyTlbInvalidation | DemandPaging.

Definition PageFaultError_UNKNOWN : Z := 0.
Definition PageFaultError_MISSING_PAGE : Z := Z.shiftl 1 1.
Definition PageFaultError_PROTECTION_VIOLATION : Z := Z.shiftl 1 2.
Definition PageFaultError_WRITE_PROTECTED : Z := Z.shiftl 1 3.
Definition PageFaultError_NOT_EXECUTABLE : Z := Z.shiftl 1 4.
Definition PageFaultError_OUT_OF_MEMORY : Z := Z.shiftl 1 5.
Definition PageFaultError_NOT_MAPPABLE : Z := Z.shiftl 1 6.
Definition PageFaultError_ALREADY_MAPPED : Z := Z.shiftl 1 7.

(** [arch/acpi.rs]: the vector of the TLB shootdown interrupt. *)
Definition TLB_SHOOTDOWN_VECTOR : Z := 0xF0.

Section PagingDefs.
Context {BF : Bitflags} {RT : Runtime} {XA : X86Address} {XP : X86Paging XA} {LG : Logging}
  {XC : X86Cpu} {FA : Allocator}.

Definition MapFlags : Type := PageEntryFlags.

(** [table[i]], and a store through [&mut table[i]]. *)
Definition read_entry (table i : Z) : M Kernel PageEntry :=
  gets (λ k, k_mem k (resolve table) i).

Definition update_entry (table i : Z) (f : PageEntry → PageEntry) : M Kernel unit :=
  modify (λ k, set_mem (mem_write (resolve table) i (f (k_mem k (resolve table) i))
                          (k_mem k)) k).

(** [FRAME_ALLOCATOR.lock().allocate(flags)], with interrupts disabled. *)
Definition locked_allocate (flags : Z) : M Kernel (option Frame) :=
  irq_without (with_lock FRAME_ALLOCATOR (fa_allocate flags)).

(** *** [mod tlb] *)

Definition tlb_flush_all : M Kernel unit := emit Cr3Reload.

Definition tlb_flush (addr : Z) : M Kernel unit := emit (Invlpg addr).

Definition tlb_shootdown : M Kernel unit :=
  tlb_flush_all;;
  evs ← gets k_events;
  if lapic_initialized evs then emit (SendIpiOtherCores false TLB_SHOOTDOWN_VECTOR)
  else mret tt.

(** *** Walks *)

(** The recursion descends one level per call; [fuel] bounds the levels. *)
Fixpoint creat_and_fetch_pte (fuel : nat) (table : Z) (level : Level) (at_ : Virtual)
  : M Kernel (option (Z * Z)) :=
  match fuel with
  | O => panic_with FuelExhausted
  | S fuel' =>
      let i := page_index at_ (level_as_u64 level) in
      entry ← read_entry table i;
      created ←
        (if negb (pe_is_present entry) && negb (level_eqb level PageTableLevel) then
           frame ← locked_allocate (bf_union AllocationFlags_KERNEL AllocationFlags_ZEROED);
           match frame with
           | None => mret false
           | Some frame =>
               update_entry table i (λ e, pe_add_flags e (pef_union PRESENT WRITABLE));;
               update_entry table i (λ e, pe_set_address e (Frame_start frame));;
               mret true
           end
         else mret true);
      if negb created then mret None
      else
        match level_next level with
        | Some level' =>
            entry ← read_entry table i;
            addr ← unwrap (pe_address entry);
            next ← phys_to_virt addr;
            creat_and_fetch_pte fuel' (virt_as_u64 next) level' at_
        | None => mret (Some (table, i))
        end
  end.

Fixpoint fetch_pte (fuel : nat) (table : Z) (level : Level) (at_ : Virtual)
  : M Kernel (option (Z * Z)) :=
  match fuel with
  | O => panic_with FuelExhausted
  | S fuel' =>
      let i := page_index at_ (level_as_u64 level) in
      entry ← read_entry table i;
      if pe_is_present entry then
        match level_next level with
        | Some level' =>
            addr ← unwrap (pe_address entry);
            next ← phys_to_virt addr;
            fetch_pte fuel' (virt_as_u64 next) level' at_
        | None => mret (Some (table, i))
        end
      else mret None
  end.

Fixpoint fetch_pte_mut (fuel : nat) (table : Z) (level : Level) (at_ : Virtual)
  : M Kernel (option (Z * Z)) :=
  match fuel with
  | O => panic_with FuelExhausted
  | S fuel' =>
      let i := page_index at_ (level_as_u64 level) in
      entry ← read_entry table i;
      if pe_is_present entry then
        match level_next level with
        | Some level' =>
            addr ← unwrap (pe_address entry);
            next ← phys_to_virt addr;
            fetch_pte_mut fuel' (virt_as_u64 next) level' at_
        | None => mret (Some (table, i))
        end
      else mret None
  end.

(** Four levels of tables. *)
Definition walk_fuel : nat := 4.

(** *** Mappings *)

Definition map (table : Z) (at_ : Virtual) (frame : Frame) (flags : MapFlags)
  : M Kernel (unit + MapError) :=
  pte ← creat_and_fetch_pte walk_fuel table PageMapLevel4 at_;
  match pte with
  | Some (t, i) =>
      pte ← read_entry t i;
      if pe_is_present pte then mret (inr AlreadyMapped)
      else
        frame ←
          (if phys_is_null (Frame_start frame) then
             locked_allocate (bf_union AllocationFlags_KERNEL AllocationFlags_ZEROED)
           else mret (Some frame));
        match frame with
        | None => mret (inr OutOfMemory)
        | Some frame =>
            update_entry t i (λ e, pe_set_address e (Frame_start frame));;
            update_entry t i (λ e, pe_set_flags e flags);;
            mret (inl tt)
        end
  | None => mret (inr OutOfMemory)
  end.

(** [Physical::new(addr.as_u64() + (at.as_u64() & 0xFFF))]. *)
Definition with_page_offset (addr : Physical) (at_ : Virtual) : M Kernel Physical :=
  a ← u64_add (phys_as_u64 addr) (Z.land (virt_as_u64 at_) 0xFFF);
  ext (phys_new a).

Definition unmap (table : Z) (at_ : Virtual) : M Kernel (option Physical) :=
  pte ← fetch_pte_mut walk_fuel table PageMapLevel4 at_;
  match pte with
  | Some (t, i) =>
      pte ← read_entry t i;
      if pe_is_present pte then
        addr ← unwrap (pe_address pte);
        irq_without (update_entry t i pe_clear;; tlb_shootdown);;
        p ← with_page_offset addr at_;
        mret (Some p)
      else mret None
  | None => mret None
  end.

Definition protection (table : Z) (at_ : Virtual) : M Kernel (option PageEntryFlags) :=
  pte ← fetch_pte walk_fuel table PageMapLevel4 at_;
  match pte with
  | Some (t, i) =>
      pte ← read_entry t i;
      if pe_is_present pte then mret (Some (pe_flags pte)) else mret None
  | None => mret None
  end.

Definition change_protection (table : Z) (at_ : Virtual) (flags : PageEntryFlags)
  : M Kernel (option PageEntryFlags) :=
  pte ← fetch_pte_mut walk_fuel table PageMapLevel4 at_;
  match pte with
  | Some (t, i) =>
      pte ← read_entry t i;
      if pe_is_present pte then
        irq_without (update_entry t i (λ e, pe_set_flags e flags);; tlb_shootdown);;
        mret (Some (pe_flags pte))
      else mret None
  | None => mret None
  end.

Definition translate (table : Z) (at_ : Virtual) : M Kernel (option Physical) :=
  pte ← fetch_pte walk_fuel table PageMapLevel4 at_;
  match pte with
  | Some (t, i) =>
      pte ← read_entry t i;
      if pe_is_present pte then
        addr ← unwrap (pe_address pte);
        p ← with_page_offset addr at_;
        mret (Some p)
      else mret None
  | None => mret None
  end.

(** *** Root tables *)

(** [&*self.addr.as_ptr()]. *)
Definition TableRoot_deref (self : TableRoot) : Z := virt_as_ptr (root_addr self).

(** [&mut *self.addr.as_mut_ptr()]. *)
Definition TableRoot_deref_mut (self : TableRoot) : Z := virt_as_ptr (root_addr self).

Definition TableRoot_from (phys : Frame) : M Kernel TableRoot :=
  v ← phys_to_virt (Frame_start phys);
  mret (mkTableRoot v phys).

Definition TableRoot_clone (self : TableRoot) : M Kernel TableRoot :=
  frame ← with_lock FRAME_ALLOCATOR
            (fa_allocate (bf_union AllocationFlags_KERNEL AllocationFlags_ZEROED));
  frame ← expect frame "Failed to allocate a frame for the pml4 entry";
  modify (λ k, set_mem (mem_copy (resolve (phys_as_ptr (Frame_start (root_frame self))))
                          (resolve (phys_as_ptr (Frame_start frame))) 0 512 (k_mem k)) k);;
  v ← phys_to_virt (Frame_start frame);
  mret (mkTableRoot v frame).

Definition TableRoot_drop (self : TableRoot) : M Kernel unit :=
  with_lock FRAME_ALLOCATOR (fa_deallocate (root_frame self)).

Definition change_table (table : TableRoot) : M Kernel unit :=
  emit (Cr3Write (phys_as_u64 (Frame_start (root_frame table)))).

Definition active_table : M Kernel Z :=
  evs ← gets k_events;
  addr ← ext (phys_new (Z.land (cr3_read evs) PAGE_MASK));
  v ← phys_to_virt addr;
  mret (virt_as_ptr v).

(** The initialiser of [INIT_TABLE], run the first time it is used. *)
Definition INIT_TABLE_force : M Kernel TableRoot :=
  t ← gets k_init_table;
  match t with
  | Some t => mret t
  | None =>
      p ← active_table;
      v ← ext (virt_new p);
      phys ← virt_to_phys v;
      boot_pml4 ← Frame_new phys;
      irq_without (with_lock FRAME_ALLOCATOR (fa_reference boot_pml4));;
      t ← TableRoot_from boot_pml4;
      modify (set_init_table (Some t));;
      mret t
  end.

(** The initialiser of [ACTIVE_TABLE], the table of this CPU. *)
Definition ACTIVE_TABLE_force : M Kernel TableRoot :=
  t ← gets k_active_table;
  match t with
  | Some t => mret t
  | None =>
      init ← INIT_TABLE_force;
      pml4 ← TableRoot_clone init;
      change_table pml4;;
      modify (set_active_table (Some pml4));;
      mret pml4
  end.

Definition TableRoot_new : M Kernel TableRoot :=
  frame ← with_lock FRAME_ALLOCATOR
            (fa_allocate (bf_union AllocationFlags_KERNEL AllocationFlags_ZEROED));
  frame ← unwrap frame;
  init ← INIT_TABLE_force;
  modify (λ k, set_mem (mem_copy (resolve (TableRoot_deref init))
                          (resolve (phys_as_ptr (Frame_start frame))) 256 256 (k_mem k)) k);;
  v ← phys_to_virt (Frame_start frame);
  mret (mkTableRoot v frame).

(** [f(&mut ACTIVE_TABLE.lock().lock())]. *)
Definition with_active_table {A} (f : Z → M Kernel A) : M Kernel A :=
  _ ← ACTIVE_TABLE_force;
  with_lock ACTIVE_TABLE (with_lock TABLE_ROOT (
    root ← gets k_active_table;
    root ← unwrap root;
    f (TableRoot_deref_mut root))).

Definition map_current (at_ : Virtual) (frame : Frame) (flags : MapFlags)
  : M Kernel (unit + MapError) :=
  irq_without (with_active_table (λ table, map table at_ frame flags)).

Definition unmap_current (at_ : Virtual) : M Kernel (option Physical) :=
  irq_without (with_active_table (λ table, unmap table at_)).

(** The loop of [setup], for the entry of index [i]. *)
Definition preallocate_entry (table i : Z) : M Kernel unit :=
  entry ← read_entry table i;
  if negb (pe_is_present entry) then
    frame ← with_lock FRAME_ALLOCATOR (fa_allocate AllocationFlags_KERNEL);
    frame ← expect frame "Failed to allocate a frame for the kernel pml4 entry";
    update_entry table i (λ e, pe_set_address e (Frame_start frame));;
    update_entry table i (λ e, pe_set_flags e (pef_union PRESENT WRITABLE))
  else mret tt.

Definition paging_setup : M Kernel unit :=
  with_active_table (λ table,
    base ← ext (virt_new KERNEL_BASE);
    foldM (λ _ i, preallocate_entry table i)
      (seqZ (virt_pml4_offset base) (PageTable_COUNT - virt_pml4_offset base)) tt).

Definition ap_setup : M Kernel unit := _ ← ACTIVE_TABLE_force; mret tt.

(** [set_current_table(table)].  The assignment drops the previous [Arc]; whether it
    was the last one, which is the callers' business, is the argument [last]. *)
Definition set_current_table (table : TableRoot) (last : bool) : M Kernel unit :=
  old ← ACTIVE_TABLE_force;
  with_lock ACTIVE_TABLE (
    (if last then TableRoot_drop old else mret tt);;
    modify (set_active_table (Some table)));;
  with_lock ACTIVE_TABLE (with_lock TABLE_ROOT (
    root ← gets k_active_table;
    root ← unwrap root;
    change_table root)).
End PagingDefs.
