(* ===== verification/PageTables.v ===== *)
(** * Page tables: correctness of [src/src/arch/paging.rs]

    A page table in memory is seen as a tree: [follow] finds the table reached
    by a list of indices, [mapping] the leaf entry of an address.  The invariant
    [pt_inv] says that the tables of a region of the address space are pairwise
    distinct frames that belong to the kernel; under it the operations act on
    the partial function from addresses to leaf entries as their documentation
    says.  The proofs use the contract of the frame allocator only. *)

From S2P Require Import Prelude Machine External Reference Frame BTree Log Kernel FrameState FrameAlloc Paging.

Section Tree.
Context {XA : X86Address} {XP : X86Paging XA} {LG : Logging}.
Implicit Types (m : memory) (p q r i j : Z) (l : list Z).

(** The page an entry points to. *)
Definition next_table m p i : option Z :=
  if pe_is_present (m p i) then Some (phys_as_u64 (pe_addr_field (m p i))) else None.

(** The table reached from the root [r] by the indices [l]. *)
Definition follow m r l : option Z :=
  foldl (λ o i, o ≫= λ p, next_table m p i) (Some r) l.

(** The entry of index [i] of a table, when it is present. *)
Definition entry_at m p i : option PageEntry :=
  if pe_is_present (m p i) then Some (m p i) else None.

(** The leaf entry of the address whose indices are [l ++ [i]]. *)
Definition leaf m r l i : option PageEntry := follow m r l ≫= λ p, entry_at m p i.

(** The index of an address in a table that has [h] levels below it, and the indices
    from such a table down to the last but one level. *)
Definition idx (v : Virtual) (h : nat) : Z :=
  virt_as_u64 v / 2 ^ (12 + 9 * Z.of_nat h) mod 512.

Fixpoint idxs (v : Virtual) (h : nat) : list Z :=
  match h with O => [] | S h' => idx v h :: idxs v h' end.

Definition mapping m r (v : Virtual) : option PageEntry := leaf m r (idxs v 3) (idx v 0).

Lemma follow_snoc m r l i :
  follow m r (l ++ [i]) = follow m r l ≫= λ p, next_table m p i.
Proof. unfold follow. by rewrite foldl_app. Qed.

Lemma follow_app m r l l' : follow m r (l ++ l') = follow m r l ≫= λ p, follow m p l'.
Proof.
  induction l' as [|i l' IH] using rev_ind.
  - rewrite app_nil_r. by destruct (follow m r l).
  - rewrite app_assoc, follow_snoc, IH. destruct (follow m r l); simpl; [|done].
    by rewrite follow_snoc.
Qed.

Lemma follow_cons m r i l : follow m r (i :: l) = next_table m r i ≫= λ p, follow m p l.
Proof. exact (follow_app m r [i] l). Qed.

Lemma length_idxs v h : length (idxs v h) = h.
Proof. induction h; simpl; congruence. Qed.

Lemma idx_range v h : 0 ≤ idx v h < 512.
Proof. by apply Z.mod_pos_bound. Qed.

Lemma idxs_range v h : Forall (λ i, 0 ≤ i < 512) (idxs v h).
Proof. induction h; simpl; constructor; [apply idx_range|done]. Qed.
End Tree.

Section PageNumbers.
Context {XA : X86Address} {XAS : X86AddressSpec XA} {XP : X86Paging XA} {LG : Logging}.

(** Two addresses on the same 4 KiB page. *)
Definition same_page (v w : Virtual) : bool :=
  virt_as_u64 v / 4096 =? virt_as_u64 w / 4096.

Lemma digits_inj a b :
  (∀ h, (h ≤ 3)%nat → a / 2 ^ (9 * Z.of_nat h) mod 512 = b / 2 ^ (9 * Z.of_nat h) mod 512) →
  a mod 2 ^ 36 = b mod 2 ^ 36.
Proof.
  intros H. pose proof (H 0%nat ltac:(lia)) as H0. pose proof (H 1%nat ltac:(lia)) as H1.
  pose proof (H 2%nat ltac:(lia)) as H2. pose proof (H 3%nat ltac:(lia)) as H3.
  change (2 ^ (9 * Z.of_nat 0)) with 1 in H0.
  change (2 ^ (9 * Z.of_nat 1)) with 512 in H1.
  change (2 ^ (9 * Z.of_nat 2)) with (512 * 512) in H2.
  change (2 ^ (9 * Z.of_nat 3)) with (512 * 512 * 512) in H3.
  rewrite <- !Z.div_div in H2 by lia. rewrite <- !Z.div_div in H3 by lia.
  change (2 ^ 36) with (512 * 512 * 512 * 512). rewrite Z.div_1_r in H0.
  dlia.
Qed.

(** The indices of an address determine its page, and conversely. *)
Lemma same_page_idxs v w :
  same_page v w = true ↔ idxs v 3 = idxs w 3 ∧ idx v 0 = idx w 0.
Proof.
  assert (∀ u h, idx u h = virt_as_u64 u / 4096 / 2 ^ (9 * Z.of_nat h) mod 512) as Hidx.
  { intros u h. unfold idx. rewrite Z.pow_add_r, <- Z.div_div by lia. done. }
  unfold same_page. rewrite Z.eqb_eq. split.
  - intros Heq. simpl. by rewrite !Hidx, Heq.
  - simpl. intros [[= H3 H2 H1] H0].
    assert (virt_as_u64 v / 4096 mod 2 ^ 36 = virt_as_u64 w / 4096 mod 2 ^ 36).
    { apply digits_inj. intros [|[|[|[|h]]]] Hh; [..|lia]; by rewrite <- !Hidx. }
    pose proof (virt_canonical v) as Hv. pose proof (virt_canonical w) as Hw.
    unfold canonical in *. dlia.
Qed.
Lemma same_page_mapping m r v w : same_page w v = true → mapping m r w = mapping m r v.
Proof. intros [H1 H2]%same_page_idxs. unfold mapping. by rewrite H1, H2. Qed.
End PageNumbers.

(** ** The tables of a region *)

Section Region.
Context {XA : X86Address} {XP : X86Paging XA} {LG : Logging}.
(** The region of the address space under consideration, as a set of indices of the
    root table: the parts of the address space the kernel maps page by page. *)
Variable D : Z → Prop.
Implicit Types (m : memory) (p q r i j : Z) (l : list Z) (live : Z → Prop).

(** The indices of a table of the region. *)
Definition good l : Prop :=
  (length l ≤ 3)%nat ∧ Forall (λ i, 0 ≤ i < 512) l ∧ ∀ i l', l = i :: l' → D i.

(** Tables are frames with an owner, in the direct map, and no two places of the
    tree share a table. *)
Record tables_ok live m r : Prop := {
  tables_live l p : good l → follow m r l = Some p → 0 ≤ p < 2 ^ 44 ∧ live p;
  tables_inj l l' p :
    good l → good l' → follow m r l = Some p → follow m r l' = Some p → l = l'
}.

Lemma good_nil : good [].
Proof. split_and!; [simpl; lia|constructor|done]. Qed.

Lemma good_prefix l i : good (l ++ [i]) → good l.
Proof.
  intros (Hlen & Hr & HD). rewrite length_app in Hlen. apply Forall_app in Hr as [Hr _].
  split_and!; [lia|done|]. intros j l' ->. by apply (HD j (l' ++ [i])).
Qed.

(** A new, empty table [q] is hooked at the absent entry [i] of the table [p]. *)
Section Install.
Variables (live : Z → Prop) (m m' : memory) (r p q i : Z) (l : list Z).
Hypothesis Hok : tables_ok live m r.
Hypothesis Hgood : good (l ++ [i]).
Hypothesis Hp : follow m r l = Some p.
Hypothesis Habsent : pe_is_present (m p i) = false.
Hypothesis Hq : ¬ live q.
Hypothesis Hlink : next_table m' p i = Some q.
Hypothesis Hzero : ∀ j, pe_is_present (m' q j) = false.
Hypothesis Hsame : ∀ p' j, p' ≠ q → ¬ (p' = p ∧ j = i) → m' p' j = m p' j.

Lemma install_absent : follow m r (l ++ [i]) = None.
Proof. rewrite follow_snoc, Hp. simpl. unfold next_table. by rewrite Habsent. Qed.

Lemma follow_install l' :
  good l' →
  follow m' r l' = if bool_decide (l' = l ++ [i]) then Some q else follow m r l'.
Proof.
  induction l' as [|j l' IH] using rev_ind; intros Hl'.
  { rewrite bool_decide_eq_false_2; [done|]. by destruct l. }
  pose proof (good_prefix _ _ Hl') as Hl''. rewrite !follow_snoc, (IH Hl''). clear IH.
  destruct (decide (l' = l ++ [i])) as [->|Hne].
  - rewrite (bool_decide_eq_true_2 (l ++ [i] = l ++ [i])) by done.
    rewrite bool_decide_eq_false_2, install_absent; simpl.
    + unfold next_table. by rewrite Hzero.
    + intros Heq%(f_equal length). rewrite !length_app in Heq. simpl in Heq. lia.
  - rewrite (bool_decide_eq_false_2 (l' = l ++ [i])) by done.
    destruct (follow m r l') as [p'|] eqn:Hp'; simpl.
    + destruct (tables_live live m r Hok l' p' Hl'' Hp') as [_ Hlive].
      assert (p' ≠ q) as Hpq by congruence. case_bool_decide as Heq.
      * apply app_inj_tail in Heq as [-> ->]. simplify_eq. by rewrite Hlink.
      * unfold next_table. rewrite Hsame; [done|done|]. intros [-> ->]. apply Heq.
        f_equal. eapply (tables_inj live m r Hok); [done| |done|done].
        by eapply good_prefix.
    + rewrite bool_decide_eq_false_2; [done|].
      intros [-> ->]%app_inj_tail. congruence.
Qed.

Lemma leaf_install l' j :
  good l' → length l' = 3%nat → leaf m' r l' j = leaf m r l' j.
Proof.
  intros Hl' Hlen. unfold leaf. rewrite follow_install by done.
  case_bool_decide as Heq.
  - subst l'. rewrite install_absent. simpl. unfold entry_at. by rewrite Hzero.
  - destruct (follow m r l') as [p'|] eqn:Hp'; simpl; [|done].
    destruct (tables_live live m r Hok l' p' Hl' Hp') as [_ Hlive].
    unfold entry_at. rewrite Hsame; [done|congruence|]. intros [-> ->].
    assert (l' = l) as ->.
    { eapply (tables_inj live m r Hok); [done| |done|done]. by eapply good_prefix. }
    destruct Hgood as (Hlen' & _). rewrite length_app in Hlen'. simpl in Hlen'. lia.
Qed.

Lemma tables_install live' :
  (∀ a, live a → live' a) → live' q → 0 ≤ q < 2 ^ 44 → tables_ok live' m' r.
Proof.
  intros Hlive Hq' Hqb. split.
  - intros l' p' Hl'. rewrite follow_install by done. case_bool_decide.
    + by intros [= <-].
    + intros Hp'. destruct (tables_live live m r Hok l' p' Hl' Hp'). auto.
  - intros l1 l2 p' H1 H2. rewrite !follow_install by done.
    do 2 case_bool_decide; [congruence| | |by apply (tables_inj live m r Hok)].
    + intros [= <-] Hp'. by destruct (tables_live live m r Hok l2 q H2 Hp').
    + intros Hp' [= <-]. by destruct (tables_live live m r Hok l1 q H1 Hp').
Qed.
End Install.

(** The leaf entry [i] of the table [p] is overwritten. *)
Section LeafWrite.
Variables (live : Z → Prop) (m m' : memory) (r p i : Z) (l : list Z).
Hypothesis Hok : tables_ok live m r.
Hypothesis Hgood : good l.
Hypothesis Hlen : length l = 3%nat.
Hypothesis Hp : follow m r l = Some p.
(** Tables, and the entries of tables, other than this one are unchanged. *)
Hypothesis Hsame : ∀ p' j, live p' → ¬ (p' = p ∧ j = i) → m' p' j = m p' j.

Lemma follow_leaf_write l' : good l' → follow m' r l' = follow m r l'.
Proof.
  induction l' as [|j l' IH] using rev_ind; intros Hl'; [done|].
  pose proof (good_prefix _ _ Hl') as Hl''. rewrite !follow_snoc, (IH Hl'').
  destruct (follow m r l') as [p'|] eqn:Hp'; simpl; [|done].
  destruct (tables_live live m r Hok l' p' Hl'' Hp') as [_ Hlive].
  unfold next_table. rewrite Hsame; [done|done|]. intros [-> ->].
  assert (l' = l) as -> by (by eapply (tables_inj live m r Hok)).
  destruct Hl' as (H & _). rewrite length_app in H. simpl in H. lia.
Qed.

Lemma leaf_leaf_write l' j :
  good l' →
  leaf m' r l' j = if bool_decide (l' = l ∧ j = i) then entry_at m' p i else leaf m r l' j.
Proof.
  intros Hl'. unfold leaf. rewrite follow_leaf_write by done. case_bool_decide as Heq.
  - destruct Heq as [-> ->]. by rewrite Hp.
  - destruct (follow m r l') as [p'|] eqn:Hp'; simpl; [|done].
    destruct (tables_live live m r Hok l' p' Hl' Hp') as [_ Hlive].
    unfold entry_at. rewrite Hsame; [done|done|]. intros [-> ->]. apply Heq.
    split; [|done]. by eapply (tables_inj live m r Hok).
Qed.

Lemma tables_leaf_write live' : (∀ a, live a → live' a) → tables_ok live' m' r.
Proof.
  intros Hlive. split.
  - intros l' p' Hl'. rewrite follow_leaf_write by done.
    intros Hp'. destruct (tables_live live m r Hok l' p' Hl' Hp'). auto.
  - intros l1 l2 p' H1 H2. rewrite !follow_leaf_write by done.
    by apply (tables_inj live m r Hok).
Qed.
End LeafWrite.

(** A root table with no entry is well formed. *)
Lemma tables_empty live m r :
  (∀ i, pe_is_present (m r i) = false) → 0 ≤ r < 2 ^ 44 → live r → tables_ok live m r.
Proof.
  intros Habs Hr Hl.
  assert (∀ l p, follow m r l = Some p → l = [] ∧ p = r) as H.
  { intros [|i l] p; [by intros [= <-]|]. rewrite follow_cons. unfold next_table.
    by rewrite Habs. }
  split.
  - intros l p _ Hf. by apply H in Hf as [_ ->].
  - intros l l' p _ _ Hf Hf'. apply H in Hf as [-> _]. by apply H in Hf' as [-> _].
Qed.

(** The pages that hold the tables of the region. *)
Definition is_table m r p : Prop := ∃ l, good l ∧ follow m r l = Some p.
End Region.

(** ** Walks *)

(** The kernel pointer to the physical address [p]. *)
Definition hhdm (p : Z) : Z := 0xFFFF800000000000 + p.

Section Walks.
Context {BF : Bitflags} {RT : Runtime} {RTS : RuntimeSpec RT}
  {XA : X86Address} {XAS : X86AddressSpec XA} {XP : X86Paging XA} {XPS : X86PagingSpec XP}
  {LG : Logging} {LGS : LoggingSpec LG}
  {XC : X86Cpu} {XCS : X86CpuSpec XC} {FA : Allocator}.
Implicit Types (e : Env) (k : Kernel) (p q r i : Z) (v : Virtual).

Lemma read_entry_run p i e k :
  0 ≤ p < 2 ^ 44 → read_entry (hhdm p) i e k = Ret (k_mem k p i) k.
Proof. intros Hp. unfold read_entry, gets, hhdm. by rewrite resolve_hhdm. Qed.

Lemma update_entry_run p i f e k :
  0 ≤ p < 2 ^ 44 →
  update_entry (hhdm p) i f e k
    = Ret tt (set_mem (mem_write p i (f (k_mem k p i)) (k_mem k)) k).
Proof. intros Hp. unfold update_entry, modify, hhdm. by rewrite resolve_hhdm. Qed.

(** Two stores to one entry. *)
Lemma update_entry_twice p i f g e k :
  0 ≤ p < 2 ^ 44 →
  (update_entry (hhdm p) i f;; update_entry (hhdm p) i g) e k
    = Ret tt (set_mem (mem_write p i (g (f (k_mem k p i)))
                         (mem_write p i (f (k_mem k p i)) (k_mem k))) k).
Proof.
  intros Hp. erewrite bind_ret_run by (by apply update_entry_run).
  rewrite update_entry_run by done. simpl. unfold mem_write at 2.
  by rewrite !Z.eqb_refl.
Qed.

(** The pointer to the next table. *)
Lemma next_table_run p q i e k :
  next_table (k_mem k) p i = Some q → 0 ≤ q < 2 ^ 44 →
  pe_is_present (k_mem k p i) = true
  ∧ (addr ← unwrap (pe_address (k_mem k p i));
     next ← phys_to_virt addr;
     mret (virt_as_u64 next)) e k = Ret (hhdm q) k.
Proof.
  unfold next_table. destruct (pe_is_present (k_mem k p i)) eqn:Hpr; [|done].
  intros [= Hq] Hb. split; [done|]. rewrite pe_address_present by done. simpl.
  rewrite bind_run; simpl. rewrite bind_run, phys_to_virt_run by lia.
  by rewrite virt_of_hhdm, Hq by lia.
Qed.

(** The same, followed by the walk of the next table. *)
Lemma next_table_bind {A} p q i (f : Z → M Kernel A) e k :
  next_table (k_mem k) p i = Some q → 0 ≤ q < 2 ^ 44 →
  (addr ← unwrap (pe_address (k_mem k p i));
   next ← phys_to_virt addr; f (virt_as_u64 next)) e k = f (hhdm q) e k.
Proof.
  intros Hq Hb. destruct (next_table_run p q i e k Hq Hb) as [_ H].
  rewrite !bind_run in *. destruct (unwrap _ e k); [|discriminate H..].
  rewrite !bind_run in *. destruct (phys_to_virt _ e _); [|discriminate H..].
  unfold mret, M_ret in H. by injection H as -> ->.
Qed.

Lemma page_index_idx v h level :
  level_height h level → page_index v (level_as_u64 level) = idx v h.
Proof. apply page_index_spec. Qed.

(** Enough fuel: one unit per level. *)
Lemma fetch_pte_run v h level fuel p e k :
  level_height h level → (h < fuel)%nat →
  (∀ n q, follow (k_mem k) p (take n (idxs v h)) = Some q → 0 ≤ q < 2 ^ 44) →
  fetch_pte fuel (hhdm p) level v e k
    = Ret (follow (k_mem k) p (idxs v h) ≫= λ q,
             if pe_is_present (k_mem k q (idx v 0)) then Some (hhdm q, idx v 0) else None) k.
Proof.
  revert level fuel p. induction h as [|h IH]; intros level fuel p Hh Hf Hb;
    (destruct fuel as [|fuel]; [lia|]); cbn [fetch_pte];
    rewrite (page_index_idx v _ level) by done;
    pose proof (Hb 0%nat p eq_refl) as Hp;
    erewrite bind_ret_run by (by apply read_entry_run).
  - simpl in Hh. rewrite Hh. simpl.
    by destruct (pe_is_present (k_mem k p (idx v 0))).
  - destruct Hh as (level' & Hn & Hh). rewrite Hn. cbn [idxs]. rewrite follow_cons.
    destruct (next_table (k_mem k) p (idx v (S h))) as [q|] eqn:Hq.
    + assert (0 ≤ q < 2 ^ 44) as Hqb.
      { apply (Hb 1%nat). cbn [idxs take]. rewrite follow_cons, Hq. done. }
      rewrite (proj1 (next_table_run p q _ e k Hq Hqb)).
      rewrite (next_table_bind p q _ (λ t, fetch_pte fuel t level' v)) by done.
      simpl. apply IH; [done|lia|]. intros n q' Hq'. apply (Hb (S n)).
      cbn [idxs take]. rewrite follow_cons, Hq. exact Hq'.
    + unfold next_table in Hq. by destruct (pe_is_present _).
Qed.

Lemma fetch_pte_mut_eq : fetch_pte_mut = fetch_pte.
Proof. reflexivity. Qed.

Definition shootdown_events (evs : list Event) : list Event :=
  if lapic_initialized (Cr3Reload :: evs)
  then SendIpiOtherCores false TLB_SHOOTDOWN_VECTOR :: Cr3Reload :: evs
  else Cr3Reload :: evs.

Lemma tlb_shootdown_run e k :
  tlb_shootdown e k = Ret tt (set_events (shootdown_events (k_events k)) k).
Proof.
  unfold tlb_shootdown, shootdown_events. rewrite bind_run; simpl. rewrite bind_run; simpl.
  by destruct (lapic_initialized _).
Qed.
End Walks.

(** ** The invariant of a page table, and its operations *)

Section Operations.
Context {BF : Bitflags} {BFS : BitflagsSpec BF} {RT : Runtime} {RTS : RuntimeSpec RT}
  {XA : X86Address} {XAS : X86AddressSpec XA} {XP : X86Paging XA} {XPS : X86PagingSpec XP}
  {LG : Logging} {LGS : LoggingSpec LG}
  {XC : X86Cpu} {XCS : X86CpuSpec XC} {FA : Allocator} {FAS : AllocatorSpec FA}.
Variable D : Z → Prop.
Implicit Types (e : Env) (k : Kernel) (p q r i : Z) (v : Virtual) (l : list Z).

Definition in_region v : Prop := D (idx v 3).

Record pt_inv k r : Prop := {
  pt_alloc : fa_inv k;
  pt_tables : tables_ok D (fa_live k) (k_mem k) r
}.

Lemma pt_inv_local k k' r :
  k_frames k = k_frames k' → k_stats k = k_stats k' → k_mem k = k_mem k' →
  pt_inv k r → pt_inv k' r.
Proof.
  intros Hf Hs Hm [Ha [Hl Hi]]. split; [by eapply fa_inv_local|]. rewrite <- Hm.
  split; [|done]. intros l p Hg Hp. destruct (Hl l p Hg Hp).
  split; [done|by eapply fa_live_local].
Qed.

(** The physical address an entry gives to [v]. *)
Definition entry_phys (x : PageEntry) v : Physical :=
  phys_of (phys_as_u64 (pe_addr_field x) + virt_as_u64 v mod 4096).

Lemma good_idxs v : in_region v → good D (idxs v 3).
Proof.
  intros Hv. split_and!; [done|apply idxs_range|]. simpl. by intros i l' [= <- _].
Qed.

Lemma good_take l n : good D l → good D (take n l).
Proof.
  intros (Hl & Hr & HD). split_and!; [|by apply Forall_take|].
  - rewrite length_take. lia.
  - intros i l' Heq. destruct l as [|j l]; [by rewrite take_nil in Heq|].
    destruct n; [done|]. simpl in Heq. injection Heq as <- _. by eapply HD.
Qed.

Lemma root_bound k r : pt_inv k r → 0 ≤ r < 2 ^ 44.
Proof.
  intros [_ Hok]. apply (tables_live D _ _ _ Hok [] r); [|done].
  split_and!; [simpl; lia|constructor|done].
Qed.

(** What [fetch_pte] finds is the leaf entry of the address. *)
Lemma fetch_cases v e k r :
  pt_inv k r → in_region v →
  (mapping (k_mem k) r v = None
   ∧ fetch_pte walk_fuel (hhdm r) PageMapLevel4 v e k = Ret None k)
  ∨ ∃ q, follow (k_mem k) r (idxs v 3) = Some q ∧ 0 ≤ q < 2 ^ 44 ∧ fa_live k q
       ∧ pe_is_present (k_mem k q (idx v 0)) = true
       ∧ mapping (k_mem k) r v = Some (k_mem k q (idx v 0))
       ∧ fetch_pte walk_fuel (hhdm r) PageMapLevel4 v e k = Ret (Some (hhdm q, idx v 0)) k.
Proof.
  intros [_ Hok] Hv.
  rewrite (fetch_pte_run v 3) by (apply level_top || (unfold walk_fuel; lia) ||
    (intros n q; apply (tables_live D _ _ _ Hok), good_take, good_idxs, Hv)).
  unfold mapping, leaf, entry_at.
  destruct (follow (k_mem k) r (idxs v 3)) as [q|] eqn:Hq; simpl; [|by left].
  destruct (tables_live D _ _ _ Hok _ q (good_idxs v Hv) Hq) as [Hb Hl].
  destruct (pe_is_present (k_mem k q (idx v 0))) eqn:Hp; [right|by left].
  exists q. by rewrite Hp.
Qed.

Lemma with_page_offset_run (x : PageEntry) v e k :
  with_page_offset (pe_addr_field x) v e k = Ret (entry_phys x v) k.
Proof.
  unfold with_page_offset, entry_phys.
  change 0xFFF with (Z.ones 12). rewrite Z.land_ones by lia. change (2 ^ 12) with 4096.
  pose proof (phys_bound (pe_addr_field x)). pose proof (pe_addr_field_aligned x).
  pose proof (Z.mod_pos_bound (virt_as_u64 v) 4096 ltac:(lia)).
  erewrite bind_ret_run by (apply arith_run; lia).
  rewrite phys_new_of by dlia. done.
Qed.

Lemma translate_run v e k r :
  pt_inv k r → in_region v →
  translate (hhdm r) v e k = Ret ((λ x, entry_phys x v) <$> mapping (k_mem k) r v) k.
Proof.
  intros Hinv Hv. unfold translate. rewrite bind_run.
  destruct (fetch_cases v e k r Hinv Hv) as [[-> ->]|(q & _ & Hq & _ & Hp & -> & ->)]; [done|].
  simpl. erewrite bind_ret_run by (by apply read_entry_run). rewrite Hp.
  rewrite pe_address_present by done. simpl. rewrite bind_run; simpl.
  by rewrite bind_run, with_page_offset_run.
Qed.

Lemma protection_run v e k r :
  pt_inv k r → in_region v →
  protection (hhdm r) v e k = Ret (pe_flags <$> mapping (k_mem k) r v) k.
Proof.
  intros Hinv Hv. unfold protection. rewrite bind_run.
  destruct (fetch_cases v e k r Hinv Hv) as [[-> ->]|(q & _ & Hq & _ & Hp & -> & ->)]; [done|].
  simpl. erewrite bind_ret_run by (by apply read_entry_run). by rewrite Hp.
Qed.

(** *** Stores to leaf entries *)

(** The state after a store to the leaf entry of [v], with the events [evs]. *)
Definition leaf_state v q (x : PageEntry) (evs : list Event) k : Kernel :=
  set_events evs (set_mem (mem_write q (idx v 0) x (k_mem k)) k).

(** A store to the leaf entry of [v] keeps the invariant and changes the mapping of
    the page of [v] only. *)
Lemma leaf_write_mapping v q m' k r live' :
  tables_ok D (fa_live k) (k_mem k) r → in_region v →
  follow (k_mem k) r (idxs v 3) = Some q →
  (∀ p' j, fa_live k p' → ¬ (p' = q ∧ j = idx v 0) → m' p' j = k_mem k p' j) →
  (∀ a, fa_live k a → live' a) →
  tables_ok D live' m' r
  ∧ (∀ p, is_table D m' r p ↔ is_table D (k_mem k) r p)
  ∧ ∀ w, in_region w →
      mapping m' r w = if same_page w v then entry_at m' q (idx v 0)
                       else mapping (k_mem k) r w.
Proof.
  intros Hok Hv Hq Hsame Hlive. pose proof (good_idxs v Hv) as Hg.
  pose proof (follow_leaf_write D (fa_live k) (k_mem k) m' r q (idx v 0) (idxs v 3)
    Hok Hg eq_refl Hq Hsame) as Hfollow.
  split_and!.
  - exact (tables_leaf_write D (fa_live k) (k_mem k) m' r q (idx v 0) (idxs v 3)
      Hok Hg eq_refl Hq Hsame live' Hlive).
  - intros p. unfold is_table. split; intros (l & Hl & Hf); exists l; split; try done.
    + by rewrite <- Hfollow.
    + by rewrite Hfollow.
  - intros w Hw. unfold mapping.
    rewrite (leaf_leaf_write D (fa_live k) (k_mem k) m' r q (idx v 0) (idxs v 3)
      Hok Hg eq_refl Hq Hsame) by (by apply good_idxs).
    destruct (same_page w v) eqn:E.
    + apply same_page_idxs in E as [-> ->]. by rewrite bool_decide_eq_true_2.
    + rewrite bool_decide_eq_false_2; [done|]. intros H%same_page_idxs. congruence.
Qed.

Lemma leaf_state_inv v q x evs k r :
  pt_inv k r → in_region v → follow (k_mem k) r (idxs v 3) = Some q →
  pt_inv (leaf_state v q x evs k) r
  ∧ (∀ p i, ¬ is_table D (k_mem k) r p →
       k_mem (leaf_state v q x evs k) p i = k_mem k p i)
  ∧ ∀ w, in_region w → mapping (k_mem (leaf_state v q x evs k)) r w =
      if same_page w v then if pe_is_present x then Some x else None
      else mapping (k_mem k) r w.
Proof.
  intros [Ha Hok] Hv Hq.
  destruct (leaf_write_mapping v q (k_mem (leaf_state v q x evs k)) k r
    (fa_live (leaf_state v q x evs k)) Hok Hv Hq) as (H1 & _ & H2).
  - intros p' j _. apply mem_write_other.
  - intros a. by apply fa_live_local.
  - split_and!.
    + split; [|done]. by eapply fa_inv_local; [..|exact Ha].
    + intros p i Hp. apply mem_write_other. intros [-> _]. apply Hp.
      exists (idxs v 3). split; [by apply good_idxs|done].
    + intros w Hw. rewrite H2 by done. unfold entry_at. simpl. by rewrite mem_write_eq.
Qed.

(** *** [unmap] and [change_protection] *)

Lemma unmap_run v e k r :
  pt_inv k r → in_region v →
  unmap (hhdm r) v e k =
    match mapping (k_mem k) r v, follow (k_mem k) r (idxs v 3) with
    | Some x, Some q =>
        Ret (Some (entry_phys x v))
          (leaf_state v q (pe_clear x) (shootdown_events (k_events k)) k)
    | _, _ => Ret None k
    end.
Proof.
  intros Hinv Hv. unfold unmap. rewrite fetch_pte_mut_eq, bind_run.
  destruct (fetch_cases v e k r Hinv Hv) as [[-> ->]|(q & -> & Hq & _ & Hp & -> & ->)]; [done|].
  simpl. erewrite bind_ret_run by (by apply read_entry_run). rewrite Hp.
  rewrite pe_address_present by done. simpl. rewrite bind_run; simpl.
  rewrite bind_run, irq_without_run.
  erewrite bind_ret_run by (by apply update_entry_run). rewrite tlb_shootdown_run; simpl.
  by rewrite bind_run, with_page_offset_run.
Qed.

Lemma change_protection_run v flags e k r :
  pt_inv k r → in_region v →
  change_protection (hhdm r) v flags e k =
    match mapping (k_mem k) r v, follow (k_mem k) r (idxs v 3) with
    | Some x, Some q =>
        Ret (Some (pe_flags x))
          (leaf_state v q (pe_set_flags x flags) (shootdown_events (k_events k)) k)
    | _, _ => Ret None k
    end.
Proof.
  intros Hinv Hv. unfold change_protection. rewrite fetch_pte_mut_eq, bind_run.
  destruct (fetch_cases v e k r Hinv Hv) as [[-> ->]|(q & -> & Hq & _ & Hp & -> & ->)]; [done|].
  simpl. erewrite bind_ret_run by (by apply read_entry_run). rewrite Hp.
  rewrite bind_run, irq_without_run.
  erewrite bind_ret_run by (by apply update_entry_run). by rewrite tlb_shootdown_run.
Qed.

Lemma mapped_follow v k r x :
  mapping (k_mem k) r v = Some x →
  ∃ q, follow (k_mem k) r (idxs v 3) = Some q ∧ k_mem k q (idx v 0) = x
       ∧ pe_is_present x = true.
Proof.
  unfold mapping, leaf, entry_at. destruct (follow (k_mem k) r (idxs v 3)) as [q|]; [|done].
  simpl. destruct (pe_is_present (k_mem k q (idx v 0))) eqn:E; [|done].
  intros [= <-]. by exists q.
Qed.
End Operations.

(** ** Creating tables *)

Section Creation.
Context {BF : Bitflags} {BFS : BitflagsSpec BF} {RT : Runtime} {RTS : RuntimeSpec RT}
  {XA : X86Address} {XAS : X86AddressSpec XA} {XP : X86Paging XA} {XPS : X86PagingSpec XP}
  {LG : Logging} {LGS : LoggingSpec LG}
  {XC : X86Cpu} {XCS : X86CpuSpec XC} {FA : Allocator} {FAS : AllocatorSpec FA}.
Variable D : Z → Prop.
Implicit Types (e : Env) (k : Kernel) (p q r i : Z) (v : Virtual) (l : list Z).

(** The locks an operation that allocates frames takes. *)
Definition frames_unlocked e : Prop :=
  (FRAME_ALLOCATOR ∉ held e) ∧ (FRAME_STATE ∉ held e).

(** Only the frame allocator, the content of memory and the log changed. *)
Definition only_memory k k' : Prop :=
  k' = set_frames (k_frames k') (set_stats (k_stats k') (set_mem (k_mem k')
         (set_log (k_log k') k))).

(** Frames were handed out first fit, and the pages that have no owner in the end were not
    written to. *)
Record unowned_kept k k' : Prop := {
  uk_first : first_fit k k';
  uk_memory p i : ¬ fa_live k' p → k_mem k' p i = k_mem k p i
}.

Lemma unowned_compose k1 k2 k3 :
  (∀ a, fa_live k2 a → fa_live k3 a) → unowned_kept k1 k2 → unowned_kept k2 k3 →
  unowned_kept k1 k3.
Proof.
  intros Hk [F1 H1] [F2 H2]. split; [by eapply first_fit_trans|]. intros p i Hn.
  rewrite H2, H1; [done| |done]. intros Hl. by apply Hn, Hk.
Qed.

Lemma unowned_trans k1 k2 k3 :
  fa_keeps k2 k3 → unowned_kept k1 k2 → unowned_kept k2 k3 → unowned_kept k1 k3.
Proof. intros Hk. apply unowned_compose. intros a Ha. by apply Hk. Qed.

(** What has no influence on the frames and on memory. *)
Lemma unowned_local k k' :
  k_frames k = k_frames k' → k_mem k = k_mem k' → unowned_kept k k'.
Proof. intros Hf Hm. split; [by apply first_fit_local|by rewrite Hm]. Qed.

(** From [k] to [k'], frames were taken and tables were added, and nothing else that
    matters happened: no mapping changed, no frame lost its owner, and no memory
    that had an owner was written to, but the tables themselves. *)
Record grown r k k' : Prop := {
  grown_mapping w : in_region D w → mapping (k_mem k') r w = mapping (k_mem k) r w;
  grown_follow l p :
    good D l → follow (k_mem k) r l = Some p → follow (k_mem k') r l = Some p;
  grown_live : fa_keeps k k';
  grown_memory p i :
    fa_live k p → ¬ is_table D (k_mem k) r p → k_mem k' p i = k_mem k p i;
  grown_tables p : is_table D (k_mem k') r p → fa_live k p → is_table D (k_mem k) r p;
  grown_unowned : unowned_kept k k';
  grown_only : only_memory k k'
}.

Lemma grown_refl r k : grown r k k.
Proof.
  split; try done; unfold only_memory; by destruct k.
Qed.

Lemma grown_trans r k1 k2 k3 : grown r k1 k2 → grown r k2 k3 → grown r k1 k3.
Proof.
  intros [Hm1 Hf1 Hl1 Hp1 Ht1 Hu1 Ho1] [Hm2 Hf2 Hl2 Hp2 Ht2 Hu2 Ho2]. split.
  - intros w Hw. by rewrite Hm2, Hm1.
  - auto.
  - by eapply fa_keeps_trans.
  - intros p i Hl Ht. rewrite Hp2; [by apply Hp1|by apply Hl1|].
    intros Ht'. by apply Ht, Ht1.
  - intros p Ht Hl. apply Ht1; [|done]. apply Ht2; [done|]. by apply Hl1.
  - by eapply unowned_trans.
  - unfold only_memory in *. rewrite Ho2, Ho1. by destruct k1.
Qed.

Definition ZEROED_KERNEL : Z := bf_union AllocationFlags_KERNEL AllocationFlags_ZEROED.

(** What a client that takes the lock of the allocator gets from [allocate]. *)
Definition allocate_post flags k (o : option Frame) k' : Prop :=
  fa_inv k' ∧ fa_keeps k k' ∧
  match o with
  | None => k' = k ∧ fa_free k = 0
  | Some f =>
      frame_u64 f mod 4096 = 0 ∧ 0 ≤ frame_u64 f < 2 ^ 44
      ∧ fa_free k' = fa_free k - 1
      ∧ ¬ fa_live k (frame_u64 f) ∧ fa_live k' (frame_u64 f)
      ∧ (only_memory k k' ∧ first_fit k k')
      ∧ k_mem k' = (if bf_contains flags AllocationFlags_ZEROED
                    then mem_zero_page (frame_u64 f) (k_mem k) else k_mem k)
  end.

Lemma lock_allocate_spec flags e k :
  fa_inv k → frames_unlocked e →
  wp e (with_lock FRAME_ALLOCATOR (fa_allocate flags)) (allocate_post flags k) k.
Proof.
  intros Hinv [HA HS]. apply wp_with_lock; [done|].
  eapply wp_mono; [apply fa_allocate_spec; [done|by apply held_acquire]|].
  intros [f|] k' (Hinv' & H); [|by destruct H as [-> ?]].
  destruct H as (Hal & Hb & Hfr & Hn & Hy & (Hav & Hlow & Hav') & Heq).
  pose proof (frame_u64_bound f).
  assert (fa_keeps k k') as Hl.
  { intros a. unfold fa_live. rewrite Hy. destruct (Z.eqb_spec a (frame_u64 f)); subst; lia. }
  assert (¬ fa_live k (frame_u64 f) ∧ fa_live k' (frame_u64 f)) as [Hn' Hy'].
  { unfold fa_live. rewrite Hy, Z.eqb_refl. lia. }
  assert (k_mem k' = if bf_contains flags AllocationFlags_ZEROED
                     then mem_zero_page (frame_u64 f) (k_mem k) else k_mem k) as Hm
    by (rewrite Heq; done).
  unfold allocate_post. split_and!; try (done || lia).
  - unfold only_memory. rewrite Hm. rewrite Heq at 1. simpl. rewrite Heq. by destruct k.
  - split; [intros a; rewrite Hav'; by intros [? _]%andb_true_iff|].
    intros a Ha Hna. assert (a = frame_u64 f) as ->.
    { unfold fa_live in *. rewrite Hy in Ha. destruct (Z.eqb_spec a (frame_u64 f)); [done|lia]. }
    split; [done|]. intros b Hb'. rewrite Hav' in Hb'.
    apply andb_true_iff in Hb' as [Hb' Hne%negb_true_iff%Z.eqb_neq].
    specialize (Hlow b Hb'). lia.
Qed.

Lemma locked_allocate_spec flags e k :
  fa_inv k → frames_unlocked e →
  wp e (locked_allocate flags) (allocate_post flags k) k.
Proof. intros Hinv He. by apply wp_irq_without, lock_allocate_spec. Qed.

Lemma allocate_unowned flags f k k1 :
  allocate_post flags k (Some f) k1 → unowned_kept k k1.
Proof.
  intros (_ & _ & _ & _ & _ & _ & Hy & [_ Hff] & Hm). split; [done|]. intros p i Hn. rewrite Hm.
  destruct (bf_contains _ _); [|done]. unfold mem_zero_page.
  rewrite (proj2 (Z.eqb_neq p (frame_u64 f))); [done|congruence].
Qed.

Lemma contains_zeroed : bf_contains ZEROED_KERNEL AllocationFlags_ZEROED = true.
Proof.
  unfold ZEROED_KERNEL, AllocationFlags_ZEROED, FrameFlags_ZEROED.
  rewrite contains_union, contains_refl by lia. apply orb_true_r.
Qed.

(** The entry that links a table to a new one. *)
Definition table_entry (x : PageEntry) (f : Frame) : PageEntry :=
  pe_set_address (pe_add_flags x (pef_union PRESENT WRITABLE)) (Frame_start f).

Lemma table_entry_spec x f :
  frame_u64 f mod 4096 = 0 →
  pe_is_present (table_entry x f) = true
  ∧ phys_as_u64 (pe_addr_field (table_entry x f)) = frame_u64 f.
Proof.
  intros Hal. unfold table_entry. split.
  - rewrite pe_is_present_spec, pe_set_address_flags, <- pe_is_present_spec by done.
    apply pe_add_flags_present, pef_union_l, pef_contains_refl.
  - by rewrite pe_set_address_addr.
Qed.

(** Hooking a fresh zeroed frame at an absent entry of a table: [k1] is the state
    after the allocation. *)
Lemma install_table l i p f k k1 r :
  pt_inv D k r → good D (l ++ [i]) → follow (k_mem k) r l = Some p →
  pe_is_present (k_mem k p i) = false →
  fa_inv k1 → fa_keeps k k1 →
  frame_u64 f mod 4096 = 0 → 0 ≤ frame_u64 f < 2 ^ 44 →
  ¬ fa_live k (frame_u64 f) → fa_live k1 (frame_u64 f) → only_memory k k1 →
  first_fit k k1 → k_mem k1 = mem_zero_page (frame_u64 f) (k_mem k) →
  let x := k_mem k1 p i in
  let m2 := mem_write p i (table_entry x f)
              (mem_write p i (pe_add_flags x (pef_union PRESENT WRITABLE)) (k_mem k1)) in
  pt_inv D (set_mem m2 k1) r ∧ grown r k (set_mem m2 k1)
  ∧ follow m2 r (l ++ [i]) = Some (frame_u64 f).
Proof.
  intros [Ha Hok] Hg Hp Habs Hinv1 Hlive Hal Hb Hn Hy Honly Hff Hmem x m2.
  set (q := frame_u64 f) in *.
  destruct (table_entry_spec x f Hal) as [Hpres Haddr].
  destruct (tables_live D _ _ _ Hok l p (good_prefix D _ _ Hg) Hp) as [_ Hpl].
  assert (p ≠ q) as Hpq by congruence.
  assert (next_table m2 p i = Some q) as Hlink.
  { unfold next_table, m2. rewrite mem_write_eq, Hpres. by rewrite Haddr. }
  assert (∀ j, pe_is_present (m2 q j) = false) as Hzero.
  { intros j. unfold m2. rewrite 2!mem_write_other by (intros [? ?]; congruence).
    rewrite Hmem. unfold mem_zero_page. rewrite Z.eqb_refl. apply pe_zero_absent. }
  assert (∀ p' j, p' ≠ q → ¬ (p' = p ∧ j = i) → m2 p' j = k_mem k p' j) as Hsame.
  { intros p' j Hp' Hne. unfold m2. rewrite 2!mem_write_other, Hmem by done.
    unfold mem_zero_page. by rewrite (proj2 (Z.eqb_neq p' q)). }
  pose proof (follow_install D (fa_live k) (k_mem k) m2 r p q i l Hok Hg Hp Habs Hn Hlink
    Hzero Hsame) as Hfollow.
  split_and!.
  - split.
    + by eapply fa_inv_local; [..|exact Hinv1].
    + apply (tables_install D (fa_live k) (k_mem k) m2 r p q i l Hok Hg Hp Habs Hn Hlink
        Hzero Hsame); [|by eapply fa_live_local; [|exact Hy]|done].
      intros a HaL. by eapply fa_live_local; [|apply Hlive].
  - split; simpl.
    + intros w Hw. unfold mapping.
      apply (leaf_install D (fa_live k) (k_mem k) m2 r p q i l Hok Hg Hp Habs Hn Hlink
        Hzero Hsame); [by apply good_idxs|done].
    + intros l' p' Hl' Hp'. rewrite Hfollow by done. case_bool_decide as Heq; [|done].
      rewrite Heq, follow_snoc, Hp in Hp'. simpl in Hp'. unfold next_table in Hp'.
      by rewrite Habs in Hp'.
    + by eapply fa_keeps_local; [|exact Hlive].
    + intros p' j Hl Ht. apply Hsame; [congruence|]. intros [-> _]. apply Ht.
      exists l. split; [by eapply good_prefix|done].
    + intros p' (l' & Hl' & Hf') Hl. exists l'. split; [done|].
      rewrite Hfollow in Hf' by done. case_bool_decide; [congruence|done].
    + assert (∀ a, fa_live k1 a → fa_live (set_mem m2 k1) a) as Hl1
        by (intros a; by apply fa_live_local).
      split; [by eapply first_fit_trans; [|apply first_fit_local]|].
      intros p' j Hn'. apply Hsame; [intros ->|intros [-> _]]; apply Hn', Hl1; [done|].
      by apply Hlive.
    + unfold only_memory in *. rewrite Honly. by destruct k.
  - rewrite Hfollow by done. by rewrite bool_decide_eq_true_2.
Qed.

Lemma level_eqb_bottom level : level_height 0 level → level_eqb level PageTableLevel = true.
Proof. intros H. by apply level_eqb_spec, level_bottom. Qed.

Lemma level_eqb_inner level level' :
  level_next level = Some level' → level_eqb level PageTableLevel = false.
Proof.
  intros H. destruct (level_eqb level PageTableLevel) eqn:E; [|done].
  apply level_eqb_spec in E as ->. pose proof (proj2 (level_bottom _) eq_refl) as Hb.
  congruence.
Qed.

(** When the tables exist, the walk changes nothing. *)
Lemma creat_present v h level fuel p q e k :
  level_height h level → (h < fuel)%nat →
  (∀ n q', follow (k_mem k) p (take n (idxs v h)) = Some q' → 0 ≤ q' < 2 ^ 44) →
  follow (k_mem k) p (idxs v h) = Some q →
  creat_and_fetch_pte fuel (hhdm p) level v e k = Ret (Some (hhdm q, idx v 0)) k.
Proof.
  revert level fuel p. induction h as [|h IH]; intros level fuel p Hh Hf Hb Hq;
    (destruct fuel as [|fuel]; [lia|]); cbn [creat_and_fetch_pte];
    rewrite (page_index_idx v _ level) by done;
    pose proof (Hb 0%nat p eq_refl) as Hp;
    erewrite bind_ret_run by (by apply read_entry_run).
  - rewrite level_eqb_bottom, andb_false_r by done. rewrite bind_run; simpl.
    simpl in Hh. rewrite Hh. simpl in Hq. by injection Hq as ->.
  - destruct Hh as (level' & Hn & Hh). cbn [idxs] in Hq, Hb. rewrite follow_cons in Hq.
    destruct (next_table (k_mem k) p (idx v (S h))) as [q1|] eqn:Hq1; [|done].
    assert (0 ≤ q1 < 2 ^ 44) as Hqb.
    { apply (Hb 1%nat). cbn [take]. rewrite follow_cons, Hq1. done. }
    rewrite (proj1 (next_table_run p q1 _ e k Hq1 Hqb)). rewrite bind_run; simpl.
    rewrite Hn. erewrite bind_ret_run by (by apply read_entry_run).
    rewrite (next_table_bind p q1 _ (λ t, creat_and_fetch_pte fuel t level' v)) by done.
    apply IH; [done|lia| |done]. intros n q' Hq'. apply (Hb (S n)).
    cbn [take]. rewrite follow_cons, Hq1. exact Hq'.
Qed.

(** What [creat_and_fetch_pte] promises from the table [p] reached by [l], the walk
    to [v] having [h] levels to go. *)
Definition creat_post v h r k (o : option (Z * Z)) k' : Prop :=
  pt_inv D k' r ∧ grown r k k' ∧ fa_free k - Z.of_nat h ≤ fa_free k' ∧
  match o with
  | Some (t, i) =>
      ∃ q, follow (k_mem k') r (idxs v 3) = Some q ∧ t = hhdm q ∧ i = idx v 0
  | None => follow (k_mem k) r (idxs v 3) = None ∧ fa_free k < Z.of_nat h
  end.

Lemma walk_good l v h : in_region D v → l ++ idxs v h = idxs v 3 → good D l.
Proof.
  intros Hv Hl. pose proof (good_take D (idxs v 3) (length l) (good_idxs D v Hv)) as H.
  by rewrite <- Hl, take_app_length in H.
Qed.

(** One level of the walk: the next table exists afterwards, or memory ran out. *)
Definition level_post l i r k (created : bool) k' : Prop :=
  if created then
    pt_inv D k' r ∧ grown r k k' ∧ fa_free k - 1 ≤ fa_free k'
    ∧ ∃ q, follow (k_mem k') r (l ++ [i]) = Some q
  else k' = k ∧ follow (k_mem k) r (l ++ [i]) = None ∧ fa_free k = 0.

Lemma level_step l i p level level' e k r :
  pt_inv D k r → good D (l ++ [i]) → follow (k_mem k) r l = Some p → 0 ≤ p < 2 ^ 44 →
  level_next level = Some level' → frames_unlocked e →
  wp e (if negb (pe_is_present (k_mem k p i)) && negb (level_eqb level PageTableLevel) then
          frame ← locked_allocate ZEROED_KERNEL;
          match frame with
          | None => mret false
          | Some frame =>
              update_entry (hhdm p) i (λ x, pe_add_flags x (pef_union PRESENT WRITABLE));;
              update_entry (hhdm p) i (λ x, pe_set_address x (Frame_start frame));;
              mret true
          end
        else mret true) (level_post l i r k) k.
Proof.
  intros Hinv Hg Hp Hpb Hn He. rewrite (level_eqb_inner level level'), andb_true_r by done.
  destruct (pe_is_present (k_mem k p i)) eqn:Hpr; simpl.
  - apply wp_ret. split_and!; [done|apply grown_refl|lia|].
    eexists. rewrite follow_snoc, Hp. simpl. unfold next_table. by rewrite Hpr.
  - apply wp_bind.
    eapply wp_mono; [by apply locked_allocate_spec; [apply (pt_alloc D k r Hinv)|]|].
    intros [f|] k1 (Hinv1 & Hl1 & H).
    + destruct H as (Hal & Hb & Hfr & Hn1 & Hy1 & [Ho Hff] & Hm). rewrite contains_zeroed in Hm.
      destruct (install_table l i p f k k1 r Hinv Hg Hp Hpr Hinv1 Hl1 Hal Hb Hn1 Hy1 Ho Hff Hm)
        as (H1 & H2 & H3).
      eapply wp_of_run.
      { rewrite bind_run, update_entry_run by done. rewrite bind_run, update_entry_run by done.
        simpl. rewrite mem_write_eq. reflexivity. }
      split_and!; [exact H1|exact H2| |exists (frame_u64 f); exact H3].
      match goal with |- _ ≤ fa_free ?k2 => rewrite (fa_free_local k2 k1) by done end. lia.
    + destruct H as [-> Hfr]. apply wp_ret. split_and!; [done| |done].
      rewrite follow_snoc, Hp. simpl. unfold next_table. by rewrite Hpr.
Qed.

Lemma creat_spec v h level fuel l p e k r :
  level_height h level → (h < fuel)%nat → in_region D v → frames_unlocked e →
  pt_inv D k r → l ++ idxs v h = idxs v 3 → follow (k_mem k) r l = Some p →
  wp e (creat_and_fetch_pte fuel (hhdm p) level v) (creat_post v h r k) k.
Proof.
  intros Hh Hf Hv He. revert level fuel l p k Hh Hf.
  induction h as [|h IH]; intros level fuel l p k Hh Hf Hinv Hl Hp;
    (destruct fuel as [|fuel]; [lia|]);
    destruct (tables_live D _ _ _ (pt_tables D k r Hinv) l p (walk_good l v _ Hv Hl) Hp)
      as [Hpb _].
  - simpl in Hl. rewrite app_nil_r in Hl. subst l. eapply wp_of_run.
    { apply (creat_present v 0); [done|lia| |done]. intros n q'. simpl.
      rewrite take_nil. simpl. by intros [= <-]. }
    split_and!; [done|apply grown_refl|lia|by exists p].
  - cbn [creat_and_fetch_pte]. rewrite (page_index_idx v _ level) by done.
    destruct Hh as (level' & Hn & Hh). cbn [idxs] in Hl.
    assert ((l ++ [idx v (S h)]) ++ idxs v h = idxs v 3) as Hl'
      by (by rewrite <- app_assoc).
    apply wp_bind. eapply wp_of_run; [by apply read_entry_run|]. apply wp_bind.
    eapply wp_mono; [eapply level_step; [done| |done|done|done|done]|].
    { by eapply walk_good. }
    intros [] k1; simpl.
    + intros (Hinv1 & Hgr & Hfr & q & Hq). rewrite Hn. apply wp_bind.
      pose proof (grown_follow r k k1 Hgr l p (walk_good l v (S h) Hv Hl) Hp) as Hp1.
      assert (next_table (k_mem k1) p (idx v (S h)) = Some q) as Hnext
        by (rewrite follow_snoc, Hp1 in Hq; exact Hq).
      destruct (tables_live D _ _ _ (pt_tables D k1 r Hinv1) _ q
        (walk_good _ v _ Hv Hl') Hq) as [Hqb _].
      eapply wp_of_run; [by apply read_entry_run|]. unfold wp, wpx.
      rewrite (next_table_bind p q _ (λ t, creat_and_fetch_pte fuel t level' v)) by done.
      eapply wp_mono; [by apply (IH level' fuel _ q k1 Hh ltac:(lia) Hinv1 Hl' Hq)|].
      intros o k2 (Hinv2 & Hgr2 & Hfr2 & Ho).
      split_and!; [done|by eapply grown_trans|lia|]. destruct o as [[t j]|]; [done|].
      destruct Ho as [Hnone Hlt]. split; [|lia].
      destruct (follow (k_mem k) r (idxs v 3)) as [q'|] eqn:E; [|done].
      apply (grown_follow r k k1 Hgr) in E; [congruence|by apply good_idxs].
    + intros (-> & Hnone & Hfr). apply wp_ret.
      split_and!; [done|apply grown_refl|lia| |lia]. by rewrite <- Hl', follow_app, Hnone.
Qed.
End Creation.

(** ** [map] *)

Section Mapping.
Context {BF : Bitflags} {BFS : BitflagsSpec BF} {RT : Runtime} {RTS : RuntimeSpec RT}
  {XA : X86Address} {XAS : X86AddressSpec XA} {XP : X86Paging XA} {XPS : X86PagingSpec XP}
  {LG : Logging} {LGS : LoggingSpec LG}
  {XC : X86Cpu} {XCS : X86CpuSpec XC} {FA : Allocator} {FAS : AllocatorSpec FA}.
Variable D : Z → Prop.
Implicit Types (e : Env) (k : Kernel) (p q r i : Z) (v : Virtual) (f : Frame).

(** The leaf entry [map] writes. *)
Definition leaf_entry (x : PageEntry) f (flags : MapFlags) : PageEntry :=
  pe_set_flags (pe_set_address x (Frame_start f)) flags.

Lemma leaf_entry_spec x f flags :
  frame_u64 f mod 4096 = 0 →
  pe_addr_field (leaf_entry x f flags) = frame_addr f
  ∧ pe_flags (leaf_entry x f flags) = flags.
Proof.
  intros Hal. unfold leaf_entry.
  by rewrite pe_set_flags_addr, pe_set_flags_flags, pe_set_address_addr.
Qed.

(** The frame [map] maps: the given one, or a fresh zeroed one if it is null. *)
Definition mapped_frame r f0 f k k' : Prop :=
  if frame_u64 f0 =? 0
  then ¬ fa_live k (frame_u64 f) ∧ fa_live k' (frame_u64 f)
       ∧ ¬ is_table D (k_mem k') r (frame_u64 f) ∧ ∀ i, k_mem k' (frame_u64 f) i = pe_zero
  else f = f0.

(** The abstract effect of a mapping of [v] to the frame [f]. *)
Definition maps_to r v f (flags : MapFlags) k k' : Prop :=
  ∃ x, pe_addr_field x = frame_addr f ∧ pe_flags x = flags ∧
    ∀ w, in_region D w → mapping (k_mem k') r w =
      if same_page w v then if pe_is_present x then Some x else None
      else mapping (k_mem k) r w.

(** What every outcome of [map] keeps. *)
Record map_frame r k k' : Prop := {
  map_inv : pt_inv D k' r;
  map_live : fa_keeps k k';
  map_memory p i : fa_live k p → ¬ is_table D (k_mem k) r p → k_mem k' p i = k_mem k p i;
  map_tables p : is_table D (k_mem k') r p → fa_live k p → is_table D (k_mem k) r p;
  map_follow l p :
    good D l → follow (k_mem k) r l = Some p → follow (k_mem k') r l = Some p;
  map_unowned : unowned_kept k k';
  map_only : only_memory k k'
}.

Definition map_post r v f0 flags k (res : unit + MapError) k' : Prop :=
  map_frame r k k' ∧ fa_free k - (if frame_u64 f0 =? 0 then 4 else 3) ≤ fa_free k' ∧
  match res with
  | inl _ => mapping (k_mem k) r v = None
             ∧ ∃ f, mapped_frame r f0 f k k' ∧ maps_to r v f flags k k'
  | inr AlreadyMapped => mapping (k_mem k) r v ≠ None ∧ k' = k
  | inr OutOfMemory =>
      mapping (k_mem k) r v = None
      ∧ fa_free k < (if frame_u64 f0 =? 0 then 4 else 3)
      ∧ ∀ w, in_region D w → mapping (k_mem k') r w = mapping (k_mem k) r w
  end.

Lemma grown_frame r k k' : pt_inv D k' r → grown D r k k' → map_frame r k k'.
Proof. intros Hinv [? ? ? ? ?]. by split. Qed.

Lemma map_mapped v f0 flags e k r :
  pt_inv D k r → in_region D v → mapping (k_mem k) r v ≠ None →
  map (hhdm r) v f0 flags e k = Ret (inr AlreadyMapped) k.
Proof.
  intros Hinv Hv Hm. destruct (mapping (k_mem k) r v) as [x|] eqn:E; [|done].
  apply mapped_follow in E as (q & Hq & Hx & Hp). unfold map.
  pose proof (pt_tables D k r Hinv) as Hok.
  erewrite bind_ret_run.
  2:{ apply (creat_present v 3); [apply level_top|unfold walk_fuel; lia| |exact Hq].
      intros n q' Hq'.
      by apply (tables_live D _ _ _ Hok _ q' (good_take D _ n (good_idxs D v Hv)) Hq'). }
  destruct (tables_live D _ _ _ Hok _ q (good_idxs D v Hv) Hq) as [Hb _].
  erewrite bind_ret_run by (by apply read_entry_run). by rewrite Hx, Hp.
Qed.

(** The last step of [map]: in [k2] the tables exist and the entry is absent. *)
Lemma map_write r v q f flags k k1 k2 x' :
  pt_inv D k1 r → grown D r k k1 → in_region D v →
  follow (k_mem k1) r (idxs v 3) = Some q →
  fa_inv k2 → fa_keeps k1 k2 → only_memory k1 k2 →
  (∀ p i, fa_live k1 p → k_mem k2 p i = k_mem k1 p i) → unowned_kept k1 k2 →
  frame_u64 f mod 4096 = 0 →
  let x := leaf_entry (k_mem k2 q (idx v 0)) f flags in
  let k3 := set_mem (mem_write q (idx v 0) x (mem_write q (idx v 0) x' (k_mem k2))) k2 in
  map_frame r k k3 ∧ maps_to r v f flags k k3
  ∧ ∀ p, is_table D (k_mem k3) r p → is_table D (k_mem k1) r p.
Proof.
  intros [Ha1 Hok1] Hgr Hv Hq Ha2 Hl2 Ho2 Hm2 Hu2 Hal x k3.
  assert (∀ p j, ¬ (p = q ∧ j = idx v 0) → k_mem k3 p j = k_mem k2 p j) as Hk3.
  { intros p j Hne. unfold k3. simpl. by rewrite !mem_write_other. }
  destruct (leaf_write_mapping D v q (k_mem k3) k1 r (fa_live k3) Hok1 Hv Hq)
    as (Hok3 & Htab3 & Hmap3).
  { intros p j Hl Hne. by rewrite Hk3, Hm2. }
  { intros a Hl. eapply fa_live_local; [|by apply Hl2]. done. }
  split; [|split; [|by intros p ?%Htab3]].
  - split.
    + split; [|done]. by eapply fa_inv_local; [..|exact Ha2].
    + eapply fa_keeps_local; [|by eapply fa_keeps_trans; [apply Hgr|exact Hl2]]. done.
    + intros p i Hl Ht. rewrite Hk3.
      * rewrite Hm2 by (by apply (grown_live D r k k1 Hgr)).
        by apply (grown_memory D r k k1 Hgr).
      * intros [-> _]. apply Ht, (grown_tables D r k k1 Hgr); [|done].
        exists (idxs v 3). split; [by apply good_idxs|done].
    + intros p Ht Hl. apply (grown_tables D r k k1 Hgr); [|done]. by apply Htab3.
    + intros l p Hg Hp. rewrite (follow_leaf_write D (fa_live k1) (k_mem k1) (k_mem k3) r q
        (idx v 0) (idxs v 3)); try done; [by apply (grown_follow D r k k1 Hgr)|by apply good_idxs|].
      intros p' j Hl Hne. by rewrite Hk3, Hm2.
    + destruct (unowned_trans k k1 k2 Hl2 (grown_unowned D r k k1 Hgr) Hu2) as [Hff Hmem].
      split; [by eapply first_fit_trans; [|apply first_fit_local]|]. intros p i Hn.
      assert (¬ fa_live k2 p) as Hn2 by (intros Hl; by apply Hn, (fa_live_local k2)).
      rewrite Hk3; [by apply Hmem|].
      intros [-> _]. by apply Hn2, Hl2, (tables_live D _ _ _ Hok1 (idxs v 3) q (good_idxs D v Hv)).
    + pose proof (grown_only D r k k1 Hgr) as Ho1. unfold only_memory in *.
      unfold k3. rewrite Ho2, Ho1. by destruct k.
  - exists x. destruct (leaf_entry_spec (k_mem k2 q (idx v 0)) f flags Hal) as [H1 H2].
    split_and!; [done..|]. intros w Hw. rewrite Hmap3 by done.
    unfold entry_at. unfold k3 at 1 2. simpl. rewrite !mem_write_eq.
    destruct (same_page w v); [done|]. by apply (grown_mapping D r k k1 Hgr).
Qed.

Lemma phys_is_null_frame f : phys_is_null (Frame_start f) = (frame_u64 f =? 0).
Proof. apply phys_is_null_spec. Qed.

(** The two stores of [map]. *)
Lemma write_leaf_run q i f flags e k :
  0 ≤ q < 2 ^ 44 →
  (update_entry (hhdm q) i (λ x, pe_set_address x (Frame_start f));;
   update_entry (hhdm q) i (λ x, pe_set_flags x flags);; mret (inl tt)) e k
  = Ret (inl tt : unit + MapError)
      (set_mem (mem_write q i (leaf_entry (k_mem k q i) f flags)
                  (mem_write q i (pe_set_address (k_mem k q i) (Frame_start f)) (k_mem k))) k).
Proof.
  intros Hq. rewrite bind_run, update_entry_run by done.
  rewrite bind_run, update_entry_run by done. simpl. by rewrite mem_write_eq.
Qed.

(** [map] once the tables exist and the entry is known to be absent. *)
Lemma map_absent r v q f0 flags e k k1 :
  pt_inv D k1 r → grown D r k k1 → in_region D v → mapping (k_mem k) r v = None →
  follow (k_mem k1) r (idxs v 3) = Some q → 0 ≤ q < 2 ^ 44 → fa_live k1 q →
  fa_free k - 3 ≤ fa_free k1 → frame_u64 f0 mod 4096 = 0 → frames_unlocked e →
  wp e (frame ← (if phys_is_null (Frame_start f0) then locked_allocate ZEROED_KERNEL
                 else mret (Some f0));
        match frame with
        | None => mret (inr OutOfMemory)
        | Some frame =>
            update_entry (hhdm q) (idx v 0) (λ x, pe_set_address x (Frame_start frame));;
            update_entry (hhdm q) (idx v 0) (λ x, pe_set_flags x flags);;
            mret (inl tt)
        end) (map_post r v f0 flags k) k1.
Proof.
  intros Hinv1 Hgr Hv Hm Hq Hqb Hql Hfr Hal He. unfold map_post, mapped_frame.
  rewrite phys_is_null_frame. destruct (frame_u64 f0 =? 0); apply wp_bind.
  - eapply wp_mono; [apply locked_allocate_spec; [apply Hinv1|done]|].
    intros [f|] k2 (Ha2 & Hl2 & H).
    + destruct H as (Hal' & Hb & Hfr' & Hn & Hy & [Ho Hff] & Hm2). rewrite contains_zeroed in Hm2.
      eapply wp_of_run; [by apply write_leaf_run|].
      edestruct (map_write r v q f flags k k1 k2) as (H1 & H2 & H3); try done.
      { intros p i Hl. rewrite Hm2. unfold mem_zero_page.
        rewrite (proj2 (Z.eqb_neq p (frame_u64 f))); [done|congruence]. }
      { apply (allocate_unowned ZEROED_KERNEL f). unfold allocate_post.
        by rewrite contains_zeroed. }
      split_and!; [exact H1| |done|].
      { match goal with |- _ ≤ fa_free ?k3 => rewrite (fa_free_local k3 k2) by done end. lia. }
      exists f. split_and!; [| | | |exact H2].
      * intros Hl. by apply Hn, (grown_live D r k k1 Hgr).
      * by eapply fa_live_local; [|exact Hy].
      * intros (l & Hg & Hf)%H3.
        by destruct (tables_live D _ _ _ (pt_tables D k1 r Hinv1) l _ Hg Hf).
      * intros i. simpl. rewrite 2!mem_write_other by (intros [? ?]; congruence).
        rewrite Hm2. unfold mem_zero_page. by rewrite Z.eqb_refl.
    + destruct H as [-> H0]. apply wp_ret.
      split_and!; [by apply grown_frame|lia|done|lia|apply (grown_mapping D r k k1 Hgr)].
  - apply wp_ret. eapply wp_of_run; [by apply write_leaf_run|].
    edestruct (map_write r v q f0 flags k k1 k1) as (H1 & H2 & _); try done.
    { apply Hinv1. }
    { unfold only_memory. by destruct k1. }
    split_and!; [exact H1| |done|by exists f0].
    match goal with |- _ ≤ fa_free ?k3 => rewrite (fa_free_local k3 k1) by done end. lia.
Qed.

Lemma map_spec r v f0 flags e k :
  pt_inv D k r → in_region D v → frame_u64 f0 mod 4096 = 0 → frames_unlocked e →
  wp e (map (hhdm r) v f0 flags) (map_post r v f0 flags k) k.
Proof.
  intros Hinv Hv Hal He. destruct (mapping (k_mem k) r v) as [x|] eqn:Hm.
  { eapply wp_of_run; [apply map_mapped; [done|done|congruence]|].
    split_and!; [by apply grown_frame, grown_refl| |congruence|done].
    destruct (frame_u64 f0 =? 0); lia. }
  unfold map. apply wp_bind.
  eapply wp_mono; [apply (creat_spec D v 3 _ _ [] r _ k r level_top); try done;
    unfold walk_fuel; lia|].
  intros [[t i]|] k1 (Hinv1 & Hgr & Hfr & H).
  - destruct H as (q & Hq & -> & ->).
    destruct (tables_live D _ _ _ (pt_tables D k1 r Hinv1) _ q (good_idxs D v Hv) Hq)
      as [Hqb Hql].
    apply wp_bind. eapply wp_of_run; [by apply read_entry_run|].
    assert (pe_is_present (k_mem k1 q (idx v 0)) = false) as ->.
    { pose proof (grown_mapping D r k k1 Hgr v Hv) as Hm1. rewrite Hm in Hm1.
      unfold mapping, leaf, entry_at in Hm1. rewrite Hq in Hm1. simpl in Hm1.
      by destruct (pe_is_present _). }
    by apply map_absent.
  - destruct H as [Hnone Hlt]. apply wp_ret.
    split_and!; [by apply grown_frame| |done| |apply (grown_mapping D r k k1 Hgr)];
      destruct (frame_u64 f0 =? 0); lia.
Qed.
End Mapping.
