(* ===== verification/PagingSpec.v ===== *)
(** * Page tables: the theorems about [src/src/arch/paging.rs]

    What mapping, unmapping, protection changes and the set-up of the kernel's
    page table do, stated on the partial function from virtual pages to leaf
    entries that a page table represents. *)

From S2P Require Import Prelude Machine External Reference Frame BTree Log Kernel FrameState FrameAlloc Paging PageTables.

Section Theorems.
Context {BF : Bitflags} {BFS : BitflagsSpec BF} {RT : Runtime} {RTS : RuntimeSpec RT}
  {XA : X86Address} {XAS : X86AddressSpec XA} {XP : X86Paging XA} {XPS : X86PagingSpec XP}
  {LG : Logging} {LGS : LoggingSpec LG}
  {XC : X86Cpu} {XCS : X86CpuSpec XC} {FA : Allocator} {FAS : AllocatorSpec FA}.
Variable D : Z → Prop.
Implicit Types (e : Env) (k : Kernel) (p q r i : Z) (v w : Virtual) (f : Frame).

(** C3: [map] does what it documents, on every branch.  It always returns, keeps the
    page-table invariant, uses at most three frames for tables and one for the page,
    takes no frame from its owner and writes to no owned page but page tables.  On success the address was not mapped, its page is now mapped
    to the given frame (to a fresh zeroed one when the given frame is null) with the
    given flags, and no other page of the region changed.  [AlreadyMapped] means the
    address was mapped and nothing changed; [OutOfMemory] means it was not mapped,
    that too few frames were free, and that no mapping changed. *)
Theorem map_correct r v f0 flags e k :
  pt_inv D k r → in_region D v → frame_u64 f0 mod 4096 = 0 → frames_unlocked e →
  wp e (map (hhdm r) v f0 flags)
    (λ res k', map_frame D r k k'
       ∧ fa_free k - (if frame_u64 f0 =? 0 then 4 else 3) ≤ fa_free k' ∧
       match res with
       | inl _ => mapping (k_mem k) r v = None
                  ∧ ∃ f, mapped_frame D r f0 f k k' ∧ maps_to D r v f flags k k'
       | inr AlreadyMapped => mapping (k_mem k) r v ≠ None ∧ k' = k
       | inr OutOfMemory =>
           mapping (k_mem k) r v = None
           ∧ fa_free k < (if frame_u64 f0 =? 0 then 4 else 3)
           ∧ ∀ w, in_region D w → mapping (k_mem k') r w = mapping (k_mem k) r w
       end) k.
Proof. apply map_spec. Qed.

(** Mapping a given frame at an unmapped address, when three frames are left. *)
Lemma map_given r v f flags e k :
  pt_inv D k r → in_region D v → frame_u64 f mod 4096 = 0 → frame_u64 f ≠ 0 →
  frames_unlocked e → mapping (k_mem k) r v = None → 3 ≤ fa_free k →
  wp e (map (hhdm r) v f flags)
    (λ res k', res = inl tt ∧ map_frame D r k k' ∧ maps_to D r v f flags k k'
       ∧ fa_free k - 3 ≤ fa_free k') k.
Proof.
  intros Hinv Hv Hal Hf He Hm Hfree.
  eapply wp_mono; [by apply (map_spec D)|]. intros res k' (Hfr & Hcost & H).
  assert ((frame_u64 f =? 0) = false) as Hz by (by apply Z.eqb_neq).
  unfold mapped_frame in H. rewrite Hz in H, Hcost. destruct res as [[]|[]].
  - by destruct H as [_ (f' & -> & H)].
  - lia.
  - by destruct H.
Qed.

Lemma maps_to_self r v f flags k k' :
  maps_to D r v f flags k k' → in_region D v → pef_contains flags PRESENT = true →
  ∃ x, mapping (k_mem k') r v = Some x ∧ pe_flags x = flags
       ∧ entry_phys x v = phys_of (frame_u64 f + virt_as_u64 v mod 4096).
Proof.
  intros (x & Ha & Hf & Hm) Hv Hp. exists x. rewrite Hm by done.
  unfold same_page. rewrite Z.eqb_refl, pe_is_present_spec, Hf, Hp.
  split_and!; [done..|]. unfold entry_phys, frame_u64. by rewrite Ha.
Qed.

Lemma maps_to_other r v w f flags k k' :
  maps_to D r v f flags k k' → in_region D w → same_page w v = false →
  mapping (k_mem k') r w = mapping (k_mem k) r w.
Proof. intros (x & _ & _ & Hm) Hw Hs. by rewrite Hm, Hs. Qed.

(** C17: After a frame is mapped at an address, [translate] gives the address in that
    frame with the same page offset and [protection] gives the flags; the translation
    of any address on another page is the one it had before. *)
Theorem map_then_translate r v w f flags e k :
  pt_inv D k r → in_region D v → in_region D w → frame_u64 f mod 4096 = 0 →
  frame_u64 f ≠ 0 → frames_unlocked e → mapping (k_mem k) r v = None → 3 ≤ fa_free k →
  pef_contains flags PRESENT = true → same_page w v = false →
  wp e (before ← translate (hhdm r) w;
        res ← map (hhdm r) v f flags;
        pv ← translate (hhdm r) v;
        fv ← protection (hhdm r) v;
        after ← translate (hhdm r) w;
        mret (res, pv, fv, before, after))
    (λ '(res, pv, fv, before, after) _,
       res = inl tt ∧ pv = Some (phys_of (frame_u64 f + virt_as_u64 v mod 4096))
       ∧ fv = Some flags ∧ after = before) k.
Proof.
  intros Hinv Hv Hw Hal Hf He Hm Hfree Hp Hs.
  apply wp_bind. eapply wp_of_run; [by apply (translate_run D)|]. apply wp_bind.
  eapply wp_mono; [by apply map_given|]. intros res k' (-> & Hfr & Hmt & _).
  pose proof (map_inv D r k k' Hfr) as Hinv'.
  destruct (maps_to_self r v f flags k k' Hmt Hv Hp) as (x & Hx & Hfl & Ha).
  apply wp_bind. eapply wp_of_run; [by apply (translate_run D)|].
  apply wp_bind. eapply wp_of_run; [by apply (protection_run D)|].
  apply wp_bind. eapply wp_of_run; [by apply (translate_run D)|]. apply wp_ret.
  rewrite Hx, (maps_to_other r v w f flags k k') by done. simpl. by rewrite Ha, Hfl.
Qed.


(** C34: Mapping a frame at an unmapped address and unmapping it gives the frame's
    address back, and leaves every page of the region mapped as it was. *)
Theorem map_unmap_roundtrip r v f flags e k :
  pt_inv D k r → in_region D v → frame_u64 f mod 4096 = 0 → frame_u64 f ≠ 0 →
  frames_unlocked e → mapping (k_mem k) r v = None → 3 ≤ fa_free k →
  pef_contains flags PRESENT = true →
  wp e (_ ← map (hhdm r) v f flags; unmap (hhdm r) v)
    (λ res k', res = Some (phys_of (frame_u64 f + virt_as_u64 v mod 4096))
       ∧ pt_inv D k' r
       ∧ ∀ w, in_region D w → mapping (k_mem k') r w = mapping (k_mem k) r w) k.
Proof.
  intros Hinv Hv Hal Hf He Hm Hfree Hp. apply wp_bind.
  eapply wp_mono; [by apply map_given|]. intros res k' (-> & Hfr & Hmt & _).
  pose proof (map_inv D r k k' Hfr) as Hinv'.
  destruct (maps_to_self r v f flags k k' Hmt Hv Hp) as (x & Hx & _ & Ha).
  destruct (mapped_follow v k' r x Hx) as (q & Hq & _).
  unfold wp, wpx. rewrite (unmap_run D), Hx, Hq by done.
  destruct (leaf_state_inv D v q (pe_clear x) (shootdown_events (k_events k')) k' r
    Hinv' Hv Hq) as (H1 & _ & H3).
  split_and!; [by rewrite Ha|exact H1|]. intros w Hw. rewrite H3, pe_clear_absent by done.
  destruct (same_page w v) eqn:Hs; [|by apply (maps_to_other r v w f flags k k')].
  apply same_page_idxs in Hs. unfold mapping in *. by rewrite (proj1 Hs), (proj2 Hs).
Qed.

(** C35: [change_protection] returns the old flags of the page, installs the new ones
    without changing the frame the page is mapped to, flushes the TLB, and leaves
    every other page alone; on an unmapped address it returns [None] and changes
    nothing. *)
Theorem change_protection_correct r v flags e k :
  pt_inv D k r → in_region D v → pef_contains flags PRESENT = true →
  wp e (change_protection (hhdm r) v flags)
    (λ res k',
       match mapping (k_mem k) r v with
       | None => res = None ∧ k' = k
       | Some x =>
           res = Some (pe_flags x) ∧ pt_inv D k' r
           ∧ (∃ x', mapping (k_mem k') r v = Some x' ∧ pe_flags x' = flags
                    ∧ pe_addr_field x' = pe_addr_field x)
           ∧ (∀ w, in_region D w → same_page w v = false →
                mapping (k_mem k') r w = mapping (k_mem k) r w)
           ∧ k_events k' = shootdown_events (k_events k)
       end) k.
Proof.
  intros Hinv Hv Hp. unfold wp, wpx. rewrite (change_protection_run D) by done.
  destruct (mapping (k_mem k) r v) as [x|] eqn:Hm; [|done].
  destruct (mapped_follow v k r x Hm) as (q & Hq & _). rewrite Hq.
  destruct (leaf_state_inv D v q (pe_set_flags x flags) (shootdown_events (k_events k)) k r
    Hinv Hv Hq) as (H1 & _ & H3).
  split_and!; [done|exact H1| | |done].
  - exists (pe_set_flags x flags). rewrite H3 by done. unfold same_page.
    rewrite Z.eqb_refl, pe_is_present_spec, pe_set_flags_flags, Hp.
    by rewrite pe_set_flags_addr.
  - intros w Hw Hs. by rewrite H3, Hs.
Qed.
End Theorems.

(** ** The kernel's page table at boot *)

Section Setup.
Context {BF : Bitflags} {BFS : BitflagsSpec BF} {RT : Runtime} {RTS : RuntimeSpec RT}
  {XA : X86Address} {XAS : X86AddressSpec XA} {XP : X86Paging XA} {XPS : X86PagingSpec XP}
  {LG : Logging} {LGS : LoggingSpec LG}
  {XC : X86Cpu} {XCS : X86CpuSpec XC} {FA : Allocator} {FAS : AllocatorSpec FA}.
Implicit Types (e : Env) (k : Kernel) (p q r i j : Z) (f : Frame).

(** The active table of this CPU is the one at physical address [r]. *)
Definition active_root k r : Prop :=
  0 ≤ r < 2 ^ 44 ∧ ∃ f, k_active_table k = Some (mkTableRoot (virt_of (hhdm r)) f).

Lemma with_active_table_run {A} (g : Z → M Kernel A) r e k :
  active_root k r → ACTIVE_TABLE ∉ held e → TABLE_ROOT ∉ held e →
  with_active_table g e k = g (hhdm r) (acquire TABLE_ROOT (acquire ACTIVE_TABLE e)) k.
Proof.
  intros (Hr & f & Hf) HA HT. unfold with_active_table, ACTIVE_TABLE_force.
  rewrite bind_run. erewrite bind_ret_run by reflexivity. rewrite Hf. unfold mret at 1, M_ret.
  rewrite with_lock_free by done. rewrite with_lock_free by (by apply held_acquire).
  erewrite bind_ret_run by reflexivity. rewrite Hf. erewrite bind_ret_run by reflexivity.
  unfold TableRoot_deref_mut. simpl. rewrite virt_as_ptr_spec. unfold hhdm.
  by rewrite virt_of_hhdm by lia.
Qed.

(** Entry [i] of the root table was filled in. *)
Definition filled r k k' i : Prop :=
  let q := phys_as_u64 (pe_addr_field (k_mem k' r i)) in
  pe_is_present (k_mem k' r i) = true ∧ pe_is_writable (k_mem k' r i) = true
  ∧ 0 ≤ q < 2 ^ 44 ∧ ¬ fa_live k q ∧ fa_live k' q.

(** The state of the loop of [setup] once the entries [pre] were visited. *)
Record preallocated r k (pre : list Z) k' : Prop := {
  pre_alloc : fa_inv k';
  pre_live : fa_keeps k k';
  pre_free : fa_free k - Z.of_nat (length pre) ≤ fa_free k';
  pre_only : only_memory k k';
  pre_first : first_fit k k';
  pre_memory p i : p ≠ r → k_mem k' p i = k_mem k p i;
  pre_kept i : i ∉ pre ∨ pe_is_present (k_mem k r i) = true → k_mem k' r i = k_mem k r i;
  pre_filled i : i ∈ pre → pe_is_present (k_mem k r i) = false → filled r k k' i;
  pre_distinct i j : i ∈ pre → j ∈ pre →
    pe_is_present (k_mem k r i) = false → pe_is_present (k_mem k r j) = false →
    pe_addr_field (k_mem k' r i) = pe_addr_field (k_mem k' r j) → i = j
}.

Lemma preallocated_nil r k : fa_inv k → preallocated r k [] k.
Proof.
  intros Ha. split; try done.
  - simpl. lia.
  - unfold only_memory. by destruct k.
  - intros i Hi. by apply elem_of_nil in Hi.
  - intros i j Hi. by apply elem_of_nil in Hi.
Qed.

(** Filling in one more entry with the frame [f], allocated between [k1] and [k2]. *)
Lemma preallocated_fill r k pre i f k1 k2 x' :
  preallocated r k pre k1 → fa_live k r → i ∉ pre → pe_is_present (k_mem k r i) = false →
  fa_inv k2 → fa_keeps k1 k2 → frame_u64 f mod 4096 = 0 →
  0 ≤ frame_u64 f < 2 ^ 44 →
  fa_free k2 = fa_free k1 - 1 → ¬ fa_live k1 (frame_u64 f) → fa_live k2 (frame_u64 f) →
  only_memory k1 k2 → first_fit k1 k2 → k_mem k2 = k_mem k1 →
  preallocated r k (pre ++ [i])
    (set_mem (mem_write r i (leaf_entry (k_mem k2 r i) f (pef_union PRESENT WRITABLE))
                (mem_write r i x' (k_mem k2))) k2).
Proof.
  intros [Ha Hl Hfr Ho Hff Hm Hk Hf Hd] Hr Hi Habs Ha2 Hl2 Hal Hbf Hfr2 Hn Hy Ho2 Hff2 Hm2.
  set (x := leaf_entry _ _ _). set (k3 := set_mem _ k2).
  destruct (leaf_entry_spec (k_mem k2 r i) f (pef_union PRESENT WRITABLE) Hal) as [Hx Hxf].
  assert (k_mem k3 r i = x) as Hi3 by apply mem_write_eq.
  assert (∀ p j, ¬ (p = r ∧ j = i) → k_mem k3 p j = k_mem k1 p j) as Hsame.
  { intros p j Hne. unfold k3. simpl. by rewrite 2!mem_write_other, Hm2. }
  assert (fa_keeps k1 k3) as Hl3 by (by eapply fa_keeps_local; [|exact Hl2]).
  assert (∀ j, j ∈ pre → k_mem k3 r j = k_mem k1 r j) as Hpre
    by (intros j Hj; apply Hsame; intros [_ ->]; done).
  split.
  - by eapply fa_inv_local; [..|exact Ha2].
  - by eapply fa_keeps_trans.
  - rewrite (fa_free_local k3 k2), length_app by done. simpl. lia.
  - unfold only_memory in *. unfold k3. rewrite Ho2, Ho. by destruct k.
  - eapply first_fit_trans; [exact Hff|]. eapply first_fit_trans; [exact Hff2|].
    by apply first_fit_local.
  - intros p j Hp. rewrite Hsame by (by intros [? _]). by apply Hm.
  - intros j Hj. assert (j ≠ i).
    { intros ->. destruct Hj as [Hj|Hj]; [|congruence]. apply Hj, elem_of_app. right. left. }
    rewrite Hsame by (by intros [_ ?]). apply Hk. destruct Hj as [Hj|Hj]; [left|by right].
    intros Hin. apply Hj, elem_of_app. by left.
  - intros j [Hj| ->%list_elem_of_singleton]%elem_of_app Hja; unfold filled.
    + rewrite Hpre by done. destruct (Hf j Hj Hja) as (? & ? & ? & ? & ?).
      repeat (split; [done|]). by apply Hl3.
    + rewrite Hi3. unfold x. rewrite Hx. rewrite pe_is_present_spec, pe_is_writable_spec, Hxf.
      split_and!; [apply pef_union_l, pef_contains_refl|apply pef_union_r, pef_contains_refl
                  |apply Hbf|apply Hbf|by intros [? _]%Hl|by eapply fa_live_local; [|exact Hy]].
  - assert (∀ j, j ∈ pre → pe_is_present (k_mem k r j) = false →
      pe_addr_field (k_mem k1 r j) ≠ frame_addr f) as Hnew.
    { intros j Hj Hja Heq. destruct (Hf j Hj Hja) as (_ & _ & _ & _ & HL).
      rewrite Heq in HL. done. }
    intros j j' [Hj| ->%list_elem_of_singleton]%elem_of_app
      [Hj'| ->%list_elem_of_singleton]%elem_of_app Hja Hja'; rewrite ?Hi3, ?Hpre by done;
      unfold x; rewrite ?Hx; [by apply Hd| | |done].
    + intros Heq. by destruct (Hnew j Hj Hja).
    + intros Heq. by destruct (Hnew j' Hj' Hja').
Qed.

Lemma kernel_not_zeroed : bf_contains AllocationFlags_KERNEL AllocationFlags_ZEROED = false.
Proof.
  unfold AllocationFlags_ZEROED, FrameFlags_ZEROED. by rewrite contains_flag by lia.
Qed.

(** One iteration of the loop. *)
Lemma preallocate_entry_spec r k pre i e k1 :
  preallocated r k pre k1 → 0 ≤ r < 2 ^ 44 → fa_live k r → i ∉ pre → frames_unlocked e →
  Z.of_nat (length pre) < fa_free k →
  wp e (preallocate_entry (hhdm r) i) (λ _, preallocated r k (pre ++ [i])) k1.
Proof.
  intros Hpre Hr Hlive Hi He Hfree. unfold preallocate_entry.
  apply wp_bind. eapply wp_of_run; [by apply read_entry_run|].
  rewrite (pre_kept _ _ _ _ Hpre) by (by left).
  destruct (pe_is_present (k_mem k r i)) eqn:Hp; simpl.
  - apply wp_ret. destruct Hpre as [Ha Hl Hfr Ho Hff Hm Hk Hf Hd]. split; try done.
    + rewrite length_app. simpl. lia.
    + intros j Hj. apply Hk. destruct Hj as [Hj|Hj]; [left|by right].
      intros Hin. apply Hj, elem_of_app. by left.
    + intros j [Hj| ->%list_elem_of_singleton]%elem_of_app; [by apply Hf|congruence].
    + intros j j' [Hj| ->%list_elem_of_singleton]%elem_of_app
        [Hj'| ->%list_elem_of_singleton]%elem_of_app; try congruence. by apply Hd.
  - apply wp_bind. eapply wp_mono; [apply lock_allocate_spec; [apply Hpre|done]|].
    intros [f|] k2 (Ha2 & Hl2 & H).
    + destruct H as (Hal & Hb & Hfr & Hn & Hy & [Ho Hff] & Hm2).
      rewrite kernel_not_zeroed in Hm2.
      apply wp_bind, wp_ret.
      eapply wp_of_run; [by apply update_entry_twice|].
      by apply preallocated_fill with (k1 := k1).
    + destruct H as [-> H0]. pose proof (pre_free _ _ _ _ Hpre). lia.
Qed.

Lemma kernel_base_offset :
  ∃ base, virt_new KERNEL_BASE = Some base ∧ virt_pml4_offset base = 256.
Proof.
  exists (virt_of KERNEL_BASE). assert (canonical KERNEL_BASE) by (unfold canonical, KERNEL_BASE; lia).
  by rewrite virt_new_of, virt_pml4_offset_spec, virt_of_u64.
Qed.

(** The loop as a whole. *)
Lemma paging_setup_spec r e k :
  active_root k r → fa_inv k → fa_live k r → 256 ≤ fa_free k →
  ACTIVE_TABLE ∉ held e → TABLE_ROOT ∉ held e → frames_unlocked e →
  wp e paging_setup (λ _ k', preallocated r k (seqZ 256 256) k') k.
Proof.
  intros Hroot Ha Hlive Hfree HA HT [HF HS]. unfold paging_setup, wp, wpx.
  rewrite (with_active_table_run _ r) by done.
  destruct kernel_base_offset as (base & Hb & Ho). rewrite Hb, PageTable_COUNT_spec.
  unfold ext. erewrite bind_ret_run by reflexivity. rewrite Ho.
  change (512 - 256) with 256.
  eapply wp_mono; [apply (wp_foldM _ (λ pre _, preallocated r k pre))|].
  - by apply preallocated_nil.
  - intros pre i todo _ k1 Heq Hpre. apply preallocate_entry_spec; try done.
    + apply Hroot.
    + pose proof (NoDup_seqZ 256 256) as Hnd. rewrite Heq in Hnd.
      apply NoDup_app in Hnd as (_ & Hd & _). intros Hi. apply (Hd _ Hi). left.
    + split; apply held_acquire; try done; by apply held_acquire.
    + assert (length (seqZ 256 256) = 256%nat) as Hlen by apply length_seqZ.
      rewrite Heq, length_app in Hlen. simpl in Hlen. lia.
  - by intros [] k' Hpre.
Qed.

Lemma preallocated_unowned r k pre k' :
  fa_live k r → preallocated r k pre k' → unowned_kept k k'.
Proof.
  intros Hr Hpre. split; [apply Hpre|]. intros p i Hn. apply (pre_memory _ _ _ _ Hpre).
  intros ->. by apply Hn, (pre_live _ _ _ _ Hpre).
Qed.

(** The set-up of paging fills in the kernel half of the active root table.  With
    256 free frames it returns without panicking or deadlocking; afterwards every
    entry from 256 to 511 is present, an entry that was present is unchanged, and an
    entry that was not points, writable, to a frame that had no owner before, a
    different one for each entry.  The user half and every other page of memory are
    unchanged: in particular the new tables are not cleared, their content is what
    the frames held before. *)
Theorem setup_preallocates r e k :
  active_root k r → fa_inv k → fa_live k r → 256 ≤ fa_free k →
  ACTIVE_TABLE ∉ held e → TABLE_ROOT ∉ held e → frames_unlocked e →
  wp e paging_setup
    (λ _ k', fa_inv k' ∧ only_memory k k'
       ∧ (∀ i, 256 ≤ i < 512 → pe_is_present (k_mem k' r i) = true)
       ∧ (∀ i, i < 256 ∨ pe_is_present (k_mem k r i) = true → k_mem k' r i = k_mem k r i)
       ∧ (∀ i, 256 ≤ i < 512 → pe_is_present (k_mem k r i) = false → filled r k k' i)
       ∧ (∀ i j, 256 ≤ i < 512 → 256 ≤ j < 512 → i ≠ j →
            pe_is_present (k_mem k r i) = false → pe_is_present (k_mem k r j) = false →
            pe_addr_field (k_mem k' r i) ≠ pe_addr_field (k_mem k' r j))
       ∧ ∀ p i, p ≠ r → k_mem k' p i = k_mem k p i) k.
Proof.
  intros Hroot Ha Hlive Hfree HA HT He.
  assert (∀ i, i ∈ seqZ 256 256 ↔ 256 ≤ i < 512) as Hin
    by (intros i; rewrite elem_of_seqZ; lia).
  eapply wp_mono; [by apply paging_setup_spec|].
  intros [] k' Hpre. split_and!; try apply Hpre.
  - intros i Hi%Hin. destruct (pe_is_present (k_mem k r i)) eqn:E.
    + by rewrite (pre_kept _ _ _ _ Hpre) by (by right).
    + apply (pre_filled _ _ _ _ Hpre i Hi E).
  - intros i [Hi|Hi]; apply (pre_kept _ _ _ _ Hpre); [left|by right]. rewrite Hin. lia.
  - intros i Hi%Hin. by apply Hpre.
  - intros i j Hi%Hin Hj%Hin Hne Hpi Hpj Heq. by apply Hne, Hpre.
Qed.
(** A test of [active_root] that can be evaluated. *)
Definition active_rootb (k : Kernel) (r : Z) : bool :=
  match k_active_table k with
  | Some t => virt_as_u64 (root_addr t) =? hhdm r
  | None => false
  end.

Lemma active_rootb_sound k r :
  0 ≤ r < 2 ^ 44 → active_rootb k r = true → active_root k r.
Proof.
  intros Hr. unfold active_rootb, active_root.
  destruct (k_active_table k) as [[v f]|]; [|done]. simpl. intros Hv%Z.eqb_eq.
  split; [done|]. exists f. do 2 f_equal. apply virt_inj. rewrite Hv. unfold hhdm.
  by rewrite virt_of_hhdm by lia.
Qed.
End Setup.

(** ** Witnesses *)

(** A kernel with one table, the empty root at 4096, and [n] free frames. *)
Definition ref_space (n : Z) : Kernel :=
  mkKernel
    (mkFrameInfo FrameFlags_POISONED (frame_at 0) 0
     :: mkFrameInfo FrameFlags_KERNEL (frame_at 4096) 1
     :: ((λ i, mkFrameInfo FrameFlags_FREE (frame_at (i * 4096)) 0) <$> seqZ 2 n))
    (mkStats (n + 2) (n + 1) 1 0 1 0 1) (λ _ _, pe_zero) [] [] None
    (Some (mkTableRoot (virt_of (hhdm 4096)) (frame_at 4096))) false []
    (mkLogger [] (true, 5)).

Definition ref_rw : MapFlags := pef_union PRESENT WRITABLE.

Definition everywhere : Z → Prop := λ _, True.

Lemma ref_space_live n : fa_live (ref_space n) 4096.
Proof. reflexivity. Qed.

Lemma ref_space_inv : pt_inv everywhere (ref_space 8) 4096.
Proof.
  split.
  - apply alloc_invb_sound. vm_compute. reflexivity.
  - apply tables_empty; [|done|apply ref_space_live]. intros i. apply pe_zero_absent.
Qed.

Lemma ref_unlocked : frames_unlocked ref_env.
Proof. split; apply ref_env_unlocked. Qed.

(** A page of the heap, and its neighbour. *)
Definition ref_page : Virtual := virt_of 0xFFFF900000003210.
Definition ref_page' : Virtual := virt_of 0xFFFF900000004210.

Lemma ref_page_unmapped : mapping (k_mem (ref_space 8)) 4096 ref_page = None.
Proof. vm_compute. reflexivity. Qed.

Lemma map_correct_witness :
  wp ref_env (map (hhdm 4096) ref_page (frame_at 0) ref_rw)
    (λ res k', pt_inv everywhere k' 4096 ∧ res = inl tt) (ref_space 8).
Proof.
  eapply wp_mono.
  - apply (map_correct everywhere 4096 ref_page (frame_at 0) ref_rw ref_env (ref_space 8));
      [exact ref_space_inv|exact I|vm_compute; reflexivity|exact ref_unlocked].
  - intros [[]|[]] k' (Hf & _ & H); (split; [apply Hf|]); [done| |].
    + destruct H as (_ & H & _). vm_compute in H. discriminate H.
    + destruct H as [H _]. destruct (H ref_page_unmapped).
Defined.

Lemma map_then_translate_witness :
  wp ref_env
    (before ← translate (hhdm 4096) ref_page';
     res ← map (hhdm 4096) ref_page (frame_at 0xB8000) ref_rw;
     pv ← translate (hhdm 4096) ref_page;
     fv ← protection (hhdm 4096) ref_page;
     after ← translate (hhdm 4096) ref_page';
     mret (res, pv, fv, before, after))
    (λ '(res, pv, fv, before, after) _,
       res = inl tt ∧ pv = Some (phys_of 0xB8210) ∧ fv = Some ref_rw ∧ after = before)
    (ref_space 8).
Proof.
  apply (map_then_translate everywhere 4096 ref_page ref_page' (frame_at 0xB8000) ref_rw ref_env
    (ref_space 8)); try exact I; try exact ref_unlocked; try exact ref_space_inv;
    try exact ref_page_unmapped; vm_compute; (reflexivity || discriminate).
Defined.

(** The entry of a page of the heap, at the end of a chain of tables. *)
Definition ref_mapped : Kernel :=
  ret_state (map (hhdm 4096) ref_page (frame_at 0xB8000) ref_rw ref_env (ref_space 8))
    (ref_space 8).

Lemma ref_mapped_inv : pt_inv everywhere ref_mapped 4096.
Proof.
  destruct (wp_ret_state _ _ _ _ (map_spec everywhere 4096 ref_page (frame_at 0xB8000) ref_rw
    ref_env (ref_space 8) ref_space_inv I eq_refl ref_unlocked)) as [res [Hf _]].
  exact (map_inv _ _ _ _ Hf).
Qed.

Lemma ref_mapped_entry :
  ∃ x, mapping (k_mem ref_mapped) 4096 ref_page = Some x
       ∧ entry_phys x ref_page = phys_of 0xB8210 ∧ pe_flags x = ref_rw.
Proof.
  destruct (mapping (k_mem ref_mapped) 4096 ref_page) as [x|] eqn:E;
    [|vm_compute in E; discriminate E].
  exists x. split; [done|]. vm_compute in E. injection E as <-.
  split; [apply checked_inj; vm_compute; reflexivity|reflexivity].
Qed.


Lemma map_unmap_roundtrip_witness :
  wp ref_env (_ ← map (hhdm 4096) ref_page (frame_at 0xB8000) ref_rw; unmap (hhdm 4096) ref_page)
    (λ res k', res = Some (phys_of 0xB8210) ∧ pt_inv everywhere k' 4096
       ∧ ∀ w, in_region everywhere w →
           mapping (k_mem k') 4096 w = mapping (k_mem (ref_space 8)) 4096 w) (ref_space 8).
Proof.
  apply (map_unmap_roundtrip everywhere 4096 ref_page (frame_at 0xB8000) ref_rw ref_env
    (ref_space 8)); try exact I; try exact ref_unlocked; try exact ref_space_inv;
    try exact ref_page_unmapped; vm_compute; (reflexivity || discriminate).
Defined.

Lemma change_protection_correct_witness :
  wp ref_env (change_protection (hhdm 4096) ref_page PRESENT)
    (λ res k', res = Some ref_rw ∧ pt_inv everywhere k' 4096) ref_mapped.
Proof.
  eapply wp_mono.
  - apply (change_protection_correct everywhere 4096 ref_page PRESENT ref_env ref_mapped);
      [exact ref_mapped_inv|exact I|reflexivity].
  - intros res k'. destruct ref_mapped_entry as (x & -> & _ & <-).
    intros (-> & Hinv & _). done.
Defined.

Lemma setup_preallocates_witness :
  wp ref_env paging_setup
    (λ _ k', ∀ i, 256 ≤ i < 512 → pe_is_present (k_mem k' 4096 i) = true) (ref_space 256).
Proof.
  eapply wp_mono.
  - apply (setup_preallocates 4096 ref_env (ref_space 256));
      [split; [done|by eexists]| |apply ref_space_live|by vm_compute
      |apply ref_env_unlocked..|exact ref_unlocked].
    apply alloc_invb_sound. vm_compute. reflexivity.
  - intros _ k' (_ & _ & H & _). exact H.
Defined.
