(* ===== verification/PagingRoots.v ===== *)
(** * Root page tables: [src/src/arch/paging.rs]

    Every address space has a root table of its own, and all of them share the
    tables of the kernel half, which are hooked into the root once and for all
    when paging is set up.  This file proves that the set-up establishes the
    invariant of page tables, that new roots show the same kernel half, and that
    a mapping made through one root appears in all of them. *)

From S2P Require Import Prelude Machine External Reference Frame BTree Log Kernel FrameState FrameAlloc Paging PageTables PagingSpec.

(** ** Roots that share tables *)

Section Shared.
Context {BF : Bitflags} {BFS : BitflagsSpec BF} {RT : Runtime} {RTS : RuntimeSpec RT}
  {XA : X86Address} {XAS : X86AddressSpec XA} {XP : X86Paging XA} {XPS : X86PagingSpec XP}
  {LG : Logging} {LGS : LoggingSpec LG}
  {XC : X86Cpu} {XCS : X86CpuSpec XC} {FA : Allocator} {FAS : AllocatorSpec FA}.
Variable D : Z → Prop.
Implicit Types (e : Env) (k : Kernel) (m : memory) (p q r i : Z) (l : list Z) (v w : Virtual).

(** In the region, the entries of the roots [r1] and [r2] lead to the same tables. *)
Definition same_tables m r1 r2 : Prop :=
  ∀ i, D i → 0 ≤ i < 512 → next_table m r2 i = next_table m r1 i.

(** Every entry of the region is hooked into the root. *)
Definition hooked m r : Prop := ∀ i, D i → 0 ≤ i < 512 → next_table m r i ≠ None.

Lemma good_head i l : good D (i :: l) → D i ∧ 0 ≤ i < 512.
Proof. intros (_ & Hr & HD). inversion Hr; subst. split; [by apply (HD i l)|done]. Qed.

Lemma follow_shared m r1 r2 i l :
  same_tables m r1 r2 → good D (i :: l) → follow m r2 (i :: l) = follow m r1 (i :: l).
Proof. intros Hs [HD Hi]%good_head. rewrite !follow_cons. by rewrite Hs. Qed.

Lemma mapping_shared m r1 r2 v :
  same_tables m r1 r2 → in_region D v → mapping m r2 v = mapping m r1 v.
Proof.
  intros Hs Hv. unfold mapping, leaf. pose proof (good_idxs D v Hv) as Hg.
  change (idxs v 3) with (idx v 3 :: idxs v 2) in *. by rewrite (follow_shared m r1 r2).
Qed.

(** The second root is no table of the first. *)
Lemma shared_not_table live m r1 r2 :
  tables_ok D live m r2 → same_tables m r1 r2 → r1 ≠ r2 → ¬ is_table D m r1 r2.
Proof.
  intros Hok Hs Hne ([|i l] & Hg & Hf).
  - by injection Hf.
  - rewrite <- (follow_shared m r1 r2 i l Hs Hg) in Hf.
    by pose proof (tables_inj D live m r2 Hok (i :: l) [] r2 Hg (good_nil D) Hf eq_refl).
Qed.

(** A root that shares the tables of a well-formed one is well formed. *)
Lemma tables_shared live m r1 r2 :
  tables_ok D live m r1 → same_tables m r1 r2 → 0 ≤ r2 < 2 ^ 44 → live r2 →
  ¬ is_table D m r1 r2 → tables_ok D live m r2.
Proof.
  intros Hok Hs Hb Hl Hnt.
  assert (∀ i l p, good D (i :: l) → follow m r2 (i :: l) = Some p →
    follow m r1 (i :: l) = Some p ∧ p ≠ r2) as Hcase.
  { intros i l p Hg Hf. rewrite (follow_shared m r1 r2) in Hf by done.
    split; [done|]. intros ->. apply Hnt. by exists (i :: l). }
  split.
  - intros [|i l] p Hg Hf; [by injection Hf as <-|].
    destruct (Hcase i l p Hg Hf) as [Hf1 _]. by apply (tables_live D live m r1 Hok _ p Hg).
  - intros [|i l] [|i' l'] p Hg Hg' Hf Hf'; [done| | |].
    + injection Hf as <-. by destruct (Hcase i' l' r2 Hg' Hf').
    + injection Hf' as <-. by destruct (Hcase i l r2 Hg Hf).
    + destruct (Hcase i l p Hg Hf) as [H1 _], (Hcase i' l' p Hg' Hf') as [H2 _].
      by apply (tables_inj D live m r1 Hok _ _ p).
Qed.

(** What an operation on the tables of [r1] must keep for the roots to stay in step. *)
Lemma shared_kept r1 r2 k k' :
  pt_inv D k r1 → pt_inv D k r2 → r1 ≠ r2 → same_tables (k_mem k) r1 r2 →
  hooked (k_mem k) r1 → pt_inv D k' r1 → (∀ a, fa_live k a → fa_live k' a) →
  (∀ p i, fa_live k p → ¬ is_table D (k_mem k) r1 p → k_mem k' p i = k_mem k p i) →
  (∀ p, is_table D (k_mem k') r1 p → fa_live k p → is_table D (k_mem k) r1 p) →
  (∀ l p, good D l → follow (k_mem k) r1 l = Some p → follow (k_mem k') r1 l = Some p) →
  pt_inv D k' r2 ∧ same_tables (k_mem k') r1 r2 ∧ hooked (k_mem k') r1
  ∧ ∀ w, in_region D w → mapping (k_mem k') r2 w = mapping (k_mem k') r1 w.
Proof.
  intros [_ Hok1] [_ Hok2] Hne Hs Hh [Ha1' Hok1'] Hlive Hmem Htab Hfollow.
  destruct (tables_live D _ _ _ Hok2 [] r2 (good_nil D) eq_refl) as [Hb Hl2].
  pose proof (shared_not_table _ _ _ _ Hok2 Hs Hne) as Hnt.
  assert (∀ i, D i → 0 ≤ i < 512 → ∃ q, next_table (k_mem k) r1 i = Some q
    ∧ next_table (k_mem k') r1 i = Some q) as Hkept.
  { intros i HD Hi. destruct (next_table (k_mem k) r1 i) as [q|] eqn:Hq; [|by destruct (Hh i)].
    exists q. split; [done|]. assert (good D [i]) as Hg.
    { split_and!; [simpl; lia|by constructor|by intros j l [= -> _]]. }
    pose proof (Hfollow [i] q Hg) as H. rewrite !follow_cons, Hq in H.
    destruct (next_table (k_mem k') r1 i); by apply H. }
  assert (same_tables (k_mem k') r1 r2) as Hs'.
  { intros i HD Hi. destruct (Hkept i HD Hi) as (q & Hq & ->). rewrite <- Hq, <- Hs by done.
    unfold next_table. by rewrite Hmem. }
  split_and!; [|done| |by intros w Hw; apply mapping_shared].
  - split; [done|]. apply (tables_shared _ _ r1); auto.
  - intros i HD Hi. by destruct (Hkept i HD Hi) as (q & _ & ->).
Qed.

(** C20: A mapping of kernel memory appears in every address space.  Two roots whose
    entries of the region lead to the same tables (the set-up and the creation of roots
    see to it) stay in step when [map] works on one of them, whether it succeeds or
    not: both satisfy the page-table invariant, still lead to the same tables, and map
    every address of the region alike.  No processor needs to edit another one's root. *)
Theorem kernel_mappings_shared r1 r2 v f0 flags e k :
  pt_inv D k r1 → pt_inv D k r2 → r1 ≠ r2 → same_tables (k_mem k) r1 r2 →
  hooked (k_mem k) r1 → in_region D v → frame_u64 f0 mod 4096 = 0 → frames_unlocked e →
  wp e (map (hhdm r1) v f0 flags)
    (λ _ k', pt_inv D k' r1 ∧ pt_inv D k' r2 ∧ same_tables (k_mem k') r1 r2
       ∧ hooked (k_mem k') r1
       ∧ ∀ w, in_region D w → mapping (k_mem k') r2 w = mapping (k_mem k') r1 w) k.
Proof.
  intros H1 H2 Hne Hs Hh Hv Hal He. eapply wp_mono; [by apply (map_spec D)|].
  intros res k' (Hfr & _). split; [apply Hfr|].
  apply (shared_kept r1 r2 k k'); try done; apply Hfr.
Qed.

(** The same for [unmap]. *)
Lemma kernel_unmappings_shared r1 r2 v e k :
  pt_inv D k r1 → pt_inv D k r2 → r1 ≠ r2 → same_tables (k_mem k) r1 r2 →
  hooked (k_mem k) r1 → in_region D v →
  wp e (unmap (hhdm r1) v)
    (λ _ k', pt_inv D k' r1 ∧ pt_inv D k' r2 ∧ same_tables (k_mem k') r1 r2
       ∧ hooked (k_mem k') r1
       ∧ ∀ w, in_region D w → mapping (k_mem k') r2 w = mapping (k_mem k') r1 w) k.
Proof.
  intros H1 H2 Hne Hs Hh Hv. unfold wp, wpx. rewrite (unmap_run D) by done.
  destruct (mapping (k_mem k) r1 v) as [x|] eqn:Hm.
  - destruct (mapped_follow v k r1 x Hm) as (q & Hq & _). rewrite Hq.
    set (k' := leaf_state v q (pe_clear x) (shootdown_events (k_events k)) k).
    destruct (leaf_state_inv D v q (pe_clear x) (shootdown_events (k_events k)) k r1 H1 Hv Hq)
      as (Hinv & Hmem & _). fold k' in Hinv, Hmem.
    assert (∀ l, good D l → follow (k_mem k') r1 l = follow (k_mem k) r1 l) as Hf.
    { intros l Hg. apply (follow_leaf_write D (fa_live k) (k_mem k) (k_mem k') r1 q
        (idx v 0) (idxs v 3)); try done; [apply H1|by apply good_idxs|].
      intros p j _. apply mem_write_other. }
    split; [done|]. apply (shared_kept r1 r2 k k'); try done.
    + intros a. by apply fa_live_local.
    + intros p i _. apply Hmem.
    + intros p (l & Hg & Hp) _. exists l. by rewrite <- Hf.
    + intros l p Hg. by rewrite Hf.
  - split_and!; [done..|]. by intros w Hw; apply mapping_shared.
Qed.
End Shared.

(** ** The set-up establishes the invariant *)

Section Establish.
Context {BF : Bitflags} {BFS : BitflagsSpec BF} {RT : Runtime} {RTS : RuntimeSpec RT}
  {XA : X86Address} {XAS : X86AddressSpec XA} {XP : X86Paging XA} {XPS : X86PagingSpec XP}
  {LG : Logging} {LGS : LoggingSpec LG}
  {XC : X86Cpu} {XCS : X86CpuSpec XC} {FA : Allocator} {FAS : AllocatorSpec FA}.
Variable D : Z → Prop.
Implicit Types (e : Env) (k : Kernel) (m : memory) (p q r i : Z) (l : list Z) (v w : Virtual).

(** The region once the entries of the kernel half that were absent are hooked. *)
Definition extended k r i : Prop :=
  D i ∨ (256 ≤ i < 512 ∧ pe_is_present (k_mem k r i) = false).

(** Pages without owner hold no present entry. *)
Definition blank k : Prop := ∀ p i, ¬ fa_live k p → pe_is_present (k_mem k p i) = false.

Lemma good_sub (D1 D2 : Z → Prop) i l : good D1 (i :: l) → D2 i → good D2 (i :: l).
Proof. intros (Hl & Hr & _) HD. split_and!; [done|done|]. by intros j l' [= <- _]. Qed.

Lemma good_tail i l : good D (i :: l) → (length l ≤ 2)%nat.
Proof. intros (Hl & _). simpl in Hl. lia. Qed.

(** Tables below an entry that was present are found where they were. *)
Lemma follow_present r k k' i l :
  pt_inv D k r → D i → k_mem k' r i = k_mem k r i →
  (∀ p j, p ≠ r → k_mem k' p j = k_mem k p j) → good D (i :: l) →
  follow (k_mem k') r (i :: l) = follow (k_mem k) r (i :: l).
Proof.
  intros [_ Hok] HD Hi Hm. induction l as [|j l IH] using rev_ind; intros Hg.
  - rewrite !follow_cons. unfold next_table. by rewrite Hi.
  - rewrite !app_comm_cons in *. pose proof (good_prefix D _ _ Hg) as Hg'.
    rewrite !follow_snoc, IH by done.
    destruct (follow (k_mem k) r (i :: l)) as [p|] eqn:Hp; [|done]. simpl. unfold next_table.
    rewrite Hm; [done|]. intros ->.
    by pose proof (tables_inj D _ _ _ Hok (i :: l) [] r Hg' (good_nil D) Hp eq_refl).
Qed.

(** The tables after the set-up: the old ones, and one per entry that was filled in. *)
Lemma follow_setup r k k' l p :
  pt_inv D k r → blank k → preallocated r k (seqZ 256 256) k' →
  good (extended k r) l → follow (k_mem k') r l = Some p →
  (good D l ∧ follow (k_mem k) r l = Some p)
  ∨ ∃ i, l = [i] ∧ 256 ≤ i < 512 ∧ pe_is_present (k_mem k r i) = false
         ∧ p = phys_as_u64 (pe_addr_field (k_mem k' r i)).
Proof.
  intros Hinv Hblank Hpre Hg Hf. destruct l as [|i l].
  { left. split; [apply good_nil|done]. }
  destruct (decide (256 ≤ i < 512 ∧ pe_is_present (k_mem k r i) = false)) as [[Hi Ha]|Hno].
  - right. exists i.
    destruct (pre_filled _ _ _ _ Hpre i ltac:(apply elem_of_seqZ; lia) Ha)
      as (Hpr & _ & _ & Hn & _).
    rewrite follow_cons in Hf. unfold next_table in Hf. rewrite Hpr in Hf. simpl in Hf.
    set (q := phys_as_u64 (pe_addr_field (k_mem k' r i))) in *.
    destruct l as [|j l]; [by injection Hf as <-|].
    rewrite follow_cons in Hf. unfold next_table in Hf.
    assert (q ≠ r) as Hqr.
    { intros Heq. apply Hn. rewrite Heq.
      apply (tables_live D _ _ _ (pt_tables D k r Hinv) [] r (good_nil D) eq_refl). }
    by rewrite (pre_memory _ _ _ _ Hpre), (Hblank q j Hn) in Hf.
  - left. destruct (good_head _ _ _ Hg) as [[HD|?] _]; [|done].
    pose proof (good_sub _ D i l Hg HD) as Hg'. split; [done|].
    rewrite <- (follow_present r k k' i l); [done|done|done| |by apply Hpre|done].
    apply (pre_kept _ _ _ _ Hpre). rewrite elem_of_seqZ.
    destruct (decide (256 ≤ i < 512)) as [Hi|Hi]; [right|left; lia].
    destruct (pe_is_present (k_mem k r i)) eqn:E; [done|]. by destruct Hno.
Qed.

(** The tables after the set-up are well formed. *)
Lemma tables_preallocated r k k' :
  pt_inv D k r → blank k → preallocated r k (seqZ 256 256) k' → pt_inv (extended k r) k' r.
Proof.
  intros Hinv Hblank Hpre.
  assert (∀ i, 256 ≤ i < 512 → i ∈ seqZ 256 256) as Hin
    by (intros i Hi; apply elem_of_seqZ; lia).
  split; [apply Hpre|]. split.
  - intros l p Hg Hf. destruct (follow_setup r k k' l p Hinv Hblank Hpre Hg Hf)
      as [[Hg' Hf']|(i & -> & Hi & Ha & ->)].
    + destruct (tables_live D _ _ _ (pt_tables D k r Hinv) l p Hg' Hf').
      split; [done|by apply Hpre].
    + by destruct (pre_filled _ _ _ _ Hpre i (Hin i Hi) Ha) as (_ & _ & ? & _ & ?).
  - assert (∀ l p i, good D l → follow (k_mem k) r l = Some p → 256 ≤ i < 512 →
      pe_is_present (k_mem k r i) = false →
      p ≠ phys_as_u64 (pe_addr_field (k_mem k' r i))) as Hold.
    { intros l p i Hg Hf Hi Ha ->.
      destruct (tables_live D _ _ _ (pt_tables D k r Hinv) l _ Hg Hf) as [_ ?].
      by destruct (pre_filled _ _ _ _ Hpre i (Hin i Hi) Ha) as (_ & _ & _ & ? & _). }
    intros l l' p Hg Hg' Hf Hf'.
    destruct (follow_setup r k k' l p Hinv Hblank Hpre Hg Hf)
      as [[G F]|(i & -> & Hi & Ha & Hp)], (follow_setup r k k' l' p Hinv Hblank Hpre Hg' Hf')
      as [[G' F']|(i' & -> & Hi' & Ha' & Hp')].
    + by apply (tables_inj D _ _ _ (pt_tables D k r Hinv) _ _ p).
    + by destruct (Hold l p i' G F Hi' Ha').
    + by destruct (Hold l' p i G' F' Hi Ha).
    + f_equal. apply (pre_distinct _ _ _ _ Hpre); [by apply Hin..|done|done|].
      apply phys_inj. congruence.
Qed.
(** The set-up of paging makes the kernel half ready for [map].  If the tables of some
    region are well formed and pages without owner hold no present entry, then after
    the set-up the tables of that region together with every kernel entry that was
    absent are well formed: each is a frame of its own with an owner.  So [map], [unmap]
    and demand paging can be used on the heap and on the vmalloc space from then on. *)
Theorem setup_establishes_tables r e k :
  active_root k r → pt_inv D k r → blank k → 256 ≤ fa_free k →
  ACTIVE_TABLE ∉ held e → TABLE_ROOT ∉ held e → frames_unlocked e →
  wp e paging_setup (λ _ k', pt_inv (extended k r) k' r) k.
Proof.
  intros Hroot Hinv Hblank Hfree HA HT He.
  destruct (tables_live D _ _ _ (pt_tables D k r Hinv) [] r (good_nil D) eq_refl) as [_ Hl].
  eapply wp_mono; [by apply paging_setup_spec; try apply Hinv|]. intros [] k' Hpre.
  by apply tables_preallocated.
Qed.
End Establish.

(** ** New roots *)

Section NewRoots.
Context {BF : Bitflags} {BFS : BitflagsSpec BF} {RT : Runtime} {RTS : RuntimeSpec RT}
  {XA : X86Address} {XAS : X86AddressSpec XA} {XP : X86Paging XA} {XPS : X86PagingSpec XP}
  {LG : Logging} {LGS : LoggingSpec LG}
  {XC : X86Cpu} {XCS : X86CpuSpec XC} {IM : IdentityMapped XA XC}
  {FA : Allocator} {FAS : AllocatorSpec FA}.
Variable D : Z → Prop.
Implicit Types (e : Env) (k : Kernel) (m : memory) (p q r i : Z) (l : list Z) (v w : Virtual).

(** The table the bootloader left, wrapped in [INIT_TABLE]. *)
Definition init_root k r : Prop :=
  0 ≤ r < 2 ^ 44 ∧ r mod 4096 = 0
  ∧ k_init_table k = Some (mkTableRoot (virt_of (hhdm r)) (frame_at r)).

(** The root [q] was made from the root [r]: it is a fresh frame, it satisfies the
    invariant, leads to the same tables and maps the region as [r] did and still does. *)
Record root_made r q k k' : Prop := {
  rm_fresh : ¬ fa_live k q ∧ fa_live k' q ∧ 0 ≤ q < 2 ^ 44 ∧ q mod 4096 = 0;
  rm_inv : pt_inv D k' q;
  rm_old : pt_inv D k' r;
  rm_tables : same_tables D (k_mem k') r q;
  rm_mapping v : in_region D v →
    mapping (k_mem k') q v = mapping (k_mem k) r v
    ∧ mapping (k_mem k') r v = mapping (k_mem k) r v;
  rm_kept p i : p ≠ q → k_mem k' p i = k_mem k p i;
  rm_live a : fa_live k a → fa_live k' a;
  rm_first : first_fit k k'
}.

Lemma root_made_local r q k k' k'' :
  k_frames k' = k_frames k'' → k_stats k' = k_stats k'' → k_mem k' = k_mem k'' →
  root_made r q k k' → root_made r q k k''.
Proof.
  intros Hf Hs Hm [(M1 & M1' & M1'') M2 M3 M4 M5 M6 M7 M8].
  assert (∀ a, fa_live k' a → fa_live k'' a) as Hl by (intros a; by apply fa_live_local).
  split; rewrite <- ?Hm; try done.
  - auto.
  - by eapply pt_inv_local; [..|exact M2].
  - by eapply pt_inv_local; [..|exact M3].
  - auto.
  - by eapply first_fit_trans; [exact M8|apply first_fit_local].
Qed.

(** Memory that changes on a page that holds no table of the region. *)
Lemma follow_elsewhere r q m m' :
  ¬ is_table D m r q → (∀ p i, p ≠ q → m' p i = m p i) →
  ∀ l, good D l → follow m' r l = follow m r l.
Proof.
  intros Hnq Hkept. induction l as [|j l IH] using rev_ind; intros Hg; [done|].
  pose proof (good_prefix D _ _ Hg) as Hg'. rewrite !follow_snoc, IH by done.
  destruct (follow m r l) as [p|] eqn:Hp; [|done]. simpl. unfold next_table.
  rewrite Hkept; [done|]. intros ->. apply Hnq. by exists l.
Qed.

Lemma pt_inv_elsewhere r q k k' :
  pt_inv D k r → fa_inv k' → (∀ a, fa_live k a → fa_live k' a) →
  ¬ is_table D (k_mem k) r q → (∀ p i, p ≠ q → k_mem k' p i = k_mem k p i) → pt_inv D k' r.
Proof.
  intros [_ Hok] Ha' Hlive Hnq Hkept.
  pose proof (follow_elsewhere r q (k_mem k) (k_mem k') Hnq Hkept) as Hf.
  split; [done|]. split.
  - intros l p Hg. rewrite Hf by done. intros Hp.
    destruct (tables_live D _ _ _ Hok l p Hg Hp). auto.
  - intros l l' p Hg Hg'. rewrite !Hf by done. by apply (tables_inj D _ _ _ Hok).
Qed.

(** Copying the entries of the region into a fresh page. *)
Lemma root_copied r q k k' :
  pt_inv D k r → fa_inv k' → (∀ a, fa_live k a → fa_live k' a) →
  ¬ fa_live k q → fa_live k' q → 0 ≤ q < 2 ^ 44 → q mod 4096 = 0 →
  (∀ i, D i → 0 ≤ i < 512 → k_mem k' q i = k_mem k r i) →
  (∀ p i, p ≠ q → k_mem k' p i = k_mem k p i) → first_fit k k' → root_made r q k k'.
Proof.
  intros Hinv Ha' Hlive Hn Hy Hb Hal Hcopy Hkept Hff. pose proof Hinv as [Ha Hok].
  assert (∀ p, is_table D (k_mem k) r p → p ≠ q) as Hnq.
  { intros p (l & Hg & Hf) ->. by destruct (tables_live D _ _ _ Hok l q Hg Hf). }
  assert (¬ is_table D (k_mem k) r q) as Hnt by (intros Ht; by apply (Hnq q)).
  pose proof (follow_elsewhere r q (k_mem k) (k_mem k') Hnt Hkept) as Hf.
  assert (pt_inv D k' r) as [_ Hok'] by (by apply (pt_inv_elsewhere r q k k')).
  assert (r ≠ q) as Hrq.
  { apply Hnq. exists []. split; [apply good_nil|done]. }
  assert (same_tables D (k_mem k') r q) as Hs.
  { intros i HD Hi. unfold next_table. by rewrite Hcopy, Hkept. }
  assert (∀ v, in_region D v → mapping (k_mem k') r v = mapping (k_mem k) r v) as Hm.
  { intros v Hv. unfold mapping, leaf. pose proof (good_idxs D v Hv) as Hg. rewrite Hf by done.
    destruct (follow (k_mem k) r (idxs v 3)) as [p|] eqn:Hp; [|done]. simpl. unfold entry_at.
    rewrite Hkept; [done|]. apply Hnq. by exists (idxs v 3). }
  split; try done.
  - split; [done|]. apply (tables_shared D _ _ r); try done.
    intros (l & Hg & Hl). rewrite Hf in Hl by done. destruct (Hnq q); [by exists l|done].
  - intros v Hv. split; [|by apply Hm]. rewrite (mapping_shared D _ r q) by done. by apply Hm.
Qed.

(** A copy of entries into a page that was just allocated and cleared. *)
Lemma copy_root_spec r from n f k k1 :
  pt_inv D k r → allocate_post ZEROED_KERNEL k (Some f) k1 →
  (∀ i, D i → 0 ≤ i < 512 → from ≤ i < from + n) →
  let k2 := set_mem (mem_copy r (frame_u64 f) from n (k_mem k1)) k1 in
  root_made r (frame_u64 f) k k2
  ∧ ∀ i, ¬ (from ≤ i < from + n) → k_mem k2 (frame_u64 f) i = pe_zero.
Proof.
  intros Hinv (Ha1 & Hl1 & Hal & Hb & _ & Hn & Hy & [_ Hff] & Hm1) Hsub k2.
  rewrite contains_zeroed in Hm1.
  assert (r ≠ frame_u64 f) as Hrq.
  { intros ->. apply Hn.
    apply (tables_live D _ _ _ (pt_tables D k _ Hinv) [] _ (good_nil D) eq_refl). }
  split; [apply root_copied; try done|].
  - by eapply fa_inv_local; [..|exact Ha1].
  - intros a Ha. by eapply fa_live_local; [|by apply Hl1].
  - by eapply fa_live_local; [|exact Hy].
  - intros i HD Hi. specialize (Hsub i HD Hi). unfold k2, mem_copy. simpl.
    assert ((frame_u64 f =? frame_u64 f) && (from <=? i) && (i <? from + n) = true) as -> by blia.
    rewrite Hm1. unfold mem_zero_page. by rewrite (proj2 (Z.eqb_neq r _)).
  - intros p i Hp. unfold k2, mem_copy. simpl. rewrite (proj2 (Z.eqb_neq p _)) by done. simpl.
    rewrite Hm1. unfold mem_zero_page. by rewrite (proj2 (Z.eqb_neq p _)).
  - by eapply first_fit_trans; [exact Hff|apply first_fit_local].
  - intros i Hi. unfold k2, mem_copy. simpl. rewrite Z.eqb_refl. simpl.
    destruct ((from <=? i) && (i <? from + n)) eqn:E; [bool_to_prop; lia|].
    rewrite Hm1. unfold mem_zero_page. by rewrite Z.eqb_refl.
Qed.

Lemma hhdm_pointer p : 0 ≤ p < 2 ^ 44 → virt_as_ptr (virt_of (hhdm p)) = hhdm p.
Proof. intros Hp. unfold hhdm. by rewrite virt_as_ptr_spec, virt_of_hhdm by lia. Qed.

Lemma table_new_spec r e k :
  init_root k r → pt_inv D k r → (∀ i, D i → 256 ≤ i) → frames_unlocked e → 0 < fa_free k →
  wp e TableRoot_new
    (λ t k', ∃ q, t = mkTableRoot (virt_of (hhdm q)) (frame_at q) ∧ root_made r q k k'
       ∧ k_active_table k' = k_active_table k
       ∧ ∀ v, idx v 3 < 256 → mapping (k_mem k') q v = None) k.
Proof.
  intros (Hr & Hral & Hinit) Hinv HD He Hfree. unfold TableRoot_new. apply wp_bind.
  eapply wp_mono; [apply lock_allocate_spec; [apply Hinv|done]|].
  intros [f|] k1 Hpost; [|by destruct Hpost as (_ & _ & _ & H0); lia].
  pose proof Hpost as (_ & _ & Hal & Hb & _ & _ & _ & [Ho _] & _).
  apply wp_bind, wp_ret, wp_bind.
  eapply wp_of_run.
  { unfold INIT_TABLE_force. erewrite bind_ret_run by reflexivity.
    assert (k_init_table k1 = k_init_table k) as -> by (by rewrite Ho).
    rewrite Hinit. reflexivity. }
  apply wp_bind, wp_modify. unfold TableRoot_deref. cbn [root_addr].
  rewrite hhdm_pointer by done. unfold hhdm at 1. rewrite resolve_hhdm by done.
  change (Frame_start f) with (frame_addr f). rewrite resolve_phys by (apply Hb).
  change (phys_as_u64 (frame_addr f)) with (frame_u64 f).
  apply wp_bind, wp_phys_to_virt; [unfold frame_u64 in Hb; lia|]. apply wp_ret.
  destruct (copy_root_spec r 256 256 f k k1 Hinv Hpost) as [Hmade Hzero].
  { intros i Hi ?. specialize (HD i Hi). lia. }
  exists (frame_u64 f). rewrite frame_at_id. split_and!; [done|exact Hmade|by rewrite Ho|].
  intros v Hv. unfold mapping, leaf. change (idxs v 3) with (idx v 3 :: idxs v 2).
  rewrite follow_cons. unfold next_table. rewrite Hzero, pe_zero_absent by lia. done.
Qed.

(** C22: [TableRoot::new] creates an address space with an empty user half and the kernel
    half of all the others.  When a frame is free it returns a root in a frame that had
    no owner; no address of the user half is mapped in it, every kernel address of the
    region is mapped as in the bootloader's table, whose own mappings do not change, and
    the new root satisfies the page-table invariant. *)
Theorem table_new_correct r e k :
  init_root k r → pt_inv D k r → (∀ i, D i → 256 ≤ i) → frames_unlocked e → 0 < fa_free k →
  wp e TableRoot_new
    (λ t k', ∃ q, t = mkTableRoot (virt_of (hhdm q)) (frame_at q) ∧ root_made r q k k'
       ∧ k_active_table k' = k_active_table k
       ∧ ∀ v, idx v 3 < 256 → mapping (k_mem k') q v = None) k.
Proof. apply table_new_spec. Qed.

(** The areas, the phase of the boot and the bootloader's table are the same. *)
Definition same_areas k k' : Prop :=
  k_free_vma k' = k_free_vma k ∧ k_used_vma k' = k_used_vma k ∧ k_early k' = k_early k
  ∧ k_init_table k' = k_init_table k.

Lemma ap_setup_spec r e k :
  init_root k r → k_active_table k = None → pt_inv D k r → frames_unlocked e → 0 < fa_free k →
  wp e ap_setup
    (λ _ k', ∃ q, active_root k' q ∧ cr3_read (k_events k') = q ∧ root_made r q k k'
       ∧ same_areas k k' ∧ fa_free k' = fa_free k - 1) k.
Proof.
  intros (Hr & Hral & Hinit) Hact Hinv He Hfree. unfold ap_setup, ACTIVE_TABLE_force.
  apply wp_bind, wp_bind, wp_gets. rewrite Hact. apply wp_bind.
  eapply wp_of_run.
  { unfold INIT_TABLE_force. erewrite bind_ret_run by reflexivity. rewrite Hinit. reflexivity. }
  apply wp_bind. unfold TableRoot_clone. apply wp_bind.
  eapply wp_mono; [apply lock_allocate_spec; [apply Hinv|done]|].
  intros [f|] k1 Hpost; [|by destruct Hpost as (_ & _ & _ & H0); lia].
  pose proof Hpost as (_ & _ & Hal & Hb & Hfr & _ & _ & [Ho _] & _).
  apply wp_bind, wp_ret, wp_bind, wp_modify. cbn [root_frame].
  change (Frame_start (frame_at r)) with (phys_of r). change (Frame_start f) with (frame_addr f).
  rewrite !resolve_phys by (rewrite ?phys_of_u64 by lia; apply Hr || apply Hb).
  rewrite phys_of_u64 by lia. change (phys_as_u64 (frame_addr f)) with (frame_u64 f).
  apply wp_bind, wp_phys_to_virt; [unfold frame_u64 in Hb; lia|]. apply wp_ret.
  destruct (copy_root_spec r 0 512 f k k1 Hinv Hpost) as [Hmade _]; [lia|].
  apply wp_bind, wp_modify, wp_bind, wp_modify, wp_ret, wp_ret.
  exists (frame_u64 f). split_and!.
  - split; [done|]. by exists f.
  - apply cr3_read_write.
  - by eapply root_made_local; [..|exact Hmade].
  - split_and!; simpl; by rewrite Ho.
  - rewrite <- Hfr. by apply fa_free_local.
Qed.

(** C21: The table of a processor starts as an exact copy.  When a processor forces its
    [ACTIVE_TABLE] and a frame is free, its root is a fresh frame, CR3 holds the address
    of that frame, and every address of the region, user half included, translates as in
    the bootloader's table; one frame is used and no area changes. *)
Theorem ap_setup_equivalent r e k :
  init_root k r → k_active_table k = None → pt_inv D k r → frames_unlocked e → 0 < fa_free k →
  wp e ap_setup
    (λ _ k', ∃ q, active_root k' q ∧ cr3_read (k_events k') = q ∧ root_made r q k k'
       ∧ same_areas k k' ∧ fa_free k' = fa_free k - 1) k.
Proof. apply ap_setup_spec. Qed.

(** Forcing the table first changes nothing to [setup]. *)
Lemma paging_setup_forced q e k k1 :
  ap_setup e k = Ret tt k1 → active_root k1 q → paging_setup e k = paging_setup e k1.
Proof.
  unfold ap_setup, paging_setup, with_active_table. rewrite !bind_run.
  destruct (ACTIVE_TABLE_force e k) as [t k2|p|l|k2]; [|done..]. intros [= ->] [_ [f Hact]].
  unfold ACTIVE_TABLE_force. rewrite bind_run. simpl. by rewrite Hact.
Qed.

(** C23: The kernel entries [paging::setup] fills in are not those new address spaces get.
    [setup] fills the table of the processor, which is a copy of [INIT_TABLE];
    [TableRoot::new] copies [INIT_TABLE] itself.  So every entry of the kernel half that
    was absent in the bootloader's table is present in the table of the BSP, and absent
    in an address space created afterwards: what the BSP maps there is not mapped in it. *)
Theorem preallocation_not_shared r e k :
  init_root k r → k_active_table k = None → pt_inv D k r → (∀ i, D i → 256 ≤ i) →
  frames_unlocked e → ACTIVE_TABLE ∉ held e → TABLE_ROOT ∉ held e → 258 ≤ fa_free k →
  wp e (paging_setup;; TableRoot_new)
    (λ t k', ∃ q q', active_root k' q ∧ t = mkTableRoot (virt_of (hhdm q')) (frame_at q')
       ∧ ∀ i, D i → 256 ≤ i < 512 → pe_is_present (k_mem k r i) = false →
           pe_is_present (k_mem k' q i) = true
           ∧ ∀ v, idx v 3 = i → mapping (k_mem k') q' v = None) k.
Proof.
  intros Hroot Hact Hinv HD He HA HT Hfree. apply wp_bind.
  pose proof (ap_setup_spec r e k Hroot Hact Hinv He ltac:(lia)) as Hap.
  apply wp_run in Hap as ([] & k1 & Hrun & q & Hq & _ & Hmade & (_ & _ & _ & Hinit) & Hfr1).
  unfold wp at 1, wpx. rewrite (paging_setup_forced q e k k1 Hrun Hq).
  pose proof (rm_fresh _ _ _ _ Hmade) as (Hnq & Hyq & Hqb & _).
  change (wp e paging_setup (λ _ k2, wp e TableRoot_new (λ t k', ∃ q q', active_root k' q
    ∧ t = mkTableRoot (virt_of (hhdm q')) (frame_at q')
    ∧ ∀ i, D i → 256 ≤ i < 512 → pe_is_present (k_mem k r i) = false →
        pe_is_present (k_mem k' q i) = true
        ∧ ∀ v, idx v 3 = i → mapping (k_mem k') q' v = None) k2) k1).
  eapply wp_mono; [apply (paging_setup_spec q); try done; [apply Hmade|lia]|].
  intros [] k2 Hpre.
  assert (¬ is_table D (k_mem k) r q) as Hnt.
  { intros (l & Hg & Hl). by destruct (tables_live D _ _ _ (pt_tables D k r Hinv) l q Hg Hl). }
  assert (¬ is_table D (k_mem k1) r q) as Hnt1.
  { intros (l & Hg & Hl). apply Hnt. exists l. split; [done|]. rewrite <- Hl. symmetry.
    apply (follow_elsewhere r q); [done|apply Hmade|done]. }
  assert (fa_live k r) as Hlr
    by apply (tables_live D _ _ _ (pt_tables D k r Hinv) [] r (good_nil D) eq_refl).
  assert (r ≠ q) as Hrq by (by intros ->).
  pose proof (pre_free _ _ _ _ Hpre) as Hf2. rewrite length_seqZ in Hf2.
  eapply wp_mono; [apply (table_new_spec r)|].
  - destruct Hroot as (H1 & H2 & H3). split; [done|]. split; [done|].
    rewrite (pre_only _ _ _ _ Hpre). simpl. congruence.
  - apply (pt_inv_elsewhere r q k1 k2); try done; apply Hmade || apply Hpre.
  - done.
  - done.
  - lia.
  - intros t k3 (q' & -> & Hmade' & Hact3 & _). exists q, q'.
    pose proof (rm_fresh _ _ _ _ Hmade') as (Hnq' & _).
    assert (q' ≠ q) as Hqq by (intros ->; by apply Hnq', Hpre).
    assert (q' ≠ r) as Hqr by (intros ->; by apply Hnq', Hpre, Hmade).
    split_and!; [|done|].
    { destruct Hq as [? Hq]. split; [done|]. rewrite Hact3, (pre_only _ _ _ _ Hpre). exact Hq. }
    intros i HDi Hi Habs. split.
    + rewrite (rm_kept _ _ _ _ Hmade') by done.
      destruct (pe_is_present (k_mem k1 q i)) eqn:E.
      * by rewrite (pre_kept _ _ _ _ Hpre) by (by right).
      * apply (pre_filled _ _ _ _ Hpre i); [apply elem_of_seqZ; lia|done].
    + intros v Hv. unfold mapping, leaf. change (idxs v 3) with (idx v 3 :: idxs v 2).
      rewrite follow_cons, Hv, (rm_tables _ _ _ _ Hmade' i HDi) by lia. unfold next_table.
      rewrite (rm_kept _ _ _ _ Hmade'), (pre_memory _ _ _ _ Hpre), (rm_kept _ _ _ _ Hmade) by done.
      by rewrite Habs.
Qed.

(** [set_current_table] switches the address space of the processor: afterwards its
    active table is the given one and CR3 holds its frame; when the previous table had
    no other user its frame loses one reference, and no other reference changes.  It
    returns if the previous root is a live frame. *)
Theorem set_current_table_correct table old last e k :
  k_active_table k = Some old → fa_inv k → frames_unlocked e →
  ACTIVE_TABLE ∉ held e → TABLE_ROOT ∉ held e →
  frame_u64 (root_frame old) mod 4096 = 0 → fa_live k (frame_u64 (root_frame old)) →
  wp e (set_current_table table last)
    (λ _ k', k_active_table k' = Some table ∧ fa_inv k'
       ∧ cr3_read (k_events k') = frame_u64 (root_frame table)
       ∧ (∀ a, fa_refs k' a = fa_refs k a
            - if last && (a =? frame_u64 (root_frame old)) then 1 else 0)
       ∧ k_mem k' = k_mem k) k.
Proof.
  intros Hold Hinv [HF HS] HA HT Hal Hlive. unfold set_current_table. apply wp_bind.
  eapply wp_of_run.
  { unfold ACTIVE_TABLE_force. erewrite bind_ret_run by reflexivity. rewrite Hold. reflexivity. }
  apply wp_bind, wp_with_lock; [done|]. apply wp_bind.
  apply (wp_mono _ (λ _ k1, fa_inv k1 ∧ k_mem k1 = k_mem k
    ∧ ∀ a, fa_refs k1 a = fa_refs k a
        - if last && (a =? frame_u64 (root_frame old)) then 1 else 0)).
  - destruct last; [|by apply wp_ret; split_and!; [done|done|intros a; simpl; lia]].
    apply wp_with_lock; [by apply held_acquire|].
    eapply wp_mono; [apply fa_deallocate_spec; try done|].
    + by do 2 (apply held_acquire; [done|]).
    + intros _ k1 (Ha1 & _ & Hr1 & Heq). split_and!; [done|by rewrite Heq|exact Hr1].
  - intros _ k1 (Ha1 & Hm1 & Hr1). apply wp_modify, wp_with_lock; [done|].
    apply wp_with_lock; [by apply held_acquire|]. apply wp_bind, wp_gets, wp_bind, wp_ret.
    apply wp_modify. split_and!; [done| |apply cr3_read_write| |done].
    + by eapply fa_inv_local; [..|exact Ha1].
    + intros a. rewrite <- Hr1. by apply fa_refs_local.
Qed.
End NewRoots.

(** ** Witnesses *)

(** A machine with [n] free frames whose bootloader table is at 4096. *)
Definition ref_booted (n : Z) : Kernel :=
  set_active_table None
    (set_init_table (Some (mkTableRoot (virt_of (hhdm 4096)) (frame_at 4096))) (ref_space n)).

Lemma ref_booted_inv : pt_inv everywhere (ref_booted 8) 4096.
Proof. eapply pt_inv_local; [..|exact ref_space_inv]; reflexivity. Qed.

Lemma ref_booted_root n : init_root (ref_booted n) 4096.
Proof. split_and!; [lia|lia|reflexivity|reflexivity]. Qed.

Lemma ap_setup_equivalent_witness :
  wp ref_env ap_setup
    (λ _ k', ∃ q, active_root k' q ∧ cr3_read (k_events k') = q
       ∧ root_made everywhere 4096 q (ref_booted 8) k' ∧ same_areas (ref_booted 8) k'
       ∧ fa_free k' = fa_free (ref_booted 8) - 1) (ref_booted 8).
Proof.
  apply (ap_setup_equivalent everywhere 4096 ref_env (ref_booted 8));
    [apply ref_booted_root|reflexivity|exact ref_booted_inv|exact ref_unlocked|reflexivity].
Defined.

(** The index of the first page of the heap. *)
Definition heap_entry : Z → Prop := λ i, i = 288.

Lemma good_heap_entry l : good heap_entry l → good everywhere l.
Proof. by intros (H1 & H2 & _). Qed.

Lemma ref_booted_heap : pt_inv heap_entry (ref_booted 8) 4096.
Proof.
  destruct ref_booted_inv as [Ha [Hl Hi]]. split; [exact Ha|]. split.
  - intros l p Hg%good_heap_entry. by apply Hl.
  - intros l l' p Hg%good_heap_entry Hg'%good_heap_entry. by apply Hi.
Qed.

Lemma table_new_correct_witness :
  wp ref_env TableRoot_new
    (λ t k', ∃ q, t = mkTableRoot (virt_of (hhdm q)) (frame_at q)
       ∧ root_made heap_entry 4096 q (ref_booted 8) k') (ref_booted 8).
Proof.
  eapply wp_mono.
  - apply (table_new_correct heap_entry 4096 ref_env (ref_booted 8));
      [apply ref_booted_root|exact ref_booted_heap|by intros i ->|exact ref_unlocked|reflexivity].
  - intros t k' (q & H1 & H2 & _). exists q. split; [exact H1|exact H2].
Defined.

Lemma set_current_table_correct_witness :
  wp ref_env (set_current_table (mkTableRoot (virt_of (hhdm 8192)) (frame_at 8192)) true)
    (λ _ k', cr3_read (k_events k') = 8192 ∧ fa_refs k' 4096 = 0) (ref_space 8).
Proof.
  eapply wp_mono.
  - apply (set_current_table_correct (mkTableRoot (virt_of (hhdm 8192)) (frame_at 8192))
      (mkTableRoot (virt_of (hhdm 4096)) (frame_at 4096)) true ref_env (ref_space 8));
      [reflexivity|apply ref_space_inv|exact ref_unlocked|apply ref_env_unlocked..
      |reflexivity|reflexivity].
  - intros _ k' (_ & _ & Hc & Hr & _). split; [rewrite Hc; reflexivity|].
    rewrite Hr. reflexivity.
Defined.

Lemma setup_establishes_tables_witness :
  wp ref_env paging_setup
    (λ _ k', pt_inv (extended (λ _, False) (ref_space 256) 4096) k' 4096) (ref_space 256).
Proof.
  apply (setup_establishes_tables (λ _, False) 4096 ref_env (ref_space 256));
    [split; [done|by eexists]| | |by vm_compute|apply ref_env_unlocked..|exact ref_unlocked].
  - split; [apply alloc_invb_sound; vm_compute; reflexivity|].
    apply tables_empty; [|done|apply ref_space_live]. intros i. apply pe_zero_absent.
  - intros p i _. apply pe_zero_absent.
Defined.

Lemma preallocation_not_shared_witness :
  wp ref_env (paging_setup;; TableRoot_new)
    (λ t k', ∃ q q', active_root k' q ∧ root_frame t = frame_at q'
       ∧ pe_is_present (k_mem k' q 288) = true ∧ mapping (k_mem k') q' ref_page = None)
    (ref_booted 258).
Proof.
  eapply wp_mono.
  - apply (preallocation_not_shared heap_entry 4096 ref_env (ref_booted 258));
      [apply ref_booted_root|reflexivity| |by intros i ->|exact ref_unlocked
      |apply ref_env_unlocked..|vm_compute; discriminate].
    split; [apply alloc_invb_sound; vm_compute; reflexivity|].
    apply tables_empty; [|done|exact (ref_space_live 258)]. intros i. apply pe_zero_absent.
  - intros t k' (q & q' & H1 & -> & H). exists q, q'.
    destruct (H 288 eq_refl ltac:(lia) pe_zero_absent) as [H2 H3].
    split_and!; [exact H1|reflexivity|exact H2|]. apply H3. vm_compute. reflexivity.
Defined.

(** A page of the heap is mapped in the bootloader's table, then a root is made. *)
Definition ref_two_roots : Kernel :=
  let k := set_init_table (Some (mkTableRoot (virt_of (hhdm 4096)) (frame_at 4096))) ref_mapped in
  ret_state (TableRoot_new ref_env k) k.

Lemma ref_two_roots_made :
  ∃ q, 4096 ≠ q ∧ pt_inv heap_entry ref_two_roots 4096 ∧ pt_inv heap_entry ref_two_roots q
    ∧ same_tables heap_entry (k_mem ref_two_roots) 4096 q.
Proof.
  set (k := set_init_table (Some (mkTableRoot (virt_of (hhdm 4096)) (frame_at 4096))) ref_mapped).
  assert (pt_inv heap_entry k 4096) as Hk.
  { destruct ref_mapped_inv as [Ha [Hl Hi]]. split.
    - by eapply fa_inv_local; [..|exact Ha].
    - split; [intros l p Hg%good_heap_entry; apply Hl, Hg|].
      intros l l' p Hg%good_heap_entry Hg'%good_heap_entry. by apply Hi. }
  assert (0 < fa_free k) as Hfree by (vm_compute; reflexivity).
  assert (init_root k 4096) as Hinit by (split_and!; [lia|lia|reflexivity|reflexivity]).
  destruct (wp_ret_state _ _ _ _ (table_new_spec heap_entry 4096 ref_env k Hinit Hk
    ltac:(by intros i ->) ref_unlocked Hfree)) as (t & q & _ & [M1 M2 M3 M4 _ _ _] & _).
  exists q. split_and!; [|exact M3|exact M2|exact M4].
  intros <-. destruct M1 as [Hn _]. apply Hn.
  apply (tables_live heap_entry _ _ _ (pt_tables heap_entry k 4096 Hk) [] 4096
    (good_nil _) eq_refl).
Qed.

Lemma kernel_mappings_shared_witness :
  ∃ q, 4096 ≠ q ∧
    wp ref_env (map (hhdm 4096) ref_page' (frame_at 0xB9000) ref_rw)
      (λ _ k', mapping (k_mem k') q ref_page' = mapping (k_mem k') 4096 ref_page') ref_two_roots.
Proof.
  destruct ref_two_roots_made as (q & Hne & H1 & H2 & Hs). exists q. split; [exact Hne|].
  eapply wp_mono.
  - apply (kernel_mappings_shared heap_entry 4096 q ref_page' (frame_at 0xB9000) ref_rw ref_env
      ref_two_roots H1 H2 Hne Hs);
      [|vm_compute; reflexivity|vm_compute; reflexivity|exact ref_unlocked].
    intros i -> _. vm_compute. discriminate.
  - intros _ k' (_ & _ & _ & _ & H). apply H. vm_compute. reflexivity.
Defined.
