(* ===== verification/Vmm.v ===== *)
(** * The virtual memory manager: the code of [src/src/mm/vmm.rs]

    Free areas are kept by size and used areas by start address, each in an
    ordered map behind its own lock.  The maps and the vectors in them are values here.
    In the kernel their nodes come from its global allocator, so that an insertion also
    takes the lock of the heap, may page-fault on heap memory and take frames for it, and
    ends in the allocation-error handler when the heap is full; that part is left out. *)

From S2P Require Import Prelude Machine External Reference Frame BTree Log Kernel FrameState FrameAlloc Paging.

(** [AllocationFlags] and [Flags] of [vmm.rs]. *)
Definition VmmFlags_NONE : Z := 0.
Definition VmmFlags_ATOMIC : Z := Z.shiftl 1 1.
Definition VmmFlags_MAP : Z := Z.shiftl 1 2.
Definition VmmFlags_ZEROED : Z := Z.shiftl 1 3.
Definition Flags_all : Z := Z.lor VmmFlags_MAP VmmFlags_ZEROED.

Inductive AllocationError := Vmm_OutOfMemory | Vmm_WouldBlock.

Section VmmDefs.
Context {BF : Bitflags} {RT : Runtime} {XA : X86Address} {XP : X86Paging XA} {LG : Logging}
  {XC : X86Cpu} {FA : Allocator}.

Definition VirtualArea_new (range : VirtualRange) (flags : Z) : VirtualArea :=
  mkVirtualArea range flags.

Definition va_size (vma : VirtualArea) : Z := vr_size (va_range vma).

(** [get_mut(&size)], then [push], or [insert(size, vec![vma])]. *)
Definition push_free_vma (vma : VirtualArea) (free_vmas : list (Z * list VirtualArea))
  : list (Z * list VirtualArea) :=
  match bt_get (va_size vma) free_vmas with
  | Some vmas => bt_insert (va_size vma) (vmas ++ [vma]) free_vmas
  | None => bt_insert (va_size vma) [vma] free_vmas
  end.

Definition insert_free_vma (vma : VirtualArea) : M Kernel unit :=
  irq_without (with_lock FREE_VMA (
    modify (λ k, set_free_vma (push_free_vma vma (k_free_vma k)) k))).

Definition insert_used_vma (vma : VirtualArea) : M Kernel unit :=
  irq_without (with_lock USED_VMA (
    modify (λ k, set_used_vma
      (bt_insert (virt_as_u64 (vr_start (va_range vma))) vma (k_used_vma k)) k))).

Definition vmm_setup : M Kernel unit :=
  s ← ext (virt_new VMALLOC_START);
  e ← ext (virt_new VMALLOC_END);
  range ← ext (vr_new s e);
  insert_free_vma (VirtualArea_new range VmmFlags_NONE).

Definition find_free_first_fit (size : Z) : M Kernel (option VirtualArea) :=
  with_lock FREE_VMA (
    free_vmas ← gets k_free_vma;
    match bt_find (λ len vec, (size <=? len) && negb (Nat.eqb (length vec) 0)) free_vmas with
    | None => mret None
    | Some (len, vec) =>
        vma ← unwrap (last vec);
        modify (λ k, set_free_vma (bt_insert len (removelast vec) (k_free_vma k)) k);;
        if size <? va_size vma then
          mid ← ext (virt_add (vr_start (va_range vma)) size);
          rest ← ext (vr_new mid (vr_end (va_range vma)));
          let split := VirtualArea_new rest VmmFlags_NONE in
          mid ← ext (virt_add (vr_start (va_range vma)) size);
          range ← ext (vr_new (vr_start (va_range vma)) mid);
          modify (λ k, set_free_vma (push_free_vma split (k_free_vma k)) k);;
          mret (Some (mkVirtualArea range (va_flags vma)))
        else mret (Some vma)
    end).

(** [(size.wrapping_add(0xFFF)) & !0xFFF]. *)
Definition align_size (size : Z) : Z :=
  Z.land (u64_wrapping_add size 0xFFF) 0xFFFFFFFFFFFFF000.

Definition vmm_allocate (size flags : Z) : M Kernel (VirtualRange + AllocationError) :=
  let aligned_size := align_size size in
  vma ← find_free_first_fit aligned_size;
  match vma with
  | None => mret (inr Vmm_OutOfMemory)
  | Some vma =>
      (if bf_contains flags VmmFlags_ATOMIC then panic_with Unimplemented else mret tt);;
      let vma := mkVirtualArea (va_range vma) (bf_from_bits_truncate Flags_all flags) in
      insert_used_vma vma;;
      mret (inl (va_range vma))
  end.

(** The body of the loop of [deallocate]. *)
Definition release_page (page : Virtual) : M Kernel unit :=
  frame ← unmap_current page;
  match frame with
  | Some frame =>
      irq_without (with_lock FRAME_ALLOCATOR (
        f ← Frame_new frame;
        fa_deallocate f))
  | None => mret tt
  end.

(** [for page in range.iter().step_by(PAGE_SIZE)], from the [j]-th page. *)
Fixpoint release_pages (fuel : nat) (range : VirtualRange) (j : Z) : M Kernel unit :=
  match fuel with
  | O => panic_with FuelExhausted
  | S fuel' =>
      match vr_iter_nth range (j * PAGE_SIZE) with
      | None => mret tt
      | Some page => release_page page;; release_pages fuel' range (j + 1)
      end
  end.

(** One unit of fuel per page, one for the end of the loop. *)
Definition release_fuel (range : VirtualRange) : nat :=
  S (Z.to_nat (vr_size range / PAGE_SIZE + 1)).

Definition vmm_deallocate (range : VirtualRange) : M Kernel unit :=
  vma ← irq_without (with_lock USED_VMA (
    used_vmas ← gets k_used_vma;
    let r := bt_remove (virt_as_u64 (vr_start range)) used_vmas in
    modify (set_used_vma r.2);;
    unwrap r.1));
  (if bf_contains (va_flags vma) VmmFlags_MAP
   then release_pages (release_fuel (va_range vma)) (va_range vma) 0
   else mret tt);;
  insert_free_vma vma.

Definition vmm_handle_demand_paging (table : Z) (addr : Virtual) : M Kernel (unit + Z) :=
  let addr := virt_page_align_down addr in
  vma ← irq_without (with_lock USED_VMA (
    used_vmas ← gets k_used_vma;
    mret (snd <$> bt_find (λ _ vma, vr_contains (va_range vma) addr) used_vmas)));
  match vma with
  | None => mret (inr PageFaultError_MISSING_PAGE)
  | Some vma =>
      if negb (bf_contains (va_flags vma) VmmFlags_MAP)
      then mret (inr PageFaultError_NOT_MAPPABLE)
      else
        let paging_flags := pef_union PRESENT WRITABLE in
        let frame_flags := if bf_contains (va_flags vma) VmmFlags_ZEROED
                           then AllocationFlags_ZEROED else AllocationFlags_NONE in
        frame ← locked_allocate frame_flags;
        match frame with
        | None => mret (inr PageFaultError_OUT_OF_MEMORY)
        | Some frame =>
            kernel_log LTrace
              ("Page fault handler: demand paging: " +:+ virt_lower_hex addr +:+ " -> "
               +:+ phys_lower_hex (Frame_start frame));;
            res ← map table addr frame paging_flags;
            match res with
            | inl _ => mret (inl tt)
            | inr OutOfMemory => mret (inr PageFaultError_OUT_OF_MEMORY)
            | inr AlreadyMapped => panic_with (PanicMsg "Page already mapped")
            end
        end
  end.
End VmmDefs.
