(* ===== verification/VmmSpec.v ===== *)
(** * The virtual memory manager: the theorems about [src/src/mm/vmm.rs]

    The free and the used areas partition the vmalloc space: every address of
    it lies in exactly one area.  Allocation and deallocation keep it so. *)

From S2P Require Import Prelude Machine External Reference Frame BTree Log Kernel FrameState FrameAlloc Paging PageTables PagingSpec Vmm.

Section Invariant.
Context {XA : X86Address} {XAS : X86AddressSpec XA} {XP : X86Paging XA} {LG : Logging}.
Implicit Types (k : Kernel) (a b : VirtualArea) (v : Virtual).

Definition va_start a : Z := virt_as_u64 (vr_start (va_range a)).
Definition va_end a : Z := virt_as_u64 (vr_end (va_range a)).

(** A non-empty, page-aligned area of the vmalloc space. *)
Definition area_ok a : Prop :=
  va_start a < va_end a ∧ va_start a mod 4096 = 0 ∧ va_end a mod 4096 = 0
  ∧ VMALLOC_START ≤ va_start a ∧ va_end a ≤ VMALLOC_END.

Definition covers_addr v a : bool := vr_contains (va_range a) v.

(** How many free, and how many used areas an address lies in. *)
Definition cover_free (m : list (Z * list VirtualArea)) v : Z :=
  bt_sum (countb (covers_addr v)) m.
Definition cover_used (m : list (Z * VirtualArea)) v : Z :=
  bt_sum (λ a, Z.b2z (covers_addr v a)) m.

Definition free_ok (m : list (Z * list VirtualArea)) : Prop :=
  bt_sorted m ∧
  Forall (λ kv, Forall (λ a, area_ok a ∧ va_size a = kv.1) kv.2) m.

Definition used_ok (m : list (Z * VirtualArea)) : Prop :=
  bt_sorted m ∧ Forall (λ kv, area_ok kv.2 ∧ va_start kv.2 = kv.1) m.

Definition in_vmalloc v : bool :=
  (VMALLOC_START <=? virt_as_u64 v) && (virt_as_u64 v <? VMALLOC_END).

Record vma_inv k : Prop := {
  vma_free : free_ok (k_free_vma k);
  vma_used : used_ok (k_used_vma k);
  vma_cover v : cover_free (k_free_vma k) v + cover_used (k_used_vma k) v
                = Z.b2z (in_vmalloc v)
}.

Lemma vma_inv_local k k' :
  k_free_vma k' = k_free_vma k → k_used_vma k' = k_used_vma k → vma_inv k → vma_inv k'.
Proof. intros Hf Hu [H1 H2 H3]. split; by rewrite ?Hf, ?Hu. Qed.

Definition free_area k a : Prop := ∃ len vec, (len, vec) ∈ k_free_vma k ∧ a ∈ vec.
Definition used_area k a : Prop := ∃ s, (s, a) ∈ k_used_vma k.

Lemma covers_spec v a :
  covers_addr v a = (va_start a <=? virt_as_u64 v) && (virt_as_u64 v <? va_end a).
Proof. apply vr_contains_spec. Qed.

Lemma va_size_spec a : va_size a = va_end a - va_start a.
Proof. apply vr_size_spec. Qed.

Lemma b2z_nonneg (x : bool) : 0 ≤ Z.b2z x.
Proof. by destruct x. Qed.

Lemma cover_free_nonneg m v : 0 ≤ cover_free m v.
Proof. apply bt_sum_nonneg. intros vec. apply countb_bounds. Qed.

Lemma cover_used_nonneg m v : 0 ≤ cover_used m v.
Proof. apply bt_sum_nonneg. intros b. apply b2z_nonneg. Qed.

(** An area covers its start. *)
Lemma covers_start a : area_ok a → covers_addr (vr_start (va_range a)) a = true.
Proof. intros (H & _). rewrite covers_spec. unfold va_start in *. blia. Qed.

Lemma push_free_cover a m v :
  bt_sorted m →
  cover_free (push_free_vma a m) v = cover_free m v + Z.b2z (covers_addr v a).
Proof.
  intros Hs. unfold cover_free, push_free_vma. destruct (bt_get (va_size a) m) eqn:E;
    rewrite bt_sum_insert, E by done; simpl; rewrite ?countb_app; simpl; lia.
Qed.

Lemma free_ok_get m len vec :
  free_ok m → bt_get len m = Some vec → Forall (λ a, area_ok a ∧ va_size a = len) vec.
Proof.
  intros [_ HF] Hg%bt_get_Some_elem. rewrite Forall_forall in HF. exact (HF _ Hg).
Qed.

Lemma push_free_ok a m : free_ok m → area_ok a → free_ok (push_free_vma a m).
Proof.
  intros Hm Ha. pose proof Hm as [Hs HF]. unfold push_free_vma.
  destruct (bt_get (va_size a) m) as [vec|] eqn:E;
    (split; [by apply bt_insert_sorted|]); apply bt_insert_Forall; try done; simpl.
  - apply Forall_app. split; [by apply free_ok_get with m|by apply Forall_singleton].
  - by apply Forall_singleton.
Qed.

(** The area popped from the list of a size. *)
Lemma pop_free m len vec :
  free_ok m → (len, vec) ∈ m → vec ≠ [] →
  ∃ a, last vec = Some a ∧ vec = removelast vec ++ [a] ∧ area_ok a ∧ va_size a = len
       ∧ free_ok (bt_insert len (removelast vec) m)
       ∧ ∀ v, cover_free (bt_insert len (removelast vec) m) v
              = cover_free m v - Z.b2z (covers_addr v a).
Proof.
  intros Hm Hin Hne. pose proof Hm as [Hs HF].
  pose proof (bt_elem_get m len vec Hs Hin) as Hget.
  pose proof (free_ok_get m len vec Hm Hget) as HFv.
  destruct (exists_last Hne) as (vec' & a & ->).
  rewrite last_snoc, removelast_last. apply Forall_app in HFv as [Hv' Ha].
  inversion Ha as [|? ? [Ha1 Ha2] _]; subst.
  exists a. split_and!; try done.
  - split; [by apply bt_insert_sorted|by apply bt_insert_Forall].
  - intros v. unfold cover_free. rewrite bt_sum_insert, Hget by done. simpl.
    rewrite countb_app. simpl. lia.
Qed.
End Invariant.

(** ** Allocation *)

Section Allocation.
Context {BF : Bitflags} {BFS : BitflagsSpec BF} {RT : Runtime} {RTS : RuntimeSpec RT}
  {XA : X86Address} {XAS : X86AddressSpec XA} {XP : X86Paging XA} {XPS : X86PagingSpec XP}
  {LG : Logging} {LGS : LoggingSpec LG}
  {XC : X86Cpu} {XCS : X86CpuSpec XC} {FA : Allocator}.
Implicit Types (e : Env) (k : Kernel) (a b : VirtualArea) (v : Virtual).

Lemma vmalloc_canonical z : VMALLOC_START ≤ z ≤ VMALLOC_END → canonical z.
Proof. unfold canonical, VMALLOC_START, VMALLOC_END. lia. Qed.

(** Cutting an area at [size]. *)
Lemma split_area a size :
  area_ok a → 0 < size < va_size a → size mod 4096 = 0 →
  ∃ mid rest range,
    virt_add (vr_start (va_range a)) size = Some mid
    ∧ vr_new mid (vr_end (va_range a)) = Some rest
    ∧ vr_new (vr_start (va_range a)) mid = Some range
    ∧ ∀ fl fl', let lo := mkVirtualArea range fl in
                let hi := mkVirtualArea rest fl' in
        area_ok lo ∧ area_ok hi ∧ va_size lo = size ∧ va_start lo = va_start a
        ∧ ∀ v, Z.b2z (covers_addr v lo) + Z.b2z (covers_addr v hi)
               = Z.b2z (covers_addr v a).
Proof.
  intros (Hlt & Hs & He & Hlo & Hhi) Hsize Hal. rewrite va_size_spec in Hsize.
  unfold va_start, va_end in *.
  destruct (virt_add_spec (vr_start (va_range a)) size) as (mid & Hmid & Hv); [lia| |].
  { apply vmalloc_canonical. lia. }
  destruct (vr_new_spec mid (vr_end (va_range a))) as (rest & Hr & Hr1 & Hr2); [lia|].
  destruct (vr_new_spec (vr_start (va_range a)) mid) as (range & Hl & Hl1 & Hl2); [lia|].
  exists mid, rest, range. split; [done|]. split; [done|]. split; [done|]. intros fl fl'.
  unfold area_ok. rewrite va_size_spec. unfold va_start, va_end. simpl.
  rewrite Hr1, Hr2, Hl1, Hl2, Hv. split_and!; try (done || lia || dlia).
  intros v. rewrite !covers_spec. unfold va_start, va_end. simpl.
  rewrite Hr1, Hr2, Hl1, Hl2, Hv.
  set (s := virt_as_u64 (vr_start (va_range a))) in *.
  set (t := virt_as_u64 (vr_end (va_range a))) in *. set (u := virt_as_u64 v).
  destruct (Z.leb_spec s u), (Z.ltb_spec u (s + size)), (Z.leb_spec (s + size) u),
    (Z.ltb_spec u t); simpl; lia.
Qed.

(** What [find_free_first_fit] promises: the area is cut from the smallest free area
    that is large enough. *)
Definition fit_post size k (o : option VirtualArea) k' : Prop :=
  match o with
  | None => k' = k ∧ ∀ b, free_area k b → va_size b < size
  | Some a =>
      area_ok a ∧ va_size a = size
      ∧ (∃ b, free_area k b ∧ va_start b = va_start a ∧ size ≤ va_size b
              ∧ ∀ c, free_area k c → size ≤ va_size c → va_size b ≤ va_size c)
      ∧ free_ok (k_free_vma k')
      ∧ (∀ v, cover_free (k_free_vma k') v
              = cover_free (k_free_vma k) v - Z.b2z (covers_addr v a))
      ∧ k' = set_free_vma (k_free_vma k') k
  end.

Lemma free_area_size k b :
  free_ok (k_free_vma k) → free_area k b →
  ∃ vec, (va_size b, vec) ∈ k_free_vma k ∧ b ∈ vec.
Proof.
  intros [_ HF] (len & vec & Hin & Hb). rewrite Forall_forall in HF.
  specialize (HF _ Hin). simpl in HF. rewrite Forall_forall in HF.
  destruct (HF _ Hb) as [_ <-]. eauto.
Qed.

Definition fits size (len : Z) (vec : list VirtualArea) : bool :=
  (size <=? len) && negb (Nat.eqb (length vec) 0).

Lemma fits_member size len vec b : b ∈ vec → size ≤ len → fits size len vec = true.
Proof.
  intros Hb Hs. unfold fits. destruct vec; [by apply not_elem_of_nil in Hb|].
  simpl. rewrite andb_true_r. blia.
Qed.

Lemma find_free_first_fit_spec size e k :
  free_ok (k_free_vma k) → 0 < size → size mod 4096 = 0 → FREE_VMA ∉ held e →
  wp e (find_free_first_fit size) (fit_post size k) k.
Proof.
  intros Hok Hpos Hal Hl. apply wp_with_lock; [done|]. apply wp_bind, wp_gets.
  fold (fits size). destruct (bt_find (fits size) (k_free_vma k)) as [[len vec]|] eqn:Hf.
  - pose proof (bt_find_Some _ _ _ _ Hf) as [Hin Hfit].
    assert (size ≤ len ∧ vec ≠ []) as [Hlen Hne].
    { unfold fits in Hfit. bool_to_prop. split; [done|]. by intros ->. }
    destruct (pop_free _ _ _ Hok Hin Hne) as (a & Hlast & Hvec & Ha & Hsz & Hok' & Hcov).
    assert (∃ b, free_area k b ∧ va_start b = va_start a ∧ size ≤ va_size b
              ∧ ∀ c, free_area k c → size ≤ va_size c → va_size b ≤ va_size c) as Hbest.
    { exists a. split_and!; [|done|lia|].
      - exists len, vec. split; [done|]. rewrite Hvec. apply elem_of_app. right. left.
      - intros c (vec' & Hin' & Hc)%free_area_size Hge; [|done]. rewrite Hsz.
        eapply bt_find_least; [apply Hok|exact Hf|exact Hin'|].
        by eapply fits_member. }
    apply wp_bind. apply wp_unwrap with a; [done|]. apply wp_bind, wp_modify.
    destruct (Z.ltb_spec size (va_size a)).
    + destruct (split_area a size Ha ltac:(lia) Hal) as (mid & rest & range & H1 & H2 & H3 & H4).
      rewrite H1. apply wp_bind, wp_ret. rewrite H2. apply wp_bind, wp_ret.
      apply wp_bind, wp_ret. rewrite H3. apply wp_bind, wp_ret. apply wp_bind, wp_modify.
      apply wp_ret. destruct (H4 (va_flags a) VmmFlags_NONE) as (Hlo & Hhi & Hs' & Hst & Hc).
      split_and!; [done|done|by setoid_rewrite Hst|by apply push_free_ok| |done].
      intros v. simpl. rewrite push_free_cover by apply Hok'. rewrite Hcov, <- Hc.
      unfold VirtualArea_new. lia.
    + apply wp_ret. split_and!; [done|lia|done|done|exact Hcov|done].
  - apply wp_ret. split; [done|]. intros b (vec & Hin & Hb)%free_area_size; [|done].
    pose proof (bt_find_None _ _ _ _ Hf Hin) as Hno.
    destruct (Z.lt_ge_cases (va_size b) size) as [|Hge]; [done|].
    by rewrite (fits_member size _ vec b) in Hno.
Qed.

Lemma align_size_spec size :
  0 ≤ size ≤ 2 ^ 64 - 4096 → align_size size = (size + 4095) / 4096 * 4096.
Proof.
  intros H. unfold align_size, u64_wrapping_add. rewrite Z.mod_small by lia.
  apply page_mask_align. lia.
Qed.

(** Past that bound the addition wraps around. *)
Lemma align_size_wraps size : 2 ^ 64 - 4096 < size < 2 ^ 64 → align_size size = 0.
Proof.
  intros H. unfold align_size, u64_wrapping_add.
  replace (size + 4095) with (size + 4095 - 2 ^ 64 + 1 * 2 ^ 64) by lia.
  rewrite Z.mod_add, Z.mod_small, page_mask_align by lia. dlia.
Qed.

Lemma used_area_get k a :
  used_ok (k_used_vma k) → used_area k a ↔ bt_get (va_start a) (k_used_vma k) = Some a.
Proof.
  intros [Hs HF]. rewrite Forall_forall in HF. split.
  - intros [s Hin]. destruct (HF _ Hin) as [_ Heq]. simpl in Heq. rewrite Heq.
    by apply bt_elem_get.
  - intros Hg%bt_get_Some_elem. by eexists.
Qed.

Lemma used_area_ok k a : used_ok (k_used_vma k) → used_area k a → area_ok a.
Proof. intros [_ HF] [s Hin]. rewrite Forall_forall in HF. apply (HF _ Hin). Qed.

Lemma used_area_cover k a v :
  used_area k a → covers_addr v a = true → 1 ≤ cover_used (k_used_vma k) v.
Proof.
  intros [s Hin] Hc. pose proof (bt_sum_elem (λ a, Z.b2z (covers_addr v a))
    (k_used_vma k) s a (λ x, b2z_nonneg _) Hin) as H. simpl in H.
  by rewrite Hc in H.
Qed.

Lemma cover_le_one k v :
  vma_inv k → cover_free (k_free_vma k) v + cover_used (k_used_vma k) v ≤ 1.
Proof. intros H. rewrite (vma_cover k H v). by destruct (in_vmalloc v). Qed.

(** No used area covers an address of an area taken from the free ones. *)
Lemma fit_unused size k a k1 v :
  vma_inv k → fit_post size k (Some a) k1 → covers_addr v a = true →
  cover_used (k_used_vma k) v = 0.
Proof.
  intros Hinv (_ & _ & _ & _ & Hc & _) Hv. pose proof (cover_le_one k v Hinv).
  pose proof (cover_free_nonneg (k_free_vma k1) v). rewrite Hc, Hv in *. simpl in *.
  pose proof (cover_used_nonneg (k_used_vma k) v). lia.
Qed.

Lemma insert_used_run a e k :
  USED_VMA ∉ held e →
  insert_used_vma a e k = Ret tt (set_used_vma (bt_insert (va_start a) a (k_used_vma k)) k).
Proof. intros Hl. unfold insert_used_vma. by rewrite irq_without_run, with_lock_free. Qed.

Lemma insert_free_run a e k :
  FREE_VMA ∉ held e →
  insert_free_vma a e k = Ret tt (set_free_vma (push_free_vma a (k_free_vma k)) k).
Proof. intros Hl. unfold insert_free_vma. by rewrite irq_without_run, with_lock_free. Qed.

(** Handing out an area: [a] with its final flags, [k1] the state in which it has
    left the free areas. *)
Lemma take_area size k a k1 fl :
  vma_inv k → fit_post size k (Some a) k1 →
  let a' := mkVirtualArea (va_range a) fl in
  let k2 := set_used_vma (bt_insert (va_start a') a' (k_used_vma k1)) k1 in
  vma_inv k2
  ∧ (∀ b, used_area k2 b ↔ b = a' ∨ used_area k b)
  ∧ ∀ b v, used_area k b → covers_addr v a' = true → covers_addr v b = false.
Proof.
  intros Hinv Hfit a' k2. pose proof (vma_used k Hinv) as Hused.
  pose proof Hfit as (Ha & _ & _ & Hok & Hcov & Heq).
  assert (k_used_vma k1 = k_used_vma k) as Hk1 by (by rewrite Heq).
  assert (∀ b v, used_area k b → covers_addr v a' = true → covers_addr v b = false) as Hdisj.
  { intros b v Hb Hv. pose proof (fit_unused size k a k1 v Hinv Hfit Hv).
    destruct (covers_addr v b) eqn:E; [|done].
    pose proof (used_area_cover k b v Hb E). lia. }
  assert (bt_get (va_start a') (k_used_vma k) = None) as Hnew.
  { destruct (bt_get (va_start a') (k_used_vma k)) as [b|] eqn:E; [|done].
    assert (used_area k b) as Hb by (apply bt_get_Some_elem in E; by eexists).
    assert (va_start b = va_start a') as Hst.
    { destruct Hused as [_ HF]. rewrite Forall_forall in HF.
      apply (HF _ (bt_get_Some_elem _ _ _ E)). }
    pose proof (covers_start b (used_area_ok k b Hused Hb)) as Hb1.
    apply virt_inj in Hst. rewrite Hst in Hb1. rewrite (Hdisj b _ Hb) in Hb1; [done|].
    by apply covers_start. }
  assert (used_ok (k_used_vma k2)) as Hused2.
  { destruct Hused as [Hs HF]. simpl. rewrite Hk1.
    split; [by apply bt_insert_sorted|by apply bt_insert_Forall]. }
  split_and!; [split; [exact Hok|exact Hused2|]| |exact Hdisj].
  - intros v. simpl. unfold cover_used. rewrite Hk1, bt_sum_insert, Hnew by apply Hused.
    simpl. rewrite Hcov. pose proof (vma_cover k Hinv v) as Hv. unfold cover_used in Hv.
    change (covers_addr v a') with (covers_addr v a). lia.
  - intros b. rewrite !used_area_get by done. simpl. rewrite Hk1, bt_get_insert by apply Hused.
    destruct (Z.eqb_spec (va_start b) (va_start a')) as [Hst|Hst].
    + rewrite Hst, Hnew. split; [by intros [= ->]; left|by intros [->|?]].
    + split; [by right|]. by intros [->|?].
Qed.
End Allocation.

Section VmmTheorems.
Context {BF : Bitflags} {BFS : BitflagsSpec BF} {RT : Runtime} {RTS : RuntimeSpec RT}
  {XA : X86Address} {XAS : X86AddressSpec XA} {XP : X86Paging XA} {XPS : X86PagingSpec XP}
  {LG : Logging} {LGS : LoggingSpec LG}
  {XC : X86Cpu} {XCS : X86CpuSpec XC} {FA : Allocator}.
Implicit Types (e : Env) (k : Kernel) (a b : VirtualArea) (v : Virtual).

(** Nothing but the two maps of areas changed. *)
Definition only_vma k k' : Prop :=
  k' = set_used_vma (k_used_vma k') (set_free_vma (k_free_vma k') k).

(** The tables of the processor, its registers and the phase of the boot are the same. *)
Definition same_boot k k' : Prop :=
  k_init_table k' = k_init_table k ∧ k_active_table k' = k_active_table k
  ∧ k_early k' = k_early k ∧ k_events k' = k_events k.

Lemma vmm_setup_spec e k :
  k_free_vma k = [] → k_used_vma k = [] → FREE_VMA ∉ held e →
  wp e vmm_setup
    (λ _ k', vma_inv k' ∧ k_used_vma k' = [] ∧ only_vma k k'
       ∧ ∃ a, free_area k' a ∧ va_start a = VMALLOC_START ∧ va_end a = VMALLOC_END) k.
Proof.
  intros Hf Hu Hl. unfold vmm_setup.
  assert (canonical VMALLOC_START ∧ canonical VMALLOC_END) as [Hs He]
    by (unfold canonical, VMALLOC_START, VMALLOC_END; lia).
  rewrite !virt_new_of by done. apply wp_bind, wp_ret, wp_bind, wp_ret.
  destruct (vr_new_spec (virt_of VMALLOC_START) (virt_of VMALLOC_END)) as (r & -> & H1 & H2).
  { rewrite !virt_of_u64 by done. unfold VMALLOC_START, VMALLOC_END. lia. }
  apply wp_bind, wp_ret. eapply wp_of_run; [by apply insert_free_run|].
  set (a := VirtualArea_new r VmmFlags_NONE).
  assert (va_start a = VMALLOC_START ∧ va_end a = VMALLOC_END) as [Ha1 Ha2].
  { unfold va_start, va_end, a. simpl. by rewrite H1, H2, !virt_of_u64. }
  assert (area_ok a) as Ha.
  { unfold area_ok. rewrite Ha1, Ha2. unfold VMALLOC_START, VMALLOC_END.
    split_and!; done || lia. }
  assert (free_ok (k_free_vma k)) as Hok by (by rewrite Hf).
  split_and!; [split| | |].
  - by apply push_free_ok.
  - simpl. by rewrite Hu.
  - intros v. simpl. rewrite push_free_cover, Hf, Hu by apply Hok. simpl.
    rewrite covers_spec, Ha1, Ha2. unfold cover_free, cover_used, in_vmalloc. simpl. lia.
  - done.
  - by destruct k.
  - exists a. split; [|done]. exists (va_size a), [a]. simpl. rewrite Hf.
    split; [left|left].
Qed.

(** The set-up of the virtual memory manager puts the whole vmalloc space in the
    free areas: from empty maps it establishes the invariant that every address of
    the space is in exactly one area. *)
Theorem vmm_setup_partitions e k :
  k_free_vma k = [] → k_used_vma k = [] → FREE_VMA ∉ held e →
  wp e vmm_setup
    (λ _ k', vma_inv k' ∧ k_used_vma k' = [] ∧ only_vma k k'
       ∧ ∃ a, free_area k' a ∧ va_start a = VMALLOC_START ∧ va_end a = VMALLOC_END) k.
Proof. apply vmm_setup_spec. Qed.

Lemma vmm_allocate_spec size flags e k :
  vma_inv k → 0 < size ≤ 2 ^ 64 - 4096 → bf_contains flags VmmFlags_ATOMIC = false →
  FREE_VMA ∉ held e → USED_VMA ∉ held e →
  wp e (vmm_allocate size flags)
    (λ res k', vma_inv k' ∧
       match res with
       | inl range =>
           let a := mkVirtualArea range (bf_from_bits_truncate Flags_all flags) in
           vr_size range = (size + 4095) / 4096 * 4096 ∧ area_ok a
           ∧ (∃ b, free_area k b ∧ va_start b = va_start a ∧ vr_size range ≤ va_size b
                ∧ ∀ c, free_area k c → vr_size range ≤ va_size c → va_size b ≤ va_size c)
           ∧ (∀ b v, used_area k b → vr_contains range v = true → covers_addr v b = false)
           ∧ (∀ b, used_area k' b ↔ b = a ∨ used_area k b)
           ∧ only_vma k k'
       | inr err =>
           err = Vmm_OutOfMemory ∧ k' = k
           ∧ ∀ b, free_area k b → va_size b < (size + 4095) / 4096 * 4096
       end) k.
Proof.
  intros Hinv Hsize Hat HF HU. unfold vmm_allocate.
  rewrite align_size_spec by lia. set (n := (size + 4095) / 4096 * 4096). apply wp_bind.
  eapply wp_mono; [apply find_free_first_fit_spec; [apply Hinv| | |done]|].
  { unfold n. dlia. }
  { unfold n. by apply Z.mod_mul. }
  intros [a|] k1 Hfit.
  - rewrite Hat. apply wp_bind, wp_ret. apply wp_bind.
    eapply wp_of_run; [by apply insert_used_run|]. apply wp_ret.
    destruct (take_area n k a k1 (bf_from_bits_truncate Flags_all flags) Hinv Hfit)
      as (Hinv2 & Hused & Hdisj).
    destruct Hfit as (Ha & Hsz & Hbest & _ & _ & Heq). unfold va_size in Hsz.
    split; [exact Hinv2|]. cbn zeta. cbn [va_range]. rewrite Hsz. split; [done|]. split; [exact Ha|].
    split; [exact Hbest|]. split; [exact Hdisj|]. split; [exact Hused|].
    rewrite Heq. by destruct k.
  - apply wp_ret. destruct Hfit as [-> Hno]. done.
Qed.

(** C4: [allocate] hands out a fresh range.  For a size of at least one byte that can
    be rounded up to a page it returns; on success the range has exactly the rounded
    size, is page aligned, lies in the vmalloc space, shares no address with a range in
    use, starts where the smallest free area that is large enough starts, and is
    recorded as in use with the requested flags, next to the areas that already were,
    and nothing but the two maps of areas changed; it fails with [OutOfMemory] only when every free area is too small, and then
    nothing changed.  The free and used areas partition the space again. *)
Theorem vmm_allocate_correct size flags e k :
  vma_inv k → 0 < size ≤ 2 ^ 64 - 4096 → bf_contains flags VmmFlags_ATOMIC = false →
  FREE_VMA ∉ held e → USED_VMA ∉ held e →
  wp e (vmm_allocate size flags)
    (λ res k', vma_inv k' ∧
       match res with
       | inl range =>
           let a := mkVirtualArea range (bf_from_bits_truncate Flags_all flags) in
           vr_size range = (size + 4095) / 4096 * 4096 ∧ area_ok a
           ∧ (∃ b, free_area k b ∧ va_start b = va_start a ∧ vr_size range ≤ va_size b
                ∧ ∀ c, free_area k c → vr_size range ≤ va_size c → va_size b ≤ va_size c)
           ∧ (∀ b v, used_area k b → vr_contains range v = true → covers_addr v b = false)
           ∧ (∀ b, used_area k' b ↔ b = a ∨ used_area k b)
           ∧ only_vma k k'
       | inr err =>
           err = Vmm_OutOfMemory ∧ k' = k
           ∧ ∀ b, free_area k b → va_size b < (size + 4095) / 4096 * 4096
       end) k.
Proof. apply vmm_allocate_spec. Qed.

(** C37: A request within one page of the largest [usize] wraps around when it is
    rounded up: as soon as some area is free, [allocate] answers it with success and
    an empty range, instead of [OutOfMemory]. *)
Theorem vmm_allocate_wraps size flags b e k :
  vma_inv k → 2 ^ 64 - 4096 < size < 2 ^ 64 → bf_contains flags VmmFlags_ATOMIC = false →
  FREE_VMA ∉ held e → USED_VMA ∉ held e → free_area k b →
  wp e (vmm_allocate size flags)
    (λ res _, ∃ range, res = inl range ∧ vr_size range = 0) k.
Proof.
  intros Hinv Hsize Hat HF HU Hb. unfold vmm_allocate. rewrite align_size_wraps by done.
  pose proof (vma_free k Hinv) as Hok.
  apply wp_bind, wp_with_lock; [done|]. apply wp_bind, wp_gets. fold (fits 0).
  destruct (bt_find (fits 0) (k_free_vma k)) as [[len vec]|] eqn:Hf.
  - pose proof (bt_find_Some _ _ _ _ Hf) as [Hin Hfit].
    assert (vec ≠ []) as Hne.
    { unfold fits in Hfit. bool_to_prop. by intros ->. }
    destruct (pop_free _ _ _ Hok Hin Hne) as (a & Hlast & _ & Ha & _).
    destruct Ha as (Hlt & _ & _ & Hlo & Hhi). pose proof (va_size_spec a) as Hsz.
    apply wp_bind. apply wp_unwrap with a; [done|]. apply wp_bind, wp_modify.
    rewrite (proj2 (Z.ltb_lt 0 (va_size a))) by lia. unfold va_start, va_end in *.
    destruct (virt_add_spec (vr_start (va_range a)) 0) as (mid & -> & Hv);
      [lia|apply vmalloc_canonical; lia|]. rewrite Z.add_0_r in Hv.
    destruct (vr_new_spec mid (vr_end (va_range a))) as (rest & H1 & _); [lia|].
    destruct (vr_new_spec (vr_start (va_range a)) mid) as (range & H2 & Hr1 & Hr2); [lia|].
    apply wp_bind, wp_ret. rewrite H1. apply wp_bind, wp_ret. apply wp_bind, wp_ret.
    rewrite H2. apply wp_bind, wp_ret. apply wp_bind, wp_modify, wp_ret.
    rewrite Hat. apply wp_bind, wp_ret, wp_bind.
    eapply wp_of_run; [by apply insert_used_run|]. apply wp_ret. exists range.
    split; [done|]. rewrite vr_size_spec, Hr1, Hr2. lia.
  - destruct (free_area_size k b Hok Hb) as (vec & Hin & Hbv).
    pose proof (bt_find_None _ _ _ _ Hf Hin) as Hno.
    rewrite (fits_member 0 _ vec b) in Hno; [done|done|]. rewrite va_size_spec.
    destruct Hok as [_ HFo]. rewrite Forall_forall in HFo.
    pose proof (HFo _ Hin) as HFv. simpl in HFv. rewrite Forall_forall in HFv.
    destruct (HFv _ Hbv) as [(Hlt & _) _]. lia.
Qed.

(** Removing an area from the used ones. *)
Lemma remove_used a k :
  vma_inv k → used_area k a →
  let m := bt_delete (va_start a) (k_used_vma k) in
  used_ok m ∧ (∀ v, cover_used m v = cover_used (k_used_vma k) v - Z.b2z (covers_addr v a))
  ∧ ∀ b, (∃ s, (s, b) ∈ m) ↔ used_area k b ∧ b ≠ a.
Proof.
  intros Hinv Ha. pose proof (vma_used k Hinv) as [Hs HF].
  pose proof (proj1 (used_area_get k a (conj Hs HF)) Ha) as Hget.
  assert (used_ok (bt_delete (va_start a) (k_used_vma k))) as Hok
    by (split; [by apply bt_delete_sorted|by apply bt_delete_Forall]).
  split_and!; [exact Hok| |].
  - intros v. unfold cover_used. by rewrite bt_sum_delete, Hget.
  - intros b. change (∃ s, (s, b) ∈ bt_delete (va_start a) (k_used_vma k))
      with (used_area (set_used_vma (bt_delete (va_start a) (k_used_vma k)) k) b).
    rewrite !used_area_get by (done || by split). simpl. rewrite bt_get_delete by done.
    destruct (Z.eqb_spec (va_start b) (va_start a)) as [Heq|Hne].
    + rewrite Heq, Hget. split; [done|]. by intros [[= ->] ?].
    + split; [|by intros [? _]]. intros ?. split; [done|]. by intros ->.
Qed.

(** Two areas in use that share an address are the same. *)
Lemma used_areas_disjoint k a b v :
  vma_inv k → used_area k a → used_area k b → covers_addr v a = true →
  covers_addr v b = true → a = b.
Proof.
  intros Hinv Ha Hb Hva Hvb. destruct (remove_used a k Hinv Ha) as (_ & Hcov & Hmem).
  set (m := bt_delete _ _) in *.
  pose proof (cover_le_one k v Hinv). pose proof (cover_free_nonneg (k_free_vma k) v).
  destruct (decide (va_start b = va_start a)) as [Heq|Hne].
  - apply used_area_get in Ha; [|apply Hinv]. apply used_area_get in Hb; [|apply Hinv].
    congruence.
  - assert (used_area (set_used_vma m k) b) as Hb'.
    { apply Hmem. split; [done|]. by intros ->. }
    pose proof (used_area_cover (set_used_vma m k) b v Hb' Hvb) as H1.
    simpl in H1. rewrite Hcov, Hva in H1. simpl in H1. lia.
Qed.

(** An address of the vmalloc space that is in no area in use is in a free one. *)
Lemma free_area_around k v :
  vma_inv k → in_vmalloc v = true → (∀ a, used_area k a → covers_addr v a = false) →
  ∃ b, free_area k b ∧ area_ok b ∧ covers_addr v b = true.
Proof.
  intros Hinv Hv Hno. pose proof (vma_cover k Hinv v) as Hc. rewrite Hv in Hc. simpl in Hc.
  pose proof (cover_used_nonneg (k_used_vma k) v).
  destruct (Z.lt_ge_cases 0 (cover_used (k_used_vma k) v)) as [Hu|Hu].
  - apply bt_sum_pos in Hu as (s & a & Hin & Ha). rewrite Hno in Ha; [done|by exists s].
  - assert (0 < cover_free (k_free_vma k) v) as Hf by lia.
    apply bt_sum_pos in Hf as (len & vec & Hin & Hvec).
    apply countb_pos_inv in Hvec as (b & Hb & Hcov). exists b. split; [by exists len, vec|].
    split; [|done]. destruct (vma_free k Hinv) as [_ HF]. rewrite Forall_forall in HF.
    specialize (HF _ Hin). simpl in HF. rewrite Forall_forall in HF. by apply HF.
Qed.

(** The first step of [deallocate]. *)
Lemma remove_used_run range e k :
  USED_VMA ∉ held e →
  irq_without (with_lock USED_VMA (
    used_vmas ← gets k_used_vma;
    let r := bt_remove (virt_as_u64 (vr_start range)) used_vmas in
    modify (set_used_vma r.2);; unwrap r.1)) e k
  = match bt_get (virt_as_u64 (vr_start range)) (k_used_vma k) with
    | Some a => Ret a (set_used_vma
                  (bt_delete (virt_as_u64 (vr_start range)) (k_used_vma k)) k)
    | None => Panic UnwrapNone
    end.
Proof.
  intros Hl. rewrite irq_without_run, with_lock_free by done.
  erewrite bind_ret_run by reflexivity. cbn zeta. erewrite bind_ret_run by reflexivity.
  simpl. by destruct (bt_get _ _).
Qed.

(** Giving an area back. *)
Lemma give_back a k k1 :
  vma_inv k → used_area k a → k_free_vma k1 = k_free_vma k →
  k_used_vma k1 = bt_delete (va_start a) (k_used_vma k) →
  let k2 := set_free_vma (push_free_vma a (k_free_vma k1)) k1 in
  vma_inv k2 ∧ (∀ b, used_area k2 b ↔ used_area k b ∧ b ≠ a) ∧ free_area k2 a.
Proof.
  intros Hinv Ha Hf Hu k2. destruct (remove_used a k Hinv Ha) as (Hok & Hcov & Hmem).
  pose proof (used_area_ok k a (vma_used k Hinv) Ha) as Haok.
  pose proof (vma_free k Hinv) as Hfok. split_and!.
  - split; simpl; rewrite ?Hf, ?Hu; [by apply push_free_ok|exact Hok|].
    intros v. rewrite push_free_cover, Hcov by apply Hfok.
    pose proof (vma_cover k Hinv v). lia.
  - intros b. unfold used_area at 1. simpl. rewrite Hu. apply Hmem.
  - unfold free_area. simpl. unfold push_free_vma. rewrite Hf.
    destruct (bt_get (va_size a) (k_free_vma k)) as [vec|] eqn:E.
    + exists (va_size a), (vec ++ [a]). split; [|apply elem_of_app; right; left].
      apply bt_get_Some_elem. by rewrite bt_get_insert, Z.eqb_refl by apply Hfok.
    + exists (va_size a), [a]. split; [|left].
      apply bt_get_Some_elem. by rewrite bt_get_insert, Z.eqb_refl by apply Hfok.
Qed.

(** [deallocate] of a range whose start is not the start of an area in use panics;
    so a range cannot be freed twice. *)
Theorem vmm_deallocate_unknown_panics range e k :
  vma_inv k → USED_VMA ∉ held e →
  (∀ a, used_area k a → va_start a ≠ virt_as_u64 (vr_start range)) →
  vmm_deallocate range e k = Panic UnwrapNone.
Proof.
  intros Hinv Hl Hno. unfold vmm_deallocate. rewrite bind_run, remove_used_run by done.
  destruct (bt_get (virt_as_u64 (vr_start range)) (k_used_vma k)) as [a|] eqn:E; [|done].
  pose proof (bt_get_Some_elem _ _ _ E) as Hin. destruct (vma_used k Hinv) as [_ HF].
  rewrite Forall_forall in HF. destruct (HF _ Hin) as [_ Hst]. simpl in Hst.
  destruct (Hno a); [by eexists|done].
Qed.
End VmmTheorems.

(** ** Witnesses *)

(** The state after the set-up of the virtual memory manager. *)
Definition ref_vmm : Kernel := ret_state (vmm_setup ref_env (ref_space 8)) (ref_space 8).

Lemma ref_vmm_inv :
  vma_inv ref_vmm ∧ ∃ a, free_area ref_vmm a ∧ va_start a = VMALLOC_START
                         ∧ va_end a = VMALLOC_END.
Proof.
  destruct (wp_ret_state _ _ _ _ (vmm_setup_spec ref_env (ref_space 8) eq_refl eq_refl
    (ref_env_unlocked _))) as [_ (Hinv & _ & _ & Ha)].
  split; [exact Hinv|exact Ha].
Qed.

Lemma vmm_setup_partitions_witness :
  wp ref_env vmm_setup
    (λ _ k', vma_inv k' ∧ k_used_vma k' = [] ∧ only_vma ref_boot k'
       ∧ ∃ a, free_area k' a ∧ va_start a = VMALLOC_START ∧ va_end a = VMALLOC_END) ref_boot.
Proof.
  apply (vmm_setup_partitions ref_env ref_boot); [reflexivity..|apply ref_env_unlocked].
Defined.

Lemma vmm_allocate_correct_witness :
  wp ref_env (vmm_allocate 5000 VmmFlags_MAP)
    (λ res k', vma_inv k' ∧ ∃ range, res = inl range ∧ vr_size range = 8192) ref_vmm.
Proof.
  eapply wp_mono.
  - apply (vmm_allocate_correct 5000 VmmFlags_MAP ref_env ref_vmm);
      [apply ref_vmm_inv|lia|reflexivity|apply ref_env_unlocked..].
  - intros [range|err] k' [Hinv H]; (split; [exact Hinv|]).
    + exists range. split; [reflexivity|apply H].
    + destruct H as (_ & _ & H). destruct ref_vmm_inv as (_ & a & Ha & Hs & He).
      specialize (H a Ha). rewrite va_size_spec, Hs, He in H. vm_compute in H. discriminate H.
Defined.

Lemma vmm_allocate_wraps_witness :
  wp ref_env (vmm_allocate (2 ^ 64 - 1) VmmFlags_NONE)
    (λ res _, ∃ range, res = inl range ∧ vr_size range = 0) ref_vmm.
Proof.
  destruct ref_vmm_inv as (Hinv & a & Ha & _).
  apply (vmm_allocate_wraps (2 ^ 64 - 1) VmmFlags_NONE a ref_env ref_vmm);
    [exact Hinv|lia|reflexivity|apply ref_env_unlocked..|exact Ha].
Defined.

Definition ref_null_range : @VirtualRange ref_address :=
  mkRRange zero_virt zero_virt eq_refl.

Lemma vmm_deallocate_unknown_panics_witness :
  vmm_deallocate ref_null_range ref_env ref_vmm = Panic UnwrapNone.
Proof.
  apply (vmm_deallocate_unknown_panics ref_null_range ref_env ref_vmm);
    [apply ref_vmm_inv|apply ref_env_unlocked|].
  intros a [s Hin]. apply not_elem_of_nil in Hin. destruct Hin.
Defined.

(** A request for zero bytes is answered with a range that aliases a later one: the
    empty range starts where the next allocation starts, its record in [USED_VMA] is
    overwritten, and deallocating the empty range frees the other one, which is then in
    use by its owner and free at once. *)
Theorem zero_size_allocation_aliases :
  ret_value
    ((vmm_setup;;
      r1 ← vmm_allocate 0 VmmFlags_MAP;
      r2 ← vmm_allocate 4096 VmmFlags_NONE;
      match r1, r2 with
      | inl r1, inl r2 =>
          vmm_deallocate r1;;
          used ← gets k_used_vma;
          mret (virt_as_u64 (vr_start r1) =? virt_as_u64 (vr_start r2),
                vr_size r1, vr_size r2, length used)
      | _, _ => panic_with UnwrapNone
      end) ref_env ref_boot) = Some (true, 0, 4096, 0%nat).
Proof. vm_compute. reflexivity. Qed.
