(* ===== verification/Fault.v ===== *)
(** * Page faults

    The page-fault handlers of [src/src/arch/paging.rs], and the demand paging
    of the kernel heap, [src/src/mm/allocator.rs]; that of the vmalloc space is
    in [Vmm]. *)

From S2P Require Import Prelude Machine External Reference Frame BTree Log Kernel FrameState FrameAlloc Paging PageTables PagingSpec Vmm VmmSpec.

Section FaultDefs.
Context {BF : Bitflags} {RT : Runtime} {XA : X86Address} {XP : X86Paging XA} {LG : Logging}
  {XC : X86Cpu} {FA : Allocator}.

(** [mm/allocator.rs]. *)
Definition heap_handle_demand_paging (table : Z) (addr : Virtual) : M Kernel (unit + Z) :=
  let paging_flags := pef_union (pef_union PRESENT WRITABLE) NO_EXECUTE in
  let alloc_flags := bf_union AllocationFlags_KERNEL AllocationFlags_ZEROED in
  frame ← locked_allocate alloc_flags;
  match frame with
  | None => mret (inr PageFaultError_OUT_OF_MEMORY)
  | Some frame =>
      res ← map table addr frame paging_flags;
      match res with
      | inl _ => mret (inl tt)
      | inr OutOfMemory => mret (inr PageFaultError_OUT_OF_MEMORY)
      | inr AlreadyMapped => mret (inr PageFaultError_ALREADY_MAPPED)
      end
  end.

Definition handle_demand_paging (table : Z) (addr : Virtual) : M Kernel (unit + Z) :=
  if (HEAP_START <=? virt_as_u64 addr) && (virt_as_u64 addr <? HEAP_END)
  then heap_handle_demand_paging table addr
  else if (VMALLOC_START <=? virt_as_u64 addr) && (virt_as_u64 addr <? VMALLOC_END)
  then vmm_handle_demand_paging table addr
  else mret (inr PageFaultError_UNKNOWN).

(** [pte.map_or(false, PageEntry::is_present)]. *)
Definition pte_present (pte : option (Z * Z)) : M Kernel bool :=
  match pte with
  | Some (t, i) => entry ← read_entry t i; mret (pe_is_present entry)
  | None => mret false
  end.

(** The end of [handle_page_fault]: the reasons of an unrecoverable fault. *)
Definition fault_reasons (table : Z) (code : PageFaultErrorCode) (addr : Virtual) (error : Z)
  : M Kernel Z :=
  pte ← fetch_pte walk_fuel table PageMapLevel4 addr;
  if pfec_contains code PROTECTION_VIOLATION then
    match pte with
    | Some (t, i) =>
        entry ← read_entry t i;
        if negb (pe_is_writable entry) && pfec_contains code WRITE_ACCESS
        then mret (bf_union error PageFaultError_WRITE_PROTECTED)
        else if negb (pe_is_executable entry) && pfec_contains code INSTRUCTION_FETCH
        then mret (bf_union error PageFaultError_NOT_EXECUTABLE)
        else mret (bf_union error PageFaultError_PROTECTION_VIOLATION)
    | None => mret error
    end
  else mret (bf_union error PageFaultError_MISSING_PAGE).

Definition handle_page_fault (table : Z) (code : PageFaultErrorCode) (addr : Virtual)
  : M Kernel (PageFaultType + Z) :=
  pte ← fetch_pte walk_fuel table PageMapLevel4 addr;
  present ← pte_present pte;
  let error := PageFaultError_UNKNOWN in
  if bool_decide (is_Some pte) && present && negb (pfec_contains code PROTECTION_VIOLATION)
  then
    kernel_log LTrace ("Lazy TLB invalidation at " +:+ hex_fixed 16 (virt_as_u64 addr));;
    tlb_shootdown;;
    mret (inl LazyTlbInvalidation)
  else
    handled ←
      (if negb present && negb (pfec_contains code PROTECTION_VIOLATION) then
         res ← handle_demand_paging table addr;
         match res with
         | inl _ => mret (inl DemandPaging)
         | inr err => mret (inr (bf_union error err))
         end
       else mret (inr error));
    match handled with
    | inl ok => mret (inl ok)
    | inr error =>
        error ← fault_reasons table code addr error;
        mret (inr error)
    end.

Definition page_fault (code : PageFaultErrorCode) (addr : Virtual)
  : M Kernel (PageFaultType + Z) :=
  early ← gets k_early;
  if early : bool then
    table ← active_table;
    handle_page_fault table code addr
  else
    irq_without (with_active_table (λ table, handle_page_fault table code addr)).
End FaultDefs.

(** ** Demand paging *)

Section DemandPaging.
Context {BF : Bitflags} {BFS : BitflagsSpec BF} {RT : Runtime} {RTS : RuntimeSpec RT}
  {XA : X86Address} {XAS : X86AddressSpec XA} {XP : X86Paging XA} {XPS : X86PagingSpec XP}
  {LG : Logging} {LGS : LoggingSpec LG}
  {XC : X86Cpu} {XCS : X86CpuSpec XC} {FA : Allocator} {FAS : AllocatorSpec FA}.
Variable D : Z → Prop.
Implicit Types (e : Env) (k : Kernel) (p r : Z) (v w : Virtual) (f : Frame).

(** A page of its own: a frame that had no owner and has one now, that holds no page
    table, cleared when [zeroed] asks for it. *)
Definition fresh_frame r f (zeroed : bool) k k' : Prop :=
  ¬ fa_live k (frame_u64 f) ∧ fa_live k' (frame_u64 f)
  ∧ ¬ is_table D (k_mem k') r (frame_u64 f)
  ∧ if zeroed then ∀ i, k_mem k' (frame_u64 f) i = pe_zero else True.

(** The outcome of allocating a frame and mapping it at an unmapped address. *)
Definition paged_in r v flags zeroed k (res : unit + MapError) k' : Prop :=
  map_frame D r k k' ∧ fa_free k - 5 ≤ fa_free k' ∧
  match res with
  | inl _ => ∃ f, fresh_frame r f zeroed k k' ∧ maps_to D r v f flags k k'
  | inr OutOfMemory =>
      fa_free k < 5
      ∧ ∀ w, in_region D w → mapping (k_mem k') r w = mapping (k_mem k) r w
  | inr AlreadyMapped => False
  end.

Lemma map_frame_trans r k1 k2 k3 :
  map_frame D r k1 k2 → map_frame D r k2 k3 → map_frame D r k1 k3.
Proof.
  intros [I1 L1 M1 T1 F1 U1 O1] [I2 L2 M2 T2 F2 U2 O2].
  split; [done|by eapply fa_keeps_trans| | |auto|by eapply unowned_trans|].
  - intros p i Hl Ht. rewrite M2; [by apply M1|by apply L1|]. intros Ht'. by apply Ht, T1.
  - intros p Ht Hl. apply T1; [|done]. apply T2; [done|]. by apply L1.
  - unfold only_memory in *. rewrite O2, O1. by destruct k1.
Qed.

(** An allocation leaves the page tables alone. *)
Lemma allocate_frame flags f k k1 r :
  pt_inv D k r → allocate_post flags k (Some f) k1 →
  map_frame D r k k1
  ∧ (∀ w, in_region D w → mapping (k_mem k1) r w = mapping (k_mem k) r w)
  ∧ ¬ is_table D (k_mem k1) r (frame_u64 f).
Proof.
  intros [Ha Hok] Hpost. pose proof (allocate_unowned flags f k k1 Hpost) as Hun.
  destruct Hpost as (Ha1 & Hl1 & Hal & Hb & Hfr & Hn & Hy & [Ho _] & Hm).
  assert (∀ p i, fa_live k p → k_mem k1 p i = k_mem k p i) as Hsame.
  { intros p i Hp. rewrite Hm. destruct (bf_contains _ _); [|done].
    unfold mem_zero_page. rewrite (proj2 (Z.eqb_neq p (frame_u64 f))); [done|congruence]. }
  assert (∀ l, good D l → follow (k_mem k1) r l = follow (k_mem k) r l) as Hfollow.
  { induction l as [|i l IH] using rev_ind; intros Hg; [done|].
    rewrite !follow_snoc, IH by (by eapply good_prefix).
    destruct (follow (k_mem k) r l) as [p|] eqn:Hp; [|done]. simpl. unfold next_table.
    rewrite Hsame; [done|]. by apply (tables_live D _ _ _ Hok l p (good_prefix D l i Hg) Hp). }
  assert (∀ p, is_table D (k_mem k1) r p → is_table D (k_mem k) r p) as Htab.
  { intros p (l & Hg & Hf). exists l. by rewrite <- Hfollow. }
  split_and!.
  - split; [split; [done|]|done| |auto| |done|done].
    + split.
      * intros l p Hg. rewrite Hfollow by done. intros Hp.
        destruct (tables_live D _ _ _ Hok l p Hg Hp). split; [done|by apply Hl1].
      * intros l l' p Hg Hg'. rewrite !Hfollow by done. by apply (tables_inj D _ _ _ Hok).
    + auto.
    + intros l p Hg. by rewrite Hfollow.
  - intros w Hw. unfold mapping, leaf. rewrite Hfollow by (by apply good_idxs).
    destruct (follow (k_mem k) r (idxs w 3)) as [p|] eqn:Hp; [|done]. simpl. unfold entry_at.
    rewrite Hsame; [done|]. by apply (tables_live D _ _ _ Hok _ p (good_idxs D w Hw) Hp).
  - intros (l & Hg & Hf)%Htab. destruct (tables_live D _ _ _ Hok l _ Hg Hf). done.
Qed.

(** Mapping a frame that has just been allocated. *)
Lemma page_in_spec aflags flags f r v e k k1 :
  pt_inv D k r → in_region D v → mapping (k_mem k) r v = None → frames_unlocked e →
  allocate_post aflags k (Some f) k1 →
  wp e (map (hhdm r) v f flags)
    (paged_in r v flags (bf_contains aflags AllocationFlags_ZEROED) k) k1.
Proof.
  intros Hinv Hv Hm He Hpost.
  destruct (allocate_frame aflags f k k1 r Hinv Hpost) as (Hfr1 & Hm1 & Hnt1).
  destruct Hpost as (_ & Hl1 & Hal & _ & Hfree & Hn & Hy & _ & Hmem).
  eapply wp_mono; [apply (map_spec D); [apply Hfr1|done..]|].
  intros res k2 (Hfr2 & Hcost & H). split; [by eapply map_frame_trans|].
  split; [destruct (frame_u64 f =? 0); lia|].
  assert (∀ f', maps_to D r v f' flags k1 k2 → maps_to D r v f' flags k k2) as Hmt.
  { intros f' (x & Hx1 & Hx2 & Hx). exists x. split_and!; [done..|]. intros w Hw.
    by rewrite Hx, Hm1. }
  destruct res as [[]|[]].
  - destruct H as (_ & f' & Hf' & Hmaps). exists f'. split; [|by apply Hmt].
    unfold mapped_frame in Hf'. destruct (frame_u64 f =? 0).
    + destruct Hf' as (H1 & H2 & H3 & H4). split_and!; [by intros [? _]%Hl1|done|done|].
      by destruct (bf_contains _ _).
    + subst f'. split_and!; [done|by apply (map_live D r k1 k2 Hfr2)| |].
      * intros Ht. by apply Hnt1, (map_tables D r k1 k2 Hfr2).
      * destruct (bf_contains aflags AllocationFlags_ZEROED); [|done]. intros i.
        rewrite (map_memory D r k1 k2 Hfr2), Hmem by done.
        unfold mem_zero_page. by rewrite Z.eqb_refl.
  - destruct H as (_ & Hlt & Hkeep). split; [destruct (frame_u64 f =? 0); lia|].
    intros w Hw. by rewrite Hkeep, Hm1.
  - destruct H as [H _]. by rewrite Hm1 in H.
Qed.

(** What a demand-paging handler promises when the address is not mapped. *)
Definition demand_post r v flags zeroed k (res : unit + Z) k' : Prop :=
  map_frame D r k k' ∧ fa_free k - 5 ≤ fa_free k' ∧
  match res with
  | inl _ => ∃ f, fresh_frame r f zeroed k k' ∧ maps_to D r v f flags k k'
  | inr err =>
      err = PageFaultError_OUT_OF_MEMORY ∧ fa_free k < 5
      ∧ ∀ w, in_region D w → mapping (k_mem k') r w = mapping (k_mem k) r w
  end.

Definition heap_flags : MapFlags := pef_union (pef_union PRESENT WRITABLE) NO_EXECUTE.

Lemma map_frame_refl r k : pt_inv D k r → map_frame D r k k.
Proof. intros Hinv. apply grown_frame; [done|apply grown_refl]. Qed.

Lemma heap_demand_spec r v e k :
  pt_inv D k r → in_region D v → mapping (k_mem k) r v = None → frames_unlocked e →
  wp e (heap_handle_demand_paging (hhdm r) v) (demand_post r v heap_flags true k) k.
Proof.
  intros Hinv Hv Hm He. unfold heap_handle_demand_paging. apply wp_bind.
  eapply wp_mono; [apply locked_allocate_spec; [apply Hinv|done]|].
  intros [f|] k1 Hpost.
  - apply wp_bind. eapply wp_mono; [by eapply (page_in_spec ZEROED_KERNEL)|].
    rewrite contains_zeroed. intros [[]|[]] k2 (Hfr & Hcost & H); try done; by apply wp_ret.
  - destruct Hpost as (_ & _ & -> & H0). apply wp_ret.
    split; [by apply map_frame_refl|]. split_and!; [lia|done|lia|done].
Qed.

(** The area of the vmalloc space a fault is about. *)
Definition fault_area k v : option VirtualArea :=
  snd <$> bt_find (λ _ a, vr_contains (va_range a) (virt_page_align_down v)) (k_used_vma k).

Definition vmm_flags : MapFlags := pef_union PRESENT WRITABLE.

Lemma align_down_same v : same_page v (virt_page_align_down v) = true.
Proof. unfold same_page. rewrite virt_page_align_down_spec, Z.div_mul by done. blia. Qed.

Lemma same_page_sym v w u : same_page v u = true → same_page w v = same_page w u.
Proof. unfold same_page. by intros ->%Z.eqb_eq. Qed.

Lemma align_down_idx v h :
  idx (virt_page_align_down v) h = idx v h.
Proof.
  unfold idx. rewrite virt_page_align_down_spec, Z.pow_add_r, <- !Z.div_div by lia.
  change (2 ^ 12) with 4096. by rewrite Z.div_mul.
Qed.

(** A record written after an allocation. *)
Lemma allocate_logged flags f lg k k1 :
  allocate_post flags k (Some f) k1 → allocate_post flags k (Some f) (set_log lg k1).
Proof.
  intros (Ha & Hl & Hal & Hb & Hfr & Hn & Hy & [Ho Hff] & Hm).
  assert (k_frames k1 = k_frames (set_log lg k1)) as Hk by done.
  split; [by eapply fa_inv_local; [..|exact Ha]|]. split; [by eapply fa_keeps_local|].
  split; [done|]. split; [done|]. split; [by rewrite <- (fa_free_local k1)|]. split; [done|].
  split; [by eapply fa_live_local|]. split; [|done]. split.
  - unfold only_memory in *. rewrite Ho. by destruct k.
  - by eapply first_fit_trans; [exact Hff|apply first_fit_local].
Qed.

Lemma vmm_demand_spec r v e k a :
  pt_inv D k r → in_region D v → mapping (k_mem k) r v = None → frames_unlocked e →
  USED_VMA ∉ held e → SERIAL ∉ held e → fault_area k v = Some a →
  bf_contains (va_flags a) VmmFlags_MAP = true →
  wp e (vmm_handle_demand_paging (hhdm r) v)
    (demand_post r v vmm_flags (bf_contains (va_flags a) VmmFlags_ZEROED) k) k.
Proof.
  intros Hinv Hv Hm He HU HL Ha HM. unfold vmm_handle_demand_paging.
  apply wp_bind, wp_irq_without, wp_with_lock; [done|].
  apply wp_bind, wp_gets, wp_ret. fold (fault_area k v). rewrite Ha, HM. simpl.
  set (aflags := if bf_contains (va_flags a) VmmFlags_ZEROED then _ else _).
  assert (bf_contains aflags AllocationFlags_ZEROED
          = bf_contains (va_flags a) VmmFlags_ZEROED) as Hz.
  { unfold aflags. destruct (bf_contains (va_flags a) VmmFlags_ZEROED).
    - apply contains_refl.
    - unfold AllocationFlags_ZEROED, FrameFlags_ZEROED. by rewrite contains_flag by lia. }
  apply wp_bind. eapply wp_mono; [apply locked_allocate_spec; [apply Hinv|done]|].
  intros [f|] k0 Hpost0.
  - apply wp_bind, wp_kernel_log; [done|]. intros lg.
    pose proof (allocate_logged _ _ lg _ _ Hpost0) as Hpost. set (k1 := set_log lg k0) in *.
    apply wp_bind. eapply wp_mono; [eapply (page_in_spec aflags); try done|].
    + unfold in_region. by rewrite align_down_idx.
    + rewrite (same_page_mapping _ _ v); [done|].
      unfold same_page. rewrite virt_page_align_down_spec, Z.div_mul by done. blia.
    + rewrite Hz. intros [[]|[]] k2 (Hfr & Hcost & H); try done; apply wp_ret; (split; [done|]);
        (split; [done|]); try done.
      destruct H as (f' & Hf' & x & H1 & H2 & H3). exists f'. split; [done|].
      exists x. split_and!; [done..|]. intros w Hw. rewrite H3 by done.
      by rewrite (same_page_sym v w _ (align_down_same v)).
  - destruct Hpost0 as (_ & _ & -> & H0). apply wp_ret.
    split; [by apply map_frame_refl|]. split_and!; [lia|done|lia|done].
Qed.
End DemandPaging.

(** ** The handlers *)

Section Handlers.
Context {BF : Bitflags} {BFS : BitflagsSpec BF} {RT : Runtime} {RTS : RuntimeSpec RT}
  {XA : X86Address} {XAS : X86AddressSpec XA} {XP : X86Paging XA} {XPS : X86PagingSpec XP}
  {LG : Logging} {LGS : LoggingSpec LG}
  {XC : X86Cpu} {XCS : X86CpuSpec XC} {FA : Allocator} {FAS : AllocatorSpec FA}.
Variable D : Z → Prop.
Implicit Types (e : Env) (k : Kernel) (p r : Z) (v w : Virtual) (code : PageFaultErrorCode).

(** The table a fault is handled in is the one at [r], and can be locked: before the
    end of the boot it is the one in CR3, later the active table of this CPU. *)
Definition current_root e k r : Prop :=
  if k_early k
  then 0 ≤ cr3_read (k_events k) < 2 ^ 44 ∧ r = cr3_read (k_events k) / 4096 * 4096
  else active_root k r ∧ (ACTIVE_TABLE ∉ held e) ∧ (TABLE_ROOT ∉ held e).

Lemma active_table_run e k :
  0 ≤ cr3_read (k_events k) < 2 ^ 44 →
  active_table e k = Ret (hhdm (cr3_read (k_events k) / 4096 * 4096)) k.
Proof.
  intros Hc. unfold active_table. erewrite bind_ret_run by reflexivity.
  rewrite PAGE_MASK_spec, phys_new_of by dlia. erewrite bind_ret_run by reflexivity.
  set (r := cr3_read (k_events k) / 4096 * 4096). assert (0 ≤ r < 2 ^ 44) by (unfold r; dlia).
  erewrite bind_ret_run by (apply phys_to_virt_run; rewrite phys_of_u64; lia).
  rewrite phys_of_u64 by lia. unfold mret, M_ret, hhdm.
  by rewrite virt_as_ptr_spec, virt_of_hhdm by lia.
Qed.

(** The locks of the page tables are taken, and no other. *)
Lemma page_fault_locks code v e k r :
  current_root e k r →
  ∃ e', (∀ l, l ≠ ACTIVE_TABLE → l ≠ TABLE_ROOT → l ∉ held e → l ∉ held e')
        ∧ (∀ l, l ∈ held e → l ∈ held e')
        ∧ page_fault code v e k = handle_page_fault (hhdm r) code v e' k.
Proof.
  unfold current_root, page_fault. intros H. erewrite bind_ret_run by reflexivity.
  destruct (k_early k).
  - destruct H as [Hc ->]. exists e. split; [done|]. split; [done|].
    by erewrite bind_ret_run by (by apply active_table_run).
  - destruct H as (Hroot & HA & HT). rewrite irq_without_run.
    rewrite (with_active_table_run _ r) by done.
    eexists. split; [|split; [|reflexivity]].
    + intros l ? ? ?. by do 2 (apply held_acquire; [done|]).
    + intros l Hl. by do 2 right.
Qed.

Lemma page_fault_run code v e k r :
  current_root e k r →
  ∃ e', (∀ l, l ≠ ACTIVE_TABLE → l ≠ TABLE_ROOT → l ∉ held e → l ∉ held e')
        ∧ page_fault code v e k = handle_page_fault (hhdm r) code v e' k.
Proof.
  intros H. destruct (page_fault_locks code v e k r H) as (e' & H1 & _ & H2). by exists e'.
Qed.

Lemma unlocked_env e e' :
  (∀ l, l ≠ ACTIVE_TABLE → l ≠ TABLE_ROOT → l ∉ held e → l ∉ held e') →
  frames_unlocked e → frames_unlocked e'.
Proof. intros H [H1 H2]. split; by apply H. Qed.

(** What the reasons of a fault are when the page is missing. *)
Lemma fault_reasons_missing r code v error e k :
  pt_inv D k r → in_region D v → pfec_contains code PROTECTION_VIOLATION = false →
  fault_reasons (hhdm r) code v error e k
    = Ret (bf_union error PageFaultError_MISSING_PAGE) k.
Proof.
  intros Hinv Hv Hc. unfold fault_reasons. rewrite bind_run.
  destruct (fetch_cases D v e k r Hinv Hv) as [[_ ->]|(q & _ & _ & _ & _ & _ & ->)];
    by rewrite Hc.
Qed.

(** A fault on a page that is not mapped goes to demand paging. *)
Lemma handle_missing r code v e k (Q : PageFaultType + Z → Kernel → Prop) :
  pt_inv D k r → in_region D v → mapping (k_mem k) r v = None →
  pfec_contains code PROTECTION_VIOLATION = false →
  wp e (handle_demand_paging (hhdm r) v)
    (λ res k', match res with
       | inl _ => Q (inl DemandPaging) k'
       | inr err => pt_inv D k' r ∧
           Q (inr (bf_union (bf_union PageFaultError_UNKNOWN err)
                     PageFaultError_MISSING_PAGE)) k'
       end) k →
  wp e (handle_page_fault (hhdm r) code v) Q k.
Proof.
  intros Hinv Hv Hm Hc Hwp. unfold handle_page_fault. apply wp_bind.
  destruct (fetch_cases D v e k r Hinv Hv) as [[_ H]|(q & _ & _ & _ & _ & H & _)];
    [|congruence].
  eapply wp_of_run; [exact H|]. apply wp_bind, wp_ret. simpl. rewrite Hc. simpl.
  apply wp_bind, wp_bind. eapply wp_mono; [exact Hwp|]. intros [[]|err] k' Hk'.
  - by apply wp_ret, wp_ret.
  - destruct Hk' as [Hinv' HQ]. apply wp_ret, wp_bind.
    eapply wp_of_run; [by apply fault_reasons_missing|]. by apply wp_ret.
Qed.

Lemma bf_union_0_l x : bf_union 0 x = x.
Proof. apply Z.bits_inj'. intros i Hi. by rewrite bf_union_spec, Z.bits_0. Qed.

Lemma bf_union_diag x : bf_union x x = x.
Proof. apply Z.bits_inj'. intros i Hi. rewrite bf_union_spec by done. apply orb_diag. Qed.

Definition in_heap v : bool := (HEAP_START <=? virt_as_u64 v) && (virt_as_u64 v <? HEAP_END).

Lemma heap_fault_spec r code v e k :
  current_root e k r → frames_unlocked e → pt_inv D k r → in_region D v →
  in_heap v = true → mapping (k_mem k) r v = None →
  pfec_contains code PROTECTION_VIOLATION = false →
  wp e (page_fault code v)
    (λ res k', map_frame D r k k' ∧ fa_free k - 5 ≤ fa_free k' ∧
       match res with
       | inl ty => ty = DemandPaging ∧
           ∃ f, fresh_frame D r f true k k' ∧ maps_to D r v f heap_flags k k'
       | inr err =>
           err = bf_union PageFaultError_OUT_OF_MEMORY PageFaultError_MISSING_PAGE
           ∧ fa_free k < 5
           ∧ ∀ w, in_region D w → mapping (k_mem k') r w = mapping (k_mem k) r w
       end) k.
Proof.
  intros Hroot He Hinv Hv Hheap Hm Hc. unfold in_heap in Hheap.
  destruct (page_fault_run code v e k r Hroot) as (e' & Hl & Hrun).
  unfold wp, wpx. rewrite Hrun. apply handle_missing; try done.
  unfold handle_demand_paging. rewrite Hheap.
  eapply wp_mono; [apply (heap_demand_spec D); try done; by eapply unlocked_env|].
  intros [[]|err] k' (Hfr & Hcost & H); [done|]. split; [apply Hfr|].
  destruct H as (-> & H). unfold PageFaultError_UNKNOWN. by rewrite bf_union_0_l.
Qed.

(** C6: A page fault in the kernel heap is served by demand paging.  For a missing
    page, before or after the end of the boot, and whatever locks other than those of
    the page tables and of the frame allocator are held -- those of the heap and of the
    virtual memory manager included -- [page_fault] returns; the page is then mapped,
    writable and not executable, to a zeroed frame that had no owner and holds no page
    table, no other page changed and at most five frames were used; or fewer than five
    frames were free, the error is out of memory, and no mapping changed. *)
Theorem heap_fault_paged_in r code v e k :
  current_root e k r → frames_unlocked e → pt_inv D k r → in_region D v →
  in_heap v = true → mapping (k_mem k) r v = None →
  pfec_contains code PROTECTION_VIOLATION = false →
  wp e (page_fault code v)
    (λ res k', map_frame D r k k' ∧ fa_free k - 5 ≤ fa_free k' ∧
       match res with
       | inl ty => ty = DemandPaging ∧
           ∃ f, fresh_frame D r f true k k' ∧ maps_to D r v f heap_flags k k'
       | inr err =>
           err = bf_union PageFaultError_OUT_OF_MEMORY PageFaultError_MISSING_PAGE
           ∧ fa_free k < 5
           ∧ ∀ w, in_region D w → mapping (k_mem k') r w = mapping (k_mem k) r w
       end) k.
Proof. apply heap_fault_spec. Qed.

Lemma vmalloc_not_heap v : in_vmalloc v = true → in_heap v = false.
Proof.
  unfold in_vmalloc, in_heap, VMALLOC_START, HEAP_END, VMALLOC_END, HEAP_START. intros H.
  bool_to_prop. apply andb_false_iff. right. blia.
Qed.

Lemma vmalloc_fault_spec r code v e k :
  current_root e k r → frames_unlocked e → USED_VMA ∉ held e → SERIAL ∉ held e →
  pt_inv D k r → in_region D v →
  in_vmalloc v = true → mapping (k_mem k) r v = None →
  pfec_contains code PROTECTION_VIOLATION = false →
  wp e (page_fault code v)
    (λ res k',
       match fault_area k v with
       | None => res = inr PageFaultError_MISSING_PAGE ∧ k' = k
       | Some a =>
           if bf_contains (va_flags a) VmmFlags_MAP then
             map_frame D r k k' ∧ fa_free k - 5 ≤ fa_free k' ∧
             match res with
             | inl ty => ty = DemandPaging ∧
                 ∃ f, fresh_frame D r f (bf_contains (va_flags a) VmmFlags_ZEROED) k k'
                      ∧ maps_to D r v f vmm_flags k k'
             | inr err =>
                 err = bf_union PageFaultError_OUT_OF_MEMORY PageFaultError_MISSING_PAGE
                 ∧ fa_free k < 5
                 ∧ ∀ w, in_region D w → mapping (k_mem k') r w = mapping (k_mem k) r w
             end
           else res = inr (bf_union PageFaultError_NOT_MAPPABLE PageFaultError_MISSING_PAGE)
                ∧ k' = k
       end) k.
Proof.
  intros Hroot He HU HL Hinv Hv Hvm Hm Hc. pose proof (vmalloc_not_heap v Hvm) as Hh.
  unfold in_heap in Hh. unfold in_vmalloc in Hvm.
  destruct (page_fault_run code v e k r Hroot) as (e' & Hl & Hrun).
  assert ((USED_VMA ∉ held e') ∧ (SERIAL ∉ held e')) as [HU' HL'] by (split; by apply Hl).
  unfold wp, wpx. rewrite Hrun. apply handle_missing; try done.
  unfold handle_demand_paging. rewrite Hh, Hvm. unfold PageFaultError_UNKNOWN.
  destruct (fault_area k v) as [a|] eqn:Ha.
  - destruct (bf_contains (va_flags a) VmmFlags_MAP) eqn:HM.
    + eapply wp_mono; [eapply (vmm_demand_spec D); try done; by eapply unlocked_env|].
      intros [[]|err] k' (Hfr & Hcost & H); [done|]. split; [apply Hfr|].
      destruct H as (-> & H). by rewrite bf_union_0_l.
    + unfold vmm_handle_demand_paging. apply wp_bind, wp_irq_without, wp_with_lock; [done|].
      apply wp_bind, wp_gets, wp_ret. fold (fault_area k v). rewrite Ha, HM. simpl.
      apply wp_ret. by rewrite bf_union_0_l.
  - unfold vmm_handle_demand_paging. apply wp_bind, wp_irq_without, wp_with_lock; [done|].
    apply wp_bind, wp_gets, wp_ret. fold (fault_area k v). rewrite Ha. simpl.
    apply wp_ret. by rewrite bf_union_0_l, bf_union_diag.
Qed.

(** C15: A page fault in the vmalloc space is decided by the area in use around it.  For
    a missing page, with the locks of the page tables, of the frame allocator, of the
    areas and of the serial port free, [page_fault] returns and never panics: with no
    area, or with an area that is not to be mapped, it fails and changes nothing;
    otherwise the page is mapped, writable, to a frame that had no owner and holds no
    page table, cleared when the area asks for it, and no other page changed -- or fewer
    than five frames were free and no mapping changed. *)
Theorem vmalloc_fault_paged_in r code v e k :
  current_root e k r → frames_unlocked e → USED_VMA ∉ held e → SERIAL ∉ held e →
  pt_inv D k r → in_region D v →
  in_vmalloc v = true → mapping (k_mem k) r v = None →
  pfec_contains code PROTECTION_VIOLATION = false →
  wp e (page_fault code v)
    (λ res k',
       match fault_area k v with
       | None => res = inr PageFaultError_MISSING_PAGE ∧ k' = k
       | Some a =>
           if bf_contains (va_flags a) VmmFlags_MAP then
             map_frame D r k k' ∧ fa_free k - 5 ≤ fa_free k' ∧
             match res with
             | inl ty => ty = DemandPaging ∧
                 ∃ f, fresh_frame D r f (bf_contains (va_flags a) VmmFlags_ZEROED) k k'
                      ∧ maps_to D r v f vmm_flags k k'
             | inr err =>
                 err = bf_union PageFaultError_OUT_OF_MEMORY PageFaultError_MISSING_PAGE
                 ∧ fa_free k < 5
                 ∧ ∀ w, in_region D w → mapping (k_mem k') r w = mapping (k_mem k) r w
             end
           else res = inr (bf_union PageFaultError_NOT_MAPPABLE PageFaultError_MISSING_PAGE)
                ∧ k' = k
       end) k.
Proof. apply vmalloc_fault_spec. Qed.

(** The reasons of a protection violation. *)
Definition violation (x : PageEntry) code : Z :=
  if negb (pe_is_writable x) && pfec_contains code WRITE_ACCESS
  then PageFaultError_WRITE_PROTECTED
  else if negb (pe_is_executable x) && pfec_contains code INSTRUCTION_FETCH
  then PageFaultError_NOT_EXECUTABLE
  else PageFaultError_PROTECTION_VIOLATION.

(** The log after the record of a stale TLB. *)
Definition lazy_logged v (s : Logger) : Logger :=
  logged LTrace ("Lazy TLB invalidation at " +:+ hex_fixed 16 (virt_as_u64 v)) s.

(** A fault on a page that is mapped is never paged in.  If the processor reported a
    missing page, the TLB was stale: a record is logged, the TLB is flushed, here and on
    the other processors when the local APIC runs, and nothing else changes.  If it reported a protection
    violation, nothing at all changes and the error names the violated right: write
    protection first, then execution. *)
Theorem fault_on_mapped_page r code v x e k :
  current_root e k r → SERIAL ∉ held e → pt_inv D k r → in_region D v →
  mapping (k_mem k) r v = Some x →
  page_fault code v e k =
    if pfec_contains code PROTECTION_VIOLATION
    then Ret (inr (violation x code)) k
    else Ret (inl LazyTlbInvalidation)
           (set_events (shootdown_events (k_events k)) (set_log (lazy_logged v (k_log k)) k)).
Proof.
  intros Hroot HL Hinv Hv Hm.
  destruct (page_fault_run code v e k r Hroot) as (e' & Hl & ->).
  unfold handle_page_fault. rewrite bind_run.
  destruct (fetch_cases D v e' k r Hinv Hv) as [[H _]|(q & _ & Hb & _ & Hp & H & Hf)];
    [congruence|].
  assert (k_mem k q (idx v 0) = x) as Hx by congruence. rewrite Hf. unfold pte_present.
  rewrite bind_run. erewrite bind_ret_run by (by apply read_entry_run).
  unfold mret at 1, M_ret. rewrite Hp. rewrite bool_decide_eq_true_2 by (by eexists). simpl.
  destruct (pfec_contains code PROTECTION_VIOLATION) eqn:Hc; simpl.
  - rewrite bind_run; simpl. unfold fault_reasons. rewrite !bind_run, Hf, Hc.
    rewrite bind_run, read_entry_run, Hx by done. unfold violation.
    destruct (negb (pe_is_writable x) && _); [|destruct (negb (pe_is_executable x) && _)];
      simpl; by rewrite bf_union_0_l.
  - erewrite bind_ret_run by (apply kernel_log_run; by apply Hl).
    by rewrite bind_run, tlb_shootdown_run.
Qed.

(** A missing page outside the heap and the vmalloc space is never paged in: the
    fault fails with [MISSING_PAGE] and nothing changes. *)
Theorem fault_elsewhere_fails r code v e k :
  current_root e k r → pt_inv D k r → in_region D v → mapping (k_mem k) r v = None →
  in_heap v = false → in_vmalloc v = false →
  pfec_contains code PROTECTION_VIOLATION = false →
  wp e (page_fault code v) (λ res k', res = inr PageFaultError_MISSING_PAGE ∧ k' = k) k.
Proof.
  intros Hroot Hinv Hv Hm Hh Hvm Hc. unfold in_heap in Hh. unfold in_vmalloc in Hvm.
  destruct (page_fault_run code v e k r Hroot) as (e' & Hl & Hrun).
  unfold wp, wpx. rewrite Hrun. apply handle_missing; try done.
  unfold handle_demand_paging. rewrite Hh, Hvm. apply wp_ret.
  unfold PageFaultError_UNKNOWN. by rewrite !bf_union_0_l.
Qed.

(** Once the boot is over, a fault taken while the lock of the active table is held spins on
    that lock: the code that holds it must not touch memory that is paged in on demand. *)
Lemma fault_under_table_lock code v e k root :
  k_early k = false → k_active_table k = Some root → ACTIVE_TABLE ∈ held e →
  page_fault code v e k = Deadlock ACTIVE_TABLE.
Proof.
  intros Hearly Hroot HA. unfold page_fault. erewrite bind_ret_run by reflexivity.
  rewrite Hearly, irq_without_run. unfold with_active_table, ACTIVE_TABLE_force.
  rewrite bind_run. erewrite bind_ret_run by reflexivity. rewrite Hroot.
  unfold mret at 1, M_ret. by rewrite with_lock_held.
Qed.

(** While a frame is free, the handler of the vmalloc space gets to its record. *)
Lemma vmm_demand_in_logger table v e k a :
  fa_inv k → frames_unlocked e → USED_VMA ∉ held e → SERIAL ∈ held e →
  log_enabled LTrace (k_log k) = true → fault_area k v = Some a →
  bf_contains (va_flags a) VmmFlags_MAP = true → 0 < fa_free k →
  vmm_handle_demand_paging table v e k = Deadlock SERIAL.
Proof.
  intros Hinv [HFA HFS] HU HL Hen Ha HM Hfree. unfold vmm_handle_demand_paging.
  erewrite bind_ret_run by (rewrite irq_without_run, with_lock_free by done; reflexivity).
  fold (fault_area k v). rewrite Ha, HM. simpl.
  set (flags := if bf_contains (va_flags a) VmmFlags_ZEROED then _ else _).
  pose proof (fa_allocate_spec flags (acquire FRAME_ALLOCATOR (irqs_off e)) k Hinv
    ltac:(by apply held_acquire)) as Hwp.
  apply wp_run in Hwp as (o & k' & Hrun & _ & H).
  erewrite bind_ret_run.
  2:{ unfold locked_allocate. rewrite irq_without_run, with_lock_free by done. exact Hrun. }
  destruct o as [f|]; [|lia]. destruct H as (_ & _ & _ & _ & _ & _ & Heq).
  by rewrite bind_run, kernel_log_deadlocks by (done || by rewrite Heq).
Qed.

(** C39: The logger must not touch memory of the vmalloc space that is not mapped yet.  A
    fault there, on a page of an area to be mapped, logs a record before it maps the page:
    taken with the serial port locked on the same processor, while trace records are
    enabled and a frame is free, it spins on that lock for ever instead of being resolved. *)
Theorem vmalloc_fault_in_logger_deadlocks r code v a e k :
  current_root e k r → frames_unlocked e → USED_VMA ∉ held e → SERIAL ∈ held e →
  log_enabled LTrace (k_log k) = true → pt_inv D k r → in_region D v →
  in_vmalloc v = true → mapping (k_mem k) r v = None →
  fault_area k v = Some a → bf_contains (va_flags a) VmmFlags_MAP = true → 0 < fa_free k →
  pfec_contains code PROTECTION_VIOLATION = false →
  page_fault code v e k = Deadlock SERIAL.
Proof.
  intros Hroot He HU HL Hen Hinv Hv Hvm Hm Ha HM Hfree Hc.
  pose proof (vmalloc_not_heap v Hvm) as Hh. unfold in_heap in Hh. unfold in_vmalloc in Hvm.
  destruct (page_fault_locks code v e k r Hroot) as (e' & Hl & Hl' & ->).
  unfold handle_page_fault. rewrite bind_run.
  destruct (fetch_cases D v e' k r Hinv Hv) as [[_ ->]|(q & _ & _ & _ & _ & H & _)];
    [|congruence].
  erewrite bind_ret_run by reflexivity. simpl. rewrite Hc. simpl. rewrite !bind_run.
  unfold handle_demand_paging. rewrite Hh, Hvm.
  rewrite (vmm_demand_in_logger _ v e' k a); auto; [apply Hinv|by eapply unlocked_env].
Qed.
End Handlers.

(** ** Witnesses *)

(** A missing page, as the processor reports it. *)
Definition ref_code : PageFaultErrorCode := pfec_from_bits_truncate 2.

Lemma ref_current k :
  k_early k = false → active_rootb k 4096 = true → current_root ref_env k 4096.
Proof.
  intros He Hk. unfold current_root. rewrite He.
  split; [by apply active_rootb_sound|split; apply ref_env_unlocked].
Qed.

Lemma heap_fault_paged_in_witness :
  wp ref_env (page_fault ref_code ref_page)
    (λ res k', pt_inv everywhere k' 4096 ∧ res = inl DemandPaging) (ref_space 8).
Proof.
  eapply wp_mono.
  - apply (heap_fault_paged_in everywhere 4096 ref_code ref_page ref_env (ref_space 8));
      [by apply ref_current|exact ref_unlocked|exact ref_space_inv|exact I|reflexivity
      |exact ref_page_unmapped|reflexivity].
  - intros [ty|err] k' (Hf & _ & H); (split; [apply Hf|]).
    + destruct H as [-> _]. reflexivity.
    + destruct H as (_ & H & _). vm_compute in H. discriminate H.
Defined.

(** Two pages of the vmalloc space, to be mapped on demand and cleared. *)
Definition ref_vflags : Z := Z.lor VmmFlags_MAP VmmFlags_ZEROED.
Definition ref_alloc : Kernel := ret_state (vmm_allocate 8192 ref_vflags ref_env ref_vmm) ref_vmm.
Definition ref_vpage : Virtual := virt_of 0xFFFFA00000001234.

Lemma ref_alloc_inv : pt_inv everywhere ref_alloc 4096.
Proof.
  split.
  - apply alloc_invb_sound. vm_compute. reflexivity.
  - apply tables_empty; [|done|].
    + intros i. vm_compute. reflexivity.
    + vm_compute. reflexivity.
Qed.

Lemma ref_alloc_area :
  ∃ a, fault_area ref_alloc ref_vpage = Some a
       ∧ bf_contains (va_flags a) VmmFlags_MAP = true.
Proof.
  assert (match fault_area ref_alloc ref_vpage with
          | Some a => bf_contains (va_flags a) VmmFlags_MAP | None => false end = true) as H
    by (vm_compute; reflexivity).
  destruct (fault_area ref_alloc ref_vpage) as [a|]; [by exists a|discriminate H].
Qed.

Lemma ref_vpage_unmapped : mapping (k_mem ref_alloc) 4096 ref_vpage = None.
Proof. vm_compute. reflexivity. Qed.

Lemma vmalloc_fault_paged_in_witness :
  wp ref_env (page_fault ref_code ref_vpage)
    (λ res k', pt_inv everywhere k' 4096 ∧ res = inl DemandPaging) ref_alloc.
Proof.
  eapply wp_mono.
  - apply (vmalloc_fault_paged_in everywhere 4096 ref_code ref_vpage ref_env ref_alloc);
      [apply ref_current; vm_compute; reflexivity|exact ref_unlocked|apply ref_env_unlocked
      |apply ref_env_unlocked|exact ref_alloc_inv|exact I|reflexivity|exact ref_vpage_unmapped|reflexivity].
  - destruct ref_alloc_area as (a & -> & ->).
    intros [ty|err] k' (Hf & _ & H); (split; [apply Hf|]).
    + destruct H as [-> _]. reflexivity.
    + destruct H as (_ & H & _). vm_compute in H. discriminate H.
Defined.

Lemma ref_mapped_current : current_root ref_env ref_mapped 4096.
Proof. apply ref_current; vm_compute; reflexivity. Qed.

Lemma fault_on_mapped_page_witness :
  ∃ x, page_fault ref_code ref_page ref_env ref_mapped
         = Ret (inl LazyTlbInvalidation)
             (set_events [Cr3Reload] (set_log (lazy_logged ref_page (k_log ref_mapped)) ref_mapped))
       ∧ page_fault (pfec_from_bits_truncate 3) ref_page ref_env ref_mapped
         = Ret (inr (violation x (pfec_from_bits_truncate 3))) ref_mapped.
Proof.
  destruct ref_mapped_entry as (x & Hx & _). exists x. split.
  - exact (fault_on_mapped_page everywhere 4096 ref_code ref_page x ref_env ref_mapped
      ref_mapped_current (ref_env_unlocked _) ref_mapped_inv I Hx).
  - exact (fault_on_mapped_page everywhere 4096 (pfec_from_bits_truncate 3) ref_page x ref_env
      ref_mapped ref_mapped_current (ref_env_unlocked _) ref_mapped_inv I Hx).
Defined.

Lemma fault_elsewhere_fails_witness :
  wp ref_env (page_fault ref_code (virt_of 0x1000))
    (λ res k', res = inr PageFaultError_MISSING_PAGE ∧ k' = ref_space 8) (ref_space 8).
Proof.
  apply (fault_elsewhere_fails everywhere 4096 ref_code (virt_of 0x1000));
    [by apply ref_current|exact ref_space_inv|exact I|vm_compute; reflexivity|reflexivity..].
Defined.

Lemma ref_logging_unlocked l : l ≠ SERIAL → l ∉ held (acquire SERIAL ref_env).
Proof. intros Hl. apply held_acquire; [done|apply ref_env_unlocked]. Qed.

Lemma ref_logging_current : current_root (acquire SERIAL ref_env) ref_alloc 4096.
Proof.
  unfold current_root. replace (k_early ref_alloc) with false by (vm_compute; reflexivity).
  split; [|split; by apply ref_logging_unlocked].
  apply active_rootb_sound; [done|vm_compute; reflexivity].
Qed.

Lemma vmalloc_fault_in_logger_deadlocks_witness :
  page_fault ref_code ref_vpage (acquire SERIAL ref_env) ref_alloc = Deadlock SERIAL.
Proof.
  destruct ref_alloc_area as (a & Ha & HM).
  refine (vmalloc_fault_in_logger_deadlocks everywhere 4096 ref_code ref_vpage a
    (acquire SERIAL ref_env) ref_alloc ref_logging_current _ (ref_logging_unlocked _ _) _ _
    ref_alloc_inv I _ ref_vpage_unmapped Ha HM _ _).
  - split; by apply ref_logging_unlocked.
  - done.
  - left.
  - vm_compute. reflexivity.
  - reflexivity.
  - vm_compute. reflexivity.
  - reflexivity.
Defined.
