(* ===== verification/BspTables.v ===== *)
(** * The page tables of the BSP: [src/src/arch/paging.rs]

    The first use of the tables, on the BSP: [INIT_TABLE] wraps the bootloader's table,
    [ACTIVE_TABLE] is a copy of it, and [setup] fills in the kernel half of the copy. *)

From S2P Require Import Prelude Machine External Reference Frame BTree Log Kernel FrameState FrameAlloc Paging PageTables PagingSpec PagingRoots Vmm VmmSpec Fault.

Section BspTables.
Context {BF : Bitflags} {BFS : BitflagsSpec BF} {RT : Runtime} {RTS : RuntimeSpec RT}
  {XA : X86Address} {XAS : X86AddressSpec XA} {XP : X86Paging XA} {XPS : X86PagingSpec XP}
  {LG : Logging} {LGS : LoggingSpec LG}
  {XC : X86Cpu} {XCS : X86CpuSpec XC} {IM : IdentityMapped XA XC}
  {FA : Allocator} {FAS : AllocatorSpec FA}.
Variable D : Z → Prop.
Implicit Types (e : Env) (k : Kernel) (p q r i : Z) (l : list Z) (v w : Virtual).

Lemma hhdm_value p : 0 ≤ p < 2 ^ 44 → virt_as_u64 (virt_of (hhdm p)) = hhdm p.
Proof. intros Hp. unfold hhdm. apply virt_of_hhdm. lia. Qed.

(** The bootloader's table is the one at [r]: nothing was forced yet, and CR3 holds it. *)
Definition boot_root k r : Prop :=
  0 ≤ r < 2 ^ 44 ∧ r mod 4096 = 0 ∧ k_init_table k = None
  ∧ 0 ≤ cr3_read (k_events k) < 2 ^ 44 ∧ cr3_read (k_events k) / 4096 * 4096 = r
  ∧ fa_refs k r < 2 ^ 64 - 1.

(** Forcing [INIT_TABLE] adds a reference to the bootloader's table. *)
Lemma init_force_spec r e k :
  boot_root k r → pt_inv D k r → frames_unlocked e →
  wp e INIT_TABLE_force
    (λ t k', t = mkTableRoot (virt_of (hhdm r)) (frame_at r) ∧ init_root k' r ∧ pt_inv D k' r
       ∧ fa_free k' = fa_free k ∧ (∀ a, fa_live k' a ↔ fa_live k a) ∧ first_fit k k'
       ∧ k' = set_init_table (Some t) (set_frames (k_frames k') (set_stats (k_stats k') k))) k.
Proof.
  intros (Hr & Hal & Hno & Hc & Hcr & Hrefs) Hinv [HF HS]. unfold INIT_TABLE_force.
  assert (fa_live k r) as Hlive
    by apply (tables_live D _ _ _ (pt_tables D k r Hinv) [] r (good_nil D) eq_refl).
  assert (phys_as_u64 (phys_of r) = r) as Hpr by (apply phys_of_u64; lia).
  apply wp_bind, wp_gets. rewrite Hno. apply wp_bind.
  eapply wp_of_run; [by apply active_table_run|]. rewrite Hcr.
  rewrite virt_new_of by (apply hhdm_canonical; lia). apply wp_bind, wp_ret, wp_bind.
  eapply wp_of_run; [apply virt_to_phys_run; rewrite hhdm_value; unfold hhdm; dlia|].
  rewrite hhdm_value by done. replace (hhdm r - 0xFFFF800000000000) with r by (unfold hhdm; lia).
  apply wp_bind. eapply wp_of_run.
  { rewrite Frame_new_run, Hpr, Hal. reflexivity. }
  change (mkFrame (phys_of r)) with (frame_at r).
  apply wp_bind, wp_irq_without, wp_with_lock; [done|].
  assert (frame_u64 (frame_at r) = r) as Hfu by (apply frame_at_u64; lia).
  eapply wp_mono; [apply (fa_reference_spec (frame_at r));
    [apply Hinv|by apply held_acquire|by rewrite Hfu|by rewrite Hfu]|].
  intros [] k1 (Ha1 & Hf1 & Hrefs1 & Hav1 & Heq1). rewrite Hfu in Hrefs1.
  unfold TableRoot_from. change (Frame_start (frame_at r)) with (phys_of r).
  apply wp_bind, wp_bind, wp_phys_to_virt; [rewrite Hpr; lia|]. rewrite Hpr.
  change (0xFFFF800000000000 + r) with (hhdm r). apply wp_ret.
  apply wp_bind, wp_modify, wp_ret.
  assert (∀ a, fa_live k1 a ↔ fa_live k a) as Hl.
  { intros a. unfold fa_live in *. rewrite Hrefs1. destruct (Z.eqb_spec a r); subst; lia. }
  split; [done|]. split; [split; [done|by split]|].
  split; [|split; [rewrite <- Hf1; by apply fa_free_local|split; [|split]]].
  - destruct Hinv as [_ [Hl1 Hi1]]. split; [by eapply fa_inv_local; [..|exact Ha1]|].
    simpl. assert (k_mem k1 = k_mem k) as -> by (by rewrite Heq1). split; [|done].
    intros l p Hg Hp. destruct (Hl1 l p Hg Hp). split; [done|].
    eapply fa_live_local; [|by apply Hl]. done.
  - intros a. rewrite <- Hl. split; intros Ha; (eapply fa_live_local; [|exact Ha]); done.
  - eapply (first_fit_trans k k1); [|by apply first_fit_local].
    split; [intros a; by rewrite Hav1|]. by intros a ?%Hl.
  - rewrite Heq1. by destruct k.
Qed.

(** Forcing [ACTIVE_TABLE] on the BSP forces [INIT_TABLE] first. *)
Lemma bsp_force_spec r e k :
  boot_root k r → k_active_table k = None → pt_inv D k r → frames_unlocked e → 0 < fa_free k →
  wp e ap_setup
    (λ _ k', ∃ q, active_root k' q ∧ cr3_read (k_events k') = q ∧ root_made D r q k k'
       ∧ init_root k' r ∧ k_free_vma k' = k_free_vma k ∧ k_used_vma k' = k_used_vma k
       ∧ k_early k' = k_early k ∧ fa_free k' = fa_free k - 1) k.
Proof.
  intros Hboot Hact Hinv He Hfree.
  pose proof (init_force_spec r e k Hboot Hinv He) as Hi.
  apply wp_run in Hi as (t & k0 & Hrun & -> & Hroot & Hinv0 & Hf0 & Hl0 & Hff0 & Heq0).
  assert (k_active_table k0 = None) as Hact0 by (by rewrite Heq0).
  assert (k_mem k0 = k_mem k) as Hm0 by (by rewrite Heq0).
  assert (ap_setup e k = ap_setup e k0) as Hsame.
  { assert (INIT_TABLE_force e k0 = Ret (mkTableRoot (virt_of (hhdm r)) (frame_at r)) k0) as Hrun0.
    { unfold INIT_TABLE_force. erewrite bind_ret_run by reflexivity.
      by destruct Hroot as (_ & _ & ->). }
    unfold ap_setup, ACTIVE_TABLE_force. rewrite (bind_run _ _ e k), (bind_run _ _ e k0).
    rewrite (bind_ret_run (gets k_active_table) _ e k _ _ eq_refl).
    rewrite (bind_ret_run (gets k_active_table) _ e k0 _ _ eq_refl). rewrite Hact, Hact0.
    by rewrite (bind_ret_run _ _ e k _ _ Hrun), (bind_ret_run _ _ e k0 _ _ Hrun0). }
  unfold wp, wpx. rewrite Hsame.
  eapply wp_mono; [apply (ap_setup_spec D r e k0); [done..|lia]|].
  intros [] k' (q & H1 & H2 & Hmade & (H3 & H4 & H5 & H6) & H7). exists q.
  destruct Hmade as [(M1 & M2) M3 M4 M5 M6 M7 M8 M9].
  split; [done|]. split; [done|]. split; [|split; [|split_and!]].
  - split; try done.
    + split; [by rewrite <- Hl0|done].
    + intros v Hv. rewrite <- Hm0. by apply M6.
    + intros p i Hp. rewrite <- Hm0. by apply M7.
    + intros a Ha. by apply M8, Hl0.
    + by eapply first_fit_trans.
  - destruct Hroot as (R1 & R2 & R3). split; [done|]. split; [done|congruence].
  - rewrite H3. by rewrite Heq0.
  - rewrite H4. by rewrite Heq0.
  - rewrite H5. by rewrite Heq0.
  - lia.
Qed.

(** Filling in absent entries keeps what is mapped. *)
Lemma mapping_preallocated q k pre k' v x :
  pt_inv D k q → preallocated q k pre k' → in_region D v →
  mapping (k_mem k) q v = Some x → mapping (k_mem k') q v = Some x.
Proof.
  intros Hinv Hpre Hv. unfold mapping, leaf. pose proof (good_idxs D v Hv) as Hg.
  change (idxs v 3) with (idx v 3 :: idxs v 2) in *.
  intros Hm. destruct (pe_is_present (k_mem k q (idx v 3))) eqn:Hp.
  - rewrite (follow_present D q k k'); try done.
    + destruct (follow (k_mem k) q (idx v 3 :: idxs v 2)) as [p|] eqn:Hf; [|done].
      simpl in *. unfold entry_at in *. rewrite (pre_memory _ _ _ _ Hpre); [done|]. intros ->.
      by pose proof (tables_inj D _ _ _ (pt_tables D k q Hinv) _ [] q Hg (good_nil D) Hf eq_refl).
    + apply (pre_kept _ _ _ _ Hpre). by right.
    + apply Hpre.
  - rewrite follow_cons in Hm. unfold next_table in Hm. by rewrite Hp in Hm.
Qed.

Lemma root_made_unowned r q k k' : root_made D r q k k' → unowned_kept k k'.
Proof.
  intros Hm. split; [apply Hm|]. intros p i Hn. apply (rm_kept _ _ _ _ _ Hm). intros ->. by apply Hn, (rm_fresh _ _ _ _ _ Hm).
Qed.
End BspTables.
