(* ===== verification/VmmDealloc.v ===== *)
(** * The virtual memory manager: deallocation of mapped ranges

    [deallocate] of [src/src/mm/vmm.rs] unmaps the pages of a range and gives
    their frames back before the range becomes free again.  This file proves it
    against the page-table invariant and the contract of the frame allocator. *)

From S2P Require Import Prelude Machine External Reference Frame BTree Log Kernel FrameState FrameAlloc Paging PageTables PagingSpec Vmm VmmSpec Fault.

Section Release.
Context {BF : Bitflags} {BFS : BitflagsSpec BF} {RT : Runtime} {RTS : RuntimeSpec RT}
  {XA : X86Address} {XAS : X86AddressSpec XA} {XP : X86Paging XA} {XPS : X86PagingSpec XP}
  {LG : Logging} {LGS : LoggingSpec LG}
  {XC : X86Cpu} {XCS : X86CpuSpec XC} {FA : Allocator} {FAS : AllocatorSpec FA}.
Variable D : Z → Prop.
Implicit Types (e : Env) (k : Kernel) (a : VirtualArea) (p r : Z) (v w : Virtual).

(** No lock of the memory manager is held. *)
Definition mm_unlocked e : Prop :=
  Forall (λ l, l ∉ held e)
    [FRAME_STATE; FRAME_ALLOCATOR; FREE_VMA; USED_VMA; ACTIVE_TABLE; TABLE_ROOT].

Definition entry_page (x : PageEntry) : Z := phys_as_u64 (pe_addr_field x).

(** A table set stays well formed when frames that hold no table lose their owner. *)
Lemma tables_ok_live live live' m r :
  tables_ok D live m r → (∀ p, is_table D m r p → live' p) → tables_ok D live' m r.
Proof.
  intros [Hl Hi] H. split; [|done]. intros l p Hg Hf.
  destruct (Hl l p Hg Hf) as [Hb _]. split; [done|]. apply H. by exists l.
Qed.

Lemma unmap_current_run v r e k :
  active_root k r → pt_inv D k r → in_region D v →
  ACTIVE_TABLE ∉ held e → TABLE_ROOT ∉ held e →
  unmap_current v e k =
    match mapping (k_mem k) r v, follow (k_mem k) r (idxs v 3) with
    | Some x, Some q =>
        Ret (Some (entry_phys x v))
          (leaf_state v q (pe_clear x) (shootdown_events (k_events k)) k)
    | _, _ => Ret None k
    end.
Proof.
  intros Hr Hinv Hv HA HT. unfold unmap_current. rewrite irq_without_run.
  rewrite (with_active_table_run _ r) by done. by rewrite (unmap_run D).
Qed.

(** The effect of releasing the page of [v]. *)
Record page_released r v k k' : Prop := {
  rel_inv : pt_inv D k' r;
  rel_active : k_active_table k' = k_active_table k;
  rel_vma : k_free_vma k' = k_free_vma k ∧ k_used_vma k' = k_used_vma k;
  rel_tables p : is_table D (k_mem k') r p ↔ is_table D (k_mem k) r p;
  rel_mapping w : in_region D w → mapping (k_mem k') r w =
    if same_page w v then None else mapping (k_mem k) r w;
  rel_freed x : mapping (k_mem k) r v = Some x →
    fa_refs k' (entry_page x) = fa_refs k (entry_page x) - 1;
  rel_kept p : (∀ x, mapping (k_mem k) r v = Some x → entry_page x ≠ p) →
    fa_refs k' p = fa_refs k p
}.

Lemma entry_phys_aligned (x : PageEntry) v :
  virt_as_u64 v mod 4096 = 0 → entry_phys x v = pe_addr_field x.
Proof. intros Hv. unfold entry_phys. rewrite Hv, Z.add_0_r. apply phys_of_id. Qed.

Lemma release_page_spec r v e k :
  active_root k r → pt_inv D k r → in_region D v → virt_as_u64 v mod 4096 = 0 →
  mm_unlocked e →
  (∀ x, mapping (k_mem k) r v = Some x →
     fa_live k (entry_page x) ∧ ¬ is_table D (k_mem k) r (entry_page x)) →
  wp e (release_page v) (λ _ k', page_released r v k k') k.
Proof.
  intros Hr Hinv Hv Hal He Hown. unfold mm_unlocked in He.
  rewrite !Forall_cons in He. destruct He as (HS & HF & _ & _ & HA & HT & _).
  apply wp_bind. destruct (mapping (k_mem k) r v) as [x|] eqn:Hm.
  - destruct (mapped_follow v k r x Hm) as (q & Hq & _ & _).
    destruct (Hown x eq_refl) as [Hlive Hnt].
    eapply wp_of_run; [rewrite (unmap_current_run v r) by done; by rewrite Hm, Hq|].
    set (k1 := leaf_state _ _ _ _ _). rewrite entry_phys_aligned by done.
    destruct (leaf_state_inv D v q (pe_clear x) (shootdown_events (k_events k)) k r
      Hinv Hv Hq) as ([Ha1 Hok1] & _ & Hm1). fold k1 in Ha1, Hok1, Hm1.
    destruct (leaf_write_mapping D v q (k_mem k1) k r (fa_live k1)
      (pt_tables D k r Hinv) Hv Hq) as (_ & Htab & _).
    { intros p' j _. apply mem_write_other. }
    { intros b. by apply fa_live_local. }
    apply wp_irq_without, wp_with_lock; [done|]. apply wp_bind.
    eapply wp_of_run; [rewrite Frame_new_run; by rewrite pe_addr_field_aligned|].
    set (f := mkFrame (pe_addr_field x)).
    eapply wp_mono; [apply (fa_deallocate_spec f); [done|by apply held_acquire| |]|].
    { apply pe_addr_field_aligned. }
    { by eapply fa_live_local; [|exact Hlive]. }
    intros _ k2 (Ha2 & _ & Hrefs & Heq).
    assert (k_mem k2 = k_mem k1) as Hm2 by (by rewrite Heq).
    assert (∀ b, fa_refs k1 b = fa_refs k b) as Hrefs1 by (intros b; by apply fa_refs_local).
    assert (∀ b, b ≠ entry_page x → fa_live k1 b → fa_live k2 b) as Hl2.
    { intros b Hb. unfold fa_live. rewrite Hrefs. unfold f, frame_u64. simpl.
      rewrite (proj2 (Z.eqb_neq b _)) by done. lia. }
    split; rewrite ?Hm2; try (by rewrite Heq).
    + split; [done|]. rewrite Hm2. eapply tables_ok_live; [exact Hok1|]. intros p Ht.
      apply Hl2; [intros ->; apply Hnt, Htab, Ht|].
      destruct Ht as (l & Hg & Hf). by apply (tables_live D _ _ _ Hok1 l p Hg Hf).
    + apply Htab.
    + intros w Hw. rewrite Hm1 by done. by rewrite pe_clear_absent.
    + intros y. rewrite Hm. intros [= <-]. rewrite Hrefs, Hrefs1.
      unfold f, frame_u64, entry_page. simpl. by rewrite Z.eqb_refl.
    + intros p Hx. rewrite Hrefs, Hrefs1. unfold f, frame_u64. simpl.
      rewrite (proj2 (Z.eqb_neq p _)); [lia|]. intros ->. by apply (Hx x).
  - eapply wp_of_run; [rewrite (unmap_current_run v r) by done; by rewrite Hm|].
    apply wp_ret. split; try done.
    + intros w Hw. destruct (same_page w v) eqn:E; [|done].
      by rewrite (same_page_mapping _ r v w E).
    + intros x. by rewrite Hm.
Qed.

(** The pages of an area are mapped to frames of their own: frames that have an owner,
    hold no page table and are mapped by no other page of the area. *)
Record exclusive r a k : Prop := {
  ex_region v : covers_addr v a = true → in_region D v;
  ex_owned v x : covers_addr v a = true → mapping (k_mem k) r v = Some x →
    fa_live k (entry_page x) ∧ ¬ is_table D (k_mem k) r (entry_page x);
  ex_inj v w x y : covers_addr v a = true → covers_addr w a = true →
    mapping (k_mem k) r v = Some x → mapping (k_mem k) r w = Some y →
    entry_page x = entry_page y → same_page v w = true
}.

(** The addresses of the first [j] pages of an area. *)
Definition below a (j : Z) v : bool :=
  (va_start a <=? virt_as_u64 v) && (virt_as_u64 v <? va_start a + 4096 * j).

Record releasing r a k (j : Z) k' : Prop := {
  rls_inv : pt_inv D k' r;
  rls_active : k_active_table k' = k_active_table k;
  rls_vma : k_free_vma k' = k_free_vma k ∧ k_used_vma k' = k_used_vma k;
  rls_tables p : is_table D (k_mem k') r p ↔ is_table D (k_mem k) r p;
  rls_mapping w : in_region D w → mapping (k_mem k') r w =
    if below a j w then None else mapping (k_mem k) r w;
  rls_freed v x : below a j v = true → mapping (k_mem k) r v = Some x →
    fa_refs k' (entry_page x) = fa_refs k (entry_page x) - 1;
  rls_kept p :
    (∀ v x, below a j v = true → mapping (k_mem k) r v = Some x → entry_page x ≠ p) →
    fa_refs k' p = fa_refs k p
}.

Lemma below_0 a v : below a 0 v = false.
Proof.
  unfold below. destruct (Z.leb_spec (va_start a) (virt_as_u64 v)),
    (Z.ltb_spec (virt_as_u64 v) (va_start a + 4096 * 0)); simpl; lia || done.
Qed.

Lemma releasing_nil r a k : pt_inv D k r → releasing r a k 0 k.
Proof.
  intros Hinv. split; try done.
  - intros w _. by rewrite below_0.
  - intros v x. by rewrite below_0.
Qed.

Lemma below_covers a j v : 4096 * j ≤ va_size a → below a j v = true → covers_addr v a = true.
Proof. rewrite va_size_spec, covers_spec. unfold below. intros ? ?. blia. Qed.

Lemma below_next a j v w :
  area_ok a → virt_as_u64 v = va_start a + 4096 * j → 0 ≤ j →
  below a (j + 1) w = below a j w || same_page w v.
Proof.
  intros (_ & Hs & _) Hv Hj. unfold below, same_page. rewrite Hv.
  apply eq_iff_eq_true. rewrite orb_true_iff, !andb_true_iff.
  rewrite !Z.leb_le, !Z.ltb_lt, Z.eqb_eq. dlia.
Qed.

(** One iteration of the loop. *)
Lemma releasing_step r a k j k1 v e :
  active_root k r → exclusive r a k → area_ok a → mm_unlocked e →
  releasing r a k j k1 → 0 ≤ j → 4096 * (j + 1) ≤ va_size a →
  virt_as_u64 v = va_start a + 4096 * j →
  wp e (release_page v) (λ _ k2, releasing r a k (j + 1) k2) k1.
Proof.
  intros Hroot [Hreg Hown Hinj] Ha He [Hinv Hact Hvma Htab Hmap Hfreed Hkept] Hj Hsz Hv.
  assert (∀ w, below a (j + 1) w = below a j w || same_page w v) as Hbelow
    by (intros w; by apply below_next).
  assert (below a j v = false) as Hvj.
  { unfold below. rewrite Hv. rewrite (proj2 (Z.ltb_ge _ _)) by lia. apply andb_false_r. }
  assert (below a (j + 1) v = true) as Hvj1.
  { rewrite Hbelow. unfold same_page. by rewrite Z.eqb_refl, orb_true_r. }
  pose proof (below_covers a (j + 1) v Hsz Hvj1) as Hcv.
  assert (∀ w, below a j w = true → covers_addr w a = true) as Hcj.
  { intros w Hw. apply (below_covers a (j + 1)); [done|]. by rewrite Hbelow, Hw. }
  assert (in_region D v) as Hvr by auto.
  assert (mapping (k_mem k1) r v = mapping (k_mem k) r v) as Hm1 by (by rewrite Hmap, Hvj).
  assert (∀ w y x, below a j w = true → mapping (k_mem k) r w = Some y →
    mapping (k_mem k) r v = Some x → entry_page y ≠ entry_page x) as Hnew.
  { intros w y x Hw Hy Hx Heq. pose proof (Hinj w v y x (Hcj w Hw) Hcv Hy Hx Heq) as Hsame.
    unfold below, same_page in *. rewrite Hv in Hsame. destruct Ha as (_ & Hs & _).
    bool_to_prop. dlia. }
  eapply wp_mono; [apply (release_page_spec r v); try done|].
  - destruct Hroot as [Hb [f Hf]]. split; [done|]. exists f. by rewrite Hact.
  - rewrite Hv. destruct Ha as (_ & Hs & _). dlia.
  - intros x. rewrite Hm1. intros Hx. destruct (Hown v x Hcv Hx) as [Hl Hnt].
    split; [|by rewrite Htab]. unfold fa_live. rewrite Hkept; [exact Hl|].
    intros w y Hw Hy. by apply (Hnew w y x).
  - intros _ k2 [Rinv Ract Rvma Rtab Rmap Rfreed Rkept]. split.
    + done.
    + by rewrite Ract.
    + destruct Rvma as [-> ->]. done.
    + intros p. by rewrite Rtab.
    + intros w Hw. rewrite Rmap, Hmap, Hbelow by done.
      by destruct (below a j w), (same_page w v).
    + intros w x Hw Hx. rewrite Hbelow in Hw. apply orb_true_iff in Hw as [Hw|Hw].
      * rewrite Rkept; [by apply (Hfreed w)|]. intros y. rewrite Hm1. intros Hy Heq.
        by apply (Hnew w x y).
      * rewrite (same_page_mapping _ r v w Hw) in Hx. rewrite Rfreed by (by rewrite Hm1).
        rewrite Hkept; [done|]. intros w' y Hw' Hy. by apply (Hnew w' y x).
    + intros p Hx. rewrite Rkept, Hkept; [done| |].
      * intros w y Hw. apply Hx. by rewrite Hbelow, Hw.
      * intros x. rewrite Hm1. by apply Hx.
Qed.

Lemma release_pages_spec r a k e fuel j k1 :
  active_root k r → exclusive r a k → area_ok a → mm_unlocked e →
  releasing r a k j k1 → 0 ≤ j → 4096 * j ≤ va_size a →
  va_size a / 4096 - j < Z.of_nat fuel →
  wp e (release_pages fuel (va_range a) j)
    (λ _ k2, releasing r a k (va_size a / 4096) k2) k1.
Proof.
  intros Hroot Hex Ha He. revert j k1. induction fuel as [|fuel IH]; intros j k1 Hrel Hj Hle Hf.
  { assert (j ≤ va_size a / 4096) by dlia. lia. }
  pose proof Ha as (_ & Hs & Hend & Hlo & Hhi). pose proof (va_size_spec a) as Hsz.
  cbn [release_pages]. rewrite PAGE_SIZE_spec.
  destruct (decide (4096 * (j + 1) ≤ va_size a)) as [Hlt|Hge].
  - destruct (vr_iter_nth_spec (va_range a) (j * 4096)) as (v & -> & Hv).
    { unfold va_size in *. lia. }
    { apply vmalloc_canonical. fold (va_start a). lia. }
    apply wp_bind. eapply wp_mono.
    { apply (releasing_step r a k j k1 v); try done. rewrite Hv. unfold va_start. lia. }
    intros [] k2 Hrel2. apply IH; [done|lia|lia|lia].
  - assert (4096 * j = va_size a) as Heq by dlia.
    rewrite vr_iter_nth_end by (unfold va_size in *; lia). apply wp_ret.
    by replace (va_size a / 4096) with j by dlia.
Qed.

Lemma vmm_deallocate_spec r a range e k :
  vma_inv k → used_area k a → virt_as_u64 (vr_start range) = va_start a →
  active_root k r → pt_inv D k r →
  (bf_contains (va_flags a) VmmFlags_MAP = true → exclusive r a k) → mm_unlocked e →
  wp e (vmm_deallocate range)
    (λ _ k', vma_inv k' ∧ free_area k' a
       ∧ (∀ b, used_area k' b ↔ used_area k b ∧ b ≠ a)
       ∧ pt_inv D k' r
       ∧ (∀ w, in_region D w → mapping (k_mem k') r w =
            if bf_contains (va_flags a) VmmFlags_MAP && covers_addr w a then None
            else mapping (k_mem k) r w)
       ∧ (∀ v x, bf_contains (va_flags a) VmmFlags_MAP && covers_addr v a = true →
            mapping (k_mem k) r v = Some x →
            fa_refs k' (entry_page x) = fa_refs k (entry_page x) - 1)
       ∧ (∀ p, (∀ v x, bf_contains (va_flags a) VmmFlags_MAP && covers_addr v a = true →
                  mapping (k_mem k) r v = Some x → entry_page x ≠ p) →
            fa_refs k' p = fa_refs k p)) k.
Proof.
  intros Hinv Hused Hstart Hroot Hpt Hex He.
  pose proof (used_area_ok k a (vma_used k Hinv) Hused) as Ha.
  pose proof (proj1 (used_area_get k a (vma_used k Hinv)) Hused) as Hget.
  pose proof He as He'. unfold mm_unlocked in He'. rewrite !Forall_cons in He'.
  destruct He' as (_ & _ & HF & HU & _).
  unfold vmm_deallocate. apply wp_bind.
  eapply wp_of_run; [rewrite remove_used_run by done; by rewrite Hstart, Hget|].
  set (k0 := set_used_vma (bt_delete (va_start a) (k_used_vma k)) k). apply wp_bind.
  assert (∀ b, fa_live k b → fa_live k0 b) as Hk0 by (intros b; by apply fa_live_local).
  assert (pt_inv D k0 r) as Hpt0 by (by eapply pt_inv_local; [..|exact Hpt]).
  apply (wp_mono _ (λ _ k1, releasing r a k0
    (if bf_contains (va_flags a) VmmFlags_MAP then va_size a / 4096 else 0) k1)).
  { destruct (bf_contains (va_flags a) VmmFlags_MAP); [|by apply wp_ret, releasing_nil].
    specialize (Hex eq_refl).
    pose proof Ha as (Hlt & _). pose proof (va_size_spec a) as Hsz.
    apply release_pages_spec; try done; [| |lia|].
    - destruct Hex as [X1 X2 X3]. split; [done| |done]. intros v x Hv Hx.
      destruct (X2 v x Hv Hx). auto.
    - by apply releasing_nil.
    - unfold release_fuel, va_size. rewrite PAGE_SIZE_spec. lia. }
  intros _ k1 [Rinv Ract [Rf Ru] Rtab Rmap Rfreed Rkept].
  eapply wp_of_run; [by apply insert_free_run|].
  destruct (give_back a k k1 Hinv Hused Rf Ru) as (G1 & G2 & G3).
  set (k2 := set_free_vma _ k1) in *.
  assert (∀ p, fa_refs k2 p = fa_refs k1 p) as Hk2 by (intros p; by apply fa_refs_local).
  assert (∀ p, fa_refs k0 p = fa_refs k p) as Hk0' by (intros p; by apply fa_refs_local).
  assert (∀ w, below a (if bf_contains (va_flags a) VmmFlags_MAP then va_size a / 4096 else 0) w
    = bf_contains (va_flags a) VmmFlags_MAP && covers_addr w a) as Hall.
  { intros w. destruct (bf_contains (va_flags a) VmmFlags_MAP); [|apply below_0].
    rewrite covers_spec. unfold below. destruct Ha as (_ & Hs & Hen & _).
    rewrite va_size_spec. simpl. f_equal. f_equal. dlia. }
  split_and!; [exact G1|exact G3|exact G2| | | |].
  - by eapply pt_inv_local; [..|exact Rinv].
  - intros w Hw. simpl. rewrite Rmap by done. by rewrite Hall.
  - intros v x Hv Hx. rewrite Hk2, <- Hk0'. apply (Rfreed v); [by rewrite Hall|done].
  - intros p Hp. rewrite Hk2, <- Hk0'. apply Rkept. intros v x. rewrite Hall. apply Hp.
Qed.

(** C5: [deallocate] of a range that starts where an area in use starts (the end of the
    range is not looked at) gives the area back completely.  It returns without
    panicking or deadlocking; the area leaves the used areas and becomes free, no
    other area changes status, and the areas partition the vmalloc space again.  If
    the area is a mapped one (flag [MAP]), no page of it is mapped any more, each frame
    that was mapped in it lost exactly one reference, and no other frame did; otherwise
    nothing is unmapped and no reference changes.  Every other page of the region is
    mapped as before and the page tables are well formed. *)
Theorem vmm_deallocate_correct r a range e k :
  vma_inv k → used_area k a → virt_as_u64 (vr_start range) = va_start a →
  active_root k r → pt_inv D k r →
  (bf_contains (va_flags a) VmmFlags_MAP = true → exclusive r a k) → mm_unlocked e →
  wp e (vmm_deallocate range)
    (λ _ k', vma_inv k' ∧ free_area k' a
       ∧ (∀ b, used_area k' b ↔ used_area k b ∧ b ≠ a)
       ∧ pt_inv D k' r
       ∧ (∀ w, in_region D w → mapping (k_mem k') r w =
            if bf_contains (va_flags a) VmmFlags_MAP && covers_addr w a then None
            else mapping (k_mem k) r w)
       ∧ (∀ v x, bf_contains (va_flags a) VmmFlags_MAP && covers_addr v a = true →
            mapping (k_mem k) r v = Some x →
            fa_refs k' (entry_page x) = fa_refs k (entry_page x) - 1)
       ∧ (∀ p, (∀ v x, bf_contains (va_flags a) VmmFlags_MAP && covers_addr v a = true →
                  mapping (k_mem k) r v = Some x → entry_page x ≠ p) →
            fa_refs k' p = fa_refs k p)) k.
Proof. apply vmm_deallocate_spec. Qed.
End Release.

(** The page a fault was served at is mapped to a frame of its own. *)
Section PagedIn.
Context {BF : Bitflags} {BFS : BitflagsSpec BF} {RT : Runtime} {RTS : RuntimeSpec RT}
  {XA : X86Address} {XAS : X86AddressSpec XA} {XP : X86Paging XA} {XPS : X86PagingSpec XP}
  {LG : Logging} {LGS : LoggingSpec LG}
  {XC : X86Cpu} {XCS : X86CpuSpec XC} {FA : Allocator} {FAS : AllocatorSpec FA}.
Variable D : Z → Prop.
Implicit Types (k : Kernel) (a : VirtualArea) (r : Z) (v w : Virtual) (f : Frame).

Lemma exclusive_paged_in r a v f zeroed flags k k' :
  pt_inv D k r → exclusive D r a k → map_frame D r k k' →
  fresh_frame D r f zeroed k k' → maps_to D r v f flags k k' → exclusive D r a k'.
Proof.
  intros [_ Hok] [X1 X2 X3] Hfr (Hn & Hy & Hnt & _) (x & Hx1 & Hx2 & Hmap).
  assert (entry_page x = frame_u64 f) as Hxf by (unfold entry_page; by rewrite Hx1).
  assert (∀ w y, covers_addr w a = true → mapping (k_mem k') r w = Some y →
    (same_page w v = true ∧ y = x) ∨ mapping (k_mem k) r w = Some y) as Hcase.
  { intros w y Hw. rewrite Hmap by auto. destruct (same_page w v); [|by right].
    destruct (pe_is_present x); [|done]. intros [= <-]. by left. }
  split; [done| |].
  - intros w y Hw Hm. destruct (Hcase w y Hw Hm) as [[_ ->]|Hy'].
    + by rewrite Hxf.
    + destruct (X2 w y Hw Hy') as [Hl Ht].
      split; [by apply (map_live D r k k' Hfr)|]. intros Ht'. apply Ht.
      by apply (map_tables D r k k' Hfr).
  - intros w w' y y' Hw Hw' Hm Hm' Heq.
    destruct (Hcase w y Hw Hm) as [[Hs ->]|Ho], (Hcase w' y' Hw' Hm') as [[Hs' ->]|Ho'].
    + unfold same_page in *. apply Z.eqb_eq in Hs, Hs'. apply Z.eqb_eq. congruence.
    + destruct (X2 w' y' Hw' Ho') as [Hl _]. by rewrite <- Heq, Hxf in Hl.
    + destruct (X2 w y Hw Ho) as [Hl _]. by rewrite Heq, Hxf in Hl.
    + by eapply X3.
Qed.

Lemma exclusive_unchanged r a k k' :
  exclusive D r a k → map_frame D r k k' →
  (∀ w, in_region D w → mapping (k_mem k') r w = mapping (k_mem k) r w) → exclusive D r a k'.
Proof.
  intros [X1 X2 X3] Hfr Hmap. split; [done| |].
  - intros w y Hw. rewrite Hmap by auto. intros Hy. destruct (X2 w y Hw Hy) as [Hl Ht].
    split; [by apply (map_live D r k k' Hfr)|]. intros Ht'. apply Ht.
    by apply (map_tables D r k k' Hfr).
  - intros w w' y y' Hw Hw'. rewrite !Hmap by auto. by apply X3.
Qed.

(** C25: Demand paging keeps the pages of an area apart: if every mapped page of an area
    has a frame of its own, a frame that holds no page table, then this still holds
    after a page of the vmalloc space was paged in -- outside the logger, whose lock the
    handler takes -- and when memory ran out; so the area can be deallocated at any time. *)
Theorem demand_paging_keeps_exclusive r a b v e k :
  pt_inv D k r → exclusive D r a k → in_region D v → mapping (k_mem k) r v = None →
  frames_unlocked e → USED_VMA ∉ held e → SERIAL ∉ held e → fault_area k v = Some b →
  bf_contains (va_flags b) VmmFlags_MAP = true →
  wp e (vmm_handle_demand_paging (hhdm r) v)
    (λ _ k', pt_inv D k' r ∧ exclusive D r a k') k.
Proof.
  intros Hinv Hex Hv Hm He HU HL Hb HM. eapply wp_mono; [by apply (vmm_demand_spec D)|].
  intros [[]|err] k' (Hfr & _ & H); (split; [apply Hfr|]).
  - destruct H as (f & Hf & Hmaps). by eapply exclusive_paged_in.
  - destruct H as (_ & _ & Hkeep). by apply (exclusive_unchanged r a k).
Qed.
End PagedIn.

(** ** Witnesses *)

(** One of the two pages of the area has been touched. *)
Definition ref_paged : Kernel :=
  ret_state (vmm_handle_demand_paging (hhdm 4096) ref_vpage ref_env ref_alloc) ref_alloc.

Lemma ref_paged_spec a :
  fault_area ref_alloc ref_vpage = Some a → bf_contains (va_flags a) VmmFlags_MAP = true →
  demand_post everywhere 4096 ref_vpage vmm_flags (bf_contains (va_flags a) VmmFlags_ZEROED)
    ref_alloc (inl tt) ref_paged.
Proof.
  intros Ha HM.
  destruct (wp_ret_state _ _ _ _ (vmm_demand_spec everywhere 4096 ref_vpage ref_env ref_alloc a
    ref_alloc_inv I ref_vpage_unmapped ref_unlocked (ref_env_unlocked _)
    (ref_env_unlocked _) Ha HM))
    as [[[]|err] H]; [exact H|].
  destruct H as (_ & _ & _ & H & _). vm_compute in H. discriminate H.
Qed.

Lemma ref_alloc_vma : vma_inv ref_alloc.
Proof.
  assert (bf_contains ref_vflags VmmFlags_ATOMIC = false) as Hat by (vm_compute; reflexivity).
  destruct (wp_ret_state _ _ _ _ (vmm_allocate_spec 8192 ref_vflags ref_env ref_vmm
    (proj1 ref_vmm_inv) ltac:(lia) Hat (ref_env_unlocked _) (ref_env_unlocked _)))
    as [res [Hinv _]]. exact Hinv.
Qed.

(** Nothing is mapped before the first fault. *)
Lemma ref_alloc_unmapped v : mapping (k_mem ref_alloc) 4096 v = None.
Proof.
  unfold mapping, leaf. simpl idxs. rewrite follow_cons. unfold next_table.
  assert (pe_is_present (k_mem ref_alloc 4096 (idx v 3)) = false) as ->
    by (vm_compute; reflexivity). reflexivity.
Qed.

Lemma ref_alloc_exclusive a : exclusive everywhere 4096 a ref_alloc.
Proof.
  split; [done|..].
  - intros v x _. by rewrite ref_alloc_unmapped.
  - intros v w x y _ _. by rewrite ref_alloc_unmapped.
Qed.

Lemma demand_paging_keeps_exclusive_witness :
  ∃ a, fault_area ref_alloc ref_vpage = Some a ∧
    wp ref_env (vmm_handle_demand_paging (hhdm 4096) ref_vpage)
      (λ _ k', pt_inv everywhere k' 4096 ∧ exclusive everywhere 4096 a k') ref_alloc.
Proof.
  destruct ref_alloc_area as (a & Ha & HM). exists a. split; [exact Ha|].
  exact (demand_paging_keeps_exclusive everywhere 4096 a a ref_vpage ref_env ref_alloc
    ref_alloc_inv (ref_alloc_exclusive a) I ref_vpage_unmapped ref_unlocked
    (ref_env_unlocked _) (ref_env_unlocked _) Ha HM).
Defined.

(** The area is given back with one page mapped. *)
Lemma vmm_deallocate_correct_witness :
  ∃ a, fault_area ref_alloc ref_vpage = Some a ∧
    wp ref_env (vmm_deallocate (va_range a))
      (λ _ k', vma_inv k' ∧ free_area k' a
         ∧ mapping (k_mem k') 4096 ref_vpage = None) ref_paged.
Proof.
  destruct ref_alloc_area as (a & Ha & HM). exists a. split; [exact Ha|].
  destruct (ref_paged_spec a Ha HM) as (Hfr & _ & f & Hfresh & Hmaps).
  pose proof (map_only everywhere 4096 ref_alloc ref_paged Hfr) as Honly.
  assert (covers_addr (virt_page_align_down ref_vpage) a = true ∧ used_area ref_alloc a)
    as [Hcov Hused].
  { unfold fault_area in Ha. destruct (bt_find _ _) as [[s a']|] eqn:E; [|discriminate Ha].
    injection Ha as ->. apply bt_find_Some in E as [Hin Hc]. split; [exact Hc|by exists s]. }
  eapply wp_mono.
  - apply (vmm_deallocate_correct everywhere 4096 a (va_range a) ref_env ref_paged).
    + eapply vma_inv_local; [| |exact ref_alloc_vma]; by rewrite Honly.
    + unfold used_area. rewrite Honly. exact Hused.
    + reflexivity.
    + apply active_rootb_sound; [lia|]. vm_compute. reflexivity.
    + apply Hfr.
    + intros _. exact (exclusive_paged_in everywhere 4096 a ref_vpage f _ vmm_flags ref_alloc ref_paged
        ref_alloc_inv (ref_alloc_exclusive a) Hfr Hfresh Hmaps).
    + unfold mm_unlocked. rewrite !Forall_cons. by split_and!; try apply ref_env_unlocked.
  - intros _ k' (H1 & H2 & _ & _ & H3 & _). split; [exact H1|]. split; [exact H2|].
    rewrite <- (same_page_mapping _ 4096 ref_vpage (virt_page_align_down ref_vpage)).
    + rewrite (H3 _ I), HM, Hcov. reflexivity.
    + vm_compute. reflexivity.
Defined.
