(* ===== verification/Acpi.v ===== *)
(** * Device memory: [src/src/arch/acpi.rs]

    The ACPI handler maps regions of physical memory into the vmalloc space for
    the crate [acpi], and the local APIC is remapped the same way.  These are
    clients of both the virtual memory manager and the page tables. *)

From S2P Require Import Prelude Machine External Reference Frame BTree Log Kernel FrameState FrameAlloc Paging PageTables PagingSpec Vmm VmmSpec Fault VmmDealloc.

Definition CLOCK_TICK_VECTOR : Z := 0xF1.

(** [acpi::PhysicalMapping]: what the handler returns and gets back. *)
Record PhysicalMapping := mkPhysicalMapping {
  physical_start : Z;
  virtual_start : Z;
  region_length : Z;
  mapped_length : Z
}.

Section AcpiDefs.
Context {BF : Bitflags} {RT : Runtime} {XA : X86Address} {XP : X86Paging XA} {LG : Logging}
  {XC : X86Cpu} {FA : Allocator}.

(** [Result::unwrap] and [Result::ok]. *)
Definition unwrap_result {S A E} (r : A + E) : M S A :=
  match r with inl a => mret a | inr _ => panic_with UnwrapNone end.

(** [(start..limit).step_by(step)] on integers. *)
Definition step_by (start limit step : Z) : list Z :=
  (λ j, start + j * step) <$> seqZ 0 ((limit - start + step - 1) / step).

Definition device_flags : MapFlags :=
  pef_union (pef_union (pef_union (pef_union PRESENT WRITABLE) NO_EXECUTE) NO_CACHE)
    WRITE_THROUGH.

(** The body of the loop of [map_physical_region]. *)
Definition map_device_page (virt : Virtual) (base i : Z) : M Kernel unit :=
  m ← u64_sub i base;
  v ← ext (virt_add virt m);
  f ← Frame_from_u64 i;
  res ← map_current v f device_flags;
  unwrap_result res.

Definition map_physical_region (phys size : Z) : M Kernel PhysicalMapping :=
  d ← u64_sub PAGE_SIZE (size mod PAGE_SIZE);
  aligned_size ← u64_add size d;
  aligned_phys ← u64_sub phys (phys mod PAGE_SIZE);
  offset ← u64_sub phys aligned_phys;
  res ← vmm_allocate aligned_size VmmFlags_NONE;
  range ← unwrap_result res;
  let virt := vr_start range in
  limit ← u64_add aligned_phys aligned_size;
  foldM (λ (_ : unit) i, map_device_page virt aligned_phys i)
    (step_by aligned_phys limit PAGE_SIZE) tt;;
  p ← u64_add aligned_phys offset;
  v ← ext (virt_add virt offset);
  (if virt_as_ptr v =? 0 then panic_with UnwrapNone else mret tt);;
  mapped ← u64_sub aligned_size offset;
  mret (mkPhysicalMapping p (virt_as_ptr v) size mapped).

(** The body of the loop of [unmap_physical_region]. *)
Definition unmap_device_page (i : Z) : M Kernel unit :=
  page ← ext (virt_new i);
  p ← unmap_current page;
  _ ← unwrap p;
  mret tt.

Definition unmap_physical_region (mapping : PhysicalMapping) : M Kernel unit :=
  v ← ext (virt_new (virtual_start mapping));
  let start := virt_page_align_down v in
  e ← ext (virt_add start (region_length mapping));
  end_ ← ext (virt_page_align_up e);
  foldM (λ (_ : unit) i, unmap_device_page i) (step_by (virt_as_u64 start) (virt_as_u64 end_) PAGE_SIZE) tt;;
  range ← ext (vr_new start end_);
  vmm_deallocate range.

Definition remap_lapic (base : Z) : M Kernel (option Virtual) :=
  aligned_base ← u64_sub base (base mod PAGE_SIZE);
  offset ← u64_sub base aligned_base;
  res ← vmm_allocate PAGE_SIZE VmmFlags_NONE;
  match res with
  | inr _ => mret None
  | inl range =>
      let virt := vr_start range in
      f ← Frame_from_u64 aligned_base;
      res ← map_current virt f device_flags;
      match res with
      | inr _ => mret None
      | inl _ => v ← ext (virt_add virt offset); mret (Some v)
      end
  end.
End AcpiDefs.

(** ** Mapping a run of pages *)

Section Regions.
Context {BF : Bitflags} {BFS : BitflagsSpec BF} {RT : Runtime} {RTS : RuntimeSpec RT}
  {XA : X86Address} {XAS : X86AddressSpec XA} {XP : X86Paging XA} {XPS : X86PagingSpec XP}
  {LG : Logging} {LGS : LoggingSpec LG}
  {XC : X86Cpu} {XCS : X86CpuSpec XC} {FA : Allocator} {FAS : AllocatorSpec FA}.
Variable D : Z → Prop.
Implicit Types (e : Env) (k : Kernel) (a : VirtualArea) (p r i j n : Z) (v w : Virtual).

Lemma step_by_exact start n step :
  0 < step → 0 ≤ n → step_by start (start + n * step) step = (λ j, start + j * step) <$> seqZ 0 n.
Proof.
  intros Hs Hn. unfold step_by. do 2 f_equal.
  replace (start + n * step - start + step - 1) with (step - 1 + n * step) by lia.
  rewrite Z.div_add, Z.div_small by lia. lia.
Qed.

(** The element a loop over consecutive pages is at. *)
Lemma step_by_nth start n step pre x todo :
  (λ j, start + j * step) <$> seqZ 0 n = pre ++ x :: todo →
  x = start + Z.of_nat (length pre) * step ∧ Z.of_nat (length pre) < n.
Proof.
  intros H. assert (((λ j, start + j * step) <$> seqZ 0 n) !! length pre = Some x) as Hx
    by (rewrite H; by apply list_lookup_middle).
  rewrite list_lookup_fmap in Hx.
  destruct (seqZ 0 n !! length pre) as [j|] eqn:Hj; [|done].
  apply lookup_seqZ in Hj as [-> Hlt]. simplify_eq/=. split; [f_equal; lia|lia].
Qed.

Lemma device_present : pef_contains device_flags PRESENT = true.
Proof. unfold device_flags. do 4 apply pef_union_l. apply pef_contains_refl. Qed.

Lemma map_current_given r v f flags e k :
  active_root k r → pt_inv D k r → in_region D v → frame_u64 f mod 4096 = 0 →
  frame_u64 f ≠ 0 → mm_unlocked e → mapping (k_mem k) r v = None → 3 ≤ fa_free k →
  wp e (map_current v f flags)
    (λ res k', res = inl tt ∧ map_frame D r k k' ∧ maps_to D r v f flags k k'
       ∧ fa_free k - 3 ≤ fa_free k') k.
Proof.
  intros Hr Hinv Hv Hal Hf He Hm Hfree. unfold mm_unlocked in He.
  rewrite !Forall_cons in He. destruct He as (HS & HF & _ & _ & HA & HT & _).
  apply wp_irq_without. unfold wp, wpx. rewrite (with_active_table_run _ r) by done.
  apply map_given; try done. split; apply held_acquire; try done; by apply held_acquire.
Qed.

Lemma frame_from_u64_run (a : Z) e (s : Kernel) :
  0 ≤ a < 2 ^ 52 → a mod 4096 = 0 → Frame_from_u64 a e s = Ret (frame_at a) s.
Proof.
  intros Ha Hal. unfold Frame_from_u64. rewrite phys_new_of by done.
  erewrite bind_ret_run by reflexivity. rewrite Frame_new_run, phys_of_u64 by done.
  by rewrite Hal.
Qed.

(** [v] is in one of the [n] pages from the address [s]. *)
Definition in_pages (s n : Z) v : bool :=
  (s <=? virt_as_u64 v) && (virt_as_u64 v <? s + 4096 * n).

Lemma in_pages_next s j v w :
  s mod 4096 = 0 → virt_as_u64 v = s + 4096 * j → 0 ≤ j →
  in_pages s (j + 1) w = in_pages s j w || same_page w v.
Proof.
  intros Hs Hv Hj. unfold in_pages, same_page. rewrite Hv.
  apply eq_iff_eq_true. rewrite orb_true_iff, !andb_true_iff.
  rewrite !Z.leb_le, !Z.ltb_lt, Z.eqb_eq. dlia.
Qed.

(** [n] pages from the virtual address [s] were mapped to the physical memory from
    [b], and no other page was touched. *)
Record pages_mapped r s b flags n k k' : Prop := {
  pgs_frame : map_frame D r k k';
  pgs_free : fa_free k - 3 * n ≤ fa_free k';
  pgs_new v : in_region D v → in_pages s n v = true →
    ∃ x, mapping (k_mem k') r v = Some x ∧ pe_flags x = flags
         ∧ entry_phys x v = phys_of (b + (virt_as_u64 v - s));
  pgs_other v : in_region D v → in_pages s n v = false →
    mapping (k_mem k') r v = mapping (k_mem k) r v
}.

Lemma in_pages_0 s v : in_pages s 0 v = false.
Proof.
  unfold in_pages. destruct (Z.leb_spec s (virt_as_u64 v)),
    (Z.ltb_spec (virt_as_u64 v) (s + 4096 * 0)); simpl; lia || done.
Qed.

Lemma pages_mapped_nil r s b flags k : pt_inv D k r → pages_mapped r s b flags 0 k k.
Proof.
  intros Hinv. split; [by apply map_frame_refl|lia| |done].
  intros v _. by rewrite in_pages_0.
Qed.

Lemma pages_mapped_step r s b flags j k k1 v k2 :
  s mod 4096 = 0 → 0 ≤ j → virt_as_u64 v = s + 4096 * j → in_region D v →
  0 ≤ b + 4096 * j < 2 ^ 52 →
  pef_contains flags PRESENT = true → pages_mapped r s b flags j k k1 →
  map_frame D r k1 k2 → maps_to D r v (frame_at (b + 4096 * j)) flags k1 k2 →
  fa_free k1 - 3 ≤ fa_free k2 → pages_mapped r s b flags (j + 1) k k2.
Proof.
  intros Hs Hj Hv Hreg Hb Hp [F1 C1 N1 O1] F2 Hmt C2.
  pose proof (maps_to_self D r v _ flags k1 k2 Hmt Hreg Hp) as (x & Hx & Hfl & _).
  destruct Hmt as (y & Hya & _ & Hmap).
  assert (x = y) as ->.
  { rewrite Hmap in Hx by done. unfold same_page in Hx. rewrite Z.eqb_refl in Hx.
    destruct (pe_is_present y); by simplify_eq. }
  split; [by eapply map_frame_trans|lia| |].
  - intros w Hw Hin. rewrite (in_pages_next s j v) in Hin by done.
    destruct (same_page w v) eqn:E.
    + exists y. rewrite (same_page_mapping _ r v w E). split_and!; [done..|].
      unfold entry_phys. rewrite Hya. unfold frame_at. simpl. rewrite phys_of_u64 by done.
      f_equal. unfold same_page in E. rewrite Hv in E. bool_to_prop. dlia.
    + rewrite orb_false_r in Hin. rewrite Hmap, E by done. by apply N1.
  - intros w Hw Hin. rewrite (in_pages_next s j v) in Hin by done.
    apply orb_false_iff in Hin as [Hin E]. rewrite Hmap, E by done. by apply O1.
Qed.

Lemma active_root_only k k' r : only_memory k k' → active_root k r → active_root k' r.
Proof. intros Ho. unfold active_root. by rewrite Ho. Qed.

Lemma map_device_page_spec r virt b n j e k k1 :
  active_root k r → mm_unlocked e → virt_as_u64 virt mod 4096 = 0 →
  canonical (virt_as_u64 virt + 4096 * j) → b mod 4096 = 0 → 0 < b → b + 4096 * n ≤ 2 ^ 52 →
  0 ≤ j < n → 3 * n ≤ fa_free k →
  (∀ v, in_pages (virt_as_u64 virt) n v = true → in_region D v ∧ mapping (k_mem k) r v = None) →
  pages_mapped r (virt_as_u64 virt) b device_flags j k k1 →
  wp e (map_device_page virt b (b + j * 4096))
    (λ _ k2, pages_mapped r (virt_as_u64 virt) b device_flags (j + 1) k k2) k1.
Proof.
  intros Hroot He Hs Hcan Hb Hpos Hmax Hj Hfree Hun Hpm. unfold map_device_page.
  apply wp_bind, wp_arith; [lia|]. replace (b + j * 4096 - b) with (4096 * j) by lia.
  destruct (virt_add_spec virt (4096 * j)) as (v & -> & Hv); [lia|done|].
  apply wp_bind, wp_ret, wp_bind.
  eapply wp_of_run; [apply frame_from_u64_run; [lia|dlia]|].
  assert (in_pages (virt_as_u64 virt) n v = true) as Hin
    by (unfold in_pages; rewrite Hv; blia).
  assert (in_pages (virt_as_u64 virt) j v = false) as Hout
    by (unfold in_pages; rewrite Hv, (proj2 (Z.ltb_ge _ _)) by lia; apply andb_false_r).
  destruct (Hun v Hin) as [Hreg Hnone]. pose proof (pgs_frame _ _ _ _ _ _ _ Hpm) as Hfr.
  pose proof (pgs_free _ _ _ _ _ _ _ Hpm). apply wp_bind.
  eapply wp_mono; [apply (map_current_given r v); try done|].
  - by eapply active_root_only; [apply Hfr|].
  - apply Hfr.
  - rewrite frame_at_u64 by lia. dlia.
  - rewrite frame_at_u64 by lia. lia.
  - by rewrite (pgs_other _ _ _ _ _ _ _ Hpm).
  - lia.
  - intros res k2 (-> & Hfr2 & Hmt & Hc). apply wp_ret.
    replace (b + j * 4096) with (b + 4096 * j) in Hmt by lia.
    eapply pages_mapped_step; try done; [lia|lia|apply device_present].
Qed.

Lemma map_device_pages_spec r virt b n e k :
  active_root k r → pt_inv D k r → mm_unlocked e → virt_as_u64 virt mod 4096 = 0 →
  VMALLOC_START ≤ virt_as_u64 virt → virt_as_u64 virt + 4096 * n ≤ VMALLOC_END →
  b mod 4096 = 0 → 0 < b → b + 4096 * n ≤ 2 ^ 52 → 0 ≤ n → 3 * n ≤ fa_free k →
  (∀ v, in_pages (virt_as_u64 virt) n v = true → in_region D v ∧ mapping (k_mem k) r v = None) →
  wp e (foldM (λ _ i, map_device_page virt b i) (step_by b (b + n * 4096) 4096) tt)
    (λ _ k', pages_mapped r (virt_as_u64 virt) b device_flags n k k') k.
Proof.
  intros Hroot Hinv He Hs Hlo Hhi Hb Hpos Hmax Hn Hfree Hun.
  rewrite step_by_exact by lia.
  eapply wp_mono; [apply (wp_foldM _ (λ pre _ k', pages_mapped r (virt_as_u64 virt) b
    device_flags (Z.of_nat (length pre)) k k'))|].
  - by apply pages_mapped_nil.
  - intros pre x todo [] k1 [-> Hlt]%step_by_nth Hpm.
    rewrite length_app. simpl. rewrite Nat2Z.inj_add. simpl.
    apply (map_device_page_spec r virt b n); try done; [|lia].
    apply vmalloc_canonical. lia.
  - intros [] k'. rewrite length_fmap, length_seqZ, Z2Nat.id by lia. done.
Qed.

(** ** Unmapping a run of pages *)

Record pages_unmapped r s n k k' : Prop := {
  pgu_inv : pt_inv D k' r;
  pgu_only : k' = set_mem (k_mem k') (set_events (k_events k') k);
  pgu_mapping w : in_region D w → mapping (k_mem k') r w =
    if in_pages s n w then None else mapping (k_mem k) r w
}.

Lemma unmap_device_page_spec r s n j e k k1 :
  active_root k r → mm_unlocked e → s mod 4096 = 0 → canonical (s + 4096 * j) → 0 ≤ j < n →
  (∀ v, in_pages s n v = true → in_region D v ∧ mapping (k_mem k) r v ≠ None) →
  pages_unmapped r s j k k1 →
  wp e (unmap_device_page (s + j * 4096)) (λ _ k2, pages_unmapped r s (j + 1) k k2) k1.
Proof.
  intros Hroot He Hs Hcan Hj Hmapped [Hinv Honly Hmap]. unfold mm_unlocked in He.
  rewrite !Forall_cons in He. destruct He as (_ & _ & _ & _ & HA & HT & _).
  unfold unmap_device_page. replace (s + j * 4096) with (s + 4096 * j) by lia.
  rewrite virt_new_of by done. set (v := virt_of (s + 4096 * j)).
  assert (virt_as_u64 v = s + 4096 * j) as Hv by (by apply virt_of_u64).
  assert (in_pages s n v = true) as Hin by (unfold in_pages; rewrite Hv; blia).
  assert (in_pages s j v = false) as Hout
    by (unfold in_pages; rewrite Hv, (proj2 (Z.ltb_ge _ _)) by lia; apply andb_false_r).
  destruct (Hmapped v Hin) as [Hreg Hsome].
  assert (mapping (k_mem k1) r v = mapping (k_mem k) r v) as Hm by (by rewrite Hmap, Hout).
  destruct (mapping (k_mem k) r v) as [x|] eqn:Hx; [|done].
  destruct (mapped_follow v k1 r x Hm) as (q & Hq & _ & _).
  apply wp_bind, wp_ret, wp_bind.
  eapply wp_of_run; [rewrite (unmap_current_run D v r); [by rewrite Hm, Hq|..]; try done|].
  { destruct Hroot as [Hb Hf]. split; [done|]. by rewrite Honly. }
  apply wp_bind, wp_ret, wp_ret.
  destruct (leaf_state_inv D v q (pe_clear x) (shootdown_events (k_events k1)) k1 r
    Hinv Hreg Hq) as (H1 & _ & H3).
  split; [exact H1|rewrite Honly; by destruct k|].
  intros w Hw. rewrite H3, pe_clear_absent, Hmap by done.
  rewrite (in_pages_next s j v) by (done || lia).
  by destruct (in_pages s j w), (same_page w v).
Qed.

Lemma unmap_device_pages_spec r s n e k :
  active_root k r → pt_inv D k r → mm_unlocked e → s mod 4096 = 0 →
  VMALLOC_START ≤ s → s + 4096 * n ≤ VMALLOC_END → 0 ≤ n →
  (∀ v, in_pages s n v = true → in_region D v ∧ mapping (k_mem k) r v ≠ None) →
  wp e (foldM (λ _ i, unmap_device_page i) (step_by s (s + n * 4096) 4096) tt)
    (λ _ k', pages_unmapped r s n k k') k.
Proof.
  intros Hroot Hinv He Hs Hlo Hhi Hn Hm. rewrite step_by_exact by lia.
  eapply wp_mono; [apply (wp_foldM _ (λ pre _ k',
    pages_unmapped r s (Z.of_nat (length pre)) k k'))|].
  - split; [done|by destruct k|]. intros w _. by rewrite in_pages_0.
  - intros pre x todo [] k1 [-> Hlt]%step_by_nth Hpm.
    rewrite length_app. simpl. rewrite Nat2Z.inj_add. simpl.
    apply (unmap_device_page_spec r s n); try done; [|lia].
    apply vmalloc_canonical. lia.
  - intros [] k'. rewrite length_fmap, length_seqZ, Z2Nat.id by lia. done.
Qed.
End Regions.

(** ** The handler *)

Section Handler.
Context {BF : Bitflags} {BFS : BitflagsSpec BF} {RT : Runtime} {RTS : RuntimeSpec RT}
  {XA : X86Address} {XAS : X86AddressSpec XA} {XP : X86Paging XA} {XPS : X86PagingSpec XP}
  {LG : Logging} {LGS : LoggingSpec LG}
  {XC : X86Cpu} {XCS : X86CpuSpec XC} {FA : Allocator} {FAS : AllocatorSpec FA}.
Variable D : Z → Prop.
Implicit Types (e : Env) (k : Kernel) (a b : VirtualArea) (r : Z) (v w : Virtual).

(** The vmalloc space is clean: an address of it that is in no area in use is in the
    region and is not mapped. *)
Definition vmalloc_clean r k : Prop :=
  ∀ v, in_vmalloc v = true → (∀ a, used_area k a → covers_addr v a = false) →
    in_region D v ∧ mapping (k_mem k) r v = None.

(** The state in which device memory can be mapped in [n] pages. *)
Record device_ready r n e k : Prop := {
  dr_vma : vma_inv k;
  dr_pt : pt_inv D k r;
  dr_root : active_root k r;
  dr_clean : vmalloc_clean r k;
  dr_unlocked : mm_unlocked e;
  dr_frames : 3 * n ≤ fa_free k;
  dr_room : ∃ b, free_area k b ∧ 4096 * n ≤ va_size b
}.

(** The area [a] is new in use, without demand paging, and maps the physical memory
    from the address [base] as device memory; nothing else was mapped or unmapped. *)
Record device_area r a (base : Z) k k' : Prop := {
  da_vma : vma_inv k';
  da_pt : pt_inv D k' r;
  da_root : active_root k' r;
  da_clean : vmalloc_clean r k';
  da_area : area_ok a;
  da_flags : bf_contains (va_flags a) VmmFlags_MAP = false;
  da_new : ¬ used_area k a;
  da_used b : used_area k' b ↔ b = a ∨ used_area k b;
  da_live p : fa_live k p → fa_live k' p;
  da_mapped v : covers_addr v a = true → in_region D v ∧ ∃ x,
    mapping (k_mem k') r v = Some x ∧ pe_flags x = device_flags
    ∧ entry_phys x v = phys_of (base + (virt_as_u64 v - va_start a));
  da_other v : in_region D v → covers_addr v a = false →
    mapping (k_mem k') r v = mapping (k_mem k) r v;
  da_boot : same_boot k k'
}.

Lemma none_not_atomic : bf_contains VmmFlags_NONE VmmFlags_ATOMIC = false.
Proof. unfold VmmFlags_ATOMIC. by rewrite contains_flag by lia. Qed.

Lemma none_not_map :
  bf_contains (bf_from_bits_truncate Flags_all VmmFlags_NONE) VmmFlags_MAP = false.
Proof. unfold VmmFlags_MAP. by rewrite contains_flag, bf_truncate_spec by lia. Qed.

Lemma covers_in_pages a n v : va_size a = 4096 * n → in_pages (va_start a) n v = covers_addr v a.
Proof.
  rewrite va_size_spec, covers_spec. unfold in_pages. intros H. do 2 f_equal. lia.
Qed.

Lemma covers_in_vmalloc a v : area_ok a → covers_addr v a = true → in_vmalloc v = true.
Proof.
  intros (_ & _ & _ & Hlo & Hhi). rewrite covers_spec. unfold in_vmalloc. intros H. blia.
Qed.

(** Reserving an area of [n] pages. *)
Lemma reserve_spec r n size e k :
  device_ready r n e k → 0 < n → 0 < size → 4096 * (n - 1) < size ≤ 4096 * n →
  wp e (vmm_allocate size VmmFlags_NONE)
    (λ res k1, ∃ range, res = inl range
       ∧ let a := mkVirtualArea range (bf_from_bits_truncate Flags_all VmmFlags_NONE) in
         vma_inv k1 ∧ area_ok a ∧ va_size a = 4096 * n ∧ ¬ used_area k a
         ∧ (∀ b, used_area k1 b ↔ b = a ∨ used_area k b) ∧ only_vma k k1
         ∧ ∀ v, in_pages (va_start a) n v = true →
             in_region D v ∧ mapping (k_mem k1) r v = None) k.
Proof.
  intros [Hinv Hpt Hroot Hclean He Hfr (b & Hb & Hbn)] Hn Hsz Hsize.
  unfold mm_unlocked in He. rewrite !Forall_cons in He.
  destruct He as (_ & _ & HF & HU & _).
  pose proof (va_size_spec b) as Hbs.
  assert (area_ok b) as (_ & _ & _ & Hlo & Hhi).
  { destruct (free_area_size k b (vma_free k Hinv) Hb) as (vec & Hin & Hv).
    destruct (vma_free k Hinv) as [_ HFo]. rewrite Forall_forall in HFo.
    pose proof (HFo _ Hin) as HFv. simpl in HFv. rewrite Forall_forall in HFv. apply HFv, Hv. }
  unfold VMALLOC_START, VMALLOC_END in Hlo, Hhi.
  assert ((size + 4095) / 4096 * 4096 = 4096 * n) as Hround by dlia.
  eapply wp_mono; [apply vmm_allocate_spec; [done|lia|apply none_not_atomic|done..]|].
  intros [range|err] k1 [Hinv1 H]; rewrite Hround in H.
  - exists range. split; [done|]. destruct H as (H1 & H2 & _ & H4 & H5 & H6).
    set (a := mkVirtualArea _ _) in *. cbn zeta.
    split_and!; [done|done|exact H1| |exact H5|exact H6|].
    + intros Ha. pose proof (covers_start a H2) as Hc.
      by rewrite (H4 a _ Ha Hc) in Hc.
    + intros v. rewrite covers_in_pages by exact H1. intros Hv. rewrite H6.
      apply Hclean; [by eapply covers_in_vmalloc|]. intros c Hc. by apply (H4 c).
  - destruct H as (_ & _ & H). specialize (H b Hb). lia.
Qed.

(** Mapping [n] pages in the area that was reserved. *)
Lemma device_area_mapped r n a base k k1 k2 e :
  device_ready r n e k → vma_inv k1 → area_ok a → va_size a = 4096 * n → ¬ used_area k a →
  va_flags a = bf_from_bits_truncate Flags_all VmmFlags_NONE →
  (∀ b, used_area k1 b ↔ b = a ∨ used_area k b) → only_vma k k1 →
  (∀ v, in_pages (va_start a) n v = true → in_region D v ∧ mapping (k_mem k1) r v = None) →
  pages_mapped D r (va_start a) base device_flags n k1 k2 → device_area r a base k k2.
Proof.
  intros Hd Hinv1 Ha Hsz Hnew Hfl Hused Hvma Hun [Hfr _ Hn Ho].
  pose proof (map_only D r k1 k2 Hfr) as Honly.
  assert (∀ p, fa_live k p → fa_live k1 p) as Hlive
    by (intros p; apply fa_live_local; by rewrite Hvma).
  assert (∀ b, used_area k2 b ↔ b = a ∨ used_area k b) as Hused2
    by (intros b; rewrite <- Hused; unfold used_area; by rewrite Honly).
  assert (k_mem k1 = k_mem k) as Hmem by (by rewrite Hvma).
  split; try done.
  - eapply vma_inv_local; [..|exact Hinv1]; by rewrite Honly.
  - apply Hfr.
  - apply (active_root_only k1 k2); [done|]. destruct (dr_root _ _ _ _ Hd) as [Hb Hf].
    split; [done|]. by rewrite Hvma.
  - intros v Hv Hfree. destruct (dr_clean _ _ _ _ Hd v Hv) as [Hreg Hm].
    { intros b Hb. apply Hfree, Hused2. by right. }
    split; [done|]. rewrite Ho, Hmem; [done..|]. rewrite covers_in_pages by done.
    apply Hfree, Hused2. by left.
  - rewrite Hfl. apply none_not_map.
  - intros p Hp. by apply (map_live D r k1 k2 Hfr), Hlive.
  - intros v Hv. rewrite <- (covers_in_pages a n) in Hv by done.
    destruct (Hun v Hv) as [Hreg _]. split; [done|]. by apply Hn.
  - intros v Hreg Hv. by rewrite Ho, Hmem by (by rewrite ?covers_in_pages).
  - unfold same_boot. by rewrite Honly, Hvma.
Qed.

(** The pages [map_physical_region] maps for [size] bytes: one more than it takes when
    the size is a multiple of the page size. *)
Definition region_pages (size : Z) : Z := size / 4096 + 1.

Lemma map_physical_region_spec r phys size e k :
  device_ready r (region_pages size) e k → 0 < size → 4096 ≤ phys → phys + size + 4096 ≤ 2 ^ 52 →
  wp e (map_physical_region phys size)
    (λ pm k', ∃ a, device_area r a (phys - phys mod 4096) k k'
       ∧ va_size a = 4096 * region_pages size
       ∧ pm = mkPhysicalMapping phys (va_start a + phys mod 4096) size
                (4096 * region_pages size - phys mod 4096)) k.
Proof.
  intros Hd Hsize Hlo Hhi. unfold map_physical_region, region_pages in *.
  set (n := size / 4096 + 1) in *. rewrite PAGE_SIZE_spec. assert (0 < n) by (unfold n; dlia).
  apply wp_bind, wp_arith; [dlia|]. apply wp_bind, wp_arith; [dlia|].
  replace (size + (4096 - size mod 4096)) with (4096 * n) by (unfold n; dlia).
  apply wp_bind, wp_arith; [dlia|]. apply wp_bind, wp_arith; [dlia|].
  set (base := phys - phys mod 4096). set (off := phys - base).
  assert (base mod 4096 = 0 ∧ 0 < base ∧ base + 4096 * n ≤ 2 ^ 52) as (Hb1 & Hb2 & Hb3).
  { unfold base, n. split_and!; dlia. }
  assert (off = phys mod 4096 ∧ 0 ≤ off < 4096) as [Hoff Hoff'] by (unfold off, base; dlia).
  apply wp_bind. eapply wp_mono; [apply (reserve_spec r n); [done|lia|lia|lia]|].
  intros res k1 (range & -> & Hinv1 & Ha & Hsz & Hnew & Hused & Hvma & Hun).
  set (a := mkVirtualArea range _) in *. change (virt_as_u64 (vr_start range)) with (va_start a).
  apply wp_bind, wp_ret, wp_bind, wp_arith; [lia|].
  replace (4096 * n) with (n * 4096) at 1 by lia.
  pose proof (va_size_spec a) as Hsz'. pose proof Ha as (_ & Hal & _ & Hvlo & Hvhi).
  pose proof Hd as [_ Hpt Hroot _ He Hfr _].
  apply wp_bind. eapply wp_mono; [apply (map_device_pages_spec D r (vr_start range) base n);
    change (virt_as_u64 (vr_start range)) with (va_start a); try done|].
  - destruct Hroot as [Hb Hf]. split; [done|]. by rewrite Hvma.
  - eapply pt_inv_local; [..|exact Hpt]; by rewrite Hvma.
  - lia.
  - lia.
  - rewrite (fa_free_local k1 k) by (by rewrite Hvma). done.
  - intros [] k2 Hpm. change (virt_as_u64 (vr_start range)) with (va_start a) in Hpm.
    apply wp_bind, wp_arith; [lia|].
    destruct (virt_add_spec (vr_start range) off) as (v & -> & Hv); [lia| |].
    { apply vmalloc_canonical. change (virt_as_u64 (vr_start range)) with (va_start a). lia. }
    change (virt_as_u64 (vr_start range)) with (va_start a) in Hv.
    apply wp_bind, wp_ret. rewrite virt_as_ptr_spec, Hv.
    unfold VMALLOC_START in Hvlo. rewrite (proj2 (Z.eqb_neq _ 0)) by lia.
    apply wp_bind, wp_ret, wp_bind, wp_arith; [lia|]. apply wp_ret.
    exists a. split_and!; [|exact Hsz|f_equal; lia].
    by apply (device_area_mapped r n a base k k1 k2 e).
Qed.

(** C28: [map_physical_region] makes a region of physical memory accessible.  With room
    in the vmalloc space and frames for the tables it returns a mapping that starts at
    the requested physical address, in a new area of the vmalloc space that shares no
    address with the ones in use, and every byte of the mapped length translates, with
    the flags of device memory, to the byte at the same distance from the start; no
    other mapping changes.  The mapped length covers the whole region exactly when the
    offset of the address in its page and the remainder of the size fit in one page. *)
Theorem map_physical_region_correct r phys size e k :
  device_ready r (region_pages size) e k → 0 < size → 4096 ≤ phys → phys + size + 4096 ≤ 2 ^ 52 →
  wp e (map_physical_region phys size)
    (λ pm k', physical_start pm = phys ∧ region_length pm = size
       ∧ (size ≤ mapped_length pm ↔ phys mod 4096 + size mod 4096 ≤ 4096)
       ∧ (∃ a, device_area r a (phys - phys mod 4096) k k'
               ∧ virtual_start pm = va_start a + phys mod 4096)
       ∧ ∀ v, virtual_start pm ≤ virt_as_u64 v < virtual_start pm + mapped_length pm →
           in_region D v ∧ ∃ x, mapping (k_mem k') r v = Some x ∧ pe_flags x = device_flags
             ∧ entry_phys x v = phys_of (phys + (virt_as_u64 v - virtual_start pm))) k.
Proof.
  intros Hd Hsize Hlo Hhi. eapply wp_mono; [by apply map_physical_region_spec|].
  intros pm k' (a & Ha & Hsz & ->). simpl.
  split_and!; [done|done|unfold region_pages; dlia|by exists a|].
  intros v Hv. destruct (da_mapped r a _ k k' Ha v) as (Hreg & x & Hx & Hf & He).
  { rewrite covers_spec. rewrite va_size_spec in Hsz. pose proof (Z.mod_pos_bound phys 4096).
    blia. }
  split; [done|]. exists x. split_and!; [done..|]. rewrite He. f_equal. lia.
Qed.

(** The pages [unmap_physical_region] unmaps. *)
Definition unmapped_pages (size : Z) : Z := (size + 4095) / 4096.

(** The addresses of the new area were in no area in use, and not mapped. *)
Lemma device_area_fresh r n e a base k k' v :
  device_ready r n e k → device_area r a base k k' → covers_addr v a = true →
  (∀ b, used_area k b → covers_addr v b = false) ∧ mapping (k_mem k) r v = None.
Proof.
  intros Hd Ha Hv.
  assert (∀ b, used_area k b → covers_addr v b = false) as Hun.
  { intros b Hb. destruct (covers_addr v b) eqn:E; [|done].
    pose proof (used_areas_disjoint k' a b v (da_vma _ _ _ _ _ Ha)) as Heq.
    rewrite !(da_used _ _ _ _ _ Ha) in Heq. destruct (da_new _ _ _ _ _ Ha).
    rewrite Heq; auto. }
  split; [done|]. apply (dr_clean _ _ _ _ Hd); [|done].
  by apply (covers_in_vmalloc a); [apply Ha|].
Qed.

(** Giving the area back once its first [m] pages are unmapped. *)
Lemma release_device_area r a base s m range e k k1 k2 :
  device_area r a base k k1 → mm_unlocked e → virt_as_u64 (vr_start range) = va_start a →
  pages_unmapped D r s m k1 k2 →
  wp e (vmm_deallocate range)
    (λ _ k', vma_inv k' ∧ pt_inv D k' r ∧ (∀ b, used_area k' b ↔ used_area k b)
       ∧ ∀ w, in_region D w → mapping (k_mem k') r w =
           if in_pages s m w then None else mapping (k_mem k1) r w) k2.
Proof.
  intros Hda He Hr [Pinv Ponly Pmap].
  assert (∀ b, used_area k2 b ↔ b = a ∨ used_area k b) as Hused
    by (intros b; rewrite <- (da_used _ _ _ _ _ Hda); unfold used_area; by rewrite Ponly).
  pose proof (da_new _ _ _ _ _ Hda) as Hnew.
  eapply wp_mono; [apply (vmm_deallocate_spec D r a range); try done|].
  - eapply vma_inv_local; [..|apply Hda]; by rewrite Ponly.
  - apply Hused. by left.
  - destruct (da_root _ _ _ _ _ Hda) as [Hb Hf]. split; [done|]. by rewrite Ponly.
  - by rewrite (da_flags _ _ _ _ _ Hda).
  - rewrite (da_flags _ _ _ _ _ Hda). simpl.
    intros _ k3 (G1 & _ & G3 & G4 & G5 & _). split_and!; [done|done| |].
    + intros b. rewrite G3, Hused. split; [by intros [[->|?] ?]|].
      intros Hb. split; [by right|]. by intros ->.
    + intros u Hu. by rewrite G5, Pmap.
Qed.

(** Unmapping a region that [map_physical_region] mapped. *)
Lemma unmap_physical_region_spec r phys size a base e k k1 :
  device_area r a base k k1 → mm_unlocked e → 0 < size →
  va_size a = 4096 * region_pages size →
  wp e (unmap_physical_region (mkPhysicalMapping phys (va_start a + phys mod 4096) size
          (4096 * region_pages size - phys mod 4096)))
    (λ _ k', vma_inv k' ∧ pt_inv D k' r ∧ (∀ b, used_area k' b ↔ used_area k b)
       ∧ ∀ w, in_region D w → mapping (k_mem k') r w =
           if in_pages (va_start a) (unmapped_pages size) w then None
           else mapping (k_mem k1) r w) k1.
Proof.
  intros Hda He Hsize Hsz. unfold unmap_physical_region, unmapped_pages. simpl.
  pose proof (da_area _ _ _ _ _ Hda) as (_ & Hal & _ & Hlo & Hhi).
  pose proof (va_size_spec a) as Hsz'. unfold region_pages in Hsz.
  set (off := phys mod 4096). assert (0 ≤ off < 4096) as Hoff by (unfold off; dlia).
  rewrite virt_new_of by (apply vmalloc_canonical; dlia). apply wp_bind, wp_ret.
  set (v := virt_of (va_start a + off)). set (start := virt_page_align_down v).
  assert (virt_as_u64 start = va_start a) as Hstart.
  { unfold start, v. rewrite virt_page_align_down_spec, virt_of_u64; [dlia|].
    apply vmalloc_canonical. dlia. }
  destruct (virt_add_spec start size) as (w & -> & Hw); [lia|
    rewrite Hstart; apply vmalloc_canonical; dlia|]. apply wp_bind, wp_ret.
  set (m := (size + 4095) / 4096).
  assert ((virt_as_u64 w + 4095) / 4096 * 4096 = va_start a + m * 4096) as Hend
    by (unfold m; rewrite Hw, Hstart; dlia).
  destruct (virt_page_align_up_spec w) as (end_ & -> & He');
    [rewrite Hend; apply vmalloc_canonical; unfold m; dlia|]. rewrite Hend in He'.
  apply wp_bind, wp_ret. rewrite Hstart, He', PAGE_SIZE_spec. apply wp_bind.
  eapply wp_mono; [apply (unmap_device_pages_spec D r (va_start a) m); try done|].
  - apply Hda.
  - apply Hda.
  - unfold m. dlia.
  - unfold m. dlia.
  - intros u Hu. destruct (da_mapped _ _ _ _ _ Hda u) as (Hr & x & Hx & _).
    { rewrite covers_spec. unfold in_pages in Hu. bool_to_prop; [done|]. unfold m in *. dlia. }
    split; [done|]. by rewrite Hx.
  - intros [] k2 [Pinv Ponly Pmap].
    destruct (vr_new_spec start end_) as (range & -> & Hr1 & _); [unfold m in *; dlia|].
    apply wp_bind, wp_ret. apply (release_device_area r a base (va_start a) m range e k k1 k2);
      [done|done|by rewrite Hr1|by split].
Qed.

(** C29: Unmapping a region undoes its mapping: when the size is not a multiple of the
    page size, [map_physical_region] followed by [unmap_physical_region] returns, puts
    every page of the region back as it was mapped and the vmalloc areas in use back as
    they were, with the invariants of the areas and of the page tables. *)
Theorem physical_region_roundtrip r phys size e k :
  device_ready r (region_pages size) e k → 0 < size → size mod 4096 ≠ 0 → 4096 ≤ phys →
  phys + size + 4096 ≤ 2 ^ 52 →
  wp e (pm ← map_physical_region phys size; unmap_physical_region pm)
    (λ _ k', vma_inv k' ∧ pt_inv D k' r ∧ vmalloc_clean r k'
       ∧ (∀ b, used_area k' b ↔ used_area k b)
       ∧ ∀ w, in_region D w → mapping (k_mem k') r w = mapping (k_mem k) r w) k.
Proof.
  intros Hd Hsize Hmod Hlo Hhi. apply wp_bind.
  eapply wp_mono; [by apply map_physical_region_spec|].
  intros pm k1 (a & Ha & Hsz & ->).
  eapply wp_mono; [by eapply unmap_physical_region_spec; [..|apply Hd| |]|].
  intros [] k2 (H1 & H2 & H3 & H4).
  assert (unmapped_pages size = region_pages size) as Hpages
    by (unfold unmapped_pages, region_pages; dlia).
  assert (∀ w, in_region D w → mapping (k_mem k2) r w = mapping (k_mem k) r w) as Hmap.
  { intros w Hw. rewrite H4, Hpages, covers_in_pages by done.
    destruct (covers_addr w a) eqn:E; [|by apply (da_other _ _ _ _ _ Ha)].
    destruct (device_area_fresh r (region_pages size) e a _ k k1 w Hd Ha E) as [_ ->]. done. }
  split_and!; [done..| |done|done].
  intros v Hv Hun. destruct (dr_clean _ _ _ _ Hd v Hv) as [Hreg Hm].
  - intros b Hb. by apply Hun, H3.
  - by rewrite Hmap.
Qed.

(** When the size is a multiple of the page size, [map_physical_region] maps one page
    more than [unmap_physical_region] unmaps: after both, an address of the vmalloc
    space that is in no area in use is still mapped, to the page after the region. *)
Theorem whole_page_region_leaks r phys size e k :
  device_ready r (region_pages size) e k → 0 < size → size mod 4096 = 0 → 4096 ≤ phys →
  phys + size + 4096 ≤ 2 ^ 52 →
  wp e (pm ← map_physical_region phys size; unmap_physical_region pm)
    (λ _ k', vma_inv k' ∧ pt_inv D k' r ∧ (∀ b, used_area k' b ↔ used_area k b)
       ∧ ∃ v x, in_vmalloc v = true ∧ (∀ b, used_area k' b → covers_addr v b = false)
           ∧ mapping (k_mem k') r v = Some x
           ∧ entry_phys x v = phys_of (phys - phys mod 4096 + size)) k.
Proof.
  intros Hd Hsize Hmod Hlo Hhi. apply wp_bind.
  eapply wp_mono; [by apply map_physical_region_spec|].
  intros pm k1 (a & Ha & Hsz & ->).
  eapply wp_mono; [by eapply unmap_physical_region_spec; [..|apply Hd| |]|].
  intros [] k2 (H1 & H2 & H3 & H4). split_and!; [done..|].
  pose proof (da_area _ _ _ _ _ Ha) as (_ & _ & _ & Hvlo & Hvhi).
  pose proof (va_size_spec a) as Hsz'. unfold region_pages in Hsz.
  set (v := virt_of (va_start a + size)).
  assert (virt_as_u64 v = va_start a + size) as Hv
    by (apply virt_of_u64, vmalloc_canonical; dlia).
  assert (covers_addr v a = true) as Hc by (rewrite covers_spec, Hv; bool_to_prop; dlia).
  destruct (device_area_fresh r (region_pages size) e a _ k k1 v Hd Ha Hc) as [Hun _].
  destruct (da_mapped _ _ _ _ _ Ha v Hc) as (Hreg & x & Hx & _ & Hp).
  exists v, x. split_and!.
  - eapply covers_in_vmalloc; [apply Ha|done].
  - intros b Hb. by apply Hun, H3.
  - rewrite H4 by done. unfold in_pages, unmapped_pages. rewrite Hv.
    rewrite (proj2 (Z.ltb_ge _ _)), andb_false_r by dlia. done.
  - rewrite Hp. f_equal. lia.
Qed.

(** [remap_lapic] gives the local APIC a virtual address: with room and frames for the
    tables it returns an address that translates, as device memory, to the physical
    address it was given, in a new one-page area, and changes no other mapping. *)
Lemma remap_lapic_spec r base e k :
  device_ready r 1 e k → 4096 ≤ base < 2 ^ 52 →
  wp e (remap_lapic base)
    (λ res k', ∃ v a x, res = Some v ∧ device_area r a (base - base mod 4096) k k'
       ∧ va_size a = 4096 ∧ covers_addr v a = true
       ∧ mapping (k_mem k') r v = Some x ∧ pe_flags x = device_flags
       ∧ entry_phys x v = phys_of base) k.
Proof.
  intros Hd Hb. unfold remap_lapic. rewrite PAGE_SIZE_spec.
  apply wp_bind, wp_arith; [dlia|]. apply wp_bind, wp_arith; [dlia|].
  set (low := base - base mod 4096). set (off := base - low).
  assert (low mod 4096 = 0 ∧ 0 < low ∧ low + 4096 ≤ 2 ^ 52 ∧ 0 ≤ off < 4096)
    as (Hl1 & Hl2 & Hl3 & Hoff) by (unfold off, low; split_and!; dlia).
  apply wp_bind. eapply wp_mono; [apply (reserve_spec r 1); [done|lia|lia|lia]|].
  intros res k1 (range & -> & Hinv1 & Ha & Hsz & Hnew & Hused & Hvma & Hun).
  set (a := mkVirtualArea range _) in *.
  pose proof (va_size_spec a) as Hsz'. pose proof Ha as (_ & Hal & _ & Hvlo & Hvhi).
  pose proof Hd as [_ Hpt Hroot _ He Hfr _]. cbn [vr_start].
  apply wp_bind. eapply wp_of_run; [apply frame_from_u64_run; [lia|done]|]. apply wp_bind.
  destruct (Hun (vr_start range)) as [Hreg Hm];
    [rewrite covers_in_pages by done; by apply (covers_start a)|].
  assert (pt_inv D k1 r) as Hpt1 by (eapply pt_inv_local; [..|exact Hpt]; by rewrite Hvma).
  eapply wp_mono; [apply (map_current_given D r (vr_start range)); try done|].
  - destruct Hroot as [Hb' Hf]. split; [done|]. by rewrite Hvma.
  - by rewrite frame_at_u64 by lia.
  - rewrite frame_at_u64 by lia. lia.
  - rewrite (fa_free_local k1 k) by (by rewrite Hvma). lia.
  - intros res k2 (-> & Hfr2 & Hmt & Hc).
    destruct (virt_add_spec (vr_start range) off) as (v & -> & Hv); [lia| |].
    { apply vmalloc_canonical. fold (va_start a). change (virt_as_u64 (vr_start range))
        with (va_start a). lia. }
    change (virt_as_u64 (vr_start range)) with (va_start a) in Hv.
    apply wp_bind, wp_ret, wp_ret.
    assert (pages_mapped D r (va_start a) low device_flags (0 + 1) k1 k2) as Hpm.
    { apply (pages_mapped_step D r (va_start a) low device_flags 0 k1 k1 (vr_start range));
        try done; [unfold va_start; simpl; lia|lia|apply device_present
                  |by apply pages_mapped_nil|by rewrite Z.add_0_r]. }
    assert (device_area r a low k k2) as Hda
      by (by apply (device_area_mapped r 1 a low k k1 k2 e)).
    assert (covers_addr v a = true) as Hcov by (rewrite covers_spec, Hv; blia).
    destruct (da_mapped _ _ _ _ _ Hda v Hcov) as (_ & x & Hx & Hf & Hp).
    exists v, a, x. split_and!; [done..| |done|done|done|].
    + rewrite Hsz. lia.
    + rewrite Hp, Hv. f_equal. unfold off. lia.
Qed.
End Handler.

(** ** Witnesses *)

Lemma ref_vmm_unmapped v : mapping (k_mem ref_vmm) 4096 v = None.
Proof.
  unfold mapping, leaf. simpl idxs. rewrite follow_cons. unfold next_table.
  assert (pe_is_present (k_mem ref_vmm 4096 (idx v 3)) = false) as ->
    by (vm_compute; reflexivity). reflexivity.
Qed.

(** After the set-up of the virtual memory manager, two pages can be mapped. *)
Lemma ref_device_ready n : n ≤ 2 → device_ready everywhere 4096 n ref_env ref_vmm.
Proof.
  intros Hn. destruct ref_vmm_inv as (Hinv & a & Ha & Hs & He). split.
  - exact Hinv.
  - eapply pt_inv_local; [..|exact ref_space_inv]; reflexivity.
  - apply active_rootb_sound; [lia|]. vm_compute. reflexivity.
  - intros v _ _. split; [exact I|apply ref_vmm_unmapped].
  - unfold mm_unlocked. rewrite !Forall_cons. by split_and!; try apply ref_env_unlocked.
  - assert (fa_free ref_vmm = 8) as -> by (vm_compute; reflexivity). lia.
  - exists a. split; [exact Ha|]. rewrite va_size_spec, Hs, He.
    unfold VMALLOC_START, VMALLOC_END. lia.
Qed.

Lemma map_physical_region_correct_witness :
  wp ref_env (map_physical_region 0xE0010 36)
    (λ pm _, physical_start pm = 0xE0010 ∧ region_length pm = 36 ∧ 36 ≤ mapped_length pm) ref_vmm.
Proof.
  eapply wp_mono.
  - apply (map_physical_region_correct everywhere 4096 0xE0010 36 ref_env ref_vmm);
      [apply ref_device_ready; vm_compute; discriminate|lia..].
  - intros pm k' (H1 & H2 & H3 & _). split; [exact H1|]. split; [exact H2|].
    apply H3. vm_compute. discriminate.
Defined.

Lemma physical_region_roundtrip_witness :
  wp ref_env (pm ← map_physical_region 0xE0010 36; unmap_physical_region pm)
    (λ _ k', vma_inv k' ∧ vmalloc_clean everywhere 4096 k') ref_vmm.
Proof.
  eapply wp_mono.
  - apply (physical_region_roundtrip everywhere 4096 0xE0010 36 ref_env ref_vmm);
      [apply ref_device_ready; vm_compute; discriminate|lia|vm_compute; discriminate|lia..].
  - intros _ k' (H1 & _ & H3 & _). split; [exact H1|exact H3].
Defined.

Lemma whole_page_region_leaks_witness :
  wp ref_env (pm ← map_physical_region 0xE0000 4096; unmap_physical_region pm)
    (λ _ k', ∃ v x, (∀ b, used_area k' b → covers_addr v b = false)
       ∧ mapping (k_mem k') 4096 v = Some x ∧ entry_phys x v = phys_of 0xE1000) ref_vmm.
Proof.
  eapply wp_mono.
  - apply (whole_page_region_leaks everywhere 4096 0xE0000 4096 ref_env ref_vmm);
      [apply ref_device_ready; vm_compute; discriminate|lia|reflexivity|lia..].
  - intros _ k' (_ & _ & _ & v & x & _ & H1 & H2 & H3). exists v, x.
    split; [exact H1|]. split; [exact H2|exact H3].
Defined.

(** The page that was left mapped is fatal to a later call: mapping a whole page,
    unmapping it and mapping it again panics, because the area is handed out again and
    its second page is still mapped. *)
Theorem remap_whole_page_panics :
  let once := pm ← map_physical_region 0xE0000 4096; unmap_physical_region pm in
  ret_value (once ref_env ref_vmm) = Some tt
  ∧ panic_value ((once;; map_physical_region 0xE0000 4096) ref_env ref_vmm) = Some UnwrapNone.
Proof. split; vm_compute; reflexivity. Qed.
