(* ===== verification/Interrupts.v ===== *)
(** * Interrupts: [src/src/arch/idt.rs], [irq.rs] and [exception.rs]

    The kernel fills the interrupt descriptor table in three steps: a default
    handler for every vector with the two inter-processor vectors, then the
    sixteen legacy IRQs, then the thirty-two exceptions. *)

From S2P Require Import Prelude Machine External Reference Frame BTree Log Kernel FrameState FrameAlloc Paging PageTables PagingSpec Vmm VmmSpec Fault Acpi.

Definition IRQ_BASE : Z := 32.

(** The entry points the macro [interrupt_handler!] generates. *)
Inductive Stub :=
  | unknown_interrupt | stub_tlb_shootdown | clock_tick | pit_tick | ignore_irq
  | divide_by_zero | debug | non_maskable_interrupt | breakpoint | overflow
  | bound_range_exceeded | invalid_opcode | device_not_available | double_fault
  | coprocessor_segment_overrun | invalid_tss | segment_not_present
  | stack_segment_fault | general_protection_fault | stub_page_fault | reserved_1
  | x87_floating_point | alignment_check | machine_check | simd | virtualization
  | control_protection | reserved_2 | reserved_3 | reserved_4 | reserved_5
  | reserved_6 | reserved_7 | hypervisor_injection | vmm_communication
  | security_exception | reserved_8.

Section InterruptDefs.
Context {RT : Runtime} {XI : X86Idt}.

(** The address of each entry point, which the linker chooses. *)
Variable address_of : Stub → Z.

(** The static [IDT], and whether the processor uses it. *)
Record Idt := mkIdt { idt_table : IdtTable; idt_loaded : bool }.

(** [u8::try_from(i)]. *)
Definition u8_try_from (i : Z) : option Z :=
  if (0 <=? i) && (i <? 256) then Some i else None.

(** [a + b] on [u8]. *)
Definition u8_add {S} (a b : Z) : M S Z := λ e s,
  if a + b <? 256 then Ret (a + b) s
  else if overflow_checks e then Panic ArithmeticOverflow
  else Ret ((a + b) mod 256) s.

Definition gate_flags : DescriptorFlags :=
  df_build (df_present (df_set_privilege_level df_new KERNEL_PRIVILEGE) true).

Definition gate (handler : Stub) : Descriptor :=
  d_build (d_set_options (d_set_handler_addr d_new (address_of handler)) gate_flags).

(** [idt.set_descriptor(index, descriptor)]. *)
Definition set_descriptor (index : Z) (d : Descriptor) : M Idt unit :=
  s ← get;
  t ← ext (idt_set_descriptor (idt_table s) index d);
  put (mkIdt t (idt_loaded s)).

Definition idt_load : M Idt unit := modify (λ s, mkIdt (idt_table s) true).

Definition idt_setup : M Idt unit :=
  with_lock IDT (
    s ← get;
    foldM (λ (_ : unit) i,
      index ← expect (u8_try_from i) "IDT index should fit in u8";
      set_descriptor index (gate unknown_interrupt))
      (seqZ 0 (idt_capacity (idt_table s))) tt;;
    set_descriptor TLB_SHOOTDOWN_VECTOR (gate stub_tlb_shootdown);;
    set_descriptor CLOCK_TICK_VECTOR (gate clock_tick);;
    idt_load).

Definition idt_reload : M Idt unit := with_lock IDT idt_load.

Definition irq_setup : M Idt unit :=
  with_lock IDT (
    foldM (λ (_ : unit) i,
      index ← u8_add IRQ_BASE i;
      set_descriptor index (gate ignore_irq)) (seqZ 0 16) tt;;
    set_descriptor IRQ_BASE (gate pit_tick)).

Definition register_exception_handler (index : Z) (handler : Stub) : M Idt unit :=
  with_lock IDT (set_descriptor index (gate handler)).

(** The calls of [exception::setup], in order. *)
Definition exception_handlers : list Stub :=
  [ divide_by_zero; debug; non_maskable_interrupt; breakpoint; overflow;
    bound_range_exceeded; invalid_opcode; device_not_available; double_fault;
    coprocessor_segment_overrun; invalid_tss; segment_not_present;
    stack_segment_fault; general_protection_fault; stub_page_fault; reserved_1;
    x87_floating_point; alignment_check; machine_check; simd; virtualization;
    control_protection; reserved_2; reserved_3; reserved_4; reserved_5; reserved_6;
    reserved_7; hypervisor_injection; virtualization; security_exception; reserved_8 ].

Definition exception_setup : M Idt unit :=
  foldM (λ (_ : unit) '(i, handler), register_exception_handler i handler)
    (zip (seqZ 0 32) exception_handlers) tt.
End InterruptDefs.

Section Handlers.
Context {BF : Bitflags} {RT : Runtime} {XA : X86Address} {XP : X86Paging XA} {LG : Logging}
  {XC : X86Cpu} {FA : Allocator}.

(** The error code the processor pushed, and the content of CR2. *)
Definition page_fault_handler (state_code cr2 : Z) : M Kernel unit :=
  let code := pfec_from_bits_truncate state_code in
  addr ← ext (virt_new cr2);
  res ← page_fault code addr;
  match res with
  | inl _ => mret tt
  | inr _ => panic_with (PanicMsg "Unrecoverable page fault")
  end.

Definition tlb_shootdown_handler : M Kernel unit := tlb_flush_all;; emit LapicEoi.

Definition clock_tick_handler : M Kernel unit := emit LapicEoi.
End Handlers.

(** ** The table after boot *)

Section Table.
Context {RT : Runtime} {RTS : RuntimeSpec RT} {XI : X86Idt} {XIS : X86IdtSpec XI}.
Variable address_of : Stub → Z.
Implicit Types (e : Env) (s : Idt) (i j : Z) (h : Stub).

Lemma set_descriptor_spec i h e s (Q : unit → Idt → Prop) :
  0 ≤ i < 256 →
  (∀ s', idt_loaded s' = idt_loaded s →
     (∀ j, idt_gate (idt_table s') j =
        if j =? i then gate address_of h else idt_gate (idt_table s) j) → Q tt s') →
  wp e (set_descriptor i (gate address_of h)) Q s.
Proof.
  intros Hi HQ. unfold set_descriptor. apply wp_bind.
  eapply wp_of_run; [reflexivity|].
  destruct (idt_set_descriptor_spec (idt_table s) i (gate address_of h) Hi) as (t & -> & Ht).
  apply wp_bind, wp_ret. eapply wp_of_run; [reflexivity|]. by apply HQ.
Qed.

(** The gates at the vectors of [pre] were set to [g], the others are those of [s]. *)
Definition gates_set (pre : list Z) (g : Z → Stub) s s' : Prop :=
  idt_loaded s' = idt_loaded s ∧
  ∀ j, idt_gate (idt_table s') j =
    if decide (j ∈ pre) then gate address_of (g j) else idt_gate (idt_table s) j.

Lemma gates_set_nil g s : gates_set [] g s s.
Proof. split; [done|]. intros j. by rewrite decide_False by apply not_elem_of_nil. Qed.

Lemma gates_set_snoc pre g i h e s s1 :
  0 ≤ i < 256 → h = g i → gates_set pre g s s1 →
  wp e (set_descriptor i (gate address_of h)) (λ _ s2, gates_set (pre ++ [i]) g s s2) s1.
Proof.
  intros Hi -> [Hl Hg]. apply set_descriptor_spec; [done|]. intros s2 Hl2 Hg2.
  split; [congruence|]. intros j. rewrite Hg2. destruct (Z.eqb_spec j i) as [->|Hne].
  - rewrite decide_True; [done|]. apply elem_of_app. right. left.
  - rewrite Hg. assert (j ∈ pre ++ [i] ↔ j ∈ pre) as Hiff.
    { rewrite elem_of_app, list_elem_of_singleton. split; [by intros [?|?]|by left]. }
    by rewrite (decide_ext (j ∈ pre ++ [i]) (j ∈ pre)).
Qed.

(** The entry point that is in charge of each vector in the end. *)
Definition installed (v : Z) : Stub :=
  if v <? 32 then nth (Z.to_nat v) exception_handlers unknown_interrupt
  else if v =? 32 then pit_tick
  else if v <? 48 then ignore_irq
  else if v =? 0xF0 then stub_tlb_shootdown
  else if v =? 0xF1 then clock_tick
  else unknown_interrupt.

(** After [idt::setup]: the default handler but for two vectors. *)
Lemma idt_setup_spec e s :
  IDT ∉ held e →
  wp e (idt_setup address_of)
    (λ _ s', idt_loaded s' = true ∧ ∀ j, 0 ≤ j < 256 → idt_gate (idt_table s') j =
       gate address_of (if j =? 0xF0 then stub_tlb_shootdown
                        else if j =? 0xF1 then clock_tick else unknown_interrupt)) s.
Proof.
  intros Hl. apply wp_with_lock; [done|]. apply wp_bind. eapply wp_of_run; [reflexivity|].
  rewrite idt_capacity_spec. apply wp_bind.
  eapply wp_mono; [apply (wp_foldM _ (λ pre _, gates_set pre (λ _, unknown_interrupt) s))|].
  - apply gates_set_nil.
  - intros pre i todo [] s1 Heq Hg. assert (i ∈ seqZ 0 256) as Hi%elem_of_seqZ
      by (rewrite Heq; apply elem_of_app; right; left).
    unfold u8_try_from. assert ((0 <=? i) && (i <? 256) = true) as -> by blia.
    apply wp_bind, wp_ret. by apply gates_set_snoc.
  - intros [] s1 [_ Hg]. apply wp_bind, set_descriptor_spec; [done|]. intros s2 _ H2.
    apply wp_bind, set_descriptor_spec; [done|]. intros s3 _ H3. apply wp_modify.
    split; [done|]. intros j Hj. simpl. rewrite H3, H2, Hg, decide_True
      by (apply elem_of_seqZ; lia). unfold TLB_SHOOTDOWN_VECTOR, CLOCK_TICK_VECTOR.
    by destruct (Z.eqb_spec j 0xF0), (Z.eqb_spec j 0xF1); subst.
Qed.

Lemma irq_setup_spec e s :
  IDT ∉ held e →
  wp e (irq_setup address_of)
    (λ _ s', idt_loaded s' = idt_loaded s ∧ ∀ j, idt_gate (idt_table s') j =
       if j =? 32 then gate address_of pit_tick
       else if (32 <? j) && (j <? 48) then gate address_of ignore_irq
       else idt_gate (idt_table s) j) s.
Proof.
  intros Hl. apply wp_with_lock; [done|]. apply wp_bind.
  eapply wp_mono; [apply (wp_foldM _ (λ pre _,
    gates_set (Z.add 32 <$> pre) (λ _, ignore_irq) s))|].
  - apply gates_set_nil.
  - intros pre i todo [] s1 Heq Hg. assert (i ∈ seqZ 0 16) as Hi%elem_of_seqZ
      by (rewrite Heq; apply elem_of_app; right; left).
    apply wp_bind. apply wp_of_run with (32 + i) s1.
    { unfold u8_add, IRQ_BASE. by rewrite (proj2 (Z.ltb_lt _ _)) by lia. }
    rewrite fmap_app. apply gates_set_snoc; [lia|done|done].
  - intros [] s1 [Hl1 Hg]. apply set_descriptor_spec; [done|]. intros s2 Hl2 H2.
    split; [congruence|]. intros j. rewrite H2, Hg, fmap_add_seqZ. unfold IRQ_BASE.
    destruct (Z.eqb_spec j 32); [done|].
    destruct (decide (j ∈ seqZ (32 + 0) 16)) as [Hj|Hj]; rewrite elem_of_seqZ in Hj.
    + assert ((32 <? j) && (j <? 48) = true) as -> by blia. done.
    + destruct ((32 <? j) && (j <? 48)) eqn:E; [|done]. bool_to_prop. lia.
Qed.

Lemma exception_pairs pre i h todo :
  zip (seqZ 0 32) exception_handlers = pre ++ (i, h) :: todo →
  0 ≤ i < 32 ∧ h = installed i.
Proof.
  intros Heq.
  assert (Forall (λ '(i, h), 0 ≤ i < 32 ∧ h = installed i) (zip (seqZ 0 32) exception_handlers))
    as HF by (repeat constructor; done || lia).
  rewrite Heq in HF. apply Forall_app in HF as [_ HF]. by inversion HF.
Qed.

Lemma exception_setup_spec e s :
  IDT ∉ held e →
  wp e (exception_setup address_of)
    (λ _ s', idt_loaded s' = idt_loaded s ∧ ∀ j, 0 ≤ j → idt_gate (idt_table s') j =
       if j <? 32 then gate address_of (installed j) else idt_gate (idt_table s) j) s.
Proof.
  intros Hl. unfold exception_setup.
  eapply wp_mono; [apply (wp_foldM _ (λ pre _, gates_set (fst <$> pre) installed s))|].
  - apply gates_set_nil.
  - intros pre [i h] todo [] s1 [Hi Hh]%exception_pairs Hg.
    apply wp_with_lock; [done|]. rewrite fmap_app. apply gates_set_snoc; [lia|done|done].
  - intros [] s1 [Hl1 Hg]. split; [done|]. intros j Hj. rewrite Hg.
    change (fst <$> zip (seqZ 0 32) exception_handlers) with (seqZ 0 32).
    destruct (Z.ltb_spec j 32).
    + by rewrite decide_True by (apply elem_of_seqZ; lia).
    + rewrite decide_False; [done|]. rewrite elem_of_seqZ. lia.
Qed.

(** The table is loaded and every vector leads to its entry point. *)
Definition gates_complete s : Prop :=
  idt_loaded s = true
  ∧ ∀ v, 0 ≤ v < 256 → idt_gate (idt_table s) v = gate address_of (installed v).

Lemma gates_composed s1 s2 s3 :
  (idt_loaded s1 = true ∧ ∀ j, 0 ≤ j < 256 → idt_gate (idt_table s1) j =
     gate address_of (if j =? 0xF0 then stub_tlb_shootdown
                      else if j =? 0xF1 then clock_tick else unknown_interrupt)) →
  (idt_loaded s2 = idt_loaded s1 ∧ ∀ j, idt_gate (idt_table s2) j =
     if j =? 32 then gate address_of pit_tick
     else if (32 <? j) && (j <? 48) then gate address_of ignore_irq
     else idt_gate (idt_table s1) j) →
  (idt_loaded s3 = idt_loaded s2 ∧ ∀ j, 0 ≤ j → idt_gate (idt_table s3) j =
     if j <? 32 then gate address_of (installed j) else idt_gate (idt_table s2) j) →
  gates_complete s3.
Proof.
  intros [L1 G1] [L2 G2] [L3 G3]. split; [congruence|]. intros v Hv.
  rewrite G3, G2, G1 by lia. unfold installed.
  destruct (Z.ltb_spec v 32); [done|]. destruct (Z.eqb_spec v 32); [done|].
  rewrite (proj2 (Z.ltb_lt 32 v)) by lia. simpl.
  destruct (Z.ltb_spec v 48); [done|]. done.
Qed.

(** C32: After the three set-up steps of the boot every vector has a gate: the table is
    loaded, and each of the 256 gates is present, is reserved to the kernel and leads to
    the entry point meant for its vector: exceptions 0 to 31, the PIT tick at 32, the
    ignored IRQs up to 47, the TLB shootdown and the clock tick at 0xF0 and 0xF1, the
    default handler elsewhere.  Vector 29 leads to [virtualization], so that
    [vmm_communication] is reachable from no vector. *)
Theorem interrupt_table_complete e s :
  IDT ∉ held e →
  wp e (idt_setup address_of;; irq_setup address_of;; exception_setup address_of)
    (λ _ s', idt_loaded s' = true
       ∧ (∀ v, 0 ≤ v < 256 → let g := idt_gate (idt_table s') v in
            gate_handler g = address_of (installed v) ∧ gate_present g = true
            ∧ gate_privilege g = KERNEL_PRIVILEGE)
       ∧ installed TLB_SHOOTDOWN_VECTOR = stub_tlb_shootdown
       ∧ ∀ v, installed v ≠ vmm_communication) s.
Proof.
  intros Hl. apply wp_bind. eapply wp_mono; [by apply idt_setup_spec|].
  intros [] s1 G1. apply wp_bind. eapply wp_mono; [by apply irq_setup_spec|].
  intros [] s2 G2. eapply wp_mono; [by apply exception_setup_spec|].
  intros [] s3 G3. destruct (gates_composed s1 s2 s3 G1 G2 G3) as [L G].
  split_and!; [done| |done|].
  - intros v Hv. rewrite G by done.
    destruct (gate_spec (address_of (installed v)) KERNEL_PRIVILEGE true) as (H1 & H2 & H3).
    done.
  - intros v. unfold installed.
    destruct (v <? 32); [|by repeat case_match].
    assert (Forall (λ h, h ≠ vmm_communication) exception_handlers) as HF
      by (repeat constructor; done).
    destruct (nth_in_or_default (Z.to_nat v) exception_handlers unknown_interrupt) as [Hin|Hd];
      [|by rewrite Hd]. rewrite Forall_forall in HF. by apply HF, list_elem_of_In.
Qed.
End Table.

(** ** The page-fault handler *)

Section PageFault.
Context {BF : Bitflags} {BFS : BitflagsSpec BF} {RT : Runtime} {RTS : RuntimeSpec RT}
  {XA : X86Address} {XAS : X86AddressSpec XA} {XP : X86Paging XA} {XPS : X86PagingSpec XP}
  {LG : Logging} {LGS : LoggingSpec LG}
  {XC : X86Cpu} {XCS : X86CpuSpec XC} {FA : Allocator} {FAS : AllocatorSpec FA}.
Variable D : Z → Prop.

(** C26: An access to a missing page of the kernel heap is transparent while memory lasts:
    with five free frames the exception handler returns to the interrupted code instead
    of panicking, and the page of the faulting address is then present, writable and
    not executable, and every page that was mapped still is, as it was. *)
Theorem heap_access_resumes r state_code cr2 e k :
  canonical cr2 → in_heap (virt_of cr2) = true → in_region D (virt_of cr2) →
  current_root e k r → frames_unlocked e → pt_inv D k r →
  mapping (k_mem k) r (virt_of cr2) = None → 5 ≤ fa_free k →
  pfec_contains (pfec_from_bits_truncate state_code) PROTECTION_VIOLATION = false →
  wp e (page_fault_handler state_code cr2)
    (λ _ k', pt_inv D k' r
       ∧ (∃ x, mapping (k_mem k') r (virt_of cr2) = Some x ∧ pe_flags x = heap_flags)
       ∧ ∀ w x, in_region D w → mapping (k_mem k) r w = Some x →
           mapping (k_mem k') r w = Some x) k.
Proof.
  intros Hcan Hheap Hv Hroot He Hinv Hm Hfree Hc. unfold page_fault_handler.
  rewrite virt_new_of by done. apply wp_bind, wp_ret, wp_bind.
  eapply wp_mono; [by apply (heap_fault_spec D)|]. intros [ty|err] k' (Hfr & _ & H).
  - destruct H as (_ & f & _ & Hmt). apply wp_ret. split; [apply Hfr|]. split.
    + destruct (maps_to_self D r _ f heap_flags k k' Hmt Hv) as (x & Hx & Hfl & _).
      { do 2 apply pef_union_l. apply pef_contains_refl. }
      by exists x.
    + intros w x Hw Hx. rewrite (maps_to_other D r (virt_of cr2) w f heap_flags k k');
        [done..|]. destruct (same_page w (virt_of cr2)) eqn:E; [|done].
      rewrite (same_page_mapping _ r _ w E) in Hx. congruence.
  - destruct H as (_ & H & _). lia.
Qed.
End PageFault.

(** ** Witnesses *)

Lemma heap_access_resumes_witness :
  wp ref_env (page_fault_handler 2 0xFFFF900000003210)
    (λ _ k', pt_inv everywhere k' 4096
       ∧ ∃ x, mapping (k_mem k') 4096 ref_page = Some x ∧ pe_flags x = heap_flags) (ref_space 8).
Proof.
  eapply wp_mono.
  - apply (heap_access_resumes everywhere 4096 2 0xFFFF900000003210 ref_env (ref_space 8));
      [unfold canonical; lia|reflexivity|exact I|by apply ref_current|exact ref_unlocked
      |exact ref_space_inv|exact ref_page_unmapped| |reflexivity].
    assert (fa_free (ref_space 8) = 8) as -> by (vm_compute; reflexivity). lia.
  - intros _ k' (H1 & H2 & _). split; [exact H1|exact H2].
Defined.

Definition ref_addresses (h : Stub) : Z :=
  match h with pit_tick => 0xFFFFFFFF80001000 | _ => 0xFFFFFFFF80002000 end.

Definition ref_empty_table : @IdtTable ref_idt := λ _, (0, (KERNEL_PRIVILEGE, false)).

Lemma interrupt_table_complete_witness :
  wp ref_env (idt_setup ref_addresses;; irq_setup ref_addresses;; exception_setup ref_addresses)
    (λ _ s', gate_handler (idt_gate (idt_table s') 32) = 0xFFFFFFFF80001000)
    (mkIdt ref_empty_table false).
Proof.
  eapply wp_mono.
  - apply (interrupt_table_complete ref_addresses ref_env (mkIdt ref_empty_table false)).
    apply ref_env_unlocked.
  - intros _ s' (_ & H & _). apply (H 32). lia.
Defined.
