(* ===== verification/Access.v ===== *)
(** * Memory accesses of the processor

    An access to a page that is missing in the table the processor uses raises a page
    fault; once the handler of [src/src/arch/exception.rs] has returned, the access is
    retried.  The heap and the per-CPU data live in memory that is mapped this way. *)

From S2P Require Import Prelude Machine External Reference Frame BTree Log Kernel FrameState FrameAlloc Paging PageTables PagingSpec Vmm VmmSpec Fault Interrupts.

Section AccessDefs.
Context {BF : Bitflags} {RT : Runtime} {XA : X86Address} {XP : X86Paging XA} {LG : Logging}
  {XC : X86Cpu} {FA : Allocator}.

(** The page the processor finds its root table in. *)
Definition cr3_page (k : Kernel) : Z := cr3_read (k_events k) / 4096 * 4096.

(** An access to the address [a]; [code] is the error code of the fault it raises when the
    page is missing.  The handler runs with the interrupts off. *)
Definition cpu_access (code a : Z) : M Kernel unit := λ e k,
  match mapping (k_mem k) (cr3_page k) (virt_of a) with
  | Some _ => Ret tt k
  | None => page_fault_handler code a (irqs_off e) k
  end.

(** The error codes of a missing page: bit 0 is clear, bit 1 tells a write. *)
Definition cpu_load : Z → M Kernel unit := cpu_access 0.
Definition cpu_store : Z → M Kernel unit := cpu_access 2.
End AccessDefs.

Section Accesses.
Context {BF : Bitflags} {BFS : BitflagsSpec BF} {RT : Runtime} {RTS : RuntimeSpec RT}
  {XA : X86Address} {XAS : X86AddressSpec XA} {XP : X86Paging XA} {XPS : X86PagingSpec XP}
  {LG : Logging} {LGS : LoggingSpec LG}
  {XC : X86Cpu} {XCS : X86CpuSpec XC} {FA : Allocator} {FAS : AllocatorSpec FA}.
Variable D : Z → Prop.
Implicit Types (e : Env) (k : Kernel) (r a : Z) (v w : Virtual).

(** The root table of the processor is the one at [r], and the fault handler can reach
    it: its locks and those of the frame allocator are free. *)
Definition cpu_ready e k r : Prop :=
  current_root e k r ∧ cr3_page k = r ∧ frames_unlocked e.

Lemma cpu_ready_only e k k' r : only_memory k k' → cpu_ready e k r → cpu_ready e k' r.
Proof.
  intros Ho (Hc & Hp & He). unfold cpu_ready, current_root, cr3_page, active_root in *.
  by rewrite Ho.
Qed.

Lemma cpu_ready_env e e' k r :
  (∀ l, l ≠ HEAP_ALLOCATOR → l ∉ held e → l ∉ held e') → cpu_ready e k r → cpu_ready e' k r.
Proof.
  intros Hl (Hc & Hp & [HF HS]). unfold cpu_ready, current_root, frames_unlocked in *.
  split_and!; [|done|by apply Hl..].
  destruct (k_early k); [done|]. destruct Hc as (Hr & HA & HT). split_and!; [done|by apply Hl..].
Qed.

(** What [n] accesses that fault do to the kernel: pages inside [P] were mapped, none was
    unmapped. *)
Record stored (P : Virtual → bool) r n k k' : Prop := {
  st_frame : map_frame D r k k';
  st_cost : fa_free k - 5 * n ≤ fa_free k';
  st_mapped w x : in_region D w → mapping (k_mem k) r w = Some x →
    mapping (k_mem k') r w = Some x;
  st_only w : in_region D w → P w = false → mapping (k_mem k') r w = mapping (k_mem k) r w
}.

Lemma stored_refl P r k : pt_inv D k r → stored P r 0 k k.
Proof. intros Hinv. split; [by apply map_frame_refl|lia|done..]. Qed.

Lemma stored_trans P r n1 n2 k1 k2 k3 :
  stored P r n1 k1 k2 → stored P r n2 k2 k3 → stored P r (n1 + n2) k1 k3.
Proof.
  intros [F1 C1 M1 O1] [F2 C2 M2 O2]. split; [by eapply map_frame_trans|lia|auto|].
  intros w Hw HP. by rewrite O2, O1.
Qed.

Lemma stored_keeps P r n k k' w :
  stored P r n k k' → in_region D w → mapping (k_mem k) r w ≠ None →
  mapping (k_mem k') r w ≠ None.
Proof.
  intros Hst Hw Hm. destruct (mapping (k_mem k) r w) as [x|] eqn:Hx; [|done].
  by rewrite (st_mapped _ _ _ _ _ Hst w x).
Qed.

(** Mapping a page that was missing. *)
Lemma stored_page_in P r v f flags k k' :
  map_frame D r k k' → fa_free k - 5 ≤ fa_free k' → in_region D v →
  mapping (k_mem k) r v = None → pef_contains flags PRESENT = true →
  (∀ w, same_page w v = true → P w = true) → maps_to D r v f flags k k' →
  stored P r 1 k k' ∧ mapping (k_mem k') r v ≠ None.
Proof.
  intros Hfr Hcost Hv Hm Hp HP Hmt. split.
  - split; [done|lia| |].
    + intros w x Hw Hx. rewrite (maps_to_other D r v w f flags k k'); [done|done|done|].
      destruct (same_page w v) eqn:E; [|done].
      rewrite (same_page_mapping _ r _ w E) in Hx. congruence.
    + intros w Hw HPw. apply (maps_to_other D r v w f flags k k'); [done|done|].
      destruct (same_page w v) eqn:E; [|done]. rewrite HP in HPw; done.
  - destruct (maps_to_self D r v f flags k k' Hmt) as (x & Hx & _); [done|done|congruence].
Qed.

(** An access to a page that is mapped, and one that faults. *)
Lemma cpu_access_mapped code a r e k :
  cr3_page k = r → mapping (k_mem k) r (virt_of a) ≠ None → cpu_access code a e k = Ret tt k.
Proof.
  intros Hp Hm. unfold cpu_access. rewrite Hp.
  by destruct (mapping (k_mem k) r (virt_of a)).
Qed.

Lemma cpu_access_fault code a r e k Q :
  cr3_page k = r → mapping (k_mem k) r (virt_of a) = None → canonical a →
  wp (irqs_off e) (page_fault (pfec_from_bits_truncate code) (virt_of a))
    (λ res k', ∃ ty, res = inl ty ∧ Q k') k →
  wp e (cpu_access code a) (λ _ k', Q k') k.
Proof.
  intros Hp Hm Hc Hwp. unfold cpu_access, wp at 1, wpx. rewrite Hp, Hm.
  change (wp (irqs_off e) (page_fault_handler code a) (λ _ k', Q k') k).
  unfold page_fault_handler. rewrite virt_new_of by done. apply wp_bind, wp_ret, wp_bind.
  eapply wp_mono; [exact Hwp|]. intros res k' (ty & -> & HQ). by apply wp_ret.
Qed.

(** ** The heap *)

Definition in_heap_addr a : Prop := HEAP_START ≤ a < HEAP_END.

Lemma heap_addr a : in_heap_addr a → canonical a ∧ in_heap (virt_of a) = true.
Proof.
  unfold in_heap_addr. intros Ha.
  assert (canonical a) as Hc by (unfold canonical, HEAP_START, HEAP_END in *; lia).
  split; [done|]. unfold in_heap. rewrite virt_of_u64 by done. blia.
Qed.

Lemma same_page_heap w v : same_page w v = true → in_heap w = in_heap v.
Proof.
  unfold same_page, in_heap, HEAP_START, HEAP_END. intros H%Z.eqb_eq. apply eq_iff_eq_true.
  rewrite !andb_true_iff, !Z.leb_le, !Z.ltb_lt. dlia.
Qed.

Lemma heap_access_spec code a r e k :
  pt_inv D k r → cpu_ready e k r → in_heap_addr a → in_region D (virt_of a) →
  Z.testbit code 0 = false → 5 ≤ fa_free k →
  wp e (cpu_access code a)
    (λ _ k', stored in_heap r 1 k k' ∧ mapping (k_mem k') r (virt_of a) ≠ None) k.
Proof.
  intros Hinv Hready Ha HD Hb Hfree. destruct (heap_addr a Ha) as [Hcan Hin].
  pose proof Hready as (_ & Hp & _).
  destruct (mapping (k_mem k) r (virt_of a)) as [x|] eqn:Hm.
  { eapply wp_of_run; [apply (cpu_access_mapped code a r); [done|congruence]|].
    split; [|congruence]. destruct (stored_refl in_heap r k Hinv) as [F C M O]. split; [done|lia|done..]. }
  destruct (cpu_ready_env e (irqs_off e) k r ltac:(done) Hready) as (Hc & _ & He).
  eapply cpu_access_fault; [done..|].
  eapply wp_mono; [apply (heap_fault_spec D); try done|].
  { by rewrite pfec_violation_spec. }
  intros [ty|err] k' (Hfr & Hcost & H); [|destruct H as (_ & H & _); lia].
  destruct H as (_ & f & _ & Hmt). exists ty. split; [done|].
  eapply stored_page_in; try done; [do 2 apply pef_union_l; apply pef_contains_refl|].
  intros w Hw. by rewrite (same_page_heap w (virt_of a)).
Qed.

(** ** Areas of the vmalloc space *)

Lemma area_addr b a :
  area_ok b → va_start b ≤ a < va_end b →
  canonical a ∧ in_vmalloc (virt_of a) = true ∧ covers_addr (virt_of a) b = true.
Proof.
  intros (_ & _ & _ & Hlo & Hhi) Ha.
  assert (canonical a) as Hc by (apply vmalloc_canonical; lia).
  split; [done|]. unfold in_vmalloc. rewrite covers_spec, virt_of_u64 by done.
  split; blia.
Qed.

Lemma same_page_covers b w v :
  va_start b mod 4096 = 0 → va_end b mod 4096 = 0 → same_page w v = true →
  covers_addr w b = covers_addr v b.
Proof.
  intros Hs He H%Z.eqb_eq. rewrite !covers_spec. apply eq_iff_eq_true.
  rewrite !andb_true_iff, !Z.leb_le, !Z.ltb_lt. dlia.
Qed.

(** The fault handler finds the area in use around an address. *)
Lemma fault_area_used b v k :
  vma_inv k → used_area k b → covers_addr v b = true → fault_area k v = Some b.
Proof.
  intros Hinv Hb Hv.
  assert (covers_addr (virt_page_align_down v) b = true) as Hv'.
  { destruct (used_area_ok k b (vma_used k Hinv) Hb) as (_ & Hs & He & _).
    rewrite covers_spec in Hv |- *. rewrite virt_page_align_down_spec. apply andb_true_iff in Hv.
    apply andb_true_iff. rewrite !Z.leb_le, !Z.ltb_lt in *. dlia. }
  unfold fault_area. destruct (bt_find _ _) as [[s c]|] eqn:E; simpl.
  - apply bt_find_Some in E as [Hin Hc]. f_equal.
    by apply (used_areas_disjoint k c b (virt_page_align_down v)); [|exists s|..].
  - destruct Hb as [s Hin]. pose proof (bt_find_None _ _ _ _ E Hin) as Hno. simpl in Hno.
    unfold covers_addr in Hv'. congruence.
Qed.

(** The locks that the handler of the vmalloc space takes, and the logger with it. *)
Definition area_unlocked e : Prop := (USED_VMA ∉ held e) ∧ (SERIAL ∉ held e).

Lemma area_access_spec code b a r e k :
  pt_inv D k r → vma_inv k → cpu_ready e k r → area_unlocked e → used_area k b →
  bf_contains (va_flags b) VmmFlags_MAP = true → va_start b ≤ a < va_end b →
  in_region D (virt_of a) → Z.testbit code 0 = false →
  mapping (k_mem k) r (virt_of a) ≠ None ∨ 5 ≤ fa_free k →
  wp e (cpu_access code a)
    (λ _ k', mapping (k_mem k') r (virt_of a) ≠ None
       ∧ match mapping (k_mem k) r (virt_of a) with
         | Some _ => k' = k
         | None => stored (λ w, covers_addr w b) r 1 k k'
         end) k.
Proof.
  intros Hinv Hvma Hready [HU HL] Hb Hfl Ha HD Hbit Hfree.
  destruct (area_addr b a) as (Hcan & Hin & Hcov);
    [by eapply used_area_ok; [apply Hvma|]|done|].
  pose proof Hready as (_ & Hp & _).
  destruct (mapping (k_mem k) r (virt_of a)) as [x|] eqn:Hm.
  { eapply wp_of_run; [apply (cpu_access_mapped code a r); [done|congruence]|].
    split; [congruence|done]. }
  destruct Hfree as [?|Hfree]; [done|].
  destruct (cpu_ready_env e (irqs_off e) k r ltac:(done) Hready) as (Hc & _ & He).
  eapply cpu_access_fault; [done..|].
  eapply wp_mono; [apply (vmalloc_fault_spec D r); try done|].
  { by rewrite pfec_violation_spec. }
  rewrite (fault_area_used b) by done. rewrite Hfl.
  intros [ty|err] k' (Hfr & Hcost & H); [|destruct H as (_ & H & _); lia].
  destruct H as (_ & f & _ & Hmt). exists ty. split; [done|].
  apply and_comm.
  eapply stored_page_in; try done; [apply pef_union_l, pef_contains_refl|].
  intros w Hw. destruct (used_area_ok k b (vma_used k Hvma) Hb) as (_ & Hs & He' & _).
  by rewrite (same_page_covers b w (virt_of a)).
Qed.
End Accesses.
