(* ===== verification/Heap.v ===== *)
(** * The kernel heap: [src/src/mm/allocator.rs] and [src/src/mm/mod.rs]

    The global allocator wraps a heap of the crate [linked_list_allocator] in a
    spin lock.  The memory of the heap is not mapped in advance: an operation on
    the heap page-faults on the pages it touches, while the lock of the heap is
    held.  This file composes the two, and the set-up of the memory manager. *)

From S2P Require Import Prelude Machine External Reference Frame BTree Log Kernel FrameState FrameAlloc FrameArray Paging PageTables PagingSpec Vmm VmmSpec Fault Interrupts Access.

Section HeapDefs.
Context {BF : Bitflags} {RT : Runtime} {XA : X86Address} {XP : X86Paging XA} {LG : Logging}
  {XC : X86Cpu} {FA : Allocator} {LY : Layout} {HC : HeapCrate}.

(** The kernel with the static [HEAP_ALLOCATOR]. *)
Record Memory := mkMemory { m_kernel : Kernel; m_heap : Heap }.

Definition on_kernel {A} (m : M Kernel A) : M Memory A :=
  zoom m_kernel (λ k s, mkMemory k (m_heap s)) m.

Definition cpu_stores (l : list Z) : M Kernel unit :=
  foldM (λ (_ : unit) a, cpu_store a) l tt.

(** [GlobalAlloc::alloc]; the null pointer is 0. *)
Definition Locked_alloc (layout : AllocLayout) : M Memory Z :=
  irq_without (with_lock HEAP_ALLOCATOR (
    s ← get;
    let r := heap_allocate_first_fit layout (m_heap s) in
    put (mkMemory (m_kernel s) r.1.2);;
    on_kernel (cpu_stores r.2);;
    mret (match r.1.1 with Some p => p | None => 0 end))).

Definition Locked_dealloc (ptr : Z) (layout : AllocLayout) : M Memory unit :=
  irq_without (with_lock HEAP_ALLOCATOR (
    s ← get;
    r ← ext (heap_deallocate ptr layout (m_heap s));
    put (mkMemory (m_kernel s) r.1);;
    on_kernel (cpu_stores r.2))).

(** [HEAP_ALLOCATOR.lock().init(HEAP_START as *mut u8, HEAP_SIZE)]. *)
Definition heap_setup : M Memory unit :=
  with_lock HEAP_ALLOCATOR (
    s ← get;
    let r := heap_init HEAP_START HEAP_SIZE (m_heap s) in
    put (mkMemory (m_kernel s) r.1);;
    on_kernel (cpu_stores r.2)).

(** [mm::setup]; the argument is the response of the bootloader. *)
Definition mm_setup (response : option (list LimineMemmapEntry)) : M Memory unit :=
  mmap ← unwrap response;
  statistic ← on_kernel (with_lock FRAME_STATE (State_setup mmap));
  on_kernel (with_lock FRAME_ALLOCATOR (fa_setup statistic));;
  heap_setup;;
  on_kernel vmm_setup.
End HeapDefs.

(** ** The global allocator *)

Section GlobalAlloc.
Context {BF : Bitflags} {BFS : BitflagsSpec BF} {RT : Runtime} {RTS : RuntimeSpec RT}
  {XA : X86Address} {XAS : X86AddressSpec XA} {XP : X86Paging XA} {XPS : X86PagingSpec XP}
  {LG : Logging} {LGS : LoggingSpec LG}
  {XC : X86Cpu} {XCS : X86CpuSpec XC} {FA : Allocator} {FAS : AllocatorSpec FA}
  {HC : HeapCrate} {HCS : HeapCrateSpec HC}.
Variable D : Z → Prop.
Hypothesis Hheap : ∀ v, in_heap v = true → in_region D v.
Implicit Types (e : Env) (k : Kernel) (s : Memory) (r a : Z) (v w : Virtual).

Lemma cpu_stores_spec l r e k :
  pt_inv D k r → cpu_ready e k r → Forall in_heap_addr l →
  5 * Z.of_nat (length l) ≤ fa_free k →
  wp e (cpu_stores l)
    (λ _ k', stored D in_heap r (Z.of_nat (length l)) k k'
       ∧ Forall (λ a, mapping (k_mem k') r (virt_of a) ≠ None) l) k.
Proof.
  intros Hinv Hready HF Hfree. unfold cpu_stores.
  apply (wp_foldM _ (λ pre _ k', stored D in_heap r (Z.of_nat (length pre)) k k'
       ∧ Forall (λ a, mapping (k_mem k') r (virt_of a) ≠ None) pre)).
  { split; [by apply (stored_refl D)|constructor]. }
  intros pre a todo [] k1 -> [Hst Hpre]. rewrite length_app in *. simpl in *.
  apply Forall_app in HF as [HFp HFa]. inversion HFa as [|? ? Ha _]; subst.
  pose proof (st_cost _ _ _ _ _ _ Hst). pose proof (st_frame _ _ _ _ _ _ Hst) as Hfr.
  eapply wp_mono; [apply (heap_access_spec D 2 a r); [apply Hfr| |done|by apply Hheap, heap_addr|done|lia]|].
  - by eapply cpu_ready_only; [apply Hfr|].
  - intros [] k2 [Hst2 Hm]. rewrite Nat2Z.inj_add. simpl. split; [by eapply (stored_trans D)|].
    apply Forall_app. split; [|by constructor].
    rewrite Forall_forall in Hpre, HFp |- *. intros b Hb.
    eapply (stored_keeps D); [done| |by apply Hpre]. by apply Hheap, heap_addr, HFp.
Qed.

(** The heap manages the heap area of the address space. *)
Definition heap_ready s : Prop :=
  heap_bottom (m_heap s) = HEAP_START ∧ heap_top (m_heap s) = HEAP_END.

Lemma heap_ready_within s l :
  heap_ready s → Forall (heap_within (m_heap s)) l → Forall in_heap_addr l.
Proof.
  intros [Hb Ht] HF. eapply Forall_impl; [exact HF|].
  intros a. unfold heap_within, in_heap_addr. by rewrite Hb, Ht.
Qed.

(** What an operation on the heap that touches [n] addresses keeps. *)
Record heap_kept r n s s' : Prop := {
  hk_stored : stored D in_heap r n (m_kernel s) (m_kernel s');
  hk_heap : heap_ready s'
}.

Lemma under_heap_lock e k r :
  cpu_ready e k r → cpu_ready (acquire HEAP_ALLOCATOR (irqs_off e)) k r.
Proof. apply cpu_ready_env. intros l Hne Hl. by apply held_acquire. Qed.

(** Touching the addresses of [l] once the heap is replaced. *)
Lemma heap_stores_spec h l r e s :
  pt_inv D (m_kernel s) r → cpu_ready e (m_kernel s) r → heap_ready (mkMemory (m_kernel s) h) →
  Forall in_heap_addr l → 5 * Z.of_nat (length l) ≤ fa_free (m_kernel s) →
  wp e (on_kernel (cpu_stores l))
    (λ _ s', heap_kept r (Z.of_nat (length l)) s s' ∧ m_heap s' = h
       ∧ Forall (λ a, mapping (k_mem (m_kernel s')) r (virt_of a) ≠ None) l)
    (mkMemory (m_kernel s) h).
Proof.
  intros Hinv Hready Hh HF Hfree. apply wp_zoom. eapply wp_mono; [by apply (cpu_stores_spec l r)|].
  intros [] k' [Hst Hm]. split_and!; [|done|exact Hm]. split; [exact Hst|exact Hh].
Qed.

(** C24: An allocation on the kernel heap is served although its memory is mapped on
    demand.  While enough frames are free, [alloc] returns, before and after the end of
    the boot, even though it page-faults with the lock of the heap held: it neither
    deadlocks nor panics.  It returns the block the heap found, aligned and inside the
    heap area, or null when there is none; every address the heap touched is mapped, no
    page was unmapped, at most five frames per touched address were used, and the
    page-table invariant holds. *)
Theorem heap_alloc_served layout r e s :
  let touched := (heap_allocate_first_fit layout (m_heap s)).2 in
  pt_inv D (m_kernel s) r → cpu_ready e (m_kernel s) r → heap_ready s →
  HEAP_ALLOCATOR ∉ held e → 0 < layout_align layout →
  5 * Z.of_nat (length touched) ≤ fa_free (m_kernel s) →
  wp e (Locked_alloc layout)
    (λ p s', heap_kept r (Z.of_nat (length touched)) s s'
       ∧ Forall (λ a, mapping (k_mem (m_kernel s')) r (virt_of a) ≠ None) touched
       ∧ match (heap_allocate_first_fit layout (m_heap s)).1.1 with
         | Some q => p = q ∧ HEAP_START ≤ p ∧ p + layout_size layout ≤ HEAP_END
                     ∧ p mod layout_align layout = 0
         | None => p = 0
         end) s.
Proof.
  intros touched Hinv Hready Hh Hl Hal Hfree.
  destruct (heap_allocate_spec layout (m_heap s) Hal) as (Hb & Ht & HF & Hp).
  unfold Locked_alloc. apply wp_irq_without, wp_with_lock; [done|].
  apply wp_bind. eapply wp_of_run; [reflexivity|]. cbn zeta.
  pose proof Hh as [Hb0 Ht0].
  apply wp_bind. eapply wp_of_run; [reflexivity|]. apply wp_bind.
  eapply wp_mono; [apply (heap_stores_spec _ touched r); try done|].
  - by apply under_heap_lock.
  - split; simpl; [by rewrite Hb|by rewrite Ht].
  - by eapply heap_ready_within.
  - intros [] s' (Hk & _ & Hm). apply wp_ret. split_and!; [done|done|].
    destruct (heap_allocate_first_fit layout (m_heap s)).1.1 as [q|]; [|done].
    destruct (Hp q eq_refl) as (H1 & H2 & H3). rewrite Hb0 in H1. rewrite Ht0 in H2. done.
Qed.

(** The same for [dealloc]. *)
Lemma heap_dealloc_served ptr layout h t r e s :
  heap_deallocate ptr layout (m_heap s) = Some (h, t) →
  pt_inv D (m_kernel s) r → cpu_ready e (m_kernel s) r → heap_ready s →
  HEAP_ALLOCATOR ∉ held e → 5 * Z.of_nat (length t) ≤ fa_free (m_kernel s) →
  wp e (Locked_dealloc ptr layout)
    (λ _ s', heap_kept r (Z.of_nat (length t)) s s' ∧ m_heap s' = h) s.
Proof.
  intros Hd Hinv Hready Hh Hl Hfree.
  destruct (heap_deallocate_spec ptr layout (m_heap s) h t Hd) as (Hb & Ht & HF).
  pose proof Hh as [Hb0 Ht0].
  unfold Locked_dealloc. apply wp_irq_without, wp_with_lock; [done|].
  apply wp_bind. eapply wp_of_run; [reflexivity|]. rewrite Hd. apply wp_bind, wp_ret.
  apply wp_bind. eapply wp_of_run; [reflexivity|].
  eapply wp_mono; [apply (heap_stores_spec h t r); try done|].
  - by apply under_heap_lock.
  - split; simpl; [by rewrite Hb|by rewrite Ht].
  - by eapply heap_ready_within.
  - by intros u s' (H1 & H2 & _).
Qed.
End GlobalAlloc.

(** ** [mm::setup] *)

Section Setup.
Context {BF : Bitflags} {BFS : BitflagsSpec BF} {RT : Runtime} {RTS : RuntimeSpec RT}
  {XA : X86Address} {XAS : X86AddressSpec XA} {XP : X86Paging XA} {XPS : X86PagingSpec XP}
  {LG : Logging} {LGS : LoggingSpec LG}
  {XC : X86Cpu} {XCS : X86CpuSpec XC} {LY : Layout} {LYS : LayoutSpec LY}
  {HC : HeapCrate} {HCS : HeapCrateSpec HC}.
Variable D : Z → Prop.
Hypothesis Hheap : ∀ v, in_heap v = true → in_region D v.
Implicit Types (e : Env) (k : Kernel) (s : Memory) (r a p : Z).

(** The state of the frame allocator at boot, as the rest of the kernel sees it. *)
Lemma boot_frames_spec mmap en e k :
  mmap_ok mmap → array_entry mmap = Some en → 0 < last_frame mmap → k_frames k = [] →
  FRAME_STATE ∉ held e → FRAME_ALLOCATOR ∉ held e → SERIAL ∉ held e →
  wp e (st ← with_lock FRAME_STATE (State_setup mmap); with_lock FRAME_ALLOCATOR (fa_setup st))
    (λ _ k', fa_inv k' ∧ frames_set_up mmap en k'
       ∧ k' = set_log (k_log k') (set_frames (k_frames k') (set_stats (k_stats k') k))) k.
Proof.
  intros Hok Hen Hl Hk HS HA HL. apply wp_bind, wp_with_lock; [done|].
  eapply wp_mono; [by apply (setup_spec mmap en); [..|apply held_acquire]|].
  intros st k1 (Hk1 & Hlen & Hfs & Hst). apply wp_with_lock; [done|]. apply wp_modify.
  split_and!; [by apply (classified_alloc_inv mmap en)|..].
  - split; [exact Hlen|]. intros i fi Hi. by apply Hfs.
  - rewrite Hk1. by destruct k.
Qed.

(** The state after [mm::setup], which wrote to the addresses of [l]. *)
Record mm_set_up mmap en r (l : list Z) s s' : Prop := {
  ms_tables : pt_inv D (m_kernel s') r;
  ms_areas : vma_inv (m_kernel s');
  ms_used : k_used_vma (m_kernel s') = [];
  ms_room : ∃ b, free_area (m_kernel s') b ∧ va_start b = VMALLOC_START ∧ va_end b = VMALLOC_END;
  ms_heap : heap_ready s';
  ms_touched : Forall (λ a, mapping (k_mem (m_kernel s')) r (virt_of a) ≠ None) l;
  ms_boot : same_boot (m_kernel s) (m_kernel s');
  ms_free : usable_frames mmap en - 5 * Z.of_nat (length l) ≤ fa_free (m_kernel s');
  ms_owned p : boot_owned mmap en p → fa_refs (m_kernel s') p = 1;
  ms_mapped v x : in_region D v → mapping (k_mem (m_kernel s)) r v = Some x →
    mapping (k_mem (m_kernel s')) r v = Some x;
  ms_only v : in_region D v → in_heap v = false →
    mapping (k_mem (m_kernel s')) r v = mapping (k_mem (m_kernel s)) r v;
  ms_frames : ∃ k, frames_set_up mmap en k ∧ k_mem k = k_mem (m_kernel s)
    ∧ unowned_kept k (m_kernel s')
}.

(** The pages of the array were not written to, if few enough frames were taken. *)
Lemma set_up_array mmap en r l s s' p :
  mmap_ok mmap → array_entry mmap = Some en → 0 < last_frame mmap →
  mm_set_up mmap en r l s s' → 5 * Z.of_nat (length l) ≤ spare_frames mmap en →
  array_page mmap en p →
  ¬ fa_live (m_kernel s') p
  ∧ ∀ i, k_mem (m_kernel s') p i = k_mem (m_kernel s) p i.
Proof.
  intros Hok Hen Hl Hs Hn Hp. destruct (ms_frames _ _ _ _ _ _ Hs) as (k & Hk & Hm & [Hff Hmem]).
  assert (¬ fa_live (m_kernel s') p) as Hd.
  { apply (array_spared mmap en (5 * Z.of_nat (length l)) k); try done.
    change (fa_free k) with (free_frames k). rewrite (frames_set_up_free mmap en k Hk).
    apply (ms_free _ _ _ _ _ _ Hs). }
  split; [done|]. intros i. rewrite Hmem by done. by rewrite Hm.
Qed.

(** [init] of the heap, on the tables at [r]. *)
Lemma heap_setup_spec r e s :
  let touched := (heap_init HEAP_START HEAP_SIZE (m_heap s)).2 in
  pt_inv D (m_kernel s) r → cpu_ready e (m_kernel s) r → HEAP_ALLOCATOR ∉ held e →
  5 * Z.of_nat (length touched) ≤ fa_free (m_kernel s) →
  wp e heap_setup
    (λ _ s', heap_kept D r (Z.of_nat (length touched)) s s'
       ∧ Forall (λ a, mapping (k_mem (m_kernel s')) r (virt_of a) ≠ None) touched) s.
Proof.
  intros touched Hpt Hcpu HH Hfree. apply wp_with_lock; [done|].
  apply wp_bind. eapply wp_of_run; [reflexivity|]. cbn zeta. cbn [m_heap m_kernel].
  apply wp_bind. eapply wp_of_run; [reflexivity|].
  destruct (heap_init_spec HEAP_START HEAP_SIZE (m_heap s) ltac:(done)) as (Hb & Ht & HF).
  assert (heap_ready (mkMemory (m_kernel s) (heap_init HEAP_START HEAP_SIZE (m_heap s)).1))
    as Hready by (split; simpl; [by rewrite Hb|rewrite Ht; reflexivity]).
  eapply wp_mono; [apply (heap_stores_spec D Hheap
    (heap_init HEAP_START HEAP_SIZE (m_heap s)).1 touched r); try done|].
  - eapply cpu_ready_env; [|exact Hcpu]. intros l Hne Hl. by apply held_acquire.
  - exact (heap_ready_within _ _ Hready HF).
  - by intros [] s' (H1 & _ & H2).
Qed.

(** The state [k4] after [vmm::setup], from [k2], with the frames, through [s3], with the
    heap. *)
Lemma mm_set_up_intro mmap en r l s k2 s3 k4 :
  frames_set_up mmap en k2 →
  k2 = set_log (k_log k2) (set_frames (k_frames k2) (set_stats (k_stats k2) (m_kernel s))) →
  heap_kept D r (Z.of_nat (length l)) (mkMemory k2 (m_heap s)) s3 →
  Forall (λ a, mapping (k_mem (m_kernel s3)) r (virt_of a) ≠ None) l →
  vma_inv k4 → k_used_vma k4 = [] → only_vma (m_kernel s3) k4 →
  (∃ b, free_area k4 b ∧ va_start b = VMALLOC_START ∧ va_end b = VMALLOC_END) →
  mm_set_up mmap en r l s (mkMemory k4 (m_heap s3)).
Proof.
  intros Hset Heq [Hst Hh3] Hm3 Hvma Hused Honly Ha4. cbn [m_kernel] in Hst.
  pose proof (λ p, boot_owned_refs mmap en k2 p Hset) as Hlive.
  pose proof (frames_set_up_free mmap en k2 Hset) as Hfr.
  pose proof (st_frame _ _ _ _ _ _ Hst) as Hfr3. pose proof (map_only D r _ _ Hfr3) as Ho3.
  assert (k_mem k4 = k_mem (m_kernel s3)) as Hm4 by (by rewrite Honly).
  assert (k_frames k4 = k_frames (m_kernel s3) ∧ k_stats k4 = k_stats (m_kernel s3))
    as [Hf4 Hs4] by (by rewrite Honly).
  assert (k_mem k2 = k_mem (m_kernel s)) as Hm2 by (by rewrite Heq).
  split; cbn [m_kernel m_heap]; rewrite ?Hm4; try done.
  - eapply pt_inv_local; [..|apply Hfr3]; done.
  - unfold same_boot. rewrite Honly. simpl. by rewrite Ho3, Heq.
  - pose proof (st_cost _ _ _ _ _ _ Hst) as Hcost.
    rewrite (fa_free_local k4 (m_kernel s3)) by done.
    change (fa_free k2) with (free_frames k2) in Hcost. lia.
  - intros p Hp. rewrite (fa_refs_local k4 (m_kernel s3)) by done.
    assert (fa_refs k2 p = 1) as H1 by (by apply Hlive).
    by rewrite (proj2 (map_live D r _ _ Hfr3 p ltac:(unfold fa_live; lia))).
  - intros v x Hv Hx. apply (st_mapped _ _ _ _ _ _ Hst); [done|]. by rewrite Hm2.
  - intros v Hv Hh. rewrite (st_only _ _ _ _ _ _ Hst) by done. by rewrite Hm2.
  - exists k2. split_and!; [done|done|].
    eapply unowned_trans; [|exact (map_unowned D r _ _ Hfr3)|by apply unowned_local].
    by eapply fa_keeps_local; [|apply fa_keeps_refl].
Qed.

Lemma mm_setup_spec mmap en r e s :
  let k := m_kernel s in
  let touched := (heap_init HEAP_START HEAP_SIZE (m_heap s)).2 in
  mmap_ok mmap → array_entry mmap = Some en → 0 < last_frame mmap →
  k_frames k = [] → k_free_vma k = [] → k_used_vma k = [] → k_early k = true →
  0 ≤ cr3_read (k_events k) < 2 ^ 44 → cr3_page k = r →
  tables_ok D (boot_owned mmap en) (k_mem k) r →
  FRAME_STATE ∉ held e → FRAME_ALLOCATOR ∉ held e → HEAP_ALLOCATOR ∉ held e →
  FREE_VMA ∉ held e → SERIAL ∉ held e →
  5 * Z.of_nat (length touched) ≤ usable_frames mmap en →
  wp e (mm_setup (Some mmap)) (λ _ s', mm_set_up mmap en r touched s s') s.
Proof.
  intros k touched Hok Hen Hl Hk Hf Hu Hearly Hcr Hr Htab HS HA HH HV HL Hfree.
  unfold mm_setup. apply wp_bind, wp_ret.
  pose proof (boot_frames_spec mmap en e k Hok Hen Hl Hk HS HA HL) as Hboot.
  unfold wp at 1, wpx in Hboot. rewrite bind_run in Hboot. apply wp_bind, wp_zoom. fold k.
  unfold wp at 1, wpx. destruct (with_lock FRAME_STATE (State_setup mmap) e k)
    as [st k1|p|l|k1]; try done. apply wp_bind, wp_zoom. cbn [m_kernel].
  eapply (wp_mono _ _ _ e k1 Hboot). clear Hboot.
  intros [] k2 (Hinv & Hset & Heq). apply wp_bind.
  eapply wp_mono; [apply (heap_setup_spec r); cbn [m_kernel]|].
  - split; [done|]. simpl. assert (k_mem k2 = k_mem k) as -> by (by rewrite Heq).
    destruct Htab as [Hl1 Hi1]. split; [|done]. intros l p Hg Hp.
    destruct (Hl1 l p Hg Hp) as [Hb1 Ho1]. split; [done|].
    change (0 < frame_refs k2 p). rewrite (boot_owned_refs mmap en k2 p Hset Ho1). lia.
  - unfold cpu_ready, current_root, cr3_page. rewrite Heq. simpl. fold k. rewrite Hearly.
    split_and!; [apply Hcr|apply Hcr|done|exact Hr|by split].
  - done.
  - change (fa_free k2) with (free_frames k2). by rewrite (frames_set_up_free mmap en k2 Hset).
  - intros [] s3 [Hkept Hm3]. apply wp_zoom.
    pose proof (map_only D r _ _ (st_frame _ _ _ _ _ _ (hk_stored _ _ _ _ _ Hkept))) as Ho3.
    cbn [m_kernel] in Ho3.
    eapply wp_mono; [apply vmm_setup_spec; [by rewrite Ho3, Heq..|done]|].
    intros [] k4 (Hvma & Hused & Honly & Ha4). by apply (mm_set_up_intro mmap en r touched s k2).
Qed.

(** C10: [mm::setup] establishes everything the memory manager relies on.  Take a well-formed
    memory map, the bootloader's tables in memory the map gives to the kernel or the
    bootloader, and at least five usable frames per address the heap writes to, frames that
    are handed out before any in which the frame array lies (all usable ones if [setup]
    reserved the whole array, those below the array otherwise).  Then [mm::setup] returns:
    the invariants of the frame allocator, of the page tables and of the vmalloc areas hold,
    the heap manages the heap area, the pages it touched are mapped, no range of the vmalloc
    space is in use, and the pages of the frame array belong to nobody and were not written
    to, so that the array is what [State::setup] and the allocator made it. *)
Theorem mm_setup_establishes mmap en r e s :
  let k := m_kernel s in
  let touched := (heap_init HEAP_START HEAP_SIZE (m_heap s)).2 in
  mmap_ok mmap → array_entry mmap = Some en → 0 < last_frame mmap →
  k_frames k = [] → k_free_vma k = [] → k_used_vma k = [] → k_early k = true →
  0 ≤ cr3_read (k_events k) < 2 ^ 44 → cr3_page k = r →
  tables_ok D (boot_owned mmap en) (k_mem k) r →
  FRAME_STATE ∉ held e → FRAME_ALLOCATOR ∉ held e → HEAP_ALLOCATOR ∉ held e →
  FREE_VMA ∉ held e → SERIAL ∉ held e →
  5 * Z.of_nat (length touched) ≤ spare_frames mmap en →
  wp e (mm_setup (Some mmap))
    (λ _ s', alloc_inv (m_kernel s') ∧ pt_inv D (m_kernel s') r ∧ vma_inv (m_kernel s')
       ∧ k_used_vma (m_kernel s') = [] ∧ heap_ready s'
       ∧ Forall (λ a, mapping (k_mem (m_kernel s')) r (virt_of a) ≠ None) touched
       ∧ ∀ p, array_page mmap en p →
           frame_refs (m_kernel s') p ≤ 0
           ∧ ∀ i, k_mem (m_kernel s') p i = k_mem k p i) s.
Proof.
  intros k touched Hok Hen Hl Hk Hf Hu Hearly Hcr Hr Htab HS HA HH HV HL Hfree.
  pose proof (spare_usable mmap en Hok Hen Hl).
  eapply wp_mono; [apply (mm_setup_spec mmap en r); try done; fold touched; lia|].
  intros [] s' Hs. fold touched in Hs. split_and!; try apply Hs.
  intros p Hp. destruct (set_up_array mmap en r touched s s' p) as [Hd Hm]; try done.
  split; [|done]. unfold fa_live in Hd. change (¬ 0 < frame_refs (m_kernel s') p) in Hd. lia.
Qed.
End Setup.

(** ** Witnesses *)

(** The heap of a machine that has booted, and a request of 24 bytes aligned on 8. *)
Definition ref_memory : Memory :=
  mkMemory (set_events [Cr3Write 4096] (ref_space 8))
    (mkBump HEAP_START HEAP_END (HEAP_START + 16)).

Definition ref_request : AllocLayout := mkAllocLayout 24 8.

Lemma ref_memory_ready : cpu_ready ref_env (m_kernel ref_memory) 4096.
Proof. split_and!; [by apply ref_current|reflexivity|exact ref_unlocked]. Qed.

Lemma ref_memory_inv : pt_inv everywhere (m_kernel ref_memory) 4096.
Proof. eapply pt_inv_local; [..|exact ref_space_inv]; reflexivity. Qed.

Lemma heap_alloc_served_witness :
  wp ref_env (Locked_alloc ref_request)
    (λ p s', p = HEAP_START + 16 ∧ pt_inv everywhere (m_kernel s') 4096
       ∧ mapping (k_mem (m_kernel s')) 4096 (virt_of HEAP_START) ≠ None) ref_memory.
Proof.
  eapply wp_mono.
  - apply (heap_alloc_served everywhere ltac:(done) ref_request 4096 ref_env ref_memory);
      [exact ref_memory_inv|exact ref_memory_ready|split; reflexivity|apply ref_env_unlocked
      |reflexivity|vm_compute; discriminate].
  - intros p s' ([Hst _] & Hm & Hp). split_and!.
    + exact (proj1 Hp).
    + apply (st_frame _ _ _ _ _ _ Hst).
    + exact (Forall_inv Hm).
Defined.

(** The reference machine at the entry of [mm::setup], its tables in the kernel's memory. *)
Definition ref_cold : Memory :=
  mkMemory (set_events [Cr3Write (9 * 4096)] ref_boot) (mkBump 0 0 0).

(** Eight usable frames, the kernel, and eight mebibytes of usable memory: the frame array
    is placed there and is not reserved as a whole, the heap gets its frames from below. *)
Definition ref_mmap_low : list LimineMemmapEntry :=
  [mkEntry 4096 (8 * 4096) Usable; mkEntry (9 * 4096) (2 * 4096) KernelAndModules;
   mkEntry (16 * 4096) (2048 * 4096) Usable].

Lemma mm_setup_establishes_witness :
  array_covered ref_mmap_low (mkEntry (16 * 4096) (2048 * 4096) Usable) = false
  ∧ wp ref_env (mm_setup (Some ref_mmap_low))
      (λ _ s', alloc_inv (m_kernel s') ∧ vma_inv (m_kernel s') ∧ heap_ready s') ref_cold.
Proof.
  split; [vm_compute; reflexivity|].
  eapply wp_mono.
  - apply (mm_setup_establishes everywhere ltac:(done) ref_mmap_low
      (mkEntry (16 * 4096) (2048 * 4096) Usable) (9 * 4096) ref_env ref_cold);
      try reflexivity; try apply ref_env_unlocked.
    + by apply mmap_okb_sound.
    + vm_compute. split; [discriminate|reflexivity].
    + apply tables_empty; [done|done|]. by split_and!.
    + vm_compute. discriminate.
  - intros _ s' (H1 & _ & H2 & _ & H3 & _). split_and!; [exact H1|exact H2|exact H3].
Defined.
