(* ===== verification/Smp.v ===== *)
(** * Per-CPU data: [src/src/arch/smp.rs]

    Every processor has a block of the vmalloc space that holds its copy of the
    section of the thread-local variables, followed by a [ThreadLocalInfo]; its
    registers [FsBase] and [KernelGsBase] point to the latter.  The block is mapped
    on demand, by the stores that fill it in.

    The bytes of the kernel's address space are kept by virtual address: the pages
    of an area in use share their frames with no other page
    ([VmmDealloc.demand_paging_keeps_exclusive]). *)

From S2P Require Import Prelude Machine External Reference Frame BTree Log Kernel FrameState FrameAlloc Paging PageTables PagingSpec Vmm VmmSpec Fault Interrupts Access.

(** ** Words in memory *)

(** The little-endian encoding of an integer on [n] bytes. *)
Fixpoint le_bytes (n : nat) (z : Z) : list Z :=
  match n with
  | O => []
  | S n' => z mod 256 :: le_bytes n' (z / 256)
  end.

Fixpoint le_value (l : list Z) : Z :=
  match l with
  | [] => 0
  | b :: l' => b + 256 * le_value l'
  end.

Definition load_le (m : Z → Z) (a : Z) (n : nat) : Z := le_value (m <$> seqZ a (Z.of_nat n)).

(** The bytes [l] written from the address [a] on. *)
Definition write_list (a : Z) (l : list Z) (m : Z → Z) : Z → Z := λ x,
  if a <=? x then default (m x) (l !! Z.to_nat (x - a)) else m x.

Lemma le_roundtrip n z : 0 ≤ z < 2 ^ (8 * Z.of_nat n) → le_value (le_bytes n z) = z.
Proof.
  revert z. induction n as [|n IH]; intros z Hz; simpl; [lia|].
  replace (8 * Z.of_nat (S n)) with (8 * Z.of_nat n + 8) in Hz by lia.
  rewrite Z.pow_add_r in Hz by lia. change (2 ^ 8) with 256 in Hz.
  rewrite IH by dlia. pose proof (Z.div_mod z 256). lia.
Qed.

Lemma le_bytes_length n z : length (le_bytes n z) = n.
Proof. revert z. induction n; intros z; simpl; auto. Qed.

Lemma load_le_ext m m' a n :
  (∀ x, a ≤ x < a + Z.of_nat n → m x = m' x) → load_le m a n = load_le m' a n.
Proof.
  intros H. unfold load_le. f_equal. apply list_fmap_ext. intros i x Hx.
  apply lookup_seqZ in Hx as [-> Hi]. apply H. lia.
Qed.

Lemma write_list_other a l m x :
  x < a ∨ a + Z.of_nat (length l) ≤ x → write_list a l m x = m x.
Proof.
  intros H. unfold write_list. destruct (Z.leb_spec a x); [|done].
  rewrite lookup_ge_None_2; [done|lia].
Qed.

Lemma write_list_cons a b l m x :
  write_list (a + 1) l (λ y, if y =? a then b else m y) x = write_list a (b :: l) m x.
Proof.
  unfold write_list. destruct (Z.leb_spec (a + 1) x), (Z.leb_spec a x); try lia.
  - replace (Z.to_nat (x - a)) with (S (Z.to_nat (x - (a + 1)))) by lia. simpl.
    assert ((x =? a) = false) as -> by blia. done.
  - assert (x = a) as -> by lia. by rewrite Z.eqb_refl, Z.sub_diag.
  - assert ((x =? a) = false) as -> by blia. done.
Qed.

Lemma load_le_write a l m : load_le (write_list a l m) a (length l) = le_value l.
Proof.
  unfold load_le. f_equal. apply list_eq. intros i. rewrite list_lookup_fmap.
  destruct (l !! i) as [b|] eqn:Hi.
  - pose proof (lookup_lt_Some _ _ _ Hi). rewrite lookup_seqZ_lt by lia. simpl.
    unfold write_list. assert ((a <=? a + Z.of_nat i) = true) as -> by blia.
    replace (a + Z.of_nat i - a) with (Z.of_nat i) by lia. by rewrite Nat2Z.id, Hi.
  - apply lookup_ge_None in Hi. by rewrite lookup_seqZ_ge by lia.
Qed.

(** ** The code *)

(** [ThreadLocalInfo], addresses as integers; its layout is that of C. *)
Record ThreadLocalInfo := mkThreadLocalInfo {
  self_ptr : Z;
  tls_base : Z;
  tls_lapic_id : Z;
  cpu_id : Z
}.

Definition OFFSET_tls_base : Z := 8.
Definition OFFSET_lapic_id : Z := 16.
Definition OFFSET_cpu_id : Z := 20.
Definition size_of_ThreadLocalInfo : Z := 24.

(** The structure at the address [t]. *)
Definition info_at (m : Z → Z) (t : Z) : ThreadLocalInfo :=
  mkThreadLocalInfo (load_le m t 8) (load_le m (t + OFFSET_tls_base) 8)
    (load_le m (t + OFFSET_lapic_id) 4) (load_le m (t + OFFSET_cpu_id) 4).

Section SmpDefs.
Context {BF : Bitflags} {RT : Runtime} {XA : X86Address} {XP : X86Paging XA} {LG : Logging}
  {XC : X86Cpu} {FA : Allocator} {PC : PerCpuSection}.

(** The kernel, the bytes of its address space, and the registers of the processors,
    by the number of the processor. *)
Record Smp := mkSmp {
  p_kernel : Kernel;
  p_bytes : Z → Z;
  p_fs_base : Z → Z;
  p_gs_base : Z → Z
}.

Definition smp_kernel {A} (m : M Kernel A) : M Smp A :=
  zoom p_kernel (λ k s, mkSmp k (p_bytes s) (p_fs_base s) (p_gs_base s)) m.

Definition store_byte (a b : Z) : M Smp unit :=
  smp_kernel (cpu_store a);;
  modify (λ s, mkSmp (p_kernel s) (λ x, if x =? a then b else p_bytes s x)
                 (p_fs_base s) (p_gs_base s)).

Definition load_byte (a : Z) : M Smp Z :=
  smp_kernel (cpu_load a);; gets (λ s, p_bytes s a).

Fixpoint store_bytes (a : Z) (l : list Z) : M Smp unit :=
  match l with
  | [] => mret tt
  | b :: l' => store_byte a b;; store_bytes (a + 1) l'
  end.

Fixpoint load_bytes (a : Z) (n : nat) : M Smp (list Z) :=
  match n with
  | O => mret []
  | S n' => b ← load_byte a; l ← load_bytes (a + 1) n'; mret (b :: l)
  end.

(** [ptr::copy_nonoverlapping]. *)
Fixpoint copy_bytes (src dst : Z) (n : nat) : M Smp unit :=
  match n with
  | O => mret tt
  | S n' => b ← load_byte src; store_byte dst b;; copy_bytes (src + 1) (dst + 1) n'
  end.

Definition store_u64 (a z : Z) : M Smp unit := store_bytes a (le_bytes 8 z).
Definition store_u32 (a z : Z) : M Smp unit := store_bytes a (le_bytes 4 z).
Definition load_u32 (a : Z) : M Smp Z := l ← load_bytes a 4; mret (le_value l).

(** [msr::write] to [KernelGsBase] and [FsBase] on the processor [cpu]. *)
Definition write_gs_base (cpu v : Z) : M Smp unit :=
  modify (λ s, mkSmp (p_kernel s) (p_bytes s) (p_fs_base s)
                 (λ c, if c =? cpu then v else p_gs_base s c)).
Definition write_fs_base (cpu v : Z) : M Smp unit :=
  modify (λ s, mkSmp (p_kernel s) (p_bytes s)
                 (λ c, if c =? cpu then v else p_fs_base s c) (p_gs_base s)).

(** The stores to the fields of [*tls_info]. *)
Definition init_thread_local_info (tls_info : Z) (smp_info : LimineSmpInfo) (base : Z)
  : M Smp unit :=
  store_u32 (tls_info + OFFSET_cpu_id) (processor_id smp_info);;
  store_u32 (tls_info + OFFSET_lapic_id) (lapic_id smp_info);;
  store_u64 (tls_info + OFFSET_tls_base) base;;
  store_u64 tls_info tls_info.

(** Run on the processor [cpu]. *)
Definition allocate_thread_local_storage (cpu : Z) (smp_info : LimineSmpInfo) : M Smp unit :=
  per_cpu_size ← u64_sub __per_cpu_end __per_cpu_start;
  let alloc_flags := bf_union VmmFlags_MAP VmmFlags_ZEROED in
  alloc_size ← u64_add per_cpu_size size_of_ThreadLocalInfo;
  res ← smp_kernel (vmm_allocate alloc_size alloc_flags);
  match res with
  | inr _ => panic_with (PanicMsg "Failed to allocate {} bytes for thread local storage: {:?}")
  | inl data =>
      info ← ext (virt_add (vr_start data) per_cpu_size);
      let tls_info := virt_as_u64 info in
      init_thread_local_info tls_info smp_info (virt_as_u64 (vr_start data));;
      copy_bytes __per_cpu_start (virt_as_u64 (vr_start data)) (Z.to_nat per_cpu_size);;
      write_gs_base cpu tls_info;;
      write_fs_base cpu tls_info
  end.

(** The response of the bootloader is the argument; the BSP is the processor [cpu]. *)
Definition bsp_setup (cpu : Z) (reponse : option (list LimineSmpInfo)) : M Smp unit :=
  cpus ← unwrap reponse;
  smp_info ← unwrap (find (λ c, processor_id c =? 0) cpus);
  allocate_thread_local_storage cpu smp_info.

(** The reference [get_cpu_info] returns, as an address. *)
Definition get_cpu_info (cpu : Z) : M Smp Z := gets (λ s, p_fs_base s cpu).

Definition current_id (cpu : Z) : M Smp Z :=
  info ← get_cpu_info cpu; load_u32 (info + OFFSET_cpu_id).
End SmpDefs.

(** ** Filling a block in *)

Section Blocks.
Context {BF : Bitflags} {BFS : BitflagsSpec BF} {RT : Runtime} {RTS : RuntimeSpec RT}
  {XA : X86Address} {XAS : X86AddressSpec XA} {XP : X86Paging XA} {XPS : X86PagingSpec XP}
  {LG : Logging} {LGS : LoggingSpec LG}
  {XC : X86Cpu} {XCS : X86CpuSpec XC} {FA : Allocator} {FAS : AllocatorSpec FA}.
Variable D : Z → Prop.
(** The vmalloc space is in the region. *)
Hypothesis Hvm : ∀ v, in_vmalloc v = true → in_region D v.
(** The number of frames that are left alone. *)
Variable fl : Z.
Hypothesis Hfl : 0 ≤ fl.
Implicit Types (e : Env) (k : Kernel) (s : Smp) (r a x : Z) (v w : Virtual) (b : VirtualArea).

Definition unmapped k r a : bool :=
  match mapping (k_mem k) r (virt_of a) with Some _ => false | None => true end.

(** The number of pages of an area that are not mapped yet. *)
Definition missing r b k : Z :=
  countb (λ j, unmapped k r (va_start b + 4096 * j)) (seqZ 0 (va_size b / 4096)).

(** The pages of the area can be mapped: the handlers can run, the area is one to be
    mapped, and frames are left for every page that is missing. *)
Record block_ready e r b s : Prop := {
  br_tables : pt_inv D (p_kernel s) r;
  br_areas : vma_inv (p_kernel s);
  br_cpu : cpu_ready e (p_kernel s) r;
  br_lock : area_unlocked e;
  br_used : used_area (p_kernel s) b;
  br_map : bf_contains (va_flags b) VmmFlags_MAP = true;
  br_free : fl + 5 * missing r b (p_kernel s) ≤ fa_free (p_kernel s)
}.

(** From [s] to [s'], pages were mapped and the bytes became those of [f]. *)
Record touched e r b s (f : Z → Z) s' : Prop := {
  to_ready : block_ready e r b s';
  to_stored : ∃ n, stored D (λ w, covers_addr w b) r n (p_kernel s) (p_kernel s');
  to_bytes x : p_bytes s' x = f x;
  to_fs : p_fs_base s' = p_fs_base s;
  to_gs : p_gs_base s' = p_gs_base s
}.

Lemma touched_refl e r b s f :
  block_ready e r b s → (∀ x, p_bytes s x = f x) → touched e r b s f s.
Proof. intros Hr Hf. split; try done. exists 0. apply stored_refl, Hr. Qed.

Lemma touched_trans e r b s1 f s2 g s3 :
  touched e r b s1 f s2 → touched e r b s2 g s3 → touched e r b s1 g s3.
Proof.
  intros [_ [n1 S1] _ F1 G1] [R2 [n2 S2] B2 F2 G2]. split; try done; [|congruence..].
  exists (n1 + n2). by eapply stored_trans.
Qed.

Lemma touched_ext e r b s f g s' :
  touched e r b s f s' → (∀ x, f x = g x) → touched e r b s g s'.
Proof. intros [H1 H2 H3 H4 H5] Hfg. split; try done. intros x. by rewrite H3. Qed.

(** The page of an address of the area. *)
Lemma block_page b a k r :
  area_ok b → va_start b ≤ a < va_end b →
  (a - va_start b) / 4096 ∈ seqZ 0 (va_size b / 4096)
  ∧ unmapped k r (va_start b + 4096 * ((a - va_start b) / 4096)) = unmapped k r a.
Proof.
  intros Hb Ha. pose proof Hb as (_ & Hs & He & Hlo & Hhi). split.
  - apply elem_of_seqZ. rewrite va_size_spec. dlia.
  - set (a' := va_start b + _). unfold unmapped. rewrite (same_page_mapping _ r (virt_of a)); [done|].
    assert (va_start b ≤ a' < va_end b) by (unfold a'; dlia).
    unfold same_page. rewrite !virt_of_u64 by (apply vmalloc_canonical; lia).
    apply Z.eqb_eq. unfold a'. dlia.
Qed.

Lemma missing_stored r b a n k k' :
  area_ok b → va_start b ≤ a < va_end b → stored D (λ w, covers_addr w b) r n k k' →
  unmapped k r a = true → unmapped k' r a = false → missing r b k' < missing r b k.
Proof.
  intros Hb Ha Hst Hu Hu'. destruct (block_page b a k r Hb Ha) as [Hin Hp].
  apply countb_strict with ((a - va_start b) / 4096); [|done| |by rewrite Hp].
  - intros j Hj. apply elem_of_seqZ in Hj. unfold unmapped.
    assert (va_start b ≤ va_start b + 4096 * j < va_end b) as Ha'.
    { rewrite va_size_spec in Hj. dlia. }
    destruct (mapping (k_mem k) r (virt_of (va_start b + 4096 * j))) as [x|] eqn:E; [|done].
    rewrite (st_mapped _ _ _ _ _ _ Hst _ x); [done| |done]. apply Hvm.
    by destruct (area_addr b (va_start b + 4096 * j)) as (_ & ? & _).
  - rewrite (proj2 (block_page b a k' r Hb Ha)). done.
Qed.

Lemma touched_mapped e r b s f s' x :
  touched e r b s f s' → in_region D (virt_of x) →
  unmapped (p_kernel s) r x = false → unmapped (p_kernel s') r x = false.
Proof.
  intros [_ [n Hst] _ _ _] Hx Hm.
  assert (mapping (k_mem (p_kernel s')) r (virt_of x) ≠ None) as H.
  { eapply (stored_keeps D); [done..|]. unfold unmapped in Hm.
    by destruct (mapping (k_mem (p_kernel s)) r (virt_of x)). }
  unfold unmapped. by destruct (mapping (k_mem (p_kernel s')) r (virt_of x)).
Qed.

Lemma block_region b a : area_ok b → va_start b ≤ a < va_end b → in_region D (virt_of a).
Proof. intros Hb Ha. apply Hvm. by destruct (area_addr b a Hb Ha) as (_ & ? & _). Qed.

Lemma block_area e r b s : block_ready e r b s → area_ok b.
Proof. intros Hr. eapply used_area_ok; [apply (br_areas _ _ _ _ Hr)|apply Hr]. Qed.

(** An access in the area. *)
Lemma block_access_spec code a e r b s :
  block_ready e r b s → va_start b ≤ a < va_end b → Z.testbit code 0 = false →
  wp e (smp_kernel (cpu_access code a))
    (λ _ s', touched e r b s (p_bytes s) s' ∧ unmapped (p_kernel s') r a = false) s.
Proof.
  intros Hr Ha Hc. pose proof Hr as [Ht Hv Hcpu HU Hu Hm Hf].
  pose proof (block_area _ _ _ _ Hr) as Hb. apply wp_zoom.
  eapply wp_mono; [apply (area_access_spec D code b a r); try done|];
    [by eapply block_region| |].
  { destruct (mapping (k_mem (p_kernel s)) r (virt_of a)) eqn:E; [by left|right].
    enough (0 < missing r b (p_kernel s)) by lia.
    destruct (block_page b a (p_kernel s) r Hb Ha) as [Hj Hp].
    apply list_elem_of_lookup in Hj as [i Hj]. eapply countb_pos; [exact Hj|].
    rewrite Hp. unfold unmapped. by rewrite E. }
  intros [] k' [Hm' H].
  assert (unmapped k' r a = false) as Hu'.
  { unfold unmapped. by destruct (mapping (k_mem k') r (virt_of a)). }
  split; [|exact Hu']. destruct (mapping (k_mem (p_kernel s)) r (virt_of a)) eqn:E.
  { subst k'. destruct s. by apply touched_refl. }
  pose proof (st_frame _ _ _ _ _ _ H) as Hfr. pose proof (map_only D r _ _ Hfr) as Ho.
  split; try done; [|by exists 1]. split; try done.
  - apply Hfr.
  - by apply (vma_inv_local (p_kernel s)); [rewrite Ho..|].
  - by apply (cpu_ready_only e (p_kernel s)).
  - unfold used_area. simpl. rewrite Ho. exact Hu.
  - simpl. pose proof (st_cost _ _ _ _ _ _ H).
    enough (missing r b k' < missing r b (p_kernel s)) by lia.
    apply (missing_stored r b a 1); try done. unfold unmapped. by rewrite E.
Qed.

Lemma store_byte_spec a z e r b s :
  block_ready e r b s → va_start b ≤ a < va_end b →
  wp e (store_byte a z)
    (λ _ s', touched e r b s (λ x, if x =? a then z else p_bytes s x) s'
       ∧ unmapped (p_kernel s') r a = false) s.
Proof.
  intros Hr Ha. apply wp_bind. eapply wp_mono; [by apply (block_access_spec 2 a e r b)|].
  intros [] s1 [[[] H2 H3 H4 H5] Hu]. apply wp_modify.
  split; [|done]. split; try done. intros x. simpl. by rewrite H3.
Qed.

Lemma store_bytes_spec a l e r b s :
  block_ready e r b s → va_start b ≤ a → a + Z.of_nat (length l) ≤ va_end b →
  wp e (store_bytes a l)
    (λ _ s', touched e r b s (write_list a l (p_bytes s)) s'
       ∧ ∀ x, a ≤ x < a + Z.of_nat (length l) → unmapped (p_kernel s') r x = false) s.
Proof.
  revert a s. induction l as [|z l IH]; intros a s Hr Hlo Hhi; simpl in *.
  - apply wp_ret. split; [|lia]. apply touched_refl; [done|].
    intros x. unfold write_list. by destruct (a <=? x).
  - apply wp_bind. eapply wp_mono; [apply (store_byte_spec a z e r b); [done|lia]|].
    intros [] s1 [H1 Hu1]. eapply wp_mono; [apply IH; [apply H1|lia|lia]|].
    intros [] s2 [H2 Hu2]. split.
    + eapply touched_trans; [exact H1|]. eapply touched_ext; [exact H2|].
      intros x. rewrite <- write_list_cons. unfold write_list.
      by rewrite !(to_bytes _ _ _ _ _ _ H1).
    + intros x Hx. destruct (decide (x = a)) as [->|]; [|apply Hu2; lia].
      eapply touched_mapped; [exact H2| |exact Hu1].
      apply (block_region b); [by eapply block_area|lia].
Qed.

(** A load from a page that is mapped. *)
Lemma load_byte_run a e r s :
  cr3_page (p_kernel s) = r → unmapped (p_kernel s) r a = false →
  load_byte a e s = Ret (p_bytes s a) s.
Proof.
  intros Hp Hm. unfold load_byte. rewrite bind_run. unfold smp_kernel, zoom, cpu_load.
  rewrite (cpu_access_mapped 0 a r); [by destruct s|done|]. unfold unmapped in Hm.
  by destruct (mapping (k_mem (p_kernel s)) r (virt_of a)).
Qed.

Lemma load_bytes_run a n e r s :
  cr3_page (p_kernel s) = r →
  (∀ x, a ≤ x < a + Z.of_nat n → unmapped (p_kernel s) r x = false) →
  load_bytes a n e s = Ret (p_bytes s <$> seqZ a (Z.of_nat n)) s.
Proof.
  intros Hcpu. revert a. induction n as [|n IH]; intros a Hm; [done|]. simpl load_bytes.
  erewrite bind_ret_run by (eapply load_byte_run; [done|apply Hm; lia]).
  erewrite bind_ret_run by (apply IH; intros x Hx; apply Hm; lia).
  rewrite (seqZ_cons a (Z.of_nat (S n))) by lia.
  replace (Z.pred (Z.of_nat (S n))) with (Z.of_nat n) by lia. done.
Qed.

(** The source of a copy: mapped, and outside the area. *)
Definition source_ok r b k src (n : Z) : Prop :=
  (src + n ≤ va_start b ∨ va_end b ≤ src)
  ∧ ∀ x, src ≤ x < src + n → in_region D (virt_of x) ∧ unmapped k r x = false.

Lemma copy_bytes_spec src dst n e r b s :
  block_ready e r b s → va_start b ≤ dst → dst + Z.of_nat n ≤ va_end b →
  source_ok r b (p_kernel s) src (Z.of_nat n) →
  wp e (copy_bytes src dst n)
    (λ _, touched e r b s (λ x, if (dst <=? x) && (x <? dst + Z.of_nat n)
                                then p_bytes s (src + (x - dst)) else p_bytes s x)) s.
Proof.
  revert src dst s. induction n as [|n IH]; intros src dst s Hr Hlo Hhi [Hdis Hsrc].
  - apply wp_ret, touched_refl; [done|]. intros x.
    destruct (_ && _) eqn:E; [bool_to_prop; lia|done].
  - simpl copy_bytes. apply wp_bind. eapply wp_of_run.
    { eapply load_byte_run; [apply (br_cpu _ _ _ _ Hr)|apply Hsrc; lia]. }
    apply wp_bind. eapply wp_mono; [apply (store_byte_spec dst _ e r b); [done|lia]|].
    intros [] s1 [H1 _]. eapply wp_mono; [apply IH; [apply H1|lia|lia|]|].
    { split; [lia|]. intros x Hx. destruct (Hsrc x ltac:(lia)). split; [done|].
      by eapply touched_mapped. }
    intros [] s2 H2. eapply touched_trans; [exact H1|]. eapply touched_ext; [exact H2|].
    intros x. cbn beta. rewrite !(to_bytes _ _ _ _ _ _ H1).
    destruct (Z.eqb_spec x dst) as [->|Hne].
    + assert ((dst + 1 <=? dst) = false) as -> by blia. simpl.
      assert ((dst <=? dst) && (dst <? dst + Z.of_nat (S n)) = true) as -> by blia.
      f_equal. lia.
    + assert ((dst + 1 <=? x) && (x <? dst + 1 + Z.of_nat n)
              = (dst <=? x) && (x <? dst + Z.of_nat (S n))) as ->.
      { apply eq_iff_eq_true. rewrite !andb_true_iff, !Z.leb_le, !Z.ltb_lt. lia. }
      destruct (_ && _) eqn:E; [|done]. bool_to_prop.
      assert ((src + 1 + (x - (dst + 1)) =? dst) = false) as -> by blia. f_equal. lia.
Qed.

(** ** The structure *)

Definition info_of t base (i : LimineSmpInfo) : ThreadLocalInfo :=
  mkThreadLocalInfo t base (lapic_id i) (processor_id i).

Definition fill_info t (i : LimineSmpInfo) base (m : Z → Z) : Z → Z :=
  write_list t (le_bytes 8 t)
    (write_list (t + OFFSET_tls_base) (le_bytes 8 base)
      (write_list (t + OFFSET_lapic_id) (le_bytes 4 (lapic_id i))
        (write_list (t + OFFSET_cpu_id) (le_bytes 4 (processor_id i)) m))).

Definition smp_info_ok (i : LimineSmpInfo) : Prop :=
  0 ≤ processor_id i < 2 ^ 32 ∧ 0 ≤ lapic_id i < 2 ^ 32.

Lemma fill_info_other t i base m x : x < t ∨ t + 24 ≤ x → fill_info t i base m x = m x.
Proof.
  intros Hx. unfold fill_info, OFFSET_tls_base, OFFSET_lapic_id, OFFSET_cpu_id.
  rewrite !write_list_other; rewrite ?le_bytes_length; done || lia.
Qed.

Lemma load_le_last a n z m : 0 ≤ z < 2 ^ (8 * Z.of_nat n) →
  load_le (write_list a (le_bytes n z) m) a n = z.
Proof.
  intros Hz. rewrite <- (le_bytes_length n z) at 2. rewrite load_le_write. by apply le_roundtrip.
Qed.

Lemma load_le_under a l m a' n :
  a' + Z.of_nat n ≤ a ∨ a + Z.of_nat (length l) ≤ a' →
  load_le (write_list a l m) a' n = load_le m a' n.
Proof. intros H. apply load_le_ext. intros x Hx. apply write_list_other. lia. Qed.

Lemma info_at_fill t i base m :
  0 ≤ t < 2 ^ 64 → 0 ≤ base < 2 ^ 64 → smp_info_ok i →
  info_at (fill_info t i base m) t = info_of t base i.
Proof.
  intros Ht Hb [Hp Hl].
  unfold info_at, fill_info, info_of, OFFSET_tls_base, OFFSET_lapic_id, OFFSET_cpu_id. f_equal;
    rewrite ?load_le_under by (rewrite ?le_bytes_length; lia); by apply load_le_last.
Qed.

Lemma info_at_ext m m' t :
  (∀ x, t ≤ x < t + 24 → m x = m' x) → info_at m t = info_at m' t.
Proof.
  intros H. unfold info_at, OFFSET_tls_base, OFFSET_lapic_id, OFFSET_cpu_id.
  f_equal; apply load_le_ext; intros x Hx; apply H; lia.
Qed.

Lemma write_list_ext a l m m' x : (∀ y, m y = m' y) → write_list a l m x = write_list a l m' x.
Proof. intros H. unfold write_list. by rewrite H. Qed.

Lemma init_info_spec t i base e r b s :
  block_ready e r b s → va_start b ≤ t → t + 24 ≤ va_end b →
  wp e (init_thread_local_info t i base)
    (λ _ s', touched e r b s (fill_info t i base (p_bytes s)) s'
       ∧ ∀ x, t ≤ x < t + 24 → unmapped (p_kernel s') r x = false) s.
Proof.
  intros Hr Hlo Hhi. unfold init_thread_local_info, store_u32, store_u64, fill_info.
  unfold OFFSET_tls_base, OFFSET_lapic_id, OFFSET_cpu_id.
  pose proof (block_area _ _ _ _ Hr) as Hb.
  assert (∀ x, t ≤ x < t + 24 → in_region D (virt_of x)) as HD
    by (intros x Hx; apply (block_region b); [done|lia]).
  apply wp_bind. eapply wp_mono; [apply (store_bytes_spec _ _ e r b);
    rewrite ?le_bytes_length; [done|lia|lia]|]. rewrite le_bytes_length. intros [] s1 [T1 U1].
  apply wp_bind. eapply wp_mono; [apply (store_bytes_spec _ _ e r b);
    rewrite ?le_bytes_length; [apply T1|lia|lia]|]. rewrite le_bytes_length. intros [] s2 [T2 U2].
  apply wp_bind. eapply wp_mono; [apply (store_bytes_spec _ _ e r b);
    rewrite ?le_bytes_length; [apply T2|lia|lia]|]. rewrite le_bytes_length. intros [] s3 [T3 U3].
  eapply wp_mono; [apply (store_bytes_spec _ _ e r b);
    rewrite ?le_bytes_length; [apply T3|lia|lia]|]. rewrite le_bytes_length. intros [] s4 [T4 U4].
  split.
  - eapply touched_ext.
    { by do 3 (eapply touched_trans; [eassumption|]). }
    intros x. repeat (apply write_list_ext; intros ?; rewrite ?(to_bytes _ _ _ _ _ _ T3),
      ?(to_bytes _ _ _ _ _ _ T2), ?(to_bytes _ _ _ _ _ _ T1)). done.
  - intros x Hx. destruct (decide (x < t + 8)); [apply U4; lia|].
    eapply touched_mapped; [exact T4|by apply HD|].
    destruct (decide (x < t + 16)); [apply U3; lia|].
    eapply touched_mapped; [exact T3|by apply HD|].
    destruct (decide (x < t + 20)); [apply U2; lia|].
    eapply touched_mapped; [exact T2|by apply HD|]. apply U1. lia.
Qed.
End Blocks.

(** ** Private per-CPU data *)

Section Tls.
Context {BF : Bitflags} {BFS : BitflagsSpec BF} {RT : Runtime} {RTS : RuntimeSpec RT}
  {XA : X86Address} {XAS : X86AddressSpec XA} {XP : X86Paging XA} {XPS : X86PagingSpec XP}
  {LG : Logging} {LGS : LoggingSpec LG}
  {XC : X86Cpu} {XCS : X86CpuSpec XC} {FA : Allocator} {FAS : AllocatorSpec FA}
  {PC : PerCpuSection} {PCS : PerCpuSectionSpec PC}.
Variable D : Z → Prop.
Hypothesis Hvm : ∀ v, in_vmalloc v = true → in_region D v.
Implicit Types (e : Env) (k : Kernel) (s : Smp) (r x cpu : Z) (b : VirtualArea)
  (i : LimineSmpInfo).

Definition per_cpu_size : Z := __per_cpu_end - __per_cpu_start.

(** The pages of a block. *)
Definition block_pages : Z := (per_cpu_size + 24 + 4095) / 4096.

Definition has_room k : Prop :=
  ∃ a, free_area k a ∧ 4096 * block_pages ≤ va_size a.

(** The memory manager is ready for one more block, and the section that is copied is
    mapped. *)
Record tls_ready e r s : Prop := {
  tr_tables : pt_inv D (p_kernel s) r;
  tr_areas : vma_inv (p_kernel s);
  tr_cpu : cpu_ready e (p_kernel s) r;
  tr_used : area_unlocked e;
  tr_free : FREE_VMA ∉ held e;
  tr_image x : __per_cpu_start ≤ x < __per_cpu_end →
    in_region D (virt_of x) ∧ unmapped (p_kernel s) r x = false
}.

(** The block [b] is the one of the processor [cpu], described by [i]. *)
Record tls_of r cpu i b s : Prop := {
  tls_used : used_area (p_kernel s) b;
  tls_fits : va_start b + per_cpu_size + 24 ≤ va_end b;
  tls_fs : p_fs_base s cpu = va_start b + per_cpu_size;
  tls_gs : p_gs_base s cpu = va_start b + per_cpu_size;
  tls_info : info_at (p_bytes s) (va_start b + per_cpu_size)
             = info_of (va_start b + per_cpu_size) (va_start b) i;
  tls_mapped x : 0 ≤ x < 24 → unmapped (p_kernel s) r (va_start b + per_cpu_size + x) = false
}.

Lemma tls_flags_map :
  bf_contains (bf_from_bits_truncate Flags_all (bf_union VmmFlags_MAP VmmFlags_ZEROED))
    VmmFlags_MAP = true.
Proof.
  unfold VmmFlags_MAP at 2. rewrite contains_flag by done.
  rewrite bf_truncate_spec, bf_union_spec by done. done.
Qed.

Lemma tls_flags_atomic :
  bf_contains (bf_union VmmFlags_MAP VmmFlags_ZEROED) VmmFlags_ATOMIC = false.
Proof.
  unfold VmmFlags_ATOMIC. rewrite contains_flag by done. by rewrite bf_union_spec.
Qed.

Lemma per_cpu_bounds : 0 ≤ per_cpu_size < 2 ^ 31.
Proof.
  unfold per_cpu_size. pose proof per_cpu_image. pose proof per_cpu_order. lia.
Qed.

Lemma cpu_ready_vma e k k' r : only_vma k k' → cpu_ready e k r → cpu_ready e k' r.
Proof.
  intros Ho (Hc & Hp & He). unfold cpu_ready, current_root, cr3_page, active_root in *.
  by rewrite Ho.
Qed.

Lemma pt_inv_vma k k' r : only_vma k k' → pt_inv D k r → pt_inv D k' r.
Proof. intros Ho Ht. eapply pt_inv_local; [..|exact Ht]; by rewrite Ho. Qed.

(** The state after [vmm::allocate] is ready for the stores. *)
Lemma block_allocated fl e r b s k1 :
  tls_ready e r s → only_vma (p_kernel s) k1 → vma_inv k1 → used_area k1 b →
  bf_contains (va_flags b) VmmFlags_MAP = true → va_size b = 4096 * block_pages →
  fl + 5 * block_pages ≤ fa_free (p_kernel s) →
  block_ready D fl e r b (mkSmp k1 (p_bytes s) (p_fs_base s) (p_gs_base s)).
Proof.
  intros [Ht Hv Hc HU HF Hi] Ho Hv1 Hu Hm Hsz Hfree.
  split; try done; simpl.
  - by eapply pt_inv_vma.
  - by eapply cpu_ready_vma.
  - assert (fa_free k1 = fa_free (p_kernel s)) as -> by (apply fa_free_local; by rewrite Ho).
    unfold missing. rewrite Hsz, (Z.mul_comm 4096), Z.div_mul by done.
    pose proof (countb_bounds (λ j, unmapped k1 r (va_start b + 4096 * j)) (seqZ 0 block_pages)).
    rewrite length_seqZ in *. pose proof per_cpu_bounds.
    assert (0 ≤ block_pages) by (unfold block_pages; dlia). lia.
Qed.

(** What filling in the block [b] did to the state. *)
Record filled_block fl e r i b s s' : Prop := {
  fb_ready : block_ready D fl e r b s';
  fb_stored : ∃ n, stored D (λ w, covers_addr w b) r n (p_kernel s) (p_kernel s');
  fb_info : info_at (p_bytes s') (va_start b + per_cpu_size)
            = info_of (va_start b + per_cpu_size) (va_start b) i;
  fb_image x : 0 ≤ x < per_cpu_size →
    p_bytes s' (va_start b + x) = p_bytes s (__per_cpu_start + x);
  fb_other x : x < va_start b ∨ va_end b ≤ x → p_bytes s' x = p_bytes s x;
  fb_mapped x : 0 ≤ x < 24 → unmapped (p_kernel s') r (va_start b + per_cpu_size + x) = false;
  fb_fs : p_fs_base s' = p_fs_base s;
  fb_gs : p_gs_base s' = p_gs_base s
}.

Lemma fb_touched fl e r i b s s' :
  filled_block fl e r i b s s' → touched D fl e r b s (p_bytes s') s'.
Proof. by intros [H1 H2 _ _ _ _ H3 H4]; split. Qed.

Lemma fill_block_spec fl i e r b s :
  0 ≤ fl → block_ready D fl e r b s → smp_info_ok i →
  va_start b + per_cpu_size + 24 ≤ va_end b →
  source_ok D r b (p_kernel s) __per_cpu_start per_cpu_size →
  wp e (init_thread_local_info (va_start b + per_cpu_size) i (va_start b);;
        copy_bytes __per_cpu_start (va_start b) (Z.to_nat per_cpu_size))
    (λ _ s', filled_block fl e r i b s s') s.
Proof.
  intros Hfl Hr Hi Hfit Hsrc. pose proof per_cpu_bounds as Hsz.
  pose proof (block_area _ _ _ _ _ _ Hr) as (_ & _ & _ & Hlo & Hhi).
  unfold VMALLOC_START, VMALLOC_END in Hlo, Hhi.
  apply wp_bind. eapply wp_mono; [apply (init_info_spec D Hvm fl Hfl _ i _ e r b);
    [done|lia|lia]|]. intros [] s2 [T2 U2].
  eapply wp_mono; [apply (copy_bytes_spec D Hvm fl Hfl _ _ _ e r b); [apply T2|lia|lia|]|].
  { rewrite Z2Nat.id by lia. destruct Hsrc as [Hdis Hsrc]. split; [done|]. intros x Hx.
    destruct (Hsrc x Hx). split; [done|]. by eapply touched_mapped. }
  rewrite Z2Nat.id by lia. intros [] s3 T3.
  assert (∀ x, x < va_start b ∨ va_start b + per_cpu_size ≤ x →
            p_bytes s3 x = fill_info (va_start b + per_cpu_size) i (va_start b) (p_bytes s) x)
    as Hrest.
  { intros x Hx. rewrite (to_bytes _ _ _ _ _ _ _ _ T3), <- (to_bytes _ _ _ _ _ _ _ _ T2).
    destruct (_ && _) eqn:E; [bool_to_prop; lia|done]. }
  split.
  - apply T3.
  - apply (touched_trans _ _ _ _ _ _ _ _ _ _ T2 T3).
  - rewrite (info_at_ext _ (fill_info (va_start b + per_cpu_size) i (va_start b) (p_bytes s)))
      by (intros x Hx; apply Hrest; lia). apply info_at_fill; [lia|lia|done].
  - intros x Hx. rewrite (to_bytes _ _ _ _ _ _ _ _ T3).
    assert ((va_start b <=? va_start b + x)
            && (va_start b + x <? va_start b + per_cpu_size) = true) as -> by blia.
    rewrite (to_bytes _ _ _ _ _ _ _ _ T2), fill_info_other by (destruct Hsrc; lia). f_equal. lia.
  - intros x Hx. rewrite Hrest by lia. apply fill_info_other. lia.
  - intros x Hx. eapply touched_mapped; [exact T3| |apply U2; lia].
    apply (block_region D Hvm b); [by eapply block_area|lia].
  - by rewrite (to_fs _ _ _ _ _ _ _ _ T3), (to_fs _ _ _ _ _ _ _ _ T2).
  - by rewrite (to_gs _ _ _ _ _ _ _ _ T3), (to_gs _ _ _ _ _ _ _ _ T2).
Qed.

Definition tls_out_of_memory : panic :=
  PanicMsg "Failed to allocate {} bytes for thread local storage: {:?}".

(** The blocks of the other processors do not move. *)
Lemma tls_of_kept fl e r i b c i' b' s k1 s' :
  vma_inv (p_kernel s) → (∀ a, used_area k1 a ↔ a = b ∨ used_area (p_kernel s) a) →
  only_vma (p_kernel s) k1 →
  (∀ v, covers_addr v b = true → covers_addr v b' = false) →
  filled_block fl e r i b (mkSmp k1 (p_bytes s) (p_fs_base s) (p_gs_base s)) s' →
  tls_of r c i' b' s →
  b' ≠ b ∧ used_area (p_kernel s') b'
  ∧ info_at (p_bytes s') (va_start b' + per_cpu_size)
    = info_of (va_start b' + per_cpu_size) (va_start b') i'
  ∧ ∀ x, 0 ≤ x < 24 → unmapped (p_kernel s') r (va_start b' + per_cpu_size + x) = false.
Proof.
  intros Hv Hu1 Ho Hdis Hf [Hu Hfit Hfs Hgs Hinfo Hmap].
  pose proof Hf as [Hr [n Hst] _ _ Hoth _ _ _].
  pose proof (used_area_ok _ b' (vma_used _ Hv) Hu) as Hb'.
  pose proof per_cpu_bounds as Hsz. pose proof (st_frame _ _ _ _ _ _ Hst) as Hfr. split_and!.
  - intros ->. pose proof (covers_start b Hb') as H. by rewrite Hdis in H.
  - pose proof (map_only D r _ _ Hfr) as Ho'. unfold used_area. rewrite Ho'. simpl.
    apply (Hu1 b'). by right.
  - rewrite <- Hinfo. apply info_at_ext. intros x Hx. rewrite Hoth; [done|].
    destruct (decide (x < va_start b ∨ va_end b ≤ x)) as [?|Hn]; [done|].
    destruct (area_addr b' x Hb' ltac:(lia)) as (_ & _ & Hc').
    destruct (area_addr b x) as (_ & _ & Hc); [by eapply block_area|lia|].
    rewrite Hdis in Hc' by done. done.
  - intros x Hx. eapply (touched_mapped D fl e r b); [by eapply fb_touched| |].
    + apply (block_region D Hvm b'); [done|lia].
    + unfold unmapped. simpl. rewrite Ho. by apply Hmap.
Qed.

(** What setting up the block of [cpu] does. *)
Record tls_set_up e r cpu i b s s' : Prop := {
  ts_ready : tls_ready e r s';
  ts_cost : fa_free (p_kernel s) - 5 * block_pages ≤ fa_free (p_kernel s');
  ts_block : tls_of r cpu i b s';
  ts_fresh : ¬ used_area (p_kernel s) b;
  ts_image x : 0 ≤ x < per_cpu_size →
    p_bytes s' (va_start b + x) = p_bytes s (__per_cpu_start + x);
  ts_other c i' b' : c ≠ cpu → tls_of r c i' b' s → tls_of r c i' b' s';
  ts_boot : same_boot (p_kernel s) (p_kernel s');
  ts_keeps : fa_keeps (p_kernel s) (p_kernel s');
  ts_mapped v (x : PageEntry) : in_region D v → mapping (k_mem (p_kernel s)) r v = Some x →
    mapping (k_mem (p_kernel s')) r v = Some x;
  ts_only v : in_region D v → covers_addr v b = false →
    mapping (k_mem (p_kernel s')) r v = mapping (k_mem (p_kernel s)) r v;
  ts_unowned : unowned_kept (p_kernel s) (p_kernel s');
  ts_used a : used_area (p_kernel s') a ↔ a = b ∨ used_area (p_kernel s) a;
  ts_size : va_size b = 4096 * block_pages
}.

Lemma tls_setup_spec cpu i e r s :
  tls_ready e r s → smp_info_ok i → 5 * block_pages ≤ fa_free (p_kernel s) →
  wpx e (allocate_thread_local_storage cpu i) (λ _ s', ∃ b, tls_set_up e r cpu i b s s')
    (λ p, p = tls_out_of_memory ∧ ¬ has_room (p_kernel s)) s.
Proof.
  intros Hrd Hi Hfree. pose proof per_cpu_bounds as Hsz. pose proof per_cpu_image as Himg.
  pose proof Hrd as [Ht Hv Hc [HU HL] HF Him].
  unfold allocate_thread_local_storage, wpx. fold per_cpu_size.
  erewrite bind_ret_run by (apply arith_run; fold per_cpu_size; lia). fold per_cpu_size.
  erewrite bind_ret_run by (apply arith_run; unfold size_of_ThreadLocalInfo; lia).
  apply wpx_bind, wp_wpx, wp_zoom.
  eapply wp_mono; [apply vmm_allocate_spec; [done|unfold size_of_ThreadLocalInfo; lia
    |apply tls_flags_atomic|done|done]|].
  replace ((per_cpu_size + size_of_ThreadLocalInfo + 4095) / 4096 * 4096)
    with (4096 * block_pages) by (unfold block_pages, size_of_ThreadLocalInfo; lia).
  intros [data|err] k1 [Hv1 H]; cycle 1.
  { destruct H as (_ & _ & Hno). split; [done|]. intros (a & Ha & Hle).
    specialize (Hno a Ha). lia. }
  destruct H as (Hdsz & Hb & _ & Hdis & Hused & Ho). set (b := mkVirtualArea data _) in *.
  change (virt_as_u64 (vr_start data)) with (va_start b).
  assert (va_size b = 4096 * block_pages) as Hbsz by done.
  assert (va_start b + per_cpu_size + 24 ≤ va_end b) as Hfit.
  { rewrite va_size_spec in Hbsz. unfold block_pages in Hbsz. dlia. }
  pose proof Hb as (_ & _ & _ & Hlo & Hhi).
  assert (block_ready D (fa_free (p_kernel s) - 5 * block_pages) e r b
            (mkSmp k1 (p_bytes s) (p_fs_base s) (p_gs_base s))) as Hready.
  { apply block_allocated; try done; [apply Hused; by left|apply tls_flags_map|lia]. }
  assert (virt_as_u64 (vr_start data) = va_start b) as Hst by done.
  destruct (virt_add_spec (vr_start data) per_cpu_size) as (t & Ht1 & Ht2);
    [lia|apply vmalloc_canonical; rewrite Hst; lia|].
  apply wp_wpx, wp_bind. eapply wp_ext; [exact Ht1|]. rewrite Ht2, Hst. apply wp_assoc, wp_bind.
  eapply wp_mono; [apply (fill_block_spec (fa_free (p_kernel s) - 5 * block_pages) i e r b);
    try done; [lia|]|].
  { unfold VMALLOC_END in Hhi. split; [lia|]. intros x Hx. unfold unmapped. simpl. rewrite Ho.
    apply Him. unfold per_cpu_size in Hx. lia. }
  intros [] s2 Hf. apply wp_bind, wp_modify, wp_modify. exists b.
  pose proof Hf as [Hr2 [n Hst2] Hinfo Himage Hoth Hmap Hfs Hgs].
  pose proof (map_only D r _ _ (st_frame _ _ _ _ _ _ Hst2)) as Ho2.
  split; simpl.
  - pose proof Hr2 as [Ha1 Ha2 Ha3 _ _ _ _]. split; try done. simpl. intros x Hx.
    destruct (Him x Hx) as [HD Hm]. split; [done|].
    eapply (touched_mapped D (fa_free (p_kernel s) - 5 * block_pages) e r b); [by eapply fb_touched|done|].
    unfold unmapped. simpl. rewrite Ho. exact Hm.
  - pose proof (br_free _ _ _ _ _ _ Hr2) as Hf2.
    pose proof (countb_bounds (λ j, unmapped (p_kernel s2) r (va_start b + 4096 * j))
                  (seqZ 0 (va_size b / 4096))). unfold missing in Hf2. lia.
  - split; simpl; rewrite ?Z.eqb_refl; try done. apply Hr2.
  - intros Hu. pose proof (Hdis b _ Hu (covers_start b Hb)) as H.
    by rewrite covers_start in H.
  - done.
  - intros c i' b' Hne Htls.
    destruct (tls_of_kept (fa_free (p_kernel s) - 5 * block_pages) e r i b c i' b' s k1 s2 Hv Hused Ho) as (_ & H1 & H2 & H3);
      [intros v; apply Hdis, Htls|done|done|].
    destruct Htls as [T1 T2 T3 T4 T5 T6]. split; simpl; try done;
      rewrite (proj2 (Z.eqb_neq c cpu) Hne); [by rewrite Hfs|by rewrite Hgs].
  - unfold same_boot. rewrite Ho2. simpl. by rewrite Ho.
  - pose proof (map_live D r _ _ (st_frame _ _ _ _ _ _ Hst2)) as Hk. intros a Ha. simpl in Hk.
    rewrite (fa_refs_local (p_kernel s) k1) by (by rewrite Ho). apply Hk.
    eapply fa_live_local; [|exact Ha]. by rewrite Ho.
  - intros v x HDv Hx. apply (st_mapped _ _ _ _ _ _ Hst2); [done|]. simpl. by rewrite Ho.
  - intros v HDv Hcv. rewrite (st_only _ _ _ _ _ _ Hst2) by done. simpl. by rewrite Ho.
  - pose proof (st_frame _ _ _ _ _ _ Hst2) as Hfr2.
    eapply (unowned_trans _ k1); [apply (map_live D r _ _ Hfr2)| |apply (map_unowned D r _ _ Hfr2)].
    by apply unowned_local; rewrite Ho.
  - intros a. rewrite <- Hused. unfold used_area. by rewrite Ho2.
  - done.
Qed.

Lemma tls_setup_room_spec cpu i e r s :
  tls_ready e r s → smp_info_ok i → has_room (p_kernel s) →
  5 * block_pages ≤ fa_free (p_kernel s) →
  wp e (allocate_thread_local_storage cpu i) (λ _ s', ∃ b, tls_set_up e r cpu i b s s') s.
Proof.
  intros Hrd Hi Hroom Hfree. eapply wpx_mono; [by apply (tls_setup_spec cpu i e r)|done|].
  by intros p [_ ?].
Qed.

(** C14: [allocate_thread_local_storage] gives a processor its own per-CPU data.  With a
    free range and enough frames it returns, although every page of the block is mapped
    by a page fault; the block was not in use before, [FsBase] and [KernelGsBase] of the
    processor point behind the copy of the per-CPU section, to a [ThreadLocalInfo] that
    holds its own address, the base of the block and the ids of the processor; the blocks
    and the registers of the other processors are unchanged, and the memory manager is
    ready for the next processor. *)
Theorem tls_setup_correct cpu i e r s :
  tls_ready e r s → smp_info_ok i → has_room (p_kernel s) →
  5 * block_pages ≤ fa_free (p_kernel s) →
  wp e (allocate_thread_local_storage cpu i) (λ _ s', ∃ b, tls_set_up e r cpu i b s s') s.
Proof. apply tls_setup_room_spec. Qed.

(** Reading the id back. *)
Lemma current_id_run cpu i b e r s :
  tls_of r cpu i b s → cr3_page (p_kernel s) = r →
  current_id cpu e s = Ret (processor_id i) s.
Proof.
  intros [Hu Hfit Hfs _ Hinfo Hm] Hcpu. unfold current_id, get_cpu_info, load_u32.
  erewrite bind_ret_run by reflexivity. rewrite Hfs. unfold OFFSET_cpu_id.
  erewrite bind_ret_run.
  2:{ eapply load_bytes_run; [exact Hcpu|]. intros x Hx.
      replace x with (va_start b + per_cpu_size + (x - (va_start b + per_cpu_size))) by lia.
      apply Hm. lia. }
  change (Ret (cpu_id (info_at (p_bytes s) (va_start b + per_cpu_size))) s
          = Ret (processor_id i) s). by rewrite Hinfo.
Qed.

(** Two processors whose blocks start at different addresses share nothing. *)
Lemma tls_disjoint r c i b c' i' b' s :
  vma_inv (p_kernel s) → tls_of r c i b s → tls_of r c' i' b' s →
  p_fs_base s c ≠ p_fs_base s c' → va_end b ≤ va_start b' ∨ va_end b' ≤ va_start b.
Proof.
  intros Hv [Hu _ Hfs _ _ _] [Hu' _ Hfs' _ _ _] Hne.
  destruct (decide (va_end b ≤ va_start b' ∨ va_end b' ≤ va_start b)) as [?|Hn]; [done|].
  pose proof (used_area_ok _ b (vma_used _ Hv) Hu) as Hb.
  pose proof (used_area_ok _ b' (vma_used _ Hv) Hu') as Hb'.
  pose proof Hb as [? _]. pose proof Hb' as [? _].
  set (x := Z.max (va_start b) (va_start b')).
  destruct (area_addr b x Hb ltac:(lia)) as (_ & _ & H1).
  destruct (area_addr b' x Hb' ltac:(lia)) as (_ & _ & H2).
  pose proof (used_areas_disjoint _ _ _ _ Hv Hu Hu' H1 H2). subst. congruence.
Qed.

(** A block that was not in use is at a new address. *)
Lemma tls_fresh_fs e r cpu i b s s' c i' b' :
  vma_inv (p_kernel s) → tls_set_up e r cpu i b s s' → c ≠ cpu → tls_of r c i' b' s →
  p_fs_base s' c ≠ p_fs_base s' cpu ∧ p_fs_base s' c = p_fs_base s c.
Proof.
  intros Hv [Hr _ Hb Hfresh _ Hoth _ _ _] Hne Hc. pose proof (Hoth c i' b' Hne Hc) as Hc'.
  rewrite (tls_fs _ _ _ _ _ Hc'), (tls_fs _ _ _ _ _ Hb), (tls_fs _ _ _ _ _ Hc).
  split; [|done]. intros Heq. apply Hfresh.
  pose proof (tr_areas _ _ _ Hr) as Hv'.
  pose proof (proj1 (used_area_get _ _ (vma_used _ Hv')) (tls_used _ _ _ _ _ Hb)) as H1.
  pose proof (proj1 (used_area_get _ _ (vma_used _ Hv')) (tls_used _ _ _ _ _ Hc')) as H2.
  replace (va_start b') with (va_start b) in H2 by lia.
  assert (b = b') as -> by congruence. apply Hc.
Qed.

(** C8: Processors set up one after the other keep their identities.  However many
    processors run [allocate_thread_local_storage], as long as there is a range for each
    -- the only panic is the one that reports there is none -- each then reads its own
    processor id back with [current_id], and no two of them share a block. *)
Theorem current_id_roundtrip (l : list (Z * LimineSmpInfo)) e r s :
  tls_ready e r s → NoDup l.*1 → Forall smp_info_ok l.*2 →
  5 * block_pages * Z.of_nat (length l) ≤ fa_free (p_kernel s) →
  wpx e (foldM (λ (_ : unit) ci, allocate_thread_local_storage ci.1 ci.2) l tt)
    (λ _ s',
       (∀ ci, ci ∈ l → (∃ b, tls_of r ci.1 ci.2 b s')
                       ∧ current_id ci.1 e s' = Ret (processor_id ci.2) s')
       ∧ ∀ ci cj b b', ci ∈ l → cj ∈ l → ci.1 ≠ cj.1 →
           tls_of r ci.1 ci.2 b s' → tls_of r cj.1 cj.2 b' s' →
           va_end b ≤ va_start b' ∨ va_end b' ≤ va_start b)
    (λ p, p = tls_out_of_memory) s.
Proof.
  intros Hrd Hnd HF Hfree.
  eapply wpx_mono; [apply (wpx_foldM _ (λ pre _ s', tls_ready e r s'
      ∧ fa_free (p_kernel s) - 5 * block_pages * Z.of_nat (length pre) ≤ fa_free (p_kernel s')
      ∧ (∀ ci, ci ∈ pre → ∃ b, tls_of r ci.1 ci.2 b s')
      ∧ ∀ ci cj, ci ∈ pre → cj ∈ pre → ci.1 ≠ cj.1 → p_fs_base s' ci.1 ≠ p_fs_base s' cj.1))| |done].
  - split_and!; [done|simpl; lia|..]; intros ci; intros; by destruct (not_elem_of_nil ci).
  - intros pre [cpu i] todo [] s1 -> (Hrd1 & Hf1 & Hb1 & Hd1).
    rewrite !fmap_app in *. rewrite length_app in Hfree. simpl in *.
    apply NoDup_app in Hnd as (_ & Hnin & _). apply Forall_app in HF as [_ HF].
    inversion HF as [|? ? Hi _]; subst. pose proof per_cpu_bounds.
    assert (0 ≤ block_pages) by (unfold block_pages; dlia).
    eapply wpx_mono; [apply (tls_setup_spec cpu i e r s1); [done|done|nia]| |by intros p []].
    intros [] s2 [b Hs]. pose proof (tr_areas _ _ _ Hrd1) as Hv1.
    assert (∀ ci, ci ∈ pre → ci.1 ≠ cpu) as Hne.
    { intros ci Hci Heq. apply (Hnin ci.1); [by apply list_elem_of_fmap_2|]. rewrite Heq. left. }
    assert (∀ ci, ci ∈ pre → p_fs_base s2 ci.1 ≠ p_fs_base s2 cpu
                             ∧ p_fs_base s2 ci.1 = p_fs_base s1 ci.1) as Hfs.
    { intros ci Hci. destruct (Hb1 ci Hci) as [b' Hb']. by eapply tls_fresh_fs; [..|apply Hb']; auto. }
    split_and!.
    + apply Hs.
    + rewrite length_app. simpl. pose proof (ts_cost _ _ _ _ _ _ _ Hs). nia.
    + intros ci [Hci|Hci%list_elem_of_singleton]%elem_of_app; [|subst; exists b; apply Hs].
      destruct (Hb1 ci Hci) as [b' Hb']. exists b'. apply Hs; auto.
    + intros ci cj [Hci|Hci%list_elem_of_singleton]%elem_of_app
        [Hcj|Hcj%list_elem_of_singleton]%elem_of_app Hij; subst; simpl in *; [|by apply Hfs| |done].
      * destruct (Hfs ci Hci) as [_ ->], (Hfs cj Hcj) as [_ ->]. by apply Hd1.
      * apply not_eq_sym. by apply Hfs.
  - intros [] s' (Hrd' & _ & Hb & Hd). split.
    + intros ci Hci. destruct (Hb ci Hci) as [b Hci']. split; [by exists b|].
      eapply current_id_run; [exact Hci'|apply (tr_cpu _ _ _ Hrd')].
    + intros ci cj b b' Hci Hcj Hij H1 H2. eapply tls_disjoint; [apply Hrd'|exact H1|exact H2|].
      by apply Hd.
Qed.
End Tls.

(** ** Witnesses *)

(** A machine with 300 free frames, the per-CPU section mapped, the vmalloc space free. *)
Definition ref_image : Kernel :=
  let k := set_events [Cr3Write 4096] (ref_space 300) in
  ret_state (map (hhdm 4096) (virt_of 0xFFFFFFFF80004000) (frame_at 0xB8000) ref_rw ref_env k) k.

Definition ref_cpus : Kernel := ret_state (vmm_setup ref_env ref_image) ref_image.

Definition ref_smp : Smp := mkSmp ref_cpus (λ x, x mod 256) (λ _, 0) (λ _, 0).

Lemma ref_space300_inv : pt_inv everywhere (set_events [Cr3Write 4096] (ref_space 300)) 4096.
Proof.
  split.
  - apply alloc_invb_sound. vm_compute. reflexivity.
  - apply tables_empty; [|done|exact (ref_space_live 300)]. intros i. apply pe_zero_absent.
Qed.

Lemma ref_image_inv : pt_inv everywhere ref_image 4096.
Proof.
  destruct (wp_ret_state _ _ _ _ (map_spec everywhere 4096 (virt_of 0xFFFFFFFF80004000)
    (frame_at 0xB8000) ref_rw ref_env _ ref_space300_inv I eq_refl ref_unlocked)) as [res [Hf _]].
  exact (map_inv _ _ _ _ Hf).
Qed.

Lemma ref_cpus_spec :
  vma_inv ref_cpus ∧ only_vma ref_image ref_cpus
  ∧ ∃ a, free_area ref_cpus a ∧ va_start a = VMALLOC_START ∧ va_end a = VMALLOC_END.
Proof.
  destruct (wp_ret_state _ _ _ _ (vmm_setup_spec ref_env ref_image eq_refl eq_refl
    (ref_env_unlocked _))) as [_ (Hinv & _ & Ho & Ha)].
  split_and!; [exact Hinv|exact Ho|exact Ha].
Qed.

Lemma ref_smp_ready : tls_ready everywhere ref_env 4096 ref_smp.
Proof.
  destruct ref_cpus_spec as (Hv & Ho & _). split; try apply ref_env_unlocked.
  - exact (pt_inv_vma everywhere _ _ 4096 Ho ref_image_inv).
  - exact Hv.
  - split_and!; [|vm_compute; reflexivity|exact ref_unlocked].
    apply ref_current; vm_compute; reflexivity.
  - split; apply ref_env_unlocked.
  - intros x Hx. split; [exact I|].
    assert (forallb (λ x, negb (unmapped ref_cpus 4096 x)) (seqZ 0xFFFFFFFF80004000 16) = true)
      as H by (vm_compute; reflexivity).
    rewrite forallb_forall in H. change (p_kernel ref_smp) with ref_cpus.
    apply (proj1 (negb_true_iff (unmapped ref_cpus 4096 x))). refine (H x _). apply list_elem_of_In, elem_of_seqZ.
    cbn [__per_cpu_start __per_cpu_end ref_percpu] in Hx. lia.
Qed.

Lemma ref_smp_room : has_room (p_kernel ref_smp).
Proof.
  destruct ref_cpus_spec as (_ & _ & a & Ha & Hs & He). exists a. split; [exact Ha|].
  rewrite va_size_spec, Hs, He. vm_compute. discriminate.
Qed.

Lemma tls_setup_correct_witness :
  wp ref_env (allocate_thread_local_storage 0 (mkSmpInfo 3 7 None))
    (λ _ s', ∃ b, tls_set_up everywhere ref_env 4096 0 (mkSmpInfo 3 7 None) b ref_smp s') ref_smp.
Proof.
  apply (tls_setup_correct everywhere ltac:(done) 0 (mkSmpInfo 3 7 None) ref_env 4096 ref_smp);
    [exact ref_smp_ready|split; simpl; lia|exact ref_smp_room|vm_compute; discriminate].
Defined.

Lemma current_id_roundtrip_witness :
  wpx ref_env (foldM (λ (_ : unit) ci, allocate_thread_local_storage ci.1 ci.2)
      [(0, mkSmpInfo 0 0 None); (1, mkSmpInfo 5 2 None)] tt)
    (λ _ s', current_id 0 ref_env s' = Ret 0 s' ∧ current_id 1 ref_env s' = Ret 5 s')
    (λ p, p = tls_out_of_memory) ref_smp.
Proof.
  eapply wpx_mono.
  - apply (current_id_roundtrip everywhere ltac:(done)
      [(0, mkSmpInfo 0 0 None); (1, mkSmpInfo 5 2 None)] ref_env 4096 ref_smp);
      [exact ref_smp_ready| | |vm_compute; discriminate].
    + apply (bool_decide_unpack _). vm_compute. exact I.
    + repeat constructor; simpl; lia.
  - intros _ s' [H _]. split.
    + apply (H (0, mkSmpInfo 0 0 None)). left.
    + apply (H (1, mkSmpInfo 5 2 None)). right. left.
  - done.
Defined.

(** The same machine, run: both processors read their ids back. *)
Example current_id_example :
  ret_value ((allocate_thread_local_storage 0 (mkSmpInfo 0 0 None);;
    allocate_thread_local_storage 1 (mkSmpInfo 5 2 None);;
    a ← current_id 0; b ← current_id 1; mret (a, b)) ref_env ref_smp) = Some (0, 5).
Proof. vm_compute. reflexivity. Qed.
