(* ===== verification/Descriptors.v ===== *)
(** * Segments and task states: [src/src/arch/gdt.rs] and [src/src/arch/tss.rs]

    One global descriptor table serves all processors: five segment descriptors, and
    two entries per processor for the descriptor of its task state segment. *)

From S2P Require Import Prelude Machine External Reference Frame FrameAlloc.

Definition MAX_CPU : Z := 32.
Definition SELECTOR_BASE : Z := 6.
Definition GDT_SIZE : Z := 6 + MAX_CPU * 2.

(** What a processor was told about segments, the most recent first. *)
Inductive SegmentEvent :=
  | Lgdt
  | ReloadSegments (code data : Z)
  | MovFs (v : Z)
  | MovGs (v : Z)
  | Ltr (selector : Z).

Section GdtDefs.
Context {RT : Runtime} {XG : X86Gdt}.

(** The static [GDT], and what each processor did. *)
Record Gdt := mkGdt {
  g_table : GdtTable;
  g_cpu : Z → list SegmentEvent
}.

Definition Gdt_new : Gdt := mkGdt (gdt_new GDT_SIZE) (λ _, []).

Definition segment_event (cpu : Z) (ev : SegmentEvent) : M Gdt unit :=
  modify (λ s, mkGdt (g_table s) (λ c, if c =? cpu then ev :: g_cpu s c else g_cpu s c)).

Definition gdt_set (i : Z) (d : GdtDescriptor) : M Gdt unit :=
  s ← get;
  t ← ext (gdt_set_descriptor (g_table s) i d);
  put (mkGdt t (g_cpu s)).

Definition reload_segments (cpu : Z) : M Gdt unit :=
  segment_event cpu (ReloadSegments SELECTOR_KERNEL_CODE64 SELECTOR_KERNEL_DATA);;
  segment_event cpu (MovFs 0);;
  segment_event cpu (MovGs 0).

Definition gdt_setup (cpu : Z) : M Gdt unit :=
  with_lock GDT (
    gdt_set 0 GDT_NULL;;
    gdt_set 1 GDT_KERNEL_CODE64;;
    gdt_set 2 GDT_KERNEL_DATA;;
    gdt_set 3 GDT_USER_CODE64;;
    gdt_set 4 GDT_USER_DATA;;
    segment_event cpu Lgdt;;
    reload_segments cpu).

Definition gdt_reload (cpu : Z) : M Gdt unit :=
  with_lock GDT (segment_event cpu Lgdt);;
  reload_segments cpu.

(** [u16::try_from]. *)
Definition u16_try_from (i : Z) : option Z :=
  if (0 <=? i) && (i <? 2 ^ 16) then Some i else None.

(** [install], on the processor [cpu] whose task state segment is at [tss]. *)
Definition tss_install (cpu tss id : Z) : M Gdt unit :=
  twice ← u64_mul id 2;
  index ← u64_add SELECTOR_BASE twice;
  i ← unwrap (u16_try_from index);
  let selector := selector_value i in
  with_lock GDT (with_lock TSS (gdt_set index (gdt_tss tss)));;
  segment_event cpu (Ltr selector).
End GdtDefs.

(** ** The table *)

Section GdtSpec.
Context {RT : Runtime} {RTS : RuntimeSpec RT} {XG : X86Gdt} {XGS : X86GdtSpec XG}.
Implicit Types (e : Env) (s : Gdt) (t : GdtTable).

(** The descriptor [d] is at the index [i]. *)
Definition holds t i (d : GdtDescriptor) : Prop :=
  ∀ j w, gdt_words d !! j = Some w → gdt_word t (i + Z.of_nat j) = w.

Definition segments : list GdtDescriptor :=
  [GDT_NULL; GDT_KERNEL_CODE64; GDT_KERNEL_DATA; GDT_USER_CODE64; GDT_USER_DATA].

Definition segments_ok t : Prop :=
  gdt_capacity t = GDT_SIZE
  ∧ ∀ (i : nat) d, segments !! i = Some d → holds t (Z.of_nat i) d.

Lemma gdt_set_spec i d e s :
  0 ≤ i → i + Z.of_nat (length (gdt_words d)) ≤ gdt_capacity (g_table s) →
  wp e (gdt_set i d)
    (λ _ s', gdt_capacity (g_table s') = gdt_capacity (g_table s) ∧ g_cpu s' = g_cpu s
       ∧ holds (g_table s') i d
       ∧ ∀ j d', j + Z.of_nat (length (gdt_words d')) ≤ i
                 ∨ i + Z.of_nat (length (gdt_words d)) ≤ j →
           holds (g_table s) j d' → holds (g_table s') j d') s.
Proof.
  intros H0 Hle. destruct (gdt_set_descriptor_spec (g_table s) i d H0 Hle)
    as (t & Ht & Hc & Hd & Hother).
  unfold gdt_set. apply wp_bind. eapply wp_of_run; [reflexivity|].
  apply wp_bind. eapply wp_ext; [exact Ht|]. eapply wp_of_run; [reflexivity|].
  split_and!; [done|done|done|]. intros j d' Hj Hh n w Hn. simpl.
  rewrite Hother; [by apply Hh|]. pose proof (lookup_lt_Some _ _ _ Hn). lia.
Qed.

Lemma segments_words i d : segments !! i = Some d → length (gdt_words d) = 1%nat.
Proof. intros H. apply gdt_segment_words. by eapply list_elem_of_lookup_2. Qed.

(** The first [n] segments are in place. *)
Definition first_segments n s : Prop :=
  gdt_capacity (g_table s) = GDT_SIZE
  ∧ ∀ (i : nat) d, (i < n)%nat → segments !! i = Some d → holds (g_table s) (Z.of_nat i) d.

Lemma set_segment_spec n d e s :
  segments !! n = Some d → first_segments n s →
  wp e (gdt_set (Z.of_nat n) d) (λ _ s', first_segments (S n) s' ∧ g_cpu s' = g_cpu s) s.
Proof.
  intros Hd [Hc Hs]. pose proof (segments_words n d Hd) as Hw.
  pose proof (lookup_lt_Some _ _ _ Hd) as Hn. simpl in Hn.
  eapply wp_mono; [apply gdt_set_spec; [lia|rewrite Hc, Hw; unfold GDT_SIZE, MAX_CPU; lia]|].
  intros [] s' (Hc' & Hcpu & Hh & Hk). split; [|done]. split; [congruence|].
  intros i d' Hi Hd'. destruct (decide (i = n)) as [->|Hne]; [by simplify_eq|].
  apply Hk; [rewrite (segments_words i d' Hd'); lia|]. apply Hs; [lia|done].
Qed.

Lemma gdt_setup_spec cpu e s :
  gdt_capacity (g_table s) = GDT_SIZE → GDT ∉ held e →
  wp e (gdt_setup cpu) (λ _ s', segments_ok (g_table s')) s.
Proof.
  intros Hc Hl. apply wp_with_lock; [done|].
  assert (first_segments 0 s) as H0 by (split; [done|lia]).
  apply wp_bind. eapply wp_mono; [by apply (set_segment_spec 0)|intros [] s1 [H1 _]].
  apply wp_bind. eapply wp_mono; [by apply (set_segment_spec 1)|intros [] s2 [H2 _]].
  apply wp_bind. eapply wp_mono; [by apply (set_segment_spec 2)|intros [] s3 [H3 _]].
  apply wp_bind. eapply wp_mono; [by apply (set_segment_spec 3)|intros [] s4 [H4 _]].
  apply wp_bind. eapply wp_mono; [by apply (set_segment_spec 4)|intros [] s5 [[Hc5 Hs] _]].
  eapply wp_of_run; [reflexivity|]. split; [done|].
  intros i d Hd. apply Hs; [|done]. by apply lookup_lt_Some in Hd.
Qed.

Lemma gdt_reload_spec cpu e s :
  GDT ∉ held e → wp e (gdt_reload cpu) (λ _ s', g_table s' = g_table s) s.
Proof.
  intros Hl. apply wp_bind, wp_with_lock; [done|]. apply wp_modify.
  by eapply wp_of_run; [reflexivity|].
Qed.

(** The entry of the task state segment of the processor [id]. *)
Definition tss_slot (id : Z) : Z := SELECTOR_BASE + 2 * id.

Lemma tss_install_spec cpu tss id e s :
  segments_ok (g_table s) → 0 ≤ id < MAX_CPU → GDT ∉ held e → TSS ∉ held e →
  wp e (tss_install cpu tss id)
    (λ _ s', segments_ok (g_table s') ∧ holds (g_table s') (tss_slot id) (gdt_tss tss)
       ∧ (∀ id' a, id' ≠ id → holds (g_table s) (tss_slot id') (gdt_tss a) →
            holds (g_table s') (tss_slot id') (gdt_tss a))
       ∧ ∀ c, g_cpu s' c = if c =? cpu then Ltr (8 * tss_slot id) :: g_cpu s c else g_cpu s c) s.
Proof.
  unfold MAX_CPU. intros [Hc Hs] Hid HG HT. unfold tss_install, SELECTOR_BASE.
  apply wp_bind, wp_arith; [lia|]. apply wp_bind, wp_arith; [lia|].
  replace (6 + id * 2) with (tss_slot id) by (unfold tss_slot, SELECTOR_BASE; lia).
  assert (0 ≤ tss_slot id ≤ 68) as Hslot by (unfold tss_slot, SELECTOR_BASE; lia).
  apply wp_bind, (wp_unwrap _ (tss_slot id)).
  { unfold u16_try_from. assert ((0 <=? tss_slot id) && (tss_slot id <? 2 ^ 16) = true) as ->
      by blia. done. }
  apply wp_bind, wp_with_lock; [done|]. apply wp_with_lock; [by apply held_acquire|].
  pose proof (gdt_tss_words tss) as Hw.
  eapply wp_mono; [apply gdt_set_spec; [lia|rewrite Hc, Hw; unfold GDT_SIZE, MAX_CPU; lia]|].
  intros [] s1 (Hc1 & Hcpu & Hh & Hk). eapply wp_of_run; [reflexivity|]. simpl.
  rewrite Hcpu, selector_value_spec by lia. split_and!; [split|done| |done].
  - congruence.
  - intros i d Hd. apply Hk; [|by apply Hs]. rewrite (segments_words i d Hd).
    apply lookup_lt_Some in Hd. simpl in Hd. unfold tss_slot, SELECTOR_BASE. lia.
  - intros id' a Hne Ha. apply Hk; [|done]. rewrite gdt_tss_words, Hw.
    unfold tss_slot. lia.
Qed.

(** C19: The processors share one descriptor table without overlap.  After the set-up of
    the table, processors whose ids are distinct and below [MAX_CPU] install their task
    state segments in any order; no call fails, the five segment descriptors are in place,
    and the task register of each processor holds the selector of an entry that describes
    its own task state segment. *)
Theorem descriptors_installed bsp (l : list (Z * Z * Z)) e s :
  gdt_capacity (g_table s) = GDT_SIZE → GDT ∉ held e → TSS ∉ held e →
  NoDup l.*2 → NoDup l.*1.*1 → Forall (λ id, 0 ≤ id < MAX_CPU) l.*2 →
  wp e (gdt_setup bsp;; foldM (λ (_ : unit) '(cpu, tss, id), tss_install cpu tss id) l tt)
    (λ _ s', segments_ok (g_table s') ∧
       ∀ cpu tss id, (cpu, tss, id) ∈ l →
         head (g_cpu s' cpu) = Some (Ltr (8 * tss_slot id))
         ∧ holds (g_table s') (tss_slot id) (gdt_tss tss)) s.
Proof.
  intros Hc HG HT Hid Hcpu HF. apply wp_bind. eapply wp_mono; [by apply gdt_setup_spec|].
  intros [] s1 H1. apply (wp_foldM _ (λ pre _ s', segments_ok (g_table s') ∧
       ∀ cpu tss id, (cpu, tss, id) ∈ pre →
         head (g_cpu s' cpu) = Some (Ltr (8 * tss_slot id))
         ∧ holds (g_table s') (tss_slot id) (gdt_tss tss))).
  { split; [done|]. intros cpu tss id Hin. by apply not_elem_of_nil in Hin. }
  intros pre [[cpu tss] id] todo [] s2 -> [Hs2 Hpre]. rewrite !fmap_app in *. simpl in *.
  apply NoDup_app in Hid as (_ & Hid & _). apply NoDup_app in Hcpu as (_ & Hcpu & _).
  apply Forall_app in HF as [_ HF]. inversion HF as [|? ? Hr _]; subst.
  eapply wp_mono; [by apply tss_install_spec|].
  intros [] s3 (Hs3 & Hh & Hk & Hev). split; [done|]. intros cpu' tss' id' Hin.
  rewrite Hev. apply elem_of_app in Hin as [Hin|Hin%list_elem_of_singleton].
  - destruct (Hpre _ _ _ Hin) as [Hp1 Hp2].
    assert (id' ≠ id).
    { intros ->. apply (Hid id); [|left]. exact (list_elem_of_fmap_2 snd _ _ Hin). }
    assert (cpu' ≠ cpu).
    { intros ->. apply (Hcpu cpu); [|left]. rewrite <- list_fmap_compose.
      exact (list_elem_of_fmap_2 (fst ∘ fst) _ _ Hin). }
    rewrite (proj2 (Z.eqb_neq cpu' cpu)) by done. auto.
  - simplify_eq. by rewrite Z.eqb_refl.
Qed.
End GdtSpec.

(** ** Witnesses *)

Lemma descriptors_installed_witness :
  wp ref_env (gdt_setup 0;; foldM (λ (_ : unit) '(cpu, tss, id), tss_install cpu tss id)
      [(0, 0x1000, 0); (1, 0x2000, 31)] tt)
    (λ _ s', segments_ok (g_table s') ∧ head (g_cpu s' 1) = Some (Ltr (8 * 68))) Gdt_new.
Proof.
  eapply wp_mono.
  - apply (descriptors_installed 0 [(0, 0x1000, 0); (1, 0x2000, 31)] ref_env Gdt_new);
      try apply ref_env_unlocked; try (apply (bool_decide_unpack _); vm_compute; exact I).
  - intros _ s' [H1 H2]. split; [exact H1|].
    destruct (H2 1 0x2000 31) as [H _]; [right; left|exact H].
Defined.
