(* ===== verification/ApStart.v ===== *)
(** * Starting a processor: [ap_start] of [src/src/arch/smp.rs]

    An application processor loads the tables of the kernel, gets its per-CPU data,
    installs its task state segment, switches to its own page table and signals the
    BSP; then it only serves interrupts. *)

From S2P Require Import Prelude Machine External Reference Frame BTree Log Kernel FrameState FrameAlloc Paging PageTables PagingSpec PagingRoots Vmm VmmSpec Fault Interrupts Access Smp Descriptors.

Section ApStartDefs.
Context {BF : Bitflags} {RT : Runtime} {XA : X86Address} {XP : X86Paging XA} {LG : Logging}
  {XC : X86Cpu} {FA : Allocator} {PC : PerCpuSection} {XG : X86Gdt} {XI : X86Idt}.

(** The kernel with its descriptor tables and the static [CPU_COUNT]. *)
Record System := mkSystem {
  y_smp : Smp;
  y_gdt : Gdt;
  y_idt : Idt;
  y_cpu_count : Z
}.

Definition y_kernel (y : System) : Kernel := p_kernel (y_smp y).

Definition on_smp {A} (m : M Smp A) : M System A :=
  zoom y_smp (λ s y, mkSystem s (y_gdt y) (y_idt y) (y_cpu_count y)) m.
Definition on_gdt {A} (m : M Gdt A) : M System A :=
  zoom y_gdt (λ g y, mkSystem (y_smp y) g (y_idt y) (y_cpu_count y)) m.
Definition on_idt {A} (m : M Idt A) : M System A :=
  zoom y_idt (λ i y, mkSystem (y_smp y) (y_gdt y) i (y_cpu_count y)) m.

(** The address of the thread-local [TSS] of the processor [cpu]. *)
Definition tss_address (cpu : Z) : M System Z :=
  gets (λ y, p_fs_base (y_smp y) cpu - TSS_OFFSET).

(** [CPU_COUNT.fetch_add(1)]. *)
Definition cpu_count_add : M System unit :=
  modify (λ y, mkSystem (y_smp y) (y_gdt y) (y_idt y) ((y_cpu_count y + 1) mod 2 ^ 64)).

(** Run on the processor [cpu]; the final loop serves interrupts and never returns. *)
Definition ap_start (cpu : Z) (smp_info : LimineSmpInfo) : M System unit :=
  on_gdt (gdt_reload cpu);;
  on_idt idt_reload;;
  on_smp (allocate_thread_local_storage cpu smp_info);;
  on_smp (smp_kernel (emit LapicEnable));;
  tss ← tss_address cpu;
  on_gdt (tss_install cpu tss (processor_id smp_info));;
  on_smp (smp_kernel ap_setup);;
  cpu_count_add;;
  halt.
End ApStartDefs.

Section ApStartSpec.
Context {BF : Bitflags} {BFS : BitflagsSpec BF} {RT : Runtime} {RTS : RuntimeSpec RT}
  {XA : X86Address} {XAS : X86AddressSpec XA} {XP : X86Paging XA} {XPS : X86PagingSpec XP}
  {LG : Logging} {LGS : LoggingSpec LG}
  {XC : X86Cpu} {XCS : X86CpuSpec XC} {IM : IdentityMapped XA XC}
  {FA : Allocator} {FAS : AllocatorSpec FA}
  {PC : PerCpuSection} {PCS : PerCpuSectionSpec PC} {XG : X86Gdt} {XGS : X86GdtSpec XG}
  {XI : X86Idt}.
Variable D : Z → Prop.
Hypothesis Hvm : ∀ v, in_vmalloc v = true → in_region D v.
Implicit Types (e : Env) (k : Kernel) (y : System) (r q cpu : Z) (b : VirtualArea)
  (i : LimineSmpInfo).

(** The system is ready to start the processor described by [i], which runs on the
    bootloader's table at [r]. *)
Record ap_ready e r i y : Prop := {
  ar_tls : tls_ready D e r (y_smp y);
  ar_info : smp_info_ok i;
  ar_id : 0 ≤ processor_id i < MAX_CPU;
  ar_room : has_room (y_kernel y);
  ar_frames : 5 * block_pages < fa_free (y_kernel y);
  ar_root : init_root (y_kernel y) r;
  ar_early : k_early (y_kernel y) = true;
  ar_table : k_active_table (y_kernel y) = None;
  ar_segments : segments_ok (g_table (y_gdt y));
  ar_locks : (GDT ∉ held e) ∧ (TSS ∉ held e) ∧ (IDT ∉ held e);
  ar_count : 0 ≤ y_cpu_count y < 2 ^ 64 - 1
}.

(** The processor [cpu] is up, with the block [b] and the root table at [q]. *)
Record ap_up e r cpu i b q y : Prop := {
  au_block : tls_of q cpu i b (y_smp y);
  au_id : current_id cpu e (y_smp y) = Ret (processor_id i) (y_smp y);
  au_root : active_root (y_kernel y) q ∧ cr3_page (y_kernel y) = q;
  au_tables : pt_inv D (y_kernel y) q ∧ same_tables D (k_mem (y_kernel y)) r q;
  au_segments : segments_ok (g_table (y_gdt y));
  au_task : head (g_cpu (y_gdt y) cpu) = Some (Ltr (8 * tss_slot (processor_id i)));
  au_tss : ∃ a, holds (g_table (y_gdt y)) (tss_slot (processor_id i)) (gdt_tss a)
                ∧ va_start b ≤ a < va_end b
}.

(** A table that maps what is mapped alike sees the same blocks. *)
Lemma tls_of_root r q cpu i b s s' :
  vma_inv (p_kernel s) → tls_of r cpu i b s →
  (∀ a, used_area (p_kernel s) a → used_area (p_kernel s') a) →
  p_bytes s' = p_bytes s → p_fs_base s' = p_fs_base s → p_gs_base s' = p_gs_base s →
  (∀ v x, in_region D v → mapping (k_mem (p_kernel s)) r v = Some x →
     mapping (k_mem (p_kernel s')) q v = Some x) →
  tls_of q cpu i b s'.
Proof.
  intros Hv [Hu Hfit Hfs Hgs Hi Hm] Hvma Hb Hf Hg Hmap.
  pose proof (used_area_ok _ b (vma_used _ Hv) Hu) as Hbok. pose proof per_cpu_bounds.
  split; rewrite ?Hb, ?Hf, ?Hg; try done.
  - by apply Hvma.
  - intros x Hx. pose proof (Hm x Hx) as Hu'. unfold unmapped in *.
    destruct (mapping (k_mem (p_kernel s)) r _) as [pe|] eqn:E; [|done].
    rewrite (Hmap _ pe); [done| |done]. apply (block_region D Hvm b); [done|lia].
Qed.

(** Switching to its own table, and signalling. *)
Lemma ap_switch_spec e r cpu i b y :
  pt_inv D (y_kernel y) r → vma_inv (y_kernel y) → frames_unlocked e →
  tls_of r cpu i b (y_smp y) → init_root (y_kernel y) r → k_active_table (y_kernel y) = None → 0 < fa_free (y_kernel y) →
  wp e (on_smp (smp_kernel ap_setup))
    (λ _ y', ∃ q, y_gdt y' = y_gdt y ∧ y_cpu_count y' = y_cpu_count y
       ∧ tls_of q cpu i b (y_smp y')
       ∧ current_id cpu e (y_smp y') = Ret (processor_id i) (y_smp y')
       ∧ (active_root (y_kernel y') q ∧ cr3_page (y_kernel y') = q)
       ∧ (pt_inv D (y_kernel y') q ∧ same_tables D (k_mem (y_kernel y')) r q)
       ∧ ∀ c i' b', tls_of r c i' b' (y_smp y) → tls_of r c i' b' (y_smp y')) y.
Proof.
  unfold y_kernel. intros Ht Hv He Hb Hroot Hact Hfree. do 2 apply wp_zoom.
  eapply wp_mono; [by apply (ap_setup_spec D r)|].
  intros [] k' (q & Har & Hcr & Hmade & (_ & Hvma & _) & _). exists q.
  pose proof (rm_fresh _ _ _ _ _ Hmade) as (_ & _ & Hq & Hqal).
  assert (cr3_page k' = q) as Hpage by (unfold cr3_page; rewrite Hcr; dlia).
  assert (∀ a, used_area (p_kernel (y_smp y)) a → used_area k' a) as Hused
    by (intros a; unfold used_area; by rewrite Hvma).
  assert (tls_of q cpu i b (mkSmp k' (p_bytes (y_smp y)) (p_fs_base (y_smp y))
            (p_gs_base (y_smp y)))) as Hblk.
  { apply (tls_of_root r q cpu i b (y_smp y)); try done. intros v x Hin <-. by apply Hmade. }
  split_and!; try done.
  - by apply (current_id_run cpu i b e q).
  - apply Hmade.
  - apply Hmade.
  - intros c i' b' Hc. apply (tls_of_root r r c i' b' (y_smp y)); try done.
    intros v x Hin <-. by apply Hmade.
Qed.

Lemma ap_start_spec cpu i e r y :
  ap_ready e r i y →
  halts e (ap_start cpu i)
    (λ y', y_cpu_count y' = y_cpu_count y + 1
       ∧ ∃ b q, ap_up e r cpu i b q y' ∧ (¬ used_area (y_kernel y) b)
           ∧ ∀ c i' b', c ≠ cpu → tls_of r c i' b' (y_smp y) → tls_of r c i' b' (y_smp y')) y.
Proof.
  intros [Htls Hi Hid Hroom Hfr Hroot Hearly Hact Hseg (HG & HT & HI) Hcnt]. unfold ap_start.
  unfold y_kernel in *.
  apply halts_bind, wp_zoom. eapply wp_mono; [by apply gdt_reload_spec|]. intros [] g1 Hg1.
  apply halts_bind, wp_zoom, wp_with_lock; [done|]. apply wp_modify.
  apply halts_bind, wp_zoom. cbn [y_smp].
  eapply wp_mono; [apply (tls_setup_room_spec D Hvm cpu i e r); [done..|lia]|].
  intros [] s2 [b [Hrd2 Hcost2 Hblk2 Hfresh _ Hoth2 (Hb1 & Hb2 & Hb3 & Hb4) _ _ _ _ _ _]].
  apply halts_bind. do 2 apply wp_zoom. apply wp_modify. cbn [p_kernel].
  apply halts_bind, wp_gets. apply halts_bind, wp_zoom. cbn [y_gdt].
  eapply wp_mono; [by apply tss_install_spec; [rewrite Hg1|..]|].
  intros [] g2 (Hseg2 & Hholds & _ & Hev). apply halts_bind. unfold y_kernel. cbn [y_smp p_kernel].
  pose proof Hrd2 as [Ht2 Hv2 (_ & _ & He) _ _ _].
  set (k2 := set_events (LapicEnable :: k_events (p_kernel s2)) (p_kernel s2)).
  set (s3 := mkSmp k2 (p_bytes s2) (p_fs_base s2) (p_gs_base s2)).
  assert (∀ c i' b', tls_of r c i' b' s2 → tls_of r c i' b' s3) as Hkeep.
  { intros c i' b' Hc. by apply (tls_of_root r r c i' b' s2). }
  eapply wp_mono; [apply (ap_switch_spec e r cpu i b); unfold y_kernel; cbn [y_smp p_kernel s3]|].
  - eapply pt_inv_local; [..|exact Ht2]; done.
  - by eapply vma_inv_local; [..|exact Hv2].
  - done.
  - by apply Hkeep.
  - unfold init_root. simpl. rewrite Hb1. exact Hroot.
  - simpl. by rewrite Hb2.
  - rewrite (fa_free_local k2 (p_kernel s2)) by done. lia.
  - intros [] y' (q & Hg' & Hc' & Hblk & Hidr & Hact' & Htab & Hoth).
    cbn [y_gdt y_cpu_count] in Hg', Hc'. apply halts_bind, wp_modify.
    unfold halts, halt. cbn [y_cpu_count y_smp y_gdt]. split; [rewrite Hc'; apply Z.mod_small; lia|].
    exists b, q. split_and!; [split; try done; cbn [y_gdt]; rewrite Hg'|done|].
    + done.
    + by rewrite Hev, Z.eqb_refl.
    + eexists. split; [exact Hholds|]. cbn [y_smp p_fs_base].
      rewrite (tls_fs _ _ _ _ _ Hblk2). pose proof tss_offset_spec.
      pose proof (tls_fits _ _ _ _ _ Hblk2). unfold per_cpu_size in *. lia.
    + intros c i' b' Hne Hc. by apply Hoth, Hkeep, Hoth2.
Qed.

(** C13: A processor that is started comes up with a private context and signals it.
    From a system with room for its block, [ap_start] runs to its final loop without a
    panic or a deadlock: [CPU_COUNT] has grown by one; [current_id] on this processor
    returns its processor id; its task register selects a descriptor of a task state
    segment inside its own block; CR3 holds its own root table, which leads to the same
    kernel tables as the bootloader's; the blocks of the other processors are intact. *)
Theorem ap_start_signals cpu i e r y :
  ap_ready e r i y →
  halts e (ap_start cpu i)
    (λ y', y_cpu_count y' = y_cpu_count y + 1
       ∧ ∃ b q, ap_up e r cpu i b q y' ∧ (¬ used_area (y_kernel y) b)
           ∧ ∀ c i' b', c ≠ cpu → tls_of r c i' b' (y_smp y) → tls_of r c i' b' (y_smp y')) y.
Proof. apply ap_start_spec. Qed.
End ApStartSpec.

(** ** Witnesses *)

(** A kernel during the boot, on a processor that has not forced its table yet. *)
Definition booting (init : option TableRoot) (k : Kernel) : Kernel :=
  set_active_table None (set_init_table init
    (mkKernel (k_frames k) (k_stats k) (k_mem k) (k_free_vma k) (k_used_vma k)
      (k_init_table k) (k_active_table k) true (k_events k) (k_log k))).

Definition before_ap : Kernel → Kernel :=
  booting (Some (mkTableRoot (virt_of (hhdm 4096)) (frame_at 4096))).

Lemma booting_ready init k m f g :
  0 ≤ cr3_read (k_events k) < 2 ^ 44 →
  tls_ready everywhere ref_env 4096 (mkSmp k m f g) →
  tls_ready everywhere ref_env 4096 (mkSmp (booting init k) m f g).
Proof.
  intros Hc [Ht Hv (_ & Hp & Hl) HU HF Hi]. split; [| | |exact HU|exact HF|exact Hi].
  - eapply pt_inv_local; [..|exact Ht]; reflexivity.
  - eapply vma_inv_local; [..|exact Hv]; reflexivity.
  - split_and!; [|exact Hp|exact Hl]. split; [exact Hc|symmetry; exact Hp].
Qed.

(** The machine of [Smp] before its second processor starts. *)
Definition ref_system : System :=
  mkSystem (mkSmp (before_ap ref_cpus) (λ x, x mod 256) (λ _, 0) (λ _, 0))
    (ret_state (gdt_setup 0 ref_env Gdt_new) Gdt_new) (mkIdt ref_empty_table false) 1.

Lemma ref_system_ready : ap_ready everywhere ref_env 4096 (mkSmpInfo 1 4 None) ref_system.
Proof.
  split.
  - apply booting_ready; [|exact ref_smp_ready].
    vm_compute. split; [discriminate|reflexivity].
  - split; simpl; lia.
  - split; [vm_compute; discriminate|reflexivity].
  - exact ref_smp_room.
  - vm_compute. reflexivity.
  - split_and!; [lia|lia|reflexivity|reflexivity].
  - reflexivity.
  - reflexivity.
  - destruct (wp_ret_state _ _ _ _ (gdt_setup_spec 0 ref_env Gdt_new (gdt_new_capacity GDT_SIZE)
      (ref_env_unlocked _))) as [_ H]. exact H.
  - split_and!; apply ref_env_unlocked.
  - simpl. lia.
Qed.

Lemma ap_start_signals_witness :
  halts ref_env (ap_start 1 (mkSmpInfo 1 4 None))
    (λ y', y_cpu_count y' = 2
       ∧ current_id 1 ref_env (y_smp y') = Ret 1 (y_smp y')) ref_system.
Proof.
  eapply halts_mono.
  - apply (ap_start_signals everywhere ltac:(done) 1 (mkSmpInfo 1 4 None) ref_env 4096 ref_system).
    exact ref_system_ready.
  - intros y' [Hc (b & q & Hup & _)]. split; [exact Hc|exact (au_id _ _ _ _ _ _ _ _ Hup)].
Defined.
