(* ===== verification/SmpBoot.v ===== *)
(** * Starting the processors: [start_cpus] of [src/src/arch/smp.rs]

    The BSP writes an entry point for every processor it wants started, then spins until
    [CPU_COUNT] equals the number of processors.  Meanwhile each processor polls its
    entry point, runs [ap_start] ([ApStart.v]) and counts itself in.  The processors are
    interleaved at the accesses to the memory they share: the entry points and
    [CPU_COUNT]. *)

From stdpp Require Import relations.
From S2P Require Import Prelude Machine External Reference Frame FrameAlloc Descriptors.

(** ** The machine *)

(** Where the BSP is in [start_cpus]: in the loop that writes the entry points, about to
    treat the processor of index [i]; in the loop that waits; past it. *)
Inductive bsp_phase := Releasing (i : nat) | Waiting | Started.

(** An application processor polls its entry point, runs [ap_start], or is in the final
    loop of it. *)
Inductive ap_phase := Polling | Starting | Up.

#[global] Instance bsp_phase_eq_dec : EqDecision bsp_phase.
Proof. solve_decision. Defined.
#[global] Instance ap_phase_eq_dec : EqDecision ap_phase.
Proof. solve_decision. Defined.

Record Boot := mkBoot {
  b_cpus : list LimineSmpInfo;   (* the response of the bootloader *)
  b_bsp : bsp_phase;
  b_ap : list ap_phase;          (* by index of the processor *)
  b_count : Z                    (* CPU_COUNT *)
}.

(** The checks of [start_cpus] on the response of the bootloader. *)
Definition start_cpus_check {S} (reponse : option (list LimineSmpInfo)) : M S (list LimineSmpInfo) :=
  cpus ← unwrap reponse;
  assert_ (negb (Nat.eqb (length cpus) 0)) "No core found";;
  assert_ (Z.of_nat (length cpus) <=? MAX_CPU) "Too many core found";;
  mret cpus.

(** The loop body for one processor: those whose local APIC has id 0 are filtered out. *)
Definition release (c : LimineSmpInfo) : LimineSmpInfo :=
  if lapic_id c =? 0 then c else mkSmpInfo (processor_id c) (lapic_id c) (Some _ap_start).

(** The state in which the loops start; [CPU_COUNT] is initialised to 1. *)
Definition boot_start (cpus : list LimineSmpInfo) : Boot :=
  mkBoot cpus (Releasing 0) (replicate (length cpus) Polling) 1.

(** The steps of the BSP, whose index is [bsp], and of the others.  The BSP runs the
    kernel: it polls no entry point. *)
Inductive step (bsp : nat) : Boot → Boot → Prop :=
  | bsp_release i c s :
      b_bsp s = Releasing i → b_cpus s !! i = Some c →
      step bsp s (mkBoot (<[i := release c]> (b_cpus s)) (Releasing (S i)) (b_ap s) (b_count s))
  | bsp_released i s :
      b_bsp s = Releasing i → b_cpus s !! i = None →
      step bsp s (mkBoot (b_cpus s) Waiting (b_ap s) (b_count s))
  | bsp_spin s :
      b_bsp s = Waiting → b_count s ≠ Z.of_nat (length (b_cpus s)) → step bsp s s
  | bsp_started s :
      b_bsp s = Waiting → b_count s = Z.of_nat (length (b_cpus s)) →
      step bsp s (mkBoot (b_cpus s) Started (b_ap s) (b_count s))
  | ap_jump i c s :
      i ≠ bsp → b_ap s !! i = Some Polling → b_cpus s !! i = Some c →
      goto_address c = Some _ap_start →
      step bsp s (mkBoot (b_cpus s) (b_bsp s) (<[i := Starting]> (b_ap s)) (b_count s))
  | ap_signal i s :
      b_ap s !! i = Some Starting →
      step bsp s (mkBoot (b_cpus s) (b_bsp s) (<[i := Up]> (b_ap s))
                    ((b_count s + 1) mod 2 ^ 64)).

Definition is_up (p : ap_phase) : bool := match p with Up => true | _ => false end.
Definition has_left (p : ap_phase) : bool := match p with Polling => false | _ => true end.
Definition released (c : LimineSmpInfo) : bool :=
  match goto_address c with Some _ => true | None => false end.

(** How far the first loop is. *)
Definition progress (s : Boot) : nat :=
  match b_bsp s with Releasing i => i | _ => length (b_cpus s) end.

Section Boot.
(** The response of the bootloader, which starts no processor by itself, and the index
    of the BSP in it. *)
Variable cpus : list LimineSmpInfo.
Variable bsp : nat.
Hypothesis Hparked : Forall (λ c, goto_address c = None) cpus.
Hypothesis Hbsp : (bsp < length cpus)%nat.
Hypothesis Hmax : Z.of_nat (length cpus) ≤ MAX_CPU.
Implicit Types (s : Boot) (i : nat) (c : LimineSmpInfo).

(** The response of the bootloader once the first [n] processors were treated. *)
Definition treated (n : nat) : list LimineSmpInfo := (release <$> take n cpus) ++ drop n cpus.

Record boot_inv s : Prop := {
  bi_cpus : b_cpus s = treated (progress s) ∧ (progress s ≤ length cpus)%nat;
  bi_aps : length (b_ap s) = length cpus;
  bi_left i p : b_ap s !! i = Some p → has_left p = true →
    i ≠ bsp ∧ ∃ c, cpus !! i = Some c ∧ lapic_id c ≠ 0;
  bi_count : b_count s = 1 + countb is_up (b_ap s);
  bi_started : b_bsp s = Started → b_count s = Z.of_nat (length cpus)
}.

Lemma treated_length n : length (treated n) = length cpus.
Proof. unfold treated. rewrite length_app, length_fmap, length_take, length_drop. lia. Qed.

Lemma treated_lookup n i :
  treated n !! i = (if (i <? n)%nat then release <$> (cpus !! i) else cpus !! i).
Proof.
  unfold treated. destruct (Nat.ltb_spec i n).
  - destruct (decide (i < length cpus)%nat).
    + rewrite lookup_app_l by (rewrite length_fmap, length_take; lia).
      by rewrite list_lookup_fmap, lookup_take_lt by lia.
    + rewrite !lookup_ge_None_2; [done|lia|].
      rewrite length_app, length_fmap, length_take, length_drop. lia.
  - destruct (decide (i < length cpus)%nat).
    + rewrite lookup_app_r by (rewrite length_fmap, length_take; lia).
      rewrite length_fmap, length_take, lookup_drop. f_equal. lia.
    + rewrite !lookup_ge_None_2; [done|lia|].
      rewrite length_app, length_fmap, length_take, length_drop. lia.
Qed.

(** A processor is released exactly when it was treated and its id is not 0. *)
Lemma treated_released n i c :
  treated n !! i = Some c → released c = true →
  (i < n)%nat ∧ ∃ c0, cpus !! i = Some c0 ∧ lapic_id c0 ≠ 0.
Proof.
  rewrite treated_lookup. intros Hc Hr. rewrite Forall_lookup in Hparked.
  destruct (Nat.ltb_spec i n).
  - apply fmap_Some in Hc as (c0 & Hc0 & ->). split; [done|]. exists c0. split; [done|].
    intros H0. unfold release in Hr. rewrite H0 in Hr. simpl in Hr.
    unfold released in Hr. by rewrite (Hparked _ _ Hc0) in Hr.
  - unfold released in Hr. by rewrite (Hparked _ _ Hc) in Hr.
Qed.

Lemma treated_step n c :
  treated n !! n = Some c → <[n := release c]> (treated n) = treated (S n).
Proof.
  intros Hc. apply list_eq. intros i. rewrite treated_lookup.
  destruct (decide (i = n)) as [->|Hne].
  - rewrite list_lookup_insert_eq by (by eapply lookup_lt_Some).
    rewrite treated_lookup, Nat.ltb_irrefl in Hc.
    rewrite (proj2 (Nat.ltb_lt n (S n))) by lia. by rewrite Hc.
  - rewrite list_lookup_insert_ne, treated_lookup by done.
    destruct (Nat.ltb_spec i n), (Nat.ltb_spec i (S n)); try done; lia.
Qed.

(** The BSP is never counted among the processors that are up. *)
Lemma up_bound ap :
  length ap = length cpus → (∀ p, ap !! bsp = Some p → is_up p = false) →
  countb is_up ap < Z.of_nat (length cpus).
Proof.
  intros Hl Hp. rewrite <- Hl in Hbsp |- *.
  destruct (lookup_lt_is_Some_2 ap bsp Hbsp) as [p Hbp]. eapply countb_lt; eauto.
Qed.

Lemma bsp_not_up s : boot_inv s → ∀ p, b_ap s !! bsp = Some p → is_up p = false.
Proof.
  intros Hi p Hp. destruct p; try done. by destruct (bi_left s Hi bsp Up Hp) as [[] _].
Qed.

Lemma boot_inv_start : boot_inv (boot_start cpus).
Proof.
  split; try done.
  - split; [|apply Nat.le_0_l]. unfold treated. by rewrite take_0, drop_0.
  - apply length_replicate.
  - intros i p [-> _]%lookup_replicate. done.
  - simpl. rewrite (countb_const _ _ false); [by rewrite Z.mul_0_r|].
    by intros x [-> _]%elem_of_replicate.
Qed.

(** Moving one processor forward. *)
Lemma ap_moved s i p q :
  boot_inv s → b_ap s !! i = Some p → i ≠ bsp →
  (∃ c, cpus !! i = Some c ∧ lapic_id c ≠ 0) →
  length (<[i := q]> (b_ap s)) = length cpus
  ∧ (∀ j p', <[i := q]> (b_ap s) !! j = Some p' → has_left p' = true →
       j ≠ bsp ∧ ∃ c, cpus !! j = Some c ∧ lapic_id c ≠ 0).
Proof.
  intros Hi Hp Hne Hc. split; [by rewrite length_insert; apply Hi|].
  intros j p' Hj Hl. destruct (decide (i = j)) as [<-|Hij]; [done|].
  rewrite list_lookup_insert_ne in Hj by done. by apply (bi_left s Hi j p').
Qed.

Lemma boot_inv_step s s' : step bsp s s' → boot_inv s → boot_inv s'.
Proof.
  intros Hstep Hi. pose proof Hi as [[Hc Hle] Hap Hleft Hcnt Hst].
  destruct Hstep as [i c s Hb Hlk|i s Hb Hlk|s Hb Hne|s Hb Heq|i c s Hne Hp Hlk Hgo|i s Hp].
  - unfold progress in Hc, Hle. rewrite Hb in Hc, Hle. rewrite Hc in Hlk |- *.
    pose proof (lookup_lt_Some _ _ _ Hlk) as Hlt. rewrite treated_length in Hlt.
    rewrite (treated_step i c Hlk). by split; [split; [|exact Hlt]|..].
  - unfold progress in Hc, Hle. rewrite Hb in Hc, Hle. rewrite Hc in Hlk |- *.
    apply lookup_ge_None in Hlk. rewrite treated_length in Hlk.
    split; try done. unfold progress. simpl. rewrite treated_length.
    assert (i = length cpus) as -> by lia. done.
  - done.
  - split; try done; [split|].
    + unfold progress in *. rewrite Hb in Hc. simpl. exact Hc.
    + unfold progress in *. rewrite Hb in Hle. exact Hle.
    + intros _. simpl. by rewrite Heq, Hc, treated_length.
  - rewrite Hc in Hlk. destruct (treated_released _ i c Hlk) as [_ Hrel].
    { unfold released. by rewrite Hgo. }
    destruct (ap_moved s i Polling Starting Hi Hp Hne Hrel) as [H1 H2]. split; try done.
    simpl. rewrite (countb_insert _ _ i Polling) by done. simpl. lia.
  - destruct (Hleft i Starting Hp eq_refl) as [Hne Hrel].
    destruct (ap_moved s i Starting Up Hi Hp Hne Hrel) as [H1 H2].
    assert (countb is_up (<[i := Up]> (b_ap s)) = countb is_up (b_ap s) + 1) as Hup
      by (rewrite (countb_insert _ _ i Starting) by done; simpl; lia).
    assert (countb is_up (<[i := Up]> (b_ap s)) < Z.of_nat (length cpus)) as Hlt.
    { apply up_bound; [done|]. rewrite list_lookup_insert_ne by done. by apply bsp_not_up. }
    pose proof (countb_bounds is_up (b_ap s)). unfold MAX_CPU in Hmax.
    split; try done; simpl.
    + rewrite Z.mod_small by lia. lia.
    + intros Hs. specialize (Hst Hs). lia.
Qed.

Lemma boot_reachable s : rtc (step bsp) (boot_start cpus) s → boot_inv s.
Proof.
  revert s. apply rtc_ind_r; [apply boot_inv_start|]. intros s s' _ Hs. by apply boot_inv_step.
Qed.

(** Every other processor has an id the first loop does not filter out. *)
Definition only_bsp_zero : Prop := ∀ i c, i ≠ bsp → cpus !! i = Some c → lapic_id c ≠ 0.

(** ** Safety *)

Lemma all_up s i :
  boot_inv s → b_count s = Z.of_nat (length cpus) → i ≠ bsp → (i < length cpus)%nat →
  b_ap s !! i = Some Up.
Proof.
  intros Hi Hcnt Hne Hlt. pose proof (bi_aps s Hi) as Hl.
  destruct (lookup_lt_is_Some_2 (b_ap s) i) as [p Hp]; [lia|].
  destruct (is_up p) eqn:Hu; [by destruct p|].
  assert (countb is_up (<[i := Up]> (b_ap s)) < Z.of_nat (length cpus)) as Hb.
  { apply up_bound; [by rewrite length_insert|]. rewrite list_lookup_insert_ne by done.
    by apply bsp_not_up. }
  rewrite (countb_insert _ _ i p), Hu in Hb by done. simpl in Hb.
  pose proof (bi_count s Hi). lia.
Qed.

(** C7: [start_cpus] returns only when every processor is up.  In every reachable state
    [CPU_COUNT] is one more than the number of processors that have reached the end of
    [ap_start]; a processor has left the bootloader only if the BSP released it; and once
    the BSP is past the waiting loop, every processor but the BSP is up. *)
Theorem start_cpus_waits s :
  rtc (step bsp) (boot_start cpus) s →
  b_count s = 1 + countb is_up (b_ap s)
  ∧ (∀ i p, b_ap s !! i = Some p → has_left p = true →
       i ≠ bsp ∧ ∃ c, cpus !! i = Some c ∧ lapic_id c ≠ 0)
  ∧ (b_bsp s = Started → ∀ i, i ≠ bsp → (i < length cpus)%nat → b_ap s !! i = Some Up).
Proof.
  intros Hr. apply boot_reachable in Hr as Hi. split_and!; [apply Hi|apply Hi|].
  intros Hs i. apply all_up; [done|]. by apply Hi.
Qed.

(** The wait never ends if a processor other than the BSP has a local APIC of id 0:
    that processor is not released, so it is never counted.  The code takes for granted
    that 0 is the id of the BSP. *)
Theorem start_cpus_hangs i c s :
  i ≠ bsp → cpus !! i = Some c → lapic_id c = 0 →
  rtc (step bsp) (boot_start cpus) s → b_bsp s ≠ Started.
Proof.
  intros Hne Hc H0 Hr Hs. apply boot_reachable in Hr as Hi.
  pose proof (all_up s i Hi (bi_started s Hi Hs) Hne (lookup_lt_Some _ _ _ Hc)) as Hup.
  destruct (bi_left s Hi i Up Hup eq_refl) as (_ & c' & Hc' & Hn). congruence.
Qed.

(** ** Liveness *)

(** The steps left: two for each processor that has not started yet, one for each that
    is starting, and those of the BSP. *)
Definition ap_left (p : ap_phase) : nat :=
  match p with Polling => 2 | Starting => 1 | Up => 0 end.

Definition bsp_left s : nat :=
  match b_bsp s with Releasing i => length cpus - i + 2 | Waiting => 1 | Started => 0 end.

Definition steps_left s : nat := bsp_left s + sum_list_with ap_left (b_ap s).

Lemma sum_insert (f : ap_phase → nat) l i p q :
  l !! i = Some p → (sum_list_with f (<[i := q]> l) + f p = sum_list_with f l + f q)%nat.
Proof.
  revert i. induction l as [|x l IH]; intros [|i] Hi; simplify_eq/=; [lia|].
  specialize (IH i Hi). lia.
Qed.

Lemma step_decreases s s' :
  boot_inv s → step bsp s s' → s' = s ∨ (steps_left s' < steps_left s)%nat.
Proof.
  intros Hi Hstep. pose proof (bi_cpus s Hi) as [Hc Hle]. unfold steps_left, bsp_left.
  destruct Hstep as [i c s Hb Hlk|i s Hb Hlk|s Hb Hne|s Hb Heq|i c s Hne Hp Hlk Hgo|i s Hp];
    [| |by left|..]; right; simpl; rewrite ?Hb; try lia.
  - rewrite Hc in Hlk. pose proof (lookup_lt_Some _ _ _ Hlk) as Hlt.
    rewrite treated_length in Hlt. lia.
  - pose proof (sum_insert ap_left _ i Polling Starting Hp). simpl in *. lia.
  - pose proof (sum_insert ap_left _ i Starting Up Hp). simpl in *. lia.
Qed.

(** While the count is short, a processor is missing. *)
Lemma one_missing s :
  boot_inv s → b_count s ≠ Z.of_nat (length cpus) →
  ∃ i, i ≠ bsp ∧ (i < length cpus)%nat ∧ b_ap s !! i ≠ Some Up.
Proof.
  intros Hi Hne. pose proof (bi_aps s Hi) as Hl.
  destruct (decide (Forall (λ i, i = bsp ∨ b_ap s !! i = Some Up) (seq 0 (length cpus))))
    as [Hall|Hn].
  - destruct Hne. rewrite (bi_count s Hi).
    destruct (lookup_lt_is_Some_2 (b_ap s) bsp ltac:(lia)) as [p Hp].
    pose proof (countb_insert is_up (b_ap s) bsp p Up Hp) as Hins.
    rewrite (bsp_not_up s Hi p Hp) in Hins. simpl in Hins.
    rewrite (countb_const _ _ true) in Hins; [rewrite length_insert in Hins; simpl in Hins; lia|].
    intros x (j & Hj)%list_elem_of_lookup.
    destruct (decide (j = bsp)) as [->|Hjb].
    + rewrite list_lookup_insert_eq in Hj by lia. by simplify_eq.
    + rewrite list_lookup_insert_ne in Hj by done. pose proof (lookup_lt_Some _ _ _ Hj).
      rewrite Forall_forall in Hall. destruct (Hall j) as [?|Hu]; [|done|].
      * apply elem_of_seq. lia.
      * rewrite Hu in Hj. by simplify_eq.
  - apply not_Forall_Exists in Hn; [|apply _]. apply Exists_exists in Hn as (i & Hin & Hi').
    apply elem_of_seq in Hin. exists i. split_and!; [|lia|]; intros H; apply Hi'; auto.
Qed.

(** Until the BSP is past the loop, some processor can move. *)
Lemma step_enabled s :
  only_bsp_zero → boot_inv s → b_bsp s ≠ Started → ∃ s', step bsp s s' ∧ s' ≠ s.
Proof.
  intros Hz Hi Hns. pose proof (bi_cpus s Hi) as [Hc Hle].
  destruct (b_bsp s) as [i| |] eqn:Hb; [| |done].
  { destruct (b_cpus s !! i) as [c|] eqn:Hlk.
    - eexists. split; [by eapply bsp_release|]. intros Heq. rewrite <- Heq in Hb.
      simpl in Hb. injection Hb. lia.
    - eexists. split; [by eapply bsp_released|]. intros Heq. by rewrite <- Heq in Hb. }
  destruct (decide (b_count s = Z.of_nat (length (b_cpus s)))) as [Heq|Hne].
  { eexists. split; [by apply bsp_started|]. intros Hq. by rewrite <- Hq in Hb. }
  assert (progress s = length (b_cpus s)) as Hpr by (unfold progress; by rewrite Hb).
  assert (length (b_cpus s) = length cpus) as Hlen by (by rewrite Hc, treated_length).
  destruct (one_missing s Hi) as (i & Hib & Hlt & Hnu); [by rewrite <- Hlen|].
  destruct (lookup_lt_is_Some_2 (b_ap s) i) as [p Hp]; [rewrite (bi_aps s Hi); lia|].
  destruct p; [| |done].
  - destruct (lookup_lt_is_Some_2 cpus i Hlt) as [c Hci].
    assert (b_cpus s !! i = Some (release c)) as Hrel.
    { rewrite Hc, treated_lookup, Hpr, Hlen. rewrite (proj2 (Nat.ltb_lt i _)) by lia.
      by rewrite Hci. }
    eexists. split; [eapply ap_jump; [done|done|done|]|].
    + unfold release. by rewrite (proj2 (Z.eqb_neq _ _) (Hz i c Hib Hci)).
    + intros Heq. rewrite <- Heq in Hp. simpl in Hp.
      rewrite list_lookup_insert_eq in Hp; [done|]. rewrite (bi_aps s Hi). lia.
  - eexists. split; [by eapply ap_signal|]. intros Heq. rewrite <- Heq in Hp. simpl in Hp.
    rewrite list_lookup_insert_eq in Hp; [done|]. rewrite (bi_aps s Hi). lia.
Qed.

(** An execution: a step or a pause at each instant.  It is fair if, whenever a step that
    changes the state is possible, the state changes later. *)
Definition execution (tr : nat → Boot) : Prop :=
  tr 0%nat = boot_start cpus ∧ ∀ n, tr (S n) = tr n ∨ step bsp (tr n) (tr (S n)).

Definition fair (tr : nat → Boot) : Prop :=
  ∀ n, (∃ s', step bsp (tr n) s' ∧ s' ≠ tr n) → ∃ m, (n ≤ m)%nat ∧ tr (S m) ≠ tr m.

Lemma execution_inv tr n : execution tr → boot_inv (tr n).
Proof.
  intros [H0 Hs]. induction n as [|n IH]; [rewrite H0; apply boot_inv_start|].
  destruct (Hs n) as [->|?]; [done|by eapply boot_inv_step].
Qed.

Lemma steps_left_mono tr n m :
  execution tr → (n ≤ m)%nat → (steps_left (tr m) ≤ steps_left (tr n))%nat.
Proof.
  intros Ht. induction 1 as [|m _ IH]; [done|]. destruct Ht as [H0 Hs] eqn:E. clear E.
  destruct (Hs m) as [->|Hst]; [done|].
  destruct (step_decreases (tr m) (tr (S m))) as [->|?]; [by apply execution_inv|done|done|lia].
Qed.

Lemma execution_ends tr n :
  only_bsp_zero → execution tr → fair tr → ∃ m, (n ≤ m)%nat ∧ b_bsp (tr m) = Started.
Proof.
  intros Hz Ht Hf. remember (steps_left (tr n)) as k eqn:Hk. revert n Hk.
  induction (lt_wf k) as [k _ IH]. intros n ->.
  destruct (decide (b_bsp (tr n) = Started)) as [Hs|Hs]; [by exists n|].
  destruct (Hf n) as (m & Hm & Hne); [by apply step_enabled; [|apply execution_inv|]|].
  pose proof (steps_left_mono tr n m Ht Hm) as Hle.
  destruct (proj2 Ht m) as [?|Hst]; [done|].
  destruct (step_decreases _ _ (execution_inv tr m Ht) Hst) as [?|Hlt]; [done|].
  destruct (IH (steps_left (tr (S m))) ltac:(lia) (S m) eq_refl) as (m' & Hle' & Hend).
  exists m'. split; [lia|done].
Qed.

(** C18: [start_cpus] ends under every fair schedule, if the BSP is the only processor
    whose local APIC may have id 0: whatever the interleaving of the processors, and
    however long each of them pauses, the BSP gets past the waiting loop, and every other
    processor is up by then. *)
Theorem start_cpus_terminates (tr : nat → Boot) :
  only_bsp_zero → execution tr → fair tr →
  ∃ n, b_bsp (tr n) = Started
    ∧ ∀ i, i ≠ bsp → (i < length cpus)%nat → b_ap (tr n) !! i = Some Up.
Proof.
  intros Hz Ht Hf. destruct (execution_ends tr 0 Hz Ht Hf) as (n & _ & Hn).
  exists n. split; [done|]. intros i. pose proof (execution_inv tr n Ht) as Hi.
  apply all_up; [done|]. by apply Hi.
Qed.
End Boot.

(** ** Witnesses *)

(** Three processors, the BSP first. *)
Definition ref_smp_response : list LimineSmpInfo :=
  [mkSmpInfo 0 0 None; mkSmpInfo 1 2 None; mkSmpInfo 2 4 None].

(** An execution on two processors, the second of which pauses before it signals. *)
Definition ref_trace : list Boot :=
  let free := mkSmpInfo 1 2 (Some _ap_start) in
  let bsp := mkSmpInfo 0 0 None in
  [boot_start [bsp; mkSmpInfo 1 2 None];
   mkBoot [bsp; mkSmpInfo 1 2 None] (Releasing 1) [Polling; Polling] 1;
   mkBoot [bsp; free] (Releasing 2) [Polling; Polling] 1;
   mkBoot [bsp; free] (Releasing 2) [Polling; Starting] 1;
   mkBoot [bsp; free] Waiting [Polling; Starting] 1;
   mkBoot [bsp; free] Waiting [Polling; Starting] 1;
   mkBoot [bsp; free] Waiting [Polling; Up] 2].

Definition ref_end : Boot :=
  mkBoot [mkSmpInfo 0 0 None; mkSmpInfo 1 2 (Some _ap_start)] Started [Polling; Up] 2.

Definition ref_run (n : nat) : Boot := default ref_end (ref_trace !! n).

Lemma ref_run_end n : (7 ≤ n)%nat → ref_run n = ref_end.
Proof. intros Hn. unfold ref_run. by rewrite lookup_ge_None_2 by (simpl; lia). Qed.

Lemma ref_run_execution : execution [mkSmpInfo 0 0 None; mkSmpInfo 1 2 None] 0 ref_run.
Proof.
  split; [done|]. intros n. do 7 try destruct n as [|n].
  - right. by apply (bsp_release 0 0 (mkSmpInfo 0 0 None)).
  - right. by apply (bsp_release 0 1 (mkSmpInfo 1 2 None)).
  - right. by apply (ap_jump 0 1 (mkSmpInfo 1 2 (Some _ap_start))).
  - right. by apply (bsp_released 0 2).
  - by left.
  - right. by apply (ap_signal 0 1).
  - right. by apply bsp_started.
  - left. by rewrite !ref_run_end by lia.
Qed.

Lemma ref_run_fair : fair 0 ref_run.
Proof.
  intros n (s' & Hst & Hne). destruct (decide (7 ≤ n)%nat) as [Hn|Hn].
  - exfalso. rewrite ref_run_end in Hst by done.
    inversion Hst as [| | | |i c s _ Hp|i s Hp]; subst; simplify_eq/=;
      destruct i as [|[|i]]; simplify_eq/=.
  - exists 6%nat. split; [lia|]. vm_compute. discriminate.
Qed.

Lemma start_cpus_terminates_witness :
  ∃ n, b_bsp (ref_run n) = Started
    ∧ ∀ i, i ≠ 0%nat → (i < 2)%nat → b_ap (ref_run n) !! i = Some Up.
Proof.
  apply (start_cpus_terminates [mkSmpInfo 0 0 None; mkSmpInfo 1 2 None] 0);
    [repeat constructor|simpl; lia|vm_compute; discriminate|
    |exact ref_run_execution|exact ref_run_fair].
  intros [|[|i]] c Hne Hc; simplify_eq/=; done.
Defined.

(** A state in which one processor is up and the other is still in the bootloader. *)
Definition ref_half_started : Boot :=
  mkBoot [mkSmpInfo 0 0 None; mkSmpInfo 1 2 (Some _ap_start); mkSmpInfo 2 4 None]
    (Releasing 2) [Polling; Up; Polling] 2.

Lemma ref_half_reachable : rtc (step 0) (boot_start ref_smp_response) ref_half_started.
Proof.
  eapply rtc_l; [by apply (bsp_release 0 0 (mkSmpInfo 0 0 None))|].
  eapply rtc_l; [by apply (bsp_release 0 1 (mkSmpInfo 1 2 None))|].
  eapply rtc_l; [by apply (ap_jump 0 1 (mkSmpInfo 1 2 (Some _ap_start)))|].
  eapply rtc_l; [by apply (ap_signal 0 1)|]. apply rtc_refl.
Qed.

Lemma start_cpus_waits_witness :
  b_count ref_half_started = 1 + countb is_up (b_ap ref_half_started).
Proof.
  apply (start_cpus_waits ref_smp_response 0); [repeat constructor|simpl; lia
    |vm_compute; discriminate|exact ref_half_reachable].
Defined.

(** The BSP has id 1 and the other processor id 0. *)
Lemma start_cpus_hangs_witness :
  b_bsp (mkBoot [mkSmpInfo 0 1 (Some _ap_start); mkSmpInfo 1 0 None] Waiting
           [Polling; Polling] 1) ≠ Started.
Proof.
  apply (start_cpus_hangs [mkSmpInfo 0 1 None; mkSmpInfo 1 0 None] 0) with
    (i := 1%nat) (c := mkSmpInfo 1 0 None); try done.
  - repeat constructor.
  - simpl. lia.
  - eapply rtc_l; [by apply (bsp_release 0 0 (mkSmpInfo 0 1 None))|].
    eapply rtc_l; [by apply (bsp_release 0 1 (mkSmpInfo 1 0 None))|].
    eapply rtc_l; [by apply (bsp_released 0 2)|]. apply rtc_refl.
Defined.
