(* ===== verification/Traps.v ===== *)
(** * Handlers: [src/src/arch/exception.rs], [irq.rs] and [idt.rs]

    What runs behind the gates of the interrupt descriptor table.  The entry points
    save the registers and call these handlers. *)

From S2P Require Import Prelude Machine External Reference Frame BTree Log Kernel FrameState FrameAlloc Paging PageTables PagingSpec Vmm VmmSpec Fault Acpi Interrupts.

Section TrapDefs.
Context {BF : Bitflags} {RT : Runtime} {XA : X86Address} {XP : X86Paging XA} {LG : Logging}
  {XC : X86Cpu} {FA : Allocator}.

(** The kernel with the static [TICKS]. *)
Record Irq := mkIrq { i_kernel : Kernel; i_ticks : Z }.

Definition irq_kernel {A} (m : M Kernel A) : M Irq A :=
  zoom i_kernel (λ k s, mkIrq k (i_ticks s)) m.

(** The fields of [cpu::State] the handlers read, and the content of CR2. *)
Record State := mkState { st_number : Z; st_code : Z; st_cr2 : Z }.

Definition pit_tick_handler (state : State) : M Irq unit :=
  modify (λ s, mkIrq (i_kernel s) ((i_ticks s + 1) mod 2 ^ 64));;
  irq_kernel (emit (SendIpiOtherCores false CLOCK_TICK_VECTOR));;
  n ← unwrap (u8_try_from (st_number state));
  irq_kernel (emit (PicEoi n)).

(** The message of the handlers that only panic; the code of a general protection fault
    is appended to it. *)
Definition panic_message (h : Stub) : string :=
  match h with
  | unknown_interrupt => "Unknown interrupt"
  | divide_by_zero => "Divide by zero exception"
  | debug => "Debug exception"
  | breakpoint => "Breakpoint exception"
  | overflow => "Overflow exception"
  | bound_range_exceeded => "Bound range exceeded exception"
  | invalid_opcode => "Invalid opcode exception"
  | device_not_available => "Device not available exception"
  | double_fault => "Double fault"
  | coprocessor_segment_overrun => "Coprocessor segment overrun exception"
  | invalid_tss => "Invalid TSS exception"
  | segment_not_present => "Segment not present exception"
  | stack_segment_fault => "Stack segment fault exception"
  | general_protection_fault => "General protection fault (error code: 0x{:02x})"
  | x87_floating_point => "x87 floating point exception"
  | alignment_check => "Alignment check exception"
  | machine_check => "Machine check exception"
  | simd => "SIMD floating point exception"
  | virtualization => "Virtualization exception"
  | control_protection => "Control protection exception"
  | hypervisor_injection => "Hypervisor injection exception"
  | vmm_communication => "Hypervisor injection exception"
  | security_exception => "Security exception"
  | _ => "Reserved exception"
  end.

(** The handler behind an entry point. *)
Definition handle (h : Stub) (state : State) : M Irq unit :=
  match h with
  | non_maskable_interrupt => halt
  | stub_page_fault => irq_kernel (page_fault_handler (st_code state) (st_cr2 state))
  | stub_tlb_shootdown => irq_kernel tlb_shootdown_handler
  | clock_tick => irq_kernel clock_tick_handler
  | pit_tick => pit_tick_handler state
  | ignore_irq => mret tt
  | h => panic_with (PanicMsg (panic_message h))
  end.

(** The interrupt number an entry point pushes, the first argument of
    [interrupt_handler!]; -1 is pushed as a 64-bit value. *)
Definition stub_number (h : Stub) : Z :=
  match h with
  | unknown_interrupt => 2 ^ 64 - 1
  | stub_tlb_shootdown => TLB_SHOOTDOWN_VECTOR
  | clock_tick => CLOCK_TICK_VECTOR
  | pit_tick => IRQ_BASE
  | ignore_irq => 0xFF
  | divide_by_zero => 0 | debug => 1 | non_maskable_interrupt => 2 | breakpoint => 3
  | overflow => 4 | bound_range_exceeded => 5 | invalid_opcode => 6
  | device_not_available => 7 | double_fault => 8 | coprocessor_segment_overrun => 9
  | invalid_tss => 10 | segment_not_present => 11 | stack_segment_fault => 12
  | general_protection_fault => 13 | stub_page_fault => 14 | reserved_1 => 15
  | x87_floating_point => 16 | alignment_check => 17 | machine_check => 18 | simd => 19
  | virtualization => 20 | control_protection => 21 | reserved_2 => 22 | reserved_3 => 23
  | reserved_4 => 24 | reserved_5 => 25 | reserved_6 => 26 | reserved_7 => 27
  | hypervisor_injection => 28 | vmm_communication => 29 | security_exception => 30
  | reserved_8 => 31
  end.

(** An interrupt through the entry point [h]: the error code of the processor and the
    content of CR2 are given. *)
Definition enter (h : Stub) (code cr2 : Z) : M Irq unit :=
  handle h (mkState (stub_number h) code cr2).
End TrapDefs.

(** ** What returns to the interrupted code *)

Section Traps.
Context {BF : Bitflags} {RT : Runtime} {XA : X86Address} {XP : X86Paging XA} {LG : Logging}
  {XC : X86Cpu} {XCS : X86CpuSpec XC} {FA : Allocator} {XI : X86Idt} {XIS : X86IdtSpec XI}.
Implicit Types (e : Env) (s : Irq) (h : Stub).

Definition with_events (evs : list Event) s : Irq :=
  mkIrq (set_events (evs ++ k_events (i_kernel s)) (i_kernel s)) (i_ticks s).

(** The state after a tick of the timer, at the vector [n] of the legacy controller. *)
Definition ticked (n : Z) s : Irq :=
  mkIrq (i_kernel (with_events [PicEoi n; SendIpiOtherCores false CLOCK_TICK_VECTOR] s))
    ((i_ticks s + 1) mod 2 ^ 64).

Lemma pit_tick_run state e s :
  pit_tick_handler state e s
  = match u8_try_from (st_number state) with
    | Some n => Ret tt (ticked n s)
    | None => Panic UnwrapNone
    end.
Proof. unfold pit_tick_handler. rewrite !bind_run. simpl. by destruct (u8_try_from _). Qed.

(** A page fault at [cr2] was resolved, and left the state [s']. *)
Definition fault_resolved code cr2 e s s' : Prop :=
  ∃ addr ty k', virt_new cr2 = Some addr
    ∧ page_fault (pfec_from_bits_truncate code) addr e (i_kernel s) = Ret (inl ty) k'
    ∧ s' = mkIrq k' (i_ticks s).

(** The interrupts that return to the interrupted code, by their vector, and the state
    they return in. *)
Definition returns_in v code cr2 e s s' : Prop :=
  (v = 14 ∧ fault_resolved code cr2 e s s')
  ∨ (v = IRQ_BASE ∧ s' = ticked IRQ_BASE s)
  ∨ (IRQ_BASE < v < IRQ_BASE + 16 ∧ s' = s)
  ∨ (v = TLB_SHOOTDOWN_VECTOR ∧ s' = with_events [LapicEoi; Cr3Reload] s)
  ∨ (v = CLOCK_TICK_VECTOR ∧ s' = with_events [LapicEoi] s).

Lemma fault_resolved_intro code cr2 addr e k t :
  virt_new cr2 = Some addr →
  wp e (page_fault (pfec_from_bits_truncate code) addr) (λ res _, ∃ ty, res = inl ty) k →
  ∃ s', fault_resolved code cr2 e (mkIrq k t) s'.
Proof.
  intros Ha (res & k' & Hrun & ty & ->)%wp_run. by exists (mkIrq k' t), addr, ty, k'.
Qed.

Lemma page_fault_returns code cr2 e s s' :
  enter stub_page_fault code cr2 e s = Ret tt s' ↔ fault_resolved code cr2 e s s'.
Proof.
  unfold enter, fault_resolved. simpl. unfold irq_kernel, zoom, page_fault_handler.
  destruct (virt_new cr2) as [addr|]; [|split; [done|by intros (? & ? & ? & ? & _)]].
  rewrite bind_run. simpl. rewrite bind_run.
  destruct (page_fault _ addr e (i_kernel s)) as [[ty|err] k'| | |k'] eqn:E; simpl;
    (split; [|intros (addr' & ty' & k1 & [= <-] & E' & ->); congruence]); try done.
  intros [= <-]. by exists addr, ty, k'.
Qed.

Lemma page_fault_panics code cr2 addr err e s k' :
  virt_new cr2 = Some addr →
  page_fault (pfec_from_bits_truncate code) addr e (i_kernel s) = Ret (inr err) k' →
  enter stub_page_fault code cr2 e s = Panic (PanicMsg "Unrecoverable page fault").
Proof.
  intros Ha Hf. unfold enter. simpl. unfold irq_kernel, zoom, page_fault_handler. rewrite Ha.
  rewrite bind_run. simpl. by rewrite bind_run, Hf.
Qed.

(** An exception other than a page fault stops the processor or panics. *)
Lemma exception_fatal v code cr2 e s :
  0 ≤ v < 32 → v ≠ 14 →
  enter (installed v) code cr2 e s
  = if v =? 2 then Halted s else Panic (PanicMsg (panic_message (installed v))).
Proof.
  intros Hv Hne. assert (∃ n : nat, v = Z.of_nat n ∧ (n < 32)%nat) as (n & -> & Hn).
  { exists (Z.to_nat v). lia. }
  do 32 (destruct n as [|n]; [first [reflexivity|lia]|]). lia.
Qed.

(** From vector 32 on. *)
Lemma interrupt_outcome v code cr2 e s :
  32 ≤ v < 256 →
  enter (installed v) code cr2 e s
  = if v =? IRQ_BASE then Ret tt (ticked IRQ_BASE s)
    else if v <? IRQ_BASE + 16 then Ret tt s
    else if v =? TLB_SHOOTDOWN_VECTOR then Ret tt (with_events [LapicEoi; Cr3Reload] s)
    else if v =? CLOCK_TICK_VECTOR then Ret tt (with_events [LapicEoi] s)
    else Panic (PanicMsg (panic_message (installed v))).
Proof.
  intros Hv. unfold installed, IRQ_BASE, TLB_SHOOTDOWN_VECTOR, CLOCK_TICK_VECTOR.
  rewrite (proj2 (Z.ltb_ge v 32)) by lia. destruct (v =? 32).
  { unfold enter. simpl. by rewrite pit_tick_run. }
  change (32 + 16) with 48. destruct (v <? 48); [done|].
  destruct (v =? 240); [done|]. by destruct (v =? 241).
Qed.

Lemma enter_returns v code cr2 e s s' :
  0 ≤ v < 256 →
  enter (installed v) code cr2 e s = Ret tt s' ↔ returns_in v code cr2 e s s'.
Proof.
  intros Hv. unfold returns_in, IRQ_BASE, TLB_SHOOTDOWN_VECTOR, CLOCK_TICK_VECTOR.
  destruct (decide (v = 14)) as [->|Hne].
  { rewrite page_fault_returns. split; [by left|]. intros [[_ H]|H]; [done|lia]. }
  destruct (decide (v < 32)).
  - rewrite exception_fatal by lia. split; [by destruct (v =? 2)|lia].
  - rewrite interrupt_outcome by lia.
    unfold IRQ_BASE, TLB_SHOOTDOWN_VECTOR, CLOCK_TICK_VECTOR. change (32 + 16) with 48.
    destruct (Z.eqb_spec v 32); [split; [intros [= <-]|intros HR]; intuition (congruence || lia)|].
    destruct (Z.ltb_spec v 48); [split; [intros [= <-]|intros HR]; intuition (congruence || lia)|].
    destruct (Z.eqb_spec v 240); [split; [intros [= <-]|intros HR]; intuition (congruence || lia)|].
    destruct (Z.eqb_spec v 241); [split; [intros [= <-]|intros HR]; intuition (congruence || lia)|].
    split; [done|lia].
Qed.

(** C30: What happens behind each gate of the finished table.  The gate of a vector leads to
    an entry point whose handler returns to the interrupted code in exactly five cases: a
    page fault that [page_fault] resolved, in the state it left; a tick of the timer, which
    is counted, passed on to the other processors and acknowledged; another legacy IRQ,
    with nothing changed; the TLB shootdown, which flushes and acknowledges; and the clock
    tick, which acknowledges.  A page fault that is not resolved panics.  A non-maskable
    interrupt stops the processor with nothing changed, so that the NMI of a panicking
    processor stops the others wherever they are.  Every other vector panics with the
    message of its handler. *)
Theorem only_interrupts_return address_of t v code cr2 e s :
  gates_complete address_of t → 0 ≤ v < 256 →
  ∃ h, gate_handler (idt_gate (idt_table t) v) = address_of h
    ∧ (∀ s', enter h code cr2 e s = Ret tt s' ↔ returns_in v code cr2 e s s')
    ∧ (v = 14 → ∀ addr err k', virt_new cr2 = Some addr →
         page_fault (pfec_from_bits_truncate code) addr e (i_kernel s) = Ret (inr err) k' →
         enter h code cr2 e s = Panic (PanicMsg "Unrecoverable page fault"))
    ∧ (v = 2 → enter h code cr2 e s = Halted s)
    ∧ (v ≠ 14 → v ≠ 2 → (∃ s', enter h code cr2 e s = Ret tt s')
         ∨ enter h code cr2 e s = Panic (PanicMsg (panic_message h))).
Proof.
  intros [_ Hg] Hv. exists (installed v). split_and!.
  - rewrite Hg by done. apply gate_spec.
  - intros s'. by apply enter_returns.
  - intros -> addr err k'. apply page_fault_panics.
  - intros ->. by rewrite exception_fatal.
  - intros H14 H2. destruct (decide (v < 32)).
    + right. rewrite exception_fatal by lia. by rewrite (proj2 (Z.eqb_neq v 2)).
    + rewrite interrupt_outcome by lia.
      destruct (v =? IRQ_BASE); [left; by eexists|].
      destruct (v <? IRQ_BASE + 16); [left; by eexists|].
      destruct (v =? TLB_SHOOTDOWN_VECTOR); [left; by eexists|].
      destruct (v =? CLOCK_TICK_VECTOR); [left; by eexists|by right].
Qed.

(** Ticks: each one is counted, passed on to the other processors, and acknowledged. *)
Lemma ticks_counted n state e s v :
  u8_try_from (st_number state) = Some v → 0 ≤ i_ticks s < 2 ^ 64 →
  wp e (foldM (λ (_ : unit) _, pit_tick_handler state) (replicate n tt) tt)
    (λ _ s', i_ticks s' = (i_ticks s + Z.of_nat n) mod 2 ^ 64
       ∧ ∃ evs, k_events (i_kernel s') = evs ++ k_events (i_kernel s)
                ∧ length evs = (2 * n)%nat) s.
Proof.
  intros Hv Ht. revert s Ht. induction n as [|n IH]; intros s Ht; simpl.
  - apply wp_ret. rewrite Z.add_0_r, Z.mod_small by lia. split; [done|]. by exists [].
  - apply wp_bind. eapply wp_of_run; [rewrite pit_tick_run, Hv; reflexivity|].
    eapply wp_mono; [apply IH|].
    { simpl. apply Z.mod_pos_bound. lia. }
    simpl. intros [] s' (H1 & evs & H2 & H3). split.
    + rewrite H1, Zplus_mod_idemp_l. f_equal. lia.
    + exists (evs ++ [PicEoi v; SendIpiOtherCores false CLOCK_TICK_VECTOR]).
      rewrite H2, <- app_assoc. split; [done|]. rewrite length_app. simpl. lia.
Qed.
End Traps.

(** ** Witnesses *)

(** The entry points at addresses of their own, and a table that leads to them. *)
Definition ref_address_of (h : Stub) : Z := 0xFFFFFFFF80001000 + 16 * stub_number h.

Definition ref_complete : Idt := mkIdt (λ v, gate ref_address_of (installed v)) true.

(** A fault at a missing heap page, which is resolved. *)
Lemma ref_fault_resolved :
  ∃ s', fault_resolved 2 0xFFFF900000003210 ref_env (mkIrq (ref_space 8) 0) s'.
Proof.
  apply (fault_resolved_intro 2 0xFFFF900000003210 ref_page ref_env (ref_space 8) 0).
  { apply virt_new_of. unfold canonical. lia. }
  eapply wp_mono.
  - apply (heap_fault_spec everywhere 4096 ref_code ref_page ref_env (ref_space 8));
      [by apply ref_current|exact ref_unlocked|exact ref_space_inv|exact I|reflexivity
      |exact ref_page_unmapped|reflexivity].
  - intros [ty|err] k' (_ & _ & H); [exists ty; reflexivity|].
    destruct H as (_ & H & _). vm_compute in H. discriminate H.
Qed.

(** That fault and an NMI, through the table. *)
Lemma only_interrupts_return_witness :
  (∃ h s', gate_handler (idt_gate (idt_table ref_complete) 14) = ref_address_of h
       ∧ enter h 2 0xFFFF900000003210 ref_env (mkIrq (ref_space 8) 0) = Ret tt s')
  ∧ ∃ h, gate_handler (idt_gate (idt_table ref_complete) 2) = ref_address_of h
       ∧ enter h 0 0 ref_env (mkIrq ref_boot 0) = Halted (mkIrq ref_boot 0).
Proof.
  assert (gates_complete ref_address_of ref_complete) as Hg
    by (split; [reflexivity|intros v _; reflexivity]).
  split.
  - destruct ref_fault_resolved as [s' Hs'].
    destruct (only_interrupts_return ref_address_of ref_complete 14 2 0xFFFF900000003210
      ref_env (mkIrq (ref_space 8) 0) Hg) as (h & Hh & Hret & _); [lia|].
    exists h, s'. split; [exact Hh|]. apply Hret. left. split; [reflexivity|exact Hs'].
  - destruct (only_interrupts_return ref_address_of ref_complete 2 0 0 ref_env
      (mkIrq ref_boot 0) Hg) as (h & Hh & _ & _ & Hnmi & _); [lia|].
    exists h. split; [exact Hh|exact (Hnmi eq_refl)].
Defined.
