(* ===== verification/Glue.v ===== *)
(** * Panics: [src/src/glue.rs]

    The panic handler stops the other processors with an NMI, logs the message ([Log.v]),
    and stops the processor it runs on. *)

From stdpp Require Import pretty.
From S2P Require Import Prelude Machine External Reference Frame BTree Log Kernel FrameState FrameAlloc Paging PageTables PagingSpec Vmm VmmSpec Fault Interrupts Access Smp.

Section GlueDefs.
Context {BF : Bitflags} {RT : Runtime} {XA : X86Address} {XP : X86Paging XA} {LG : Logging}
  {XC : X86Cpu} {FA : Allocator} {PC : PerCpuSection}.

Definition halt_other_core : M Smp unit :=
  s ← get;
  if lapic_initialized (k_events (p_kernel s))
  then smp_kernel (emit (SendIpiOtherCores true 2))
  else mret tt.

(** The panic handler, on the processor [cpu]; [info] is the message. *)
Definition panic_handler (cpu : Z) (info : string) : M Smp unit :=
  halt_other_core;;
  s ← get;
  cpu_id ← (if k_early (p_kernel s) then mret 0 else current_id cpu);
  smp_kernel (kernel_log LError ("CPU " +:+ pretty cpu_id +:+ " " +:+ info));;
  smp_kernel (kernel_log LError "System halted");;
  halt.

(** The allocation [alloc] of the heap answered null; the layout is left out of the message. *)
Definition alloc_error_handler {S A} (layout : AllocLayout) : M S A :=
  panic_with (PanicMsg "Allocation error: {:?}").
End GlueDefs.

Section Glue.
Context {BF : Bitflags} {BFS : BitflagsSpec BF} {RT : Runtime} {RTS : RuntimeSpec RT}
  {XA : X86Address} {XAS : X86AddressSpec XA} {XP : X86Paging XA} {XPS : X86PagingSpec XP}
  {LG : Logging} {LGS : LoggingSpec LG}
  {XC : X86Cpu} {XCS : X86CpuSpec XC} {FA : Allocator} {PC : PerCpuSection}.
Implicit Types (e : Env) (s : Smp).

Definition with_kernel (k : Kernel) s : Smp :=
  mkSmp k (p_bytes s) (p_fs_base s) (p_gs_base s).

(** The NMI, when the local APIC runs. *)
Definition nmi_events (evs : list Event) : list Event :=
  if lapic_initialized evs then SendIpiOtherCores true 2 :: evs else evs.

Definition nmi_sent s : Smp :=
  with_kernel (set_events (nmi_events (k_events (p_kernel s))) (p_kernel s)) s.

Lemma halt_other_core_run e s : halt_other_core e s = Ret tt (nmi_sent s).
Proof.
  unfold halt_other_core, nmi_sent, nmi_events. erewrite bind_ret_run by reflexivity.
  destruct s as [[] ? ? ?]. simpl. by destruct (lapic_initialized _).
Qed.

(** The id a panic on [cpu] shows: 0 during the boot, then that of the processor. *)
Definition shown_id r cpu (id : Z) s : Prop :=
  if k_early (p_kernel s) then id = 0
  else ∃ i b, tls_of r cpu i b s ∧ cr3_page (p_kernel s) = r ∧ id = processor_id i.

Lemma shown_id_run r cpu id e s :
  shown_id r cpu id s →
  (if k_early (p_kernel (nmi_sent s)) then mret 0 else current_id cpu) e (nmi_sent s)
  = Ret id (nmi_sent s).
Proof.
  unfold shown_id. change (k_early (p_kernel (nmi_sent s))) with (k_early (p_kernel s)).
  destruct (k_early _); [by intros ->|].
  intros (i & b & [H1 H2 H3 H4 H5 H6] & Hp & ->).
  rewrite (current_id_run cpu i b e r); [done|by split|].
  rewrite <- Hp. unfold cr3_page, nmi_sent, nmi_events. simpl.
  destruct (lapic_initialized _); [by rewrite cr3_read_other|done].
Qed.

(** A record of the panic handler that reaches the port. *)
Lemma panic_record_run level args p e s :
  SERIAL ∉ held e → log_enabled level (k_log (p_kernel s)) = true →
  serial_write (log_line level args) (lg_serial (k_log (p_kernel s))) = Some p →
  smp_kernel (kernel_log level args) e s
  = Ret tt (with_kernel (set_log (mkLogger p (lg_facade (k_log (p_kernel s)))) (p_kernel s)) s).
Proof.
  intros Hl Hen Hw. unfold smp_kernel, kernel_log, on_logger, zoom.
  by rewrite (log_record_run _ _ p).
Qed.

(** C31: A panic is reported and stops the machine.  If the port can be locked and
    written, the handler sends the other processors an NMI when the local APIC runs, logs
    the message with the id of the processor -- 0 during the boot, the one in its per-CPU
    data afterwards -- then that the system is halted, and stops the processor; nothing
    else changes. *)
Theorem panic_reports_and_halts r cpu id info p1 p2 e s :
  let lg := k_log (p_kernel s) in
  SERIAL ∉ held e → log_enabled LError lg = true → shown_id r cpu id s →
  serial_write (log_line LError ("CPU " +:+ pretty id +:+ " " +:+ info)) (lg_serial lg)
    = Some p1 →
  serial_write (log_line LError "System halted") p1 = Some p2 →
  panic_handler cpu info e s
    = Halted (with_kernel (set_log (mkLogger p2 (lg_facade lg)) (p_kernel (nmi_sent s))) s).
Proof.
  intros lg Hl Hen Hid Hw1 Hw2. unfold panic_handler.
  erewrite bind_ret_run by apply halt_other_core_run. erewrite bind_ret_run by reflexivity.
  erewrite bind_ret_run by (by apply (shown_id_run r)).
  erewrite bind_ret_run by (by apply (panic_record_run _ _ p1)).
  erewrite bind_ret_run by (by apply (panic_record_run _ _ p2)). done.
Qed.

(** C40: A panic while the serial port is locked -- inside the logger, or on a processor
    stopped by the NMI while it logged -- is never reported: the handler spins on the
    lock, after it stopped the other processors. *)
Theorem panic_in_logger_deadlocks r cpu id info e s :
  SERIAL ∈ held e → log_enabled LError (k_log (p_kernel s)) = true → shown_id r cpu id s →
  panic_handler cpu info e s = Deadlock SERIAL.
Proof.
  intros Hl Hen Hid. unfold panic_handler.
  erewrite bind_ret_run by apply halt_other_core_run. erewrite bind_ret_run by reflexivity.
  erewrite bind_ret_run by (by apply (shown_id_run r)).
  rewrite bind_run. unfold smp_kernel, zoom at 1.
  by rewrite kernel_log_deadlocks.
Qed.
End Glue.

(** ** Witnesses *)

(** A processor of id 3 that is up. *)
Definition ref_up : Smp :=
  ret_state (allocate_thread_local_storage 0 (mkSmpInfo 3 7 None) ref_env ref_smp) ref_smp.

Lemma ref_up_early : k_early (p_kernel ref_up) = false.
Proof. vm_compute. reflexivity. Qed.

Lemma ref_up_shown_id : shown_id 4096 0 3 ref_up.
Proof.
  destruct (wp_ret_state _ _ _ _ (tls_setup_room_spec everywhere ltac:(done) 0 (mkSmpInfo 3 7 None)
    ref_env 4096 ref_smp ref_smp_ready ltac:(split; simpl; lia) ref_smp_room
    ltac:(vm_compute; discriminate))) as [_ [b Hs]].
  unfold shown_id. rewrite ref_up_early. exists (mkSmpInfo 3 7 None), b.
  split; [exact (ts_block _ _ _ _ _ _ _ _ Hs)|]. split; [|reflexivity].
  exact (proj1 (proj2 (tr_cpu _ _ _ _ (ts_ready _ _ _ _ _ _ _ _ Hs)))).
Qed.

(** The same processor, with a logger that has sent nothing yet. *)
Definition ref_panicking : Smp :=
  with_kernel (set_log (mkLogger [] (true, 5)) (p_kernel ref_up)) ref_up.

Lemma shown_id_log r cpu id lg s :
  shown_id r cpu id s → shown_id r cpu id (with_kernel (set_log lg (p_kernel s)) s).
Proof.
  unfold shown_id. simpl. destruct (k_early (p_kernel s)); [done|].
  intros (i & b & [H1 H2 H3 H4 H5 H6] & Hp & Hid). exists i, b. split; [by split|by split].
Qed.

Lemma ref_shown_id : shown_id 4096 0 3 ref_panicking.
Proof. apply shown_id_log, ref_up_shown_id. Qed.

Lemma panic_reports_and_halts_witness :
  ∃ s, panic_handler 0 "panicked" ref_env ref_panicking = Halted s
       ∧ lg_serial (k_log (p_kernel s))
         = [log_line LError "System halted"; log_line LError "CPU 3 panicked"].
Proof.
  eexists. split.
  - apply (panic_reports_and_halts (LG := ref_log) 4096 0 3 "panicked" [log_line LError "CPU 3 panicked"]
      [log_line LError "System halted"; log_line LError "CPU 3 panicked"] ref_env ref_panicking);
      [apply ref_env_unlocked|reflexivity|exact ref_shown_id|reflexivity|reflexivity].
  - reflexivity.
Defined.

Lemma panic_in_logger_deadlocks_witness :
  panic_handler 0 "panicked" (acquire SERIAL ref_env) ref_panicking = Deadlock SERIAL.
Proof.
  apply (panic_in_logger_deadlocks 4096 0 3 "panicked" (acquire SERIAL ref_env) ref_panicking);
    [left|reflexivity|exact ref_shown_id].
Defined.
