(* ===== verification/Boot.v ===== *)
(** * The boot sequence: [src/src/main.rs], [src/src/arch/mod.rs] and [acpi::setup]

    [start] checks what the bootloader left, sets the tables and the memory manager up,
    then the BSP and the local APIC.  The other processors are started next
    ([SmpBoot.v]); the end of [start] is [start_finish]. *)

From S2P Require Import Prelude Machine External Reference Frame BTree Log Kernel FrameState FrameAlloc FrameArray Paging PageTables PagingSpec PagingRoots Vmm VmmSpec Fault BspTables VmmDealloc Acpi Interrupts Access Heap Smp Descriptors ApStart Glue.

(** The responses of the bootloader: [None] when there is none.  That of the RSDP holds
    a pointer, null or not. *)
Record Limine := mkLimine {
  l_stack : option unit;
  l_memmap : option (list LimineMemmapEntry);
  l_hhdm : option Z;
  l_rsdp : option (option Z);
  l_smp : option (list LimineSmpInfo)
}.

(** [acpi::InterruptModel]. *)
Inductive InterruptModel :=
  | UnknownModel
  | Apic (local_apic_address : Z)
  | OtherModel.

(** The calls of the crate [acpi]: they run in the kernel, whose handler they use to map
    tables ([Acpi.v]).  [None] is an error. *)
Class AcpiCrate {XA : X86Address} {XP : X86Paging XA} {LG : Logging} := {
  AcpiTables : Type;
  Madt : Type;
  from_rsdp : Z → M Kernel (option AcpiTables);
  get_madt : AcpiTables → M Kernel (option (option Madt));
  parse_interrupt_model : Madt → M Kernel (option InterruptModel)
}.

Section BootDefs.
Context {BF : Bitflags} {RT : Runtime} {XA : X86Address} {XP : X86Paging XA} {LG : Logging}
  {XC : X86Cpu} {FA : Allocator} {LY : Layout} {HC : HeapCrate}
  {PC : PerCpuSection} {XG : X86Gdt} {XI : X86Idt} {AK : AcpiCrate}.

Definition is_some {A} (o : option A) : bool :=
  match o with Some _ => true | None => false end.

Definition check_around {S} (l : Limine) : M S unit :=
  assert_ (is_some (l_stack l)) "No stack size provided by Limine!";;
  assert_ (is_some (l_memmap l)) "No memory map provided by Limine!";;
  assert_ (is_some (l_hhdm l)) "No high-half direct mapping provided by Limine!";;
  assert_ (is_some (l_rsdp l)) "No RSDP provided by Limine!";;
  assert_ (is_some (l_smp l)) "No SMP information provided by Limine!";;
  offset ← unwrap (l_hhdm l);
  assert_ (offset =? HHDM_START)
    "High-half direct mapping provided by Limine is not at the expected address!".

(** The local APIC's address, from the tables. *)
Definition find_local_apic (rsdp : option (option Z)) : M Kernel Z :=
  response ← unwrap rsdp;
  ptr ← unwrap response;
  v ← ext (virt_new ptr);
  p ← virt_to_phys v;
  tables ← from_rsdp (phys_as_u64 p);
  tables ← expect tables "Failed to initialize ACPI: {:#?}";
  madt ← get_madt tables;
  madt ← expect madt "Failed to find the MADT: {:#?}";
  madt ← expect madt "No MADT found";
  model ← parse_interrupt_model madt;
  model ← expect model "Failed to parse the interrupt model: {:#?}";
  match model with
  | UnknownModel => panic_with (PanicMsg "Unknown interrupt model: ACPI is not supported")
  | Apic base => mret base
  | OtherModel => panic_with (PanicMsg "Unsupported interrupt model")
  end.

(** [acpi::setup]. *)
Definition acpi_setup (rsdp : option (option Z)) : M Kernel unit :=
  base ← find_local_apic rsdp;
  virt ← remap_lapic base;
  virt ← unwrap virt;
  emit (LapicSetup (virt_as_u64 virt));;
  emit LapicEnable.

(** [init_bsp], on the processor [cpu]. *)
Definition init_bsp (cpu : Z) (smp : option (list LimineSmpInfo)) : M System unit :=
  on_smp (smp_kernel (with_lock PIT (emit PitSetup)));;
  on_smp (bsp_setup cpu smp);;
  on_smp (smp_kernel paging_setup);;
  tss ← tss_address cpu;
  on_gdt (tss_install cpu tss 0);;
  on_smp (smp_kernel (emit (PicRemap IRQ_BASE))).

(** The whole kernel. *)
Record Machine := mkMachine { x_system : System; x_heap : Heap }.

Definition on_system {A} (m : M System A) : M Machine A :=
  zoom x_system (λ y x, mkMachine y (x_heap x)) m.
Definition on_log {A} (m : M Logger A) : M Machine A :=
  on_system (on_smp (smp_kernel (on_logger m))).

Definition set_kernel_of (k : Kernel) (y : System) : System :=
  mkSystem (mkSmp k (p_bytes (y_smp y)) (p_fs_base (y_smp y)) (p_gs_base (y_smp y)))
    (y_gdt y) (y_idt y) (y_cpu_count y).

Definition on_memory {A} (m : M Memory A) : M Machine A :=
  zoom (λ x, mkMemory (y_kernel (x_system x)) (x_heap x))
    (λ s x, mkMachine (set_kernel_of (m_kernel s) (x_system x)) (m_heap s)) m.

(** [start], up to and including [init_bsp]; [address_of] gives the entry points. *)
Definition start_init (address_of : Stub → Z) (cpu : Z) (l : Limine) : M Machine unit :=
  on_log (log_record LInfo "Booting Silicium...");;
  check_around l;;
  on_system (on_gdt (gdt_setup cpu));;
  on_system (on_idt (idt_setup address_of));;
  on_system (on_idt (irq_setup address_of));;
  on_system (on_idt (exception_setup address_of));;
  on_memory (mm_setup (l_memmap l));;
  on_system (init_bsp cpu (l_smp l)).

(** [start], up to the call of [start_cpus]. *)
Definition start_boot (address_of : Stub → Z) (cpu : Z) (l : Limine) : M Machine unit :=
  start_init address_of cpu l;;
  on_system (on_smp (smp_kernel (acpi_setup (l_rsdp l)))).

(** [_start], up to the same point, and [_ap_start] on the processor [cpu]. *)
Definition _start (address_of : Stub → Z) (cpu : Z) (l : Limine) : M Machine unit :=
  on_log log_init;; start_boot address_of cpu l.

Definition _ap_start (cpu : Z) (info : LimineSmpInfo) : M System unit := ap_start cpu info.

(** [EARLY.store(false)] and what follows; the final loop serves interrupts. *)
Definition leave_early (k : Kernel) : Kernel :=
  mkKernel (k_frames k) (k_stats k) (k_mem k) (k_free_vma k) (k_used_vma k)
    (k_init_table k) (k_active_table k) false (k_events k) (k_log k).

Definition start_finish : M Machine unit :=
  on_system (on_smp (smp_kernel (modify leave_early)));;
  on_log (log_record LInfo "Silicium booted successfully!");;
  halt.
End BootDefs.

(** ** Checks *)

Section Checks.
Context {S : Type}.
Implicit Types (e : Env) (s : S) (l : Limine).

(** What the rest of the boot takes from the bootloader. *)
Definition limine_complete l : Prop :=
  is_some (l_stack l) = true ∧ (∃ mmap, l_memmap l = Some mmap)
  ∧ l_hhdm l = Some HHDM_START ∧ (∃ rsdp, l_rsdp l = Some rsdp)
  ∧ ∃ cpus, l_smp l = Some cpus.

(** [check_around] lets the boot go on exactly when every response is there and the
    direct map is where the kernel expects it; otherwise it panics with a message. *)
Lemma check_around_spec l e s :
  (limine_complete l ∧ check_around l e s = Ret tt s)
  ∨ (¬ limine_complete l ∧ ∃ msg, check_around l e s = Panic (PanicMsg msg)).
Proof.
  destruct l as [[[]|] [mm|] [off|] [rs|] [cp|]];
    try (right; split; [by intros (? & [? ?] & ? & [? ?] & [? ?])|by eexists]).
  destruct (off =? HHDM_START) eqn:E.
  - apply Z.eqb_eq in E as ->. left. split; [|done]. split_and!; [done| |done|..]; by eexists.
  - right. split.
    + intros (_ & _ & [= ->] & _). by rewrite Z.eqb_refl in E.
    + exists "High-half direct mapping provided by Limine is not at the expected address!".
      transitivity (assert_ (off =? HHDM_START)
        "High-half direct mapping provided by Limine is not at the expected address!" e s);
        [done|by rewrite E].
Qed.
End Checks.

(** ** The local APIC *)

Section LocalApic.
Context {BF : Bitflags} {BFS : BitflagsSpec BF} {RT : Runtime} {RTS : RuntimeSpec RT}
  {XA : X86Address} {XAS : X86AddressSpec XA} {XP : X86Paging XA} {XPS : X86PagingSpec XP}
  {LG : Logging} {LGS : LoggingSpec LG}
  {XC : X86Cpu} {XCS : X86CpuSpec XC} {FA : Allocator} {FAS : AllocatorSpec FA}
  {AK : AcpiCrate}.
Variable D : Z → Prop.
Implicit Types (e : Env) (k : Kernel) (r base : Z).

(** What was in use and mapped still is, on the same tables. *)
Record device_kept r k k' : Prop := {
  dk_used a : used_area k a → used_area k' a;
  dk_mapped v x : in_region D v → mapping (k_mem k) r v = Some x →
    mapping (k_mem k') r v = Some x;
  dk_early : k_early k' = k_early k;
  dk_root : cr3_read (k_events k') = cr3_read (k_events k)
}.

Lemma device_area_kept r n e a base k k' :
  device_ready D r n e k → device_area D r a base k k' → device_kept r k k'.
Proof.
  intros Hd Ha. destruct (da_boot _ _ _ _ _ _ Ha) as (_ & _ & He & Hev). split; [| |done|congruence].
  - intros b Hb. apply (da_used _ _ _ _ _ _ Ha). by right.
  - intros v x Hv Hx. rewrite (da_other _ _ _ _ _ _ Ha); [done|done|].
    destruct (covers_addr v a) eqn:E; [|done].
    destruct (device_area_fresh D r n e a base k k' v Hd Ha E). congruence.
Qed.

(** The local APIC was set up at a virtual address of [base], then enabled. *)
Definition lapic_enabled r base k : Prop :=
  ∃ v x evs, k_events k = LapicEnable :: LapicSetup (virt_as_u64 v) :: evs
    ∧ mapping (k_mem k) r v = Some x ∧ pe_flags x = device_flags ∧ entry_phys x v = phys_of base.

Lemma acpi_setup_spec r base rsdp e k k1 :
  find_local_apic rsdp e k = Ret base k1 → device_ready D r 1 e k1 → 4096 ≤ base < 2 ^ 52 →
  wp e (acpi_setup rsdp)
    (λ _ k', pt_inv D k' r ∧ vma_inv k' ∧ active_root k' r ∧ device_kept r k1 k'
       ∧ lapic_enabled r base k') k.
Proof.
  intros Hfind Hd Hb. unfold acpi_setup. apply wp_bind. eapply wp_of_run; [exact Hfind|].
  apply wp_bind. eapply wp_mono; [by apply (remap_lapic_spec D r)|].
  intros res k2 (v & a & x & -> & Ha & _ & _ & Hm & Hfl & Hp).
  apply wp_bind, wp_ret, wp_bind, wp_modify, wp_modify. split_and!.
  - eapply pt_inv_local; [..|exact (da_pt _ _ _ _ _ _ Ha)]; done.
  - eapply vma_inv_local; [..|exact (da_vma _ _ _ _ _ _ Ha)]; done.
  - destruct (da_root _ _ _ _ _ _ Ha) as [? Hq]. by split.
  - destruct (device_area_kept r 1 e a _ k1 k2 Hd Ha) as [U M E R]. split; [done..|].
    simpl. by rewrite !cr3_read_other.
  - by exists v, x, (k_events k2).
Qed.

(** C27: [acpi::setup] ends with a local APIC that is reachable and enabled.  When the
    tables name a local APIC at [base], and the memory manager has room for a page and
    frames for its tables, it returns; the local APIC was set up at a virtual address
    that is mapped, as device memory, to [base], and then enabled; the invariants of the
    memory manager hold and what was in use or mapped still is. *)
Theorem acpi_setup_correct r base rsdp e k k1 :
  find_local_apic rsdp e k = Ret base k1 → device_ready D r 1 e k1 → 4096 ≤ base < 2 ^ 52 →
  wp e (acpi_setup rsdp)
    (λ _ k', pt_inv D k' r ∧ vma_inv k' ∧ active_root k' r ∧ device_kept r k1 k'
       ∧ lapic_enabled r base k') k.
Proof. apply acpi_setup_spec. Qed.

(** Without a response, a pointer or a usable model, it panics and maps nothing. *)
Lemma acpi_setup_fails rsdp p e k :
  find_local_apic rsdp e k = Panic p → acpi_setup rsdp e k = Panic p.
Proof. intros H. unfold acpi_setup. by rewrite bind_run, H. Qed.
End LocalApic.

(** ** The BSP *)

Section Bsp.
Context {BF : Bitflags} {BFS : BitflagsSpec BF} {RT : Runtime} {RTS : RuntimeSpec RT}
  {XA : X86Address} {XAS : X86AddressSpec XA} {XP : X86Paging XA} {XPS : X86PagingSpec XP}
  {LG : Logging} {LGS : LoggingSpec LG}
  {XC : X86Cpu} {XCS : X86CpuSpec XC} {IM : IdentityMapped XA XC}
  {FA : Allocator} {FAS : AllocatorSpec FA}
  {PC : PerCpuSection} {PCS : PerCpuSectionSpec PC} {XG : X86Gdt} {XGS : X86GdtSpec XG}
  {XI : X86Idt}.
Variable D : Z → Prop.
Hypothesis Hvm : ∀ v, in_vmalloc v = true → in_region D v.
Implicit Types (e : Env) (k : Kernel) (y : System) (r q cpu : Z) (b : VirtualArea)
  (i : LimineSmpInfo).

(** The state [init_bsp] starts from: the memory manager is set up, the page tables are
    the bootloader's, at [r], and there is memory for the per-CPU data and the tables. *)
Record bsp_ready e r i y : Prop := {
  bs_tls : tls_ready D e r (y_smp y);
  bs_info : smp_info_ok i;
  bs_room : has_room (y_kernel y);
  bs_frames : 5 * block_pages + 257 ≤ fa_free (y_kernel y);
  bs_root : boot_root (y_kernel y) r;
  bs_table : k_active_table (y_kernel y) = None;
  bs_segments : segments_ok (g_table (y_gdt y));
  bs_locks : Forall (.∉ held e) [GDT; TSS; PIT; ACTIVE_TABLE; TABLE_ROOT]
}.

(** [paging::setup] on the BSP, which forces both tables first: the root at [q] is a copy
    of the one at [r], with every kernel entry present. *)
Record bsp_paged r q k k' : Prop := {
  bp_root : active_root k' q ∧ cr3_page k' = q;
  bp_init : init_root k' r;
  bp_areas : k_used_vma k' = k_used_vma k ∧ k_free_vma k' = k_free_vma k;
  bp_early : k_early k' = k_early k;
  bp_free : fa_free k - 257 ≤ fa_free k';
  bp_mapped v x : in_region D v → mapping (k_mem k) r v = Some x →
    mapping (k_mem k') q v = Some x;
  bp_present n : 256 ≤ n < 512 → pe_is_present (k_mem k' q n) = true;
  bp_alloc : fa_inv k';
  bp_unowned : unowned_kept k k';
  bp_live a : fa_live k a → fa_live k' a
}.

Lemma bsp_paging_spec r e k :
  boot_root k r → k_active_table k = None → pt_inv D k r → frames_unlocked e →
  ACTIVE_TABLE ∉ held e → TABLE_ROOT ∉ held e → 257 ≤ fa_free k →
  wp e paging_setup (λ _ k', ∃ q, bsp_paged r q k k') k.
Proof.
  intros Hboot Hact Hinv He HA HT Hfree.
  pose proof (bsp_force_spec D r e k Hboot Hact Hinv He ltac:(lia)) as Hf.
  apply wp_run in Hf as ([] & k1 & Hrun & q & Hq & Hcr & Hmade & Hinit & Hfv & Huv & Hea & Hfr).
  pose proof (rm_fresh _ _ _ _ _ Hmade) as (_ & Hlive & Hqb & Hqal).
  pose proof (rm_inv _ _ _ _ _ Hmade) as Hinv1.
  unfold wp at 1, wpx. rewrite (paging_setup_forced q e k k1 Hrun Hq).
  eapply wp_mono; [apply (paging_setup_spec q); try done; [apply Hmade|lia]|].
  intros [] k' Hpre. pose proof (pre_only _ _ _ _ Hpre) as Ho. exists q. split.
  - destruct Hq as [? Hq]. split; [split; [done|by rewrite Ho]|].
    unfold cr3_page. rewrite Ho. simpl. rewrite Hcr. dlia.
  - destruct Hinit as (? & ? & Hi). split; [done|]. split; [done|]. by rewrite Ho.
  - by rewrite Ho.
  - by rewrite Ho.
  - pose proof (pre_free _ _ _ _ Hpre) as Hf'. rewrite length_seqZ in Hf'. lia.
  - intros v x Hv Hm. eapply mapping_preallocated; [done|exact Hpre|done|].
    by rewrite (proj1 (rm_mapping _ _ _ _ _ Hmade v Hv)).
  - intros n Hn. destruct (pe_is_present (k_mem k1 q n)) eqn:E.
    + by rewrite (pre_kept _ _ _ _ Hpre) by (by right).
    + apply (pre_filled _ _ _ _ Hpre n); [apply elem_of_seqZ; lia|done].
  - apply Hpre.
  - eapply unowned_trans; [apply Hpre|by eapply root_made_unowned|].
    by eapply preallocated_unowned.
  - intros a Ha. by apply (pre_live _ _ _ _ Hpre), (rm_live _ _ _ _ _ Hmade).
Qed.

(** The BSP is up, with the block [b] and the root table at [q]. *)
Record bsp_up e r cpu i b q y0 y : Prop := {
  bu_block : tls_of q cpu i b (y_smp y);
  bu_id : current_id cpu e (y_smp y) = Ret (processor_id i) (y_smp y);
  bu_root : active_root (y_kernel y) q ∧ cr3_page (y_kernel y) = q;
  bu_init : init_root (y_kernel y) r;
  bu_kept v x : in_region D v → mapping (k_mem (y_kernel y0)) r v = Some x →
    mapping (k_mem (y_kernel y)) q v = Some x;
  bu_kernel n : 256 ≤ n < 512 → pe_is_present (k_mem (y_kernel y) q n) = true;
  bu_segments : segments_ok (g_table (y_gdt y));
  bu_task : head (g_cpu (y_gdt y) cpu) = Some (Ltr (8 * tss_slot 0));
  bu_tss : ∃ a, holds (g_table (y_gdt y)) (tss_slot 0) (gdt_tss a)
                ∧ va_start b ≤ a < va_end b;
  bu_events : head (k_events (y_kernel y)) = Some (PicRemap IRQ_BASE)
}.

(** The memory manager once the BSP is up. *)
Record bsp_memory b y0 y : Prop := {
  bm_alloc : fa_inv (y_kernel y);
  bm_areas : vma_inv (y_kernel y);
  bm_used a : used_area (y_kernel y) a ↔ a = b ∨ used_area (y_kernel y0) a;
  bm_free : fa_free (y_kernel y0) - 5 * block_pages - 257 ≤ fa_free (y_kernel y);
  bm_keeps a : fa_live (y_kernel y0) a → fa_live (y_kernel y) a;
  bm_unowned : unowned_kept (y_kernel y0) (y_kernel y);
  bm_idt : y_idt y = y_idt y0;
  bm_early : k_early (y_kernel y) = k_early (y_kernel y0)
}.

(** Events that do not write CR3 leave the processor as it is. *)
Lemma tls_ready_event ev e r s :
  (∀ v, ev ≠ Cr3Write v) → tls_ready D e r s →
  tls_ready D e r (mkSmp (set_events (ev :: k_events (p_kernel s)) (p_kernel s))
    (p_bytes s) (p_fs_base s) (p_gs_base s)).
Proof.
  intros Hev [Ht Hv (Hc & Hp & Hl) HU HF Hi]. split; try done.
  - by eapply pt_inv_local; [..|exact Ht].
  - by eapply vma_inv_local; [..|exact Hv].
  - unfold cpu_ready, current_root, cr3_page in *. simpl. by rewrite cr3_read_other.
Qed.

(** The kernel after an event. *)
Definition smp_event ev (s : Smp) : Smp :=
  mkSmp (set_events (ev :: k_events (p_kernel s)) (p_kernel s)) (p_bytes s) (p_fs_base s)
    (p_gs_base s).

(** The timer and the block of the BSP. *)
Lemma bsp_block_spec cpu cpus i e r y (m : M System unit) Q :
  find (λ c, processor_id c =? 0) cpus = Some i → bsp_ready e r i y →
  (∀ b s', tls_set_up D e r cpu i b (smp_event PitSetup (y_smp y)) s' →
     boot_root (p_kernel s') r → k_active_table (p_kernel s') = None →
     257 ≤ fa_free (p_kernel s') →
     wp e m Q (mkSystem s' (y_gdt y) (y_idt y) (y_cpu_count y))) →
  wp e (on_smp (smp_kernel (with_lock PIT (emit PitSetup)));; on_smp (bsp_setup cpu (Some cpus));; m)
    Q y.
Proof.
  intros Hfind [Htls Hi Hroom Hfr Hboot Hact _ Hl] Hm. unfold y_kernel in *.
  repeat (apply Forall_cons in Hl as [? Hl]).
  apply wp_bind. do 2 apply wp_zoom. apply wp_with_lock; [done|]. apply wp_modify. cbn [y_smp].
  change (mkSmp _ _ _ _) with (smp_event PitSetup (y_smp y)). set (s0 := smp_event _ _).
  assert (tls_ready D e r s0) as Htls0 by (by apply tls_ready_event).
  assert (fa_free (p_kernel s0) = fa_free (p_kernel (y_smp y))) as Hfree by (by apply fa_free_local).
  apply wp_bind, wp_zoom. cbn [y_smp]. unfold bsp_setup. apply wp_bind, (wp_unwrap _ cpus); [done|].
  apply wp_bind, (wp_unwrap _ i); [done|].
  eapply wp_mono; [apply (tls_setup_room_spec D Hvm cpu i e r); try done; lia|].
  intros [] s1 [b Hs]. apply (Hm b); [done|..].
  - destruct (ts_boot _ _ _ _ _ _ _ _ Hs) as (Hb1 & _ & _ & Hb4).
    pose proof (tables_live D _ _ _ (pt_tables D _ r (tr_tables _ _ _ _ Htls0)) [] r (good_nil D)
      eq_refl) as [_ Hlive].
    unfold boot_root. rewrite Hb1, Hb4, (proj2 (ts_keeps _ _ _ _ _ _ _ _ Hs r Hlive)).
    unfold s0, smp_event. simpl. rewrite cr3_read_other by done.
    rewrite (fa_refs_local _ (p_kernel (y_smp y))) by done. exact Hboot.
  - destruct (ts_boot _ _ _ _ _ _ _ _ Hs) as (_ & -> & _). exact Hact.
  - pose proof (ts_cost _ _ _ _ _ _ _ _ Hs). lia.
Qed.

(** What the BSP keeps of its memory, from the block [b] to the table [q]. *)
Lemma bsp_memory_intro e r cpu i b q y s1 y' :
  tls_set_up D e r cpu i b (smp_event PitSetup (y_smp y)) s1 →
  bsp_paged r q (p_kernel s1) (set_events (tail (k_events (y_kernel y'))) (y_kernel y')) →
  y_idt y' = y_idt y → bsp_memory b y y'.
Proof.
  intros Hs [_ _ [Hu Hfv] Hea Hfr _ _ Ha Hun Hlv] Hidt.
  assert (∀ k a, fa_live k a → k_frames k = k_frames (y_kernel y') → fa_live (y_kernel y') a)
    as Hlive by (intros k a H1 H2; by apply (fa_live_local k)).
  split; try done.
  - by eapply fa_inv_local; [..|exact Ha].
  - by apply (vma_inv_local (p_kernel s1)); [..|apply Hs].
  - intros a. change (used_area (y_kernel y) a)
      with (used_area (p_kernel (smp_event PitSetup (y_smp y))) a).
    rewrite <- (ts_used _ _ _ _ _ _ _ _ Hs). unfold used_area. by rewrite <- Hu.
  - pose proof (ts_cost _ _ _ _ _ _ _ _ Hs) as Hc.
    rewrite (fa_free_local (p_kernel (smp_event _ _)) (y_kernel y)) in Hc by done.
    rewrite (fa_free_local (set_events _ (y_kernel y')) (y_kernel y')) in Hfr by done. lia.
  - intros a H1. eapply Hlive; [apply Hlv, (ts_keeps _ _ _ _ _ _ _ _ Hs)|done].
    by eapply fa_live_local; [|exact H1].
  - eapply unowned_compose; [|by apply (unowned_local _ (p_kernel (smp_event PitSetup (y_smp y))))|].
    { intros a H1. eapply Hlive; [apply Hlv, (ts_keeps _ _ _ _ _ _ _ _ Hs), H1|done]. }
    eapply unowned_compose; [|exact (ts_unowned _ _ _ _ _ _ _ _ Hs)|].
    { intros a H1. by eapply Hlive; [apply Hlv, H1|]. }
    eapply unowned_compose; [|exact Hun|by apply unowned_local].
    intros a H1. by eapply Hlive.
  - destruct (ts_boot _ _ _ _ _ _ _ _ Hs) as (_ & _ & Hb3 & _). unfold y_kernel in *.
    simpl in Hea, Hb3. congruence.
Qed.

Lemma init_bsp_spec cpu cpus i e r y :
  find (λ c, processor_id c =? 0) cpus = Some i → bsp_ready e r i y →
  wp e (init_bsp cpu (Some cpus))
    (λ _ y', ∃ b q, bsp_up e r cpu i b q y y' ∧ bsp_memory b y y') y.
Proof.
  intros Hfind Hrdy. apply (bsp_block_spec cpu cpus i e r); [done..|].
  intros b s1 Hs Hboot Hact Hfree. destruct Hrdy as [_ _ _ _ _ _ Hseg Hl].
  repeat (apply Forall_cons in Hl as [? Hl]).
  pose proof (ts_ready _ _ _ _ _ _ _ _ Hs) as [Ht1 Hv1 (_ & _ & He) _ _ _].
  apply wp_bind. do 2 apply wp_zoom. cbn [y_smp].
  eapply wp_mono; [by apply (bsp_paging_spec r)|]. intros [] k2 (q & Hpg).
  pose proof Hpg as [[Hq Hpage] Hinit [Hu _] _ _ Hkept Hpres _ _ _].
  set (s2 := mkSmp _ _ _ _).
  assert (tls_of q cpu i b s2) as Hblk2.
  { apply (tls_of_root D Hvm r q cpu i b s1); try done; [apply Hs|].
    intros a. unfold used_area. simpl. by rewrite Hu. }
  apply wp_bind, wp_gets. apply wp_bind, wp_zoom. cbn [y_gdt y_smp].
  eapply wp_mono; [by apply tss_install_spec|]. intros [] g2 (Hseg2 & Hholds & _ & Hg).
  do 2 apply wp_zoom. apply wp_modify. unfold y_kernel. cbn [y_smp y_gdt p_kernel].
  set (s3 := mkSmp _ _ _ _).
  assert (tls_of q cpu i b s3) as Hblk3 by (destruct Hblk2; by split).
  assert (cr3_page (p_kernel s3) = q) as Hpage3.
  { unfold cr3_page. simpl. by rewrite cr3_read_other. }
  exists b, q. split.
  2:{ apply (bsp_memory_intro e r cpu i b q y s1); [done| |done]. simpl. by destruct k2. }
  split; unfold y_kernel; cbn [y_smp y_gdt y_idt]; try done.
  - by apply (current_id_run cpu i b e q).
  - intros v x Hv Hx. apply Hkept; [done|]. by apply (ts_mapped _ _ _ _ _ _ _ _ Hs).
  - by rewrite Hg, Z.eqb_refl.
  - eexists. split; [exact Hholds|]. rewrite (tls_fs _ _ _ _ _ Hblk2).
    pose proof tss_offset_spec. pose proof (tls_fits _ _ _ _ _ Hblk2).
    unfold per_cpu_size in *. lia.
Qed.

(** C12: The BSP comes up.  When the bootloader describes a processor 0, and there is
    memory for its block and for 257 tables, [init_bsp] returns: [current_id] is 0 and
    reads the block of the BSP, the task register selects a task state segment in it, CR3
    holds a copy of the bootloader's table with every entry of the kernel half present,
    what was mapped is mapped alike, and the interrupt controller is remapped last. *)
Theorem init_bsp_correct cpu cpus i e r y :
  find (λ c, processor_id c =? 0) cpus = Some i → bsp_ready e r i y →
  wp e (init_bsp cpu (Some cpus)) (λ _ y', ∃ b q, bsp_up e r cpu i b q y y') y.
Proof.
  intros Hf Hr. eapply wp_mono; [by apply (init_bsp_spec cpu cpus i e r)|].
  intros [] y' (b & q & H & _). by exists b, q.
Qed.

Lemma bsp_setup_missing cpu cpus e (s : Smp) :
  Forall (λ c, processor_id c ≠ 0) cpus →
  bsp_setup cpu (Some cpus) e s = Panic UnwrapNone.
Proof.
  intros HF. unfold bsp_setup. rewrite bind_run. simpl. rewrite bind_run.
  assert (find (λ c, processor_id c =? 0) cpus = None) as ->; [|done].
  apply find_none_iff. intros c Hc. apply Z.eqb_neq. rewrite Forall_forall in HF.
  by apply HF, list_elem_of_In.
Qed.
End Bsp.

(** ** Witnesses *)

(** Tables that name a local APIC at 0xFEE00000. *)
#[global] Instance ref_acpi : AcpiCrate := {|
  AcpiTables := unit;
  Madt := unit;
  from_rsdp _ := mret (Some tt);
  get_madt _ := mret (Some (Some tt));
  parse_interrupt_model _ := mret (Some (Apic 0xFEE00000))
|}.

Lemma ref_local_apic e k :
  find_local_apic (Some (Some 0xFFFF8000000E0000)) e k = Ret 0xFEE00000 k.
Proof.
  unfold find_local_apic. erewrite bind_ret_run by reflexivity.
  erewrite bind_ret_run by reflexivity.
  rewrite virt_new_of by (unfold canonical; lia). erewrite bind_ret_run by reflexivity.
  erewrite bind_ret_run by (apply virt_to_phys_run; rewrite virt_of_u64; unfold canonical; lia).
  reflexivity.
Qed.

Lemma acpi_setup_correct_witness :
  wp ref_env (acpi_setup (Some (Some 0xFFFF8000000E0000)))
    (λ _ k', pt_inv everywhere k' 4096 ∧ ∃ v x, mapping (k_mem k') 4096 v = Some x
       ∧ entry_phys x v = phys_of 0xFEE00000) ref_vmm.
Proof.
  eapply wp_mono.
  - apply (acpi_setup_correct everywhere 4096 0xFEE00000 (Some (Some 0xFFFF8000000E0000))
      ref_env ref_vmm ref_vmm); [apply ref_local_apic|apply ref_device_ready; lia|lia].
  - intros _ k' (H1 & _ & _ & _ & v & x & _ & _ & Hx & _ & Hp). split; [exact H1|].
    exists v, x. split; [exact Hx|exact Hp].
Defined.

(** The machine of [Smp], before [INIT_TABLE] was forced. *)
Definition ref_bsp : System :=
  mkSystem (mkSmp (booting None ref_cpus) (λ x, x mod 256) (λ _, 0) (λ _, 0))
    (ret_state (gdt_setup 0 ref_env Gdt_new) Gdt_new) (mkIdt ref_empty_table false) 0.

Lemma ref_bsp_ready : bsp_ready everywhere ref_env 4096 (mkSmpInfo 0 0 None) ref_bsp.
Proof.
  split.
  - apply booting_ready; [|exact ref_smp_ready].
    vm_compute. split; [discriminate|reflexivity].
  - split; simpl; lia.
  - exact ref_smp_room.
  - vm_compute. discriminate.
  - split; [lia|]. split; [reflexivity|]. split; [reflexivity|].
    split; [vm_compute; split; [discriminate|reflexivity]|].
    split; vm_compute; reflexivity.
  - reflexivity.
  - destruct (wp_ret_state _ _ _ _ (gdt_setup_spec 0 ref_env Gdt_new (gdt_new_capacity GDT_SIZE)
      (ref_env_unlocked _))) as [_ H]. exact H.
  - rewrite !Forall_cons. split_and!; try apply ref_env_unlocked. constructor.
Qed.

Lemma init_bsp_correct_witness :
  wp ref_env (init_bsp 0 (Some [mkSmpInfo 1 1 None; mkSmpInfo 0 0 None]))
    (λ _ y', current_id 0 ref_env (y_smp y') = Ret 0 (y_smp y')) ref_bsp.
Proof.
  eapply wp_mono.
  - apply (init_bsp_correct everywhere ltac:(done) 0 [mkSmpInfo 1 1 None; mkSmpInfo 0 0 None]
      (mkSmpInfo 0 0 None) ref_env 4096 ref_bsp); [reflexivity|exact ref_bsp_ready].
  - intros _ y' (b & q & H). exact (bu_id _ _ _ _ _ _ _ _ _ H).
Defined.
