(* ===== verification/Startup.v ===== *)
(** * From the bootloader to the first processor: the composition of [src/src/main.rs]

    The steps of [_start] and [start] up to [init_bsp], one after the other, on the state
    the bootloader hands over: each step is proved in the file of its component, and what it
    leaves is what the next one needs.  The steps that follow are proved on their own:
    [acpi::setup] in [Boot.v], [start_cpus] in [SmpBoot.v]. *)

From S2P Require Import Prelude Machine External Reference Frame BTree Log Kernel FrameState FrameAlloc FrameArray Paging PageTables PagingSpec PagingRoots Vmm VmmSpec Fault BspTables VmmDealloc Acpi Interrupts Access Heap Smp Descriptors ApStart Glue Boot.

Section Startup.
Context {BF : Bitflags} {BFS : BitflagsSpec BF} {RT : Runtime} {RTS : RuntimeSpec RT}
  {XA : X86Address} {XAS : X86AddressSpec XA} {XP : X86Paging XA} {XPS : X86PagingSpec XP}
  {LG : Logging} {LGS : LoggingSpec LG}
  {XC : X86Cpu} {XCS : X86CpuSpec XC} {IM : IdentityMapped XA XC}
  {LY : Layout} {LYS : LayoutSpec LY} {HC : HeapCrate} {HCS : HeapCrateSpec HC}
  {PC : PerCpuSection} {PCS : PerCpuSectionSpec PC} {XG : X86Gdt} {XGS : X86GdtSpec XG}
  {XI : X86Idt} {XIS : X86IdtSpec XI}.
(** The region of the root table whose page tables are the kernel's to use: it holds the
    heap and the vmalloc space. *)
Variable D : Z → Prop.
Hypothesis Hheap : ∀ v, in_heap v = true → in_region D v.
Hypothesis Hvm : ∀ v, in_vmalloc v = true → in_region D v.
Variable address_of : Stub → Z.
Implicit Types (e : Env) (k : Kernel) (x : Machine) (r q cpu : Z) (b : VirtualArea)
  (i : LimineSmpInfo) (en : LimineMemmapEntry) (mmap : list LimineMemmapEntry).

Definition x_kernel x : Kernel := y_kernel (x_system x).

(** The addresses the heap writes to when it is initialised. *)
Definition heap_touched x : list Z := (heap_init HEAP_START HEAP_SIZE (x_heap x)).2.

(** The frames the boot takes at most: five per address the heap writes to, five per page of
    the block of the BSP, a root table, and one table per entry of the kernel half. *)
Definition boot_frames x : Z :=
  5 * Z.of_nat (length (heap_touched x)) + 5 * block_pages + 257.

(** The responses of the bootloader. *)
Record limine_response (l : Limine) mmap cpus i : Prop := {
  lr_stack : is_some (l_stack l) = true;
  lr_memmap : l_memmap l = Some mmap;
  lr_hhdm : l_hhdm l = Some HHDM_START;
  lr_rsdp : is_some (l_rsdp l) = true;
  lr_smp : l_smp l = Some cpus;
  lr_bsp : find (λ c, processor_id c =? 0) cpus = Some i;
  lr_info : smp_info_ok i
}.

(** The state at the entry of the kernel: the statics are as the image has them, the memory
    map is well formed with a region for the frame array, the bootloader's tables, at [r],
    lie in memory the map gives to the kernel or the bootloader, and they map the per-CPU
    section of the image. *)
Record handed_memory mmap en r x : Prop := {
  hm_map : mmap_ok mmap ∧ array_entry mmap = Some en ∧ 0 < last_frame mmap;
  hm_cold : k_frames (x_kernel x) = [] ∧ k_free_vma (x_kernel x) = []
            ∧ k_used_vma (x_kernel x) = [];
  hm_forced : k_init_table (x_kernel x) = None ∧ k_active_table (x_kernel x) = None;
  hm_early : k_early (x_kernel x) = true;
  hm_cr3 : 0 ≤ cr3_read (k_events (x_kernel x)) < 2 ^ 44 ∧ cr3_page (x_kernel x) = r;
  hm_tables : tables_ok D (boot_owned mmap en) (k_mem (x_kernel x)) r;
  hm_image a : __per_cpu_start ≤ a < __per_cpu_end →
    in_region D (virt_of a) ∧ unmapped (x_kernel x) r a = false
}.

(** The kernel after [init_bsp]: the BSP is up with the block [b] and the table [q], which
    maps what the bootloader's table at [r] mapped and has every kernel entry; the
    invariants of the frame allocator and of the vmalloc areas hold, the heap manages its
    area, every interrupt has its gate, and the frame array was left alone. *)
Record started mmap en e r cpu i b q x x' : Prop := {
  sd_block : tls_of q cpu i b (y_smp (x_system x'));
  sd_id : current_id cpu e (y_smp (x_system x')) = Ret 0 (y_smp (x_system x'));
  sd_root : active_root (x_kernel x') q ∧ cr3_page (x_kernel x') = q;
  sd_kept v pe : in_region D v → mapping (k_mem (x_kernel x)) r v = Some pe →
    mapping (k_mem (x_kernel x')) q v = Some pe;
  sd_kernel n : 256 ≤ n < 512 → pe_is_present (k_mem (x_kernel x') q n) = true;
  sd_frames : alloc_inv (x_kernel x');
  sd_areas : vma_inv (x_kernel x');
  sd_used a : used_area (x_kernel x') a ↔ a = b;
  sd_heap : heap_bottom (x_heap x') = HEAP_START ∧ heap_top (x_heap x') = HEAP_END;
  sd_segments : segments_ok (g_table (y_gdt (x_system x')));
  sd_task : head (g_cpu (y_gdt (x_system x')) cpu) = Some (Ltr (8 * tss_slot 0));
  sd_gates : gates_complete address_of (y_idt (x_system x'));
  sd_array p : array_page mmap en p →
    frame_refs (x_kernel x') p ≤ 0 ∧ ∀ j, k_mem (x_kernel x') p j = k_mem (x_kernel x) p j;
  sd_early : k_early (x_kernel x') = true
}.

(** ** The memory manager *)

Lemma root_owned mmap en r x :
  handed_memory mmap en r x → 0 ≤ r < 2 ^ 44 ∧ boot_owned mmap en r.
Proof.
  intros H. exact (tables_live D _ _ _ (hm_tables _ _ _ _ H) [] r (good_nil D) eq_refl).
Qed.

(** The log is not part of what is handed over. *)
Lemma handed_memory_log mmap en r lg x x1 :
  handed_memory mmap en r x → x_kernel x1 = set_log lg (x_kernel x) →
  handed_memory mmap en r x1.
Proof. intros [M1 M2 M3 M4 M5 M6 M7] Hk. by split; rewrite ?Hk. Qed.

(** What [mm::setup] leaves, as [init_bsp] needs it. *)
Lemma memory_ready mmap en r i e x s' y :
  handed_memory mmap en r x →
  mm_set_up D mmap en r (heap_touched x) (mkMemory (x_kernel x) (x_heap x)) s' →
  y_kernel y = m_kernel s' → held e = [] → smp_info_ok i → segments_ok (g_table (y_gdt y)) →
  boot_frames x ≤ usable_frames mmap en →
  bsp_ready D e r i y.
Proof.
  intros Hm Hs Hy He Hi Hseg Hfr. destruct (root_owned mmap en r x Hm) as [Hr Hown].
  pose proof Hm as [_ _ [Hf1 Hf2] Hearly [Hcr Hpage] _ Himg].
  pose proof (ms_boot _ _ _ _ _ _ _ Hs) as (Hb1 & Hb2 & Hb3 & Hb4). cbn [m_kernel] in *.
  assert (∀ l, l ∉ held e) as Hl by (intros l; rewrite He; apply not_elem_of_nil).
  unfold boot_frames in Hfr. split; rewrite ?Hy; [|done| | | | |done|].
  - split; fold (y_kernel y); rewrite ?Hy; [apply Hs|apply Hs| |split; apply Hl|apply Hl|].
    + unfold cpu_ready, current_root, cr3_page in *. rewrite Hb3, Hb4, Hearly.
      split_and!; [apply Hcr|apply Hcr|done|done|split; apply Hl].
    + intros a Ha. destruct (Himg a Ha) as [HD Hu]. split; [done|]. unfold unmapped in *.
      destruct (mapping (k_mem (x_kernel x)) r (virt_of a)) as [pe|] eqn:E; [|done].
      by rewrite (ms_mapped _ _ _ _ _ _ _ Hs _ pe).
  - destruct (ms_room _ _ _ _ _ _ _ Hs) as (b & Hb & Hs1 & He1). exists b. split; [done|].
    rewrite va_size_spec, Hs1, He1. pose proof per_cpu_bounds. unfold block_pages.
    unfold VMALLOC_START, VMALLOC_END. dlia.
  - pose proof (ms_free _ _ _ _ _ _ _ Hs). lia.
  - unfold boot_root. rewrite Hb1, Hb4, (ms_owned _ _ _ _ _ _ _ Hs r Hown).
    unfold cr3_page in Hpage. split; [done|]. split; [rewrite <- Hpage; dlia|].
    split; [done|]. split; [done|]. split; [done|lia].
  - congruence.
  - by rewrite !Forall_cons; split_and!.
Qed.

(** No frame of the array was handed out, from the set-up of the frames to [init_bsp]. *)
Lemma array_left_alone mmap en r b x s y1 y2 p :
  handed_memory mmap en r x →
  mm_set_up D mmap en r (heap_touched x) (mkMemory (x_kernel x) (x_heap x)) s →
  y_kernel y1 = m_kernel s → bsp_memory b y1 y2 → boot_frames x ≤ spare_frames mmap en →
  array_page mmap en p →
  frame_refs (y_kernel y2) p ≤ 0 ∧ ∀ j, k_mem (y_kernel y2) p j = k_mem (x_kernel x) p j.
Proof.
  intros Hm Hs Hy Hb Hsp Hp. destruct (hm_map _ _ _ _ Hm) as (Hok & Hen & Hl).
  destruct (ms_frames _ _ _ _ _ _ _ Hs) as (k & Hk & Hmem & Hu1). cbn [m_kernel] in Hmem.
  rewrite <- Hy in Hu1.
  destruct (unowned_compose k (y_kernel y1) (y_kernel y2) (bm_keeps _ _ _ Hb) Hu1
    (bm_unowned _ _ _ Hb)) as [Hff Hkept].
  pose proof (ms_free _ _ _ _ _ _ _ Hs) as Hf1. rewrite <- Hy in Hf1.
  pose proof (bm_free _ _ _ Hb) as Hf2.
  assert (¬ fa_live (y_kernel y2) p) as Hd.
  { apply (array_spared mmap en (boot_frames x) k); try done.
    change (fa_free k) with (free_frames k). rewrite (frames_set_up_free mmap en k Hk).
    unfold boot_frames. lia. }
  split; [|intros j; by rewrite Hkept, Hmem].
  unfold fa_live in Hd. change (¬ 0 < frame_refs (y_kernel y2) p) in Hd. lia.
Qed.

(** ** The boot *)

(** The descriptor tables, before the rest [m] of the boot. *)
Lemma descriptors_stage cpu e x (m : M Machine unit) Q :
  gdt_capacity (g_table (y_gdt (x_system x))) = GDT_SIZE → held e = [] →
  (∀ x', y_smp (x_system x') = y_smp (x_system x) → x_heap x' = x_heap x →
     segments_ok (g_table (y_gdt (x_system x'))) →
     gates_complete address_of (y_idt (x_system x')) → wp e m Q x') →
  wp e (on_system (on_gdt (gdt_setup cpu));; on_system (on_idt (idt_setup address_of));;
        on_system (on_idt (irq_setup address_of));;
        on_system (on_idt (exception_setup address_of));; m) Q x.
Proof.
  intros Hg He Hm. assert (∀ l, l ∉ held e) as Hl by (intros l; rewrite He; apply not_elem_of_nil).
  apply wp_bind. do 2 apply wp_zoom. eapply wp_mono; [by apply gdt_setup_spec|]. intros [] g1 Hseg.
  apply wp_bind. do 2 apply wp_zoom. eapply wp_mono; [by apply idt_setup_spec|]. intros [] t1 G1.
  apply wp_bind. do 2 apply wp_zoom. eapply wp_mono; [by apply irq_setup_spec|]. intros [] t2 G2.
  apply wp_bind. do 2 apply wp_zoom. eapply wp_mono; [by apply exception_setup_spec|].
  intros [] t3 G3. apply Hm; try done. by apply (gates_composed address_of t1 t2 t3).
Qed.

(** From [mm::setup] on. *)
Lemma machine_stage cpu mmap en r cpus i e x :
  handed_memory mmap en r x → find (λ c, processor_id c =? 0) cpus = Some i → smp_info_ok i →
  held e = [] → segments_ok (g_table (y_gdt (x_system x))) →
  gates_complete address_of (y_idt (x_system x)) →
  boot_frames x ≤ spare_frames mmap en →
  wp e (on_memory (mm_setup (Some mmap));; on_system (init_bsp cpu (Some cpus)))
    (λ _ x', ∃ b q, started mmap en e r cpu i b q x x') x.
Proof.
  intros Hm Hfind Hi He Hseg Hgates Hsp.
  assert (∀ l, l ∉ held e) as Hl by (intros l; rewrite He; apply not_elem_of_nil).
  pose proof Hm as [(Hok & Hen & Hlast) (Hk1 & Hk2 & Hk3) _ Hearly [Hcr Hpage] Htab _].
  assert (0 ≤ block_pages) by (pose proof per_cpu_bounds; unfold block_pages; dlia).
  pose proof (spare_usable mmap en Hok Hen Hlast).
  assert (5 * Z.of_nat (length (heap_touched x)) ≤ usable_frames mmap en)
    by (unfold boot_frames in Hsp; lia).
  apply wp_bind, wp_zoom. eapply wp_mono.
  { by apply (mm_setup_spec D Hheap mmap en r e (mkMemory (x_kernel x) (x_heap x))). }
  intros [] s1 Hs. cbn [m_heap] in Hs. fold (heap_touched x) in Hs.
  set (y1 := set_kernel_of (m_kernel s1) (x_system x)).
  assert (y_kernel y1 = m_kernel s1) as Hy1 by done.
  apply wp_zoom. cbn [x_system]. eapply wp_mono.
  { apply (init_bsp_spec D Hvm cpu cpus i e r y1 Hfind).
    apply (memory_ready mmap en r i e x s1 y1 Hm Hs); try done. lia. }
  intros [] y2 (b & q & Hup & Hmem). exists b, q.
  split; unfold x_kernel; cbn [x_system x_heap]; try apply Hup; try apply Hmem.
  - rewrite (bu_id _ _ _ _ _ _ _ _ _ Hup).
    by apply find_some in Hfind as [_ ->%Z.eqb_eq].
  - intros v pe Hv Hpe. apply (bu_kept _ _ _ _ _ _ _ _ _ Hup); [done|]. rewrite Hy1.
    by apply (ms_mapped _ _ _ _ _ _ _ Hs).
  - intros a. rewrite (bm_used _ _ _ Hmem), Hy1. unfold used_area.
    rewrite (ms_used _ _ _ _ _ _ _ Hs). split; [|by left].
    intros [?|[j Hj]]; [done|by apply not_elem_of_nil in Hj].
  - apply (ms_heap _ _ _ _ _ _ _ Hs).
  - by rewrite (bm_idt _ _ _ Hmem).
  - intros p Hp. by apply (array_left_alone mmap en r b x s1 y1).
  - rewrite (bm_early _ _ _ Hmem), Hy1.
    destruct (ms_boot _ _ _ _ _ _ _ Hs) as (_ & _ & -> & _). exact Hearly.
Qed.

(** C1: The boot brings up the first processor.  Assume that the bootloader answers every
    request and describes a processor 0, that the memory map is well formed, that the
    bootloader's tables lie in memory the map gives to the kernel or the bootloader and map
    the per-CPU section, that no logger is set, and that the frames the boot takes at most
    can be handed out before any in which the frame array lies (below the array, unless
    [setup] reserved it as a whole).  Then [_start] runs through [init_bsp] without a panic
    or a deadlock, whatever page faults and log records occur on the way.  Afterwards the
    BSP runs on its own table, which maps what the bootloader's did, and reads its id from
    its block; the heap and the invariants of the frame allocator and of the vmalloc areas
    are established, the segment and interrupt tables are complete, and no page of the frame
    array was given away or written to. *)
Theorem start_brings_up_bsp cpu l mmap en r cpus i lg e x :
  limine_response l mmap cpus i → handed_memory mmap en r x →
  gdt_capacity (g_table (y_gdt (x_system x))) = GDT_SIZE → held e = [] →
  set_logger (lg_facade (k_log (x_kernel x))) = Some lg →
  boot_frames x ≤ spare_frames mmap en →
  wp e (on_log log_init;; start_init address_of cpu l)
    (λ _ x', ∃ b q, started mmap en e r cpu i b q x x') x.
Proof.
  intros [Hl1 Hl2 Hl3 Hl4 Hl5 Hfind Hi] Hm Hg He Hlg Hsp.
  assert (∀ l, l ∉ held e) as Hl by (intros ?; rewrite He; apply not_elem_of_nil).
  unfold start_init. rewrite Hl2, Hl5.
  apply wp_bind. do 4 apply wp_zoom. eapply wp_of_run; [by apply log_init_run|].
  apply wp_bind. do 4 apply wp_zoom. eapply wp_of_run; [by apply log_record_logged|].
  set (lg2 := logged _ _ _). set (x1 := mkMachine _ _).
  assert (x_kernel x1 = set_log lg2 (x_kernel x)) as Hk1 by done.
  pose proof (handed_memory_log mmap en r lg2 x x1 Hm Hk1) as Hm1.
  apply wp_bind. destruct (check_around_spec l e x1) as [[_ Hrun]|[Hno _]]; cycle 1.
  { destruct Hno. unfold limine_complete. split_and!; try done; [by eexists| |by eexists].
    destruct (l_rsdp l); [by eexists|done]. }
  eapply wp_of_run; [exact Hrun|]. apply descriptors_stage; [done|done|].
  intros x2 Hx2 Hh2 Hseg Hgates.
  assert (x_kernel x2 = x_kernel x1) as Hk2 by (unfold x_kernel, y_kernel; by rewrite Hx2).
  eapply wp_mono; [apply (machine_stage cpu mmap en r cpus i); try done|].
  - eapply (handed_memory_log mmap en r lg2 x x2); [done|by rewrite Hk2].
  - unfold boot_frames, heap_touched in *. by rewrite Hh2.
  - intros [] x' (b & q & [S1 S2 S3 S4 S5 S6 S7 S8 S9 S10 S11 S12 S13 S14]). exists b, q.
    rewrite Hk2, Hk1 in S4, S13. by split.
Qed.

(** The end of [start], once the other processors are up: the processor serves
    interrupts.  A page fault used the table in CR3 before and uses the active one now:
    they are the same. *)
Lemma start_finish_spec mmap en r cpu i b q e x0 x :
  started mmap en e r cpu i b q x0 x → held e = [] →
  halts e start_finish
    (λ x', k_early (x_kernel x') = false ∧ current_root e (x_kernel x) q
       ∧ current_root e (x_kernel x') q ∧ alloc_inv (x_kernel x') ∧ vma_inv (x_kernel x')
       ∧ k_log (x_kernel x')
         = logged LInfo "Silicium booted successfully!" (k_log (x_kernel x))) x.
Proof.
  intros Hs He. assert (∀ l, l ∉ held e) as Hl by (intros ?; rewrite He; apply not_elem_of_nil).
  pose proof Hs as [_ _ [Hroot Hpage] _ _ Hf Hv _ _ _ _ _ _ Hearly].
  unfold start_finish. apply halts_bind. do 3 apply wp_zoom. apply wp_modify.
  apply halts_bind. do 4 apply wp_zoom. eapply wp_of_run; [by apply log_record_logged|].
  unfold halts, halt. split_and!.
  - done.
  - unfold current_root. rewrite Hearly. destruct Hroot as [Hb _].
    unfold cr3_page in Hpage. split; [dlia|done].
  - split; [exact Hroot|]. split; apply Hl.
  - by eapply alloc_inv_local; [..|exact Hf].
  - by eapply vma_inv_local; [..|exact Hv].
  - done.
Qed.
End Startup.

(** ** Witnesses *)

(** The bootloader's tables: the root in frame 1 and three tables in frames 2 to 4, which
    map the page of the per-CPU section. *)
Definition ref_image_page : Virtual := virt_of 0xFFFFFFFF80004000.

Definition ref_tables : Kernel :=
  ret_state (map (hhdm 4096) ref_image_page (frame_at 0xB8000) ref_rw ref_env (ref_space 3))
    (ref_space 3).

Lemma ref_space3_inv : pt_inv everywhere (ref_space 3) 4096.
Proof.
  split.
  - apply alloc_invb_sound. vm_compute. reflexivity.
  - apply tables_empty; [|done|exact (ref_space_live 3)]. intros i. apply pe_zero_absent.
Qed.

Lemma ref_tables_spec :
  ∃ res, map_post everywhere 4096 ref_image_page (frame_at 0xB8000) ref_rw (ref_space 3) res
           ref_tables.
Proof.
  destruct (wp_ret_state _ _ _ _ (map_spec everywhere 4096 ref_image_page (frame_at 0xB8000)
    ref_rw ref_env _ ref_space3_inv I eq_refl ref_unlocked)) as [res H].
  exists res. exact H.
Qed.

(** Those frames are the bootloader's; 400 usable frames follow, and 70000 frames behind
    them, in which the frame array is placed: it is too large for the first 400. *)
Definition ref_array_entry : LimineMemmapEntry := mkEntry (1024 * 4096) (70000 * 4096) Usable.

Definition ref_map : list LimineMemmapEntry :=
  [mkEntry 4096 (4 * 4096) BootloaderReclaimable; mkEntry (5 * 4096) (400 * 4096) Usable;
   ref_array_entry].

Definition ref_off : Machine :=
  mkMachine
    (mkSystem
      (mkSmp (mkKernel [] Stats_new (k_mem ref_tables) [] [] None None true [Cr3Write 4096]
                (mkLogger [] (false, 0)))
        (λ x, x mod 256) (λ _, 0) (λ _, 0))
      Gdt_new (mkIdt ref_empty_table false) 1)
    (mkBump 0 0 0).

Lemma counts_positive (fs : list FrameInfo) n :
  fi_count <$> fs = [0; 1; 1; 1; 1] →
  0 < match fs !! n with Some fi => fi_count fi | None => 0 end → (1 ≤ n < 5)%nat.
Proof.
  intros Hl Hc. pose proof (list_lookup_fmap fi_count fs n) as Hk. rewrite Hl in Hk.
  destruct (fs !! n) as [fi|]; [|lia].
  destruct n as [|[|[|[|[|n]]]]]; simplify_eq/=; lia.
Qed.

Lemma ref_owned p : fa_live ref_tables p → boot_owned ref_map ref_array_entry p.
Proof.
  change (0 < frame_refs ref_tables p → boot_owned ref_map ref_array_entry p).
  unfold frame_refs. destruct ((p mod 4096 =? 0) && (0 <=? p)) eqn:E; [|lia].
  intros Hc. bool_to_prop.
  assert (1 ≤ p / 4096 < 5) as Hp.
  { assert ((fi_count <$> k_frames ref_tables) = [0; 1; 1; 1; 1]) as Hl by (vm_compute; reflexivity).
    pose proof (counts_positive (k_frames ref_tables) (Z.to_nat (p / 4096)) Hl Hc). lia. }
  split_and!; [done|done| |].
  - assert (last_frame ref_map = 71024) as -> by (vm_compute; reflexivity). lia.
  - assert (p / 4096 = 1 ∨ p / 4096 = 2 ∨ p / 4096 = 3 ∨ p / 4096 = 4) as Hq by lia.
    destruct Hq as [->|[->|[->| ->]]]; vm_compute; reflexivity.
Qed.

Lemma ref_image_mapped a :
  0xFFFFFFFF80004000 ≤ a < 0xFFFFFFFF80004010 → unmapped ref_tables 4096 a = false.
Proof.
  intros Ha.
  assert (forallb (λ a, negb (unmapped ref_tables 4096 a)) (seqZ 0xFFFFFFFF80004000 16) = true)
    as H by (vm_compute; reflexivity).
  rewrite forallb_forall in H. apply (proj1 (negb_true_iff (unmapped ref_tables 4096 a))).
  refine (H a _). apply list_elem_of_In, elem_of_seqZ. lia.
Qed.

(** A machine with those tables in its memory. *)
Lemma handed_tables kt res x :
  map_post everywhere 4096 ref_image_page (frame_at 0xB8000) ref_rw (ref_space 3) res kt →
  (∀ p, fa_live kt p → boot_owned ref_map ref_array_entry p) →
  (∀ a, 0xFFFFFFFF80004000 ≤ a < 0xFFFFFFFF80004010 → unmapped kt 4096 a = false) →
  x_kernel x = mkKernel [] Stats_new (k_mem kt) [] [] None None true [Cr3Write 4096]
                 (mkLogger [] (false, 0)) →
  handed_memory everywhere ref_map ref_array_entry 4096 x.
Proof.
  intros Hmap Hown Himg Hx. pose proof (proj1 Hmap) as Hfr. split; rewrite ?Hx; cbn [k_mem].
  - split_and!; [by apply mmap_okb_sound|reflexivity|reflexivity].
  - split_and!; reflexivity.
  - split; reflexivity.
  - reflexivity.
  - split; [vm_compute; split; [discriminate|reflexivity]|vm_compute; reflexivity].
  - destruct (pt_tables _ _ _ (map_inv _ _ _ _ Hfr)) as [Hl Hi]. split; [|exact Hi].
    intros l p Hg Hp. destruct (Hl l p Hg Hp) as [Hb Hlv]. split; [exact Hb|by apply Hown].
  - intros a Ha. split; [exact I|]. by apply Himg.
Qed.

Lemma ref_handed : handed_memory everywhere ref_map ref_array_entry 4096 ref_off.
Proof.
  destruct ref_tables_spec as [res Hmap].
  apply (handed_tables ref_tables res ref_off Hmap ref_owned ref_image_mapped).
  unfold x_kernel, y_kernel, ref_off. cbn [x_system y_smp p_kernel]. reflexivity.
Qed.

Definition ref_limine : Limine :=
  mkLimine (Some tt) (Some ref_map) (Some HHDM_START) (Some (Some 0xFFFF8000000E0000))
    (Some [mkSmpInfo 0 0 None; mkSmpInfo 1 1 None]).

Lemma start_brings_up_bsp_witness :
  wp ref_env (on_log log_init;; start_init ref_addresses 0 ref_limine)
    (λ _ x', ∃ b q, started everywhere ref_addresses ref_map ref_array_entry ref_env 4096 0
                      (mkSmpInfo 0 0 None) b q ref_off x') ref_off.
Proof.
  apply (start_brings_up_bsp everywhere ltac:(done) ltac:(done) ref_addresses 0 ref_limine
    ref_map ref_array_entry 4096 [mkSmpInfo 0 0 None; mkSmpInfo 1 1 None]
    (mkSmpInfo 0 0 None) (true, 0) ref_env ref_off).
  - split; try reflexivity. split; simpl; lia.
  - exact ref_handed.
  - apply gdt_new_capacity.
  - reflexivity.
  - reflexivity.
  - vm_compute. discriminate.
Defined.
